(** * Execution-log aggregator of the NeuroGames project

    A shallow embedding of [src/logger.py] (the logging module that
    [main.py] and [pdf_generator.py] import) and a verification of the
    properties its specification states about it. The older [log.py] is
    modelled beside it, and so are the programs that call the two:
    [src/pdf_generator.py], [main.py] and the older [pdf.py].

    Layout: Part I holds the definitions (a model of the Python
    primitives the modules call, a model of the file system, then the
    modules' functions one by one); Part II holds the lemmas and theorems
    on the properties the specification states; Part III holds further
    properties of the code.

    Modelling conventions.
    - A Python [str] is a list of characters; a character is its code
      point, restricted to the range below 256.
    - Python [int] is [Z].
    - A raised exception is a value of [result]; [M] is the monad of
      computations that read and write the file system and may raise.
    - Functions that only print ([read_log], [get_log_stats],
      [log_execution]) return, in the model, the data they print.
    - Rewriting a file has three outcomes: the file cannot be opened and
      stays as it was; it is opened, which empties it, and receives its
      text; or it is opened and the write fails on the way, which leaves
      it with the characters that had reached it. *)

From Stdlib Require Import List ZArith NArith Ascii String Bool Lia.
From Stdlib Require Import Permutation.
Import ListNotations.

Local Open Scope Z_scope.

(* ================================================================== *)
(** * Part I. Definitions                                               *)
(* ================================================================== *)

(** ** Python primitives *)

Module Py.

Definition str := list ascii.

(** Literals: [lit "abc"] is the Python string ['abc']. *)
Definition lit (s : string) : str := list_ascii_of_string s.

Definition TAB : ascii := "009"%char.
Definition LF : ascii := "010"%char.
Definition CR : ascii := "013"%char.

Definition ord (c : ascii) : N := N_of_ascii c.

Definition char_eqb (a b : ascii) : bool := (ord a =? ord b)%N.

Fixpoint str_eqb (a b : str) : bool :=
  match a, b with
  | [], [] => true
  | x :: a', y :: b' => char_eqb x y && str_eqb a' b'
  | _, _ => false
  end.

(** Exceptions the module can meet, and the outcome of an evaluation. *)
Inductive exn := ValueError | AttributeError | OSError.

Inductive result (A : Type) : Type :=
| Ok (a : A)
| Raise (e : exn).
Arguments Ok {A} a.
Arguments Raise {A} e.

(** [c.isspace()]: the characters [str.strip()] removes. *)
Definition isspace (c : ascii) : bool :=
  let n := ord c in
  ((9 <=? n) && (n <=? 13) || (28 <=? n) && (n <=? 32)
   || (n =? 133) || (n =? 160))%N.

Fixpoint lstrip_by (p : ascii -> bool) (s : str) : str :=
  match s with
  | [] => []
  | c :: r => if p c then lstrip_by p r else s
  end.

Definition rstrip_by (p : ascii -> bool) (s : str) : str :=
  rev (lstrip_by p (rev s)).

(** [s.strip()] *)
Definition strip (s : str) : str := rstrip_by isspace (lstrip_by isspace s).

(** [s.startswith(prefix)] *)
Fixpoint startswith (prefix s : str) : bool :=
  match prefix, s with
  | [], _ => true
  | p :: prefix', c :: s' => char_eqb p c && startswith prefix' s'
  | _ :: _, [] => false
  end.

(** [s.split(sep)] for a one-character separator: never an empty list. *)
Fixpoint split (sep : ascii) (s : str) : list str :=
  match s with
  | [] => [[]]
  | c :: r =>
      if char_eqb c sep then [] :: split sep r
      else match split sep r with
           | f :: fs => (c :: f) :: fs
           | [] => [[c]]
           end
  end.

(** [parts[i]] on a list of strings, used only where the index is in
    range; the default is never observed by the module. *)
Definition item (parts : list str) (i : nat) : str := nth i parts [].

(** *** [int(s)] on a string, base 10

    CPython skips leading and trailing white space (the C [isspace]
    set, plus the non-ASCII Unicode spaces, which it first turns into
    blanks), reads one optional sign, then decimal digits in which single
    underscores may separate digits; anything else raises [ValueError].
    The interpreter's configurable limit on the number of digits is not
    modelled. *)
Definition int_space (c : ascii) : bool :=
  let n := ord c in
  ((9 <=? n) && (n <=? 13) || (n =? 32) || (n =? 133) || (n =? 160))%N.

Definition isdigit (c : ascii) : bool :=
  let n := ord c in ((48 <=? n) && (n <=? 57))%N.

Definition digit_value (c : ascii) : Z := Z.of_N (ord c) - 48.

Fixpoint int_digits (acc : Z) (s : str) : option Z :=
  match s with
  | [] => Some acc
  | c :: r =>
      if isdigit c then int_digits (10 * acc + digit_value c) r
      else if char_eqb c "_"%char then
        match r with
        | d :: _ => if isdigit d then int_digits acc r else None
        | [] => None
        end
      else None
  end.

Definition int_magnitude (s : str) : option Z :=
  match s with
  | c :: _ => if isdigit c then int_digits 0 s else None
  | [] => None
  end.

Definition int (s : str) : result Z :=
  let body := rstrip_by int_space (lstrip_by int_space s) in
  let '(negative, digits) :=
    match body with
    | c :: r =>
        if char_eqb c "+"%char then (false, r)
        else if char_eqb c "-"%char then (true, r)
        else (false, body)
    | [] => (false, [])
    end in
  match int_magnitude digits with
  | Some v => Ok (if negative then - v else v)
  | None => Raise ValueError
  end.

(** *** [str(n)] on an integer *)
Definition digit_char (d : Z) : ascii := ascii_of_N (Z.to_N (48 + d)).

Fixpoint digits_fuel (fuel : nat) (n : Z) (acc : str) : str :=
  match fuel with
  | O => acc
  | S f =>
      let acc' := digit_char (n mod 10) :: acc in
      if n <? 10 then acc' else digits_fuel f (n / 10) acc'
  end.

(** Decimal digits of a natural number [0 <= n]. *)
Definition decimal (n : Z) : str :=
  digits_fuel (S (Z.to_nat (Z.log2 n))) n [].

Definition str_of_int (n : Z) : str :=
  if n <? 0 then "-"%char :: decimal (- n) else decimal n.

(** [f"{n:0{width}d}"] for [0 <= n]: zero padding on the left. *)
Definition zero_pad (width : nat) (n : Z) : str :=
  let d := decimal n in
  repeat "0"%char (width - List.length d) ++ d.

(** *** [sorted(xs, key=key, reverse=True)] and [xs.sort(...)]

    Python's sort is stable, also with [reverse=True]: elements with equal
    keys keep their original order. Insertion from the right places an
    element before every later element whose key is not larger. *)
Section Sorting.
Context {A : Type} (key : A -> Z).

Fixpoint insert_desc (x : A) (l : list A) : list A :=
  match l with
  | [] => [x]
  | y :: r => if key y <=? key x then x :: l else y :: insert_desc x r
  end.

Fixpoint sorted_reverse (l : list A) : list A :=
  match l with
  | [] => []
  | x :: r => insert_desc x (sorted_reverse r)
  end.

(** Descending order of the keys. *)
Fixpoint descending (l : list A) : Prop :=
  match l with
  | [] => True
  | x :: r => (forall y, In y r -> key y <= key x) /\ descending r
  end.
End Sorting.

(** *** [dict] with [str] keys: insertion-ordered, as Python's is *)
Section Dict.
Context {V : Type}.

Fixpoint dict_get (d : list (str * V)) (k : str) (default : V) : V :=
  match d with
  | [] => default
  | (k', v) :: r => if str_eqb k' k then v else dict_get r k default
  end.

Fixpoint dict_set (d : list (str * V)) (k : str) (v : V) : list (str * V) :=
  match d with
  | [] => [(k, v)]
  | (k', v') :: r =>
      if str_eqb k' k then (k', v) :: r else (k', v') :: dict_set r k v
  end.
End Dict.

(** *** [datetime.datetime.now()] and [strftime] *)
Record datetime := mkDatetime {
  year : nat; month : nat; day : nat;
  hour : nat; minute : nat; second : nat
}.

(** [t.strftime("%Y-%m-%d")] *)
Definition strftime_date (t : datetime) : str :=
  zero_pad 4 (Z.of_nat (year t)) ++ "-"%char ::
  zero_pad 2 (Z.of_nat (month t)) ++ "-"%char ::
  zero_pad 2 (Z.of_nat (day t)).

(** [t.strftime("%H:%M:%S")] *)
Definition strftime_time (t : datetime) : str :=
  zero_pad 2 (Z.of_nat (hour t)) ++ ":"%char ::
  zero_pad 2 (Z.of_nat (minute t)) ++ ":"%char ::
  zero_pad 2 (Z.of_nat (second t)).

(** *** Stack frames ([inspect.currentframe()], [f_back], [f_code.co_filename]) *)
Inductive frame :=
| Outermost (filename : str)
| Called (filename : str) (back : frame).

Definition co_filename (f : frame) : str :=
  match f with Outermost name | Called name _ => name end.

Definition f_back (f : frame) : option frame :=
  match f with Outermost _ => None | Called _ back => Some back end.

End Py.

(** ** The file system and the monad of effects *)

Module OS.
Import Py.

(** A path names nothing, a directory, or a regular file with its text. *)
Inductive node :=
| Dir
| File (text : str).

(** The state the module acts on. [may_read p] and [may_write p] say
    whether the system lets the process open [p] for reading (and decode
    it as UTF-8), respectively create or rewrite [p]. [cuts] says how the
    writes to come will end once their file has been opened, one element
    for each file opened for writing, in order: [None] when the text
    reaches the file in full, [Some (k, e)] when the write, the flush or
    the close raises [e] after [k] characters have reached the file.
    Writes beyond the end of the list go through. *)
Record world := mkWorld {
  nodes : str -> option node;
  may_read : str -> bool;
  may_write : str -> bool;
  cuts : list (option (nat * exn))
}.

Definition put_node (w : world) (p : str) (n : node) : world :=
  mkWorld (fun q => if str_eqb q p then Some n else nodes w q)
          (may_read w) (may_write w) (cuts w).

(** Computations: they take the world, may change it, and return a value
    or raise. *)
Definition M (A : Type) : Type := world -> result A * world.

Definition ret {A} (a : A) : M A := fun w => (Ok a, w).

Definition bind {A B} (c : M A) (k : A -> M B) : M B :=
  fun w =>
    match c w with
    | (Ok a, w') => k a w'
    | (Raise e, w') => (Raise e, w')
    end.

Definition raise {A} (e : exn) : M A := fun w => (Raise e, w).

(** [try: body except Exception as e: handler(e)] *)
Definition try_except {A} (body : M A) (handler : exn -> M A) : M A :=
  fun w =>
    match body w with
    | (Ok a, w') => (Ok a, w')
    | (Raise e, w') => handler e w'
    end.

(** A [for] loop that threads the loop's local variables [acc]. *)
Fixpoint for_each {A X} (xs : list X) (acc : A) (body : A -> X -> M A) : M A :=
  match xs with
  | [] => ret acc
  | x :: r => bind (body acc x) (fun acc' => for_each r acc' body)
  end.

Declare Scope monad_scope.
Delimit Scope monad_scope with monad.
Notation "x <- c ;; k" := (bind c (fun x => k))
  (at level 61, c at next level, right associativity) : monad_scope.
Notation "c ;; k" := (bind c (fun _ => k))
  (at level 61, right associativity) : monad_scope.

(** *** [os.path] (POSIX flavour) *)

(** [(p[:i], p[i:])] with [i = p.rfind('/') + 1]. *)
Fixpoint split_at_last_slash (p : str) : str * str :=
  match p with
  | [] => ([], [])
  | c :: r =>
      let '(head, tail) := split_at_last_slash r in
      if char_eqb c "/"%char then (c :: head, tail)
      else match head with
           | [] => ([], c :: tail)
           | _ :: _ => (c :: head, tail)
           end
  end.

Definition basename (p : str) : str := snd (split_at_last_slash p).

Definition dirname (p : str) : str :=
  let head := fst (split_at_last_slash p) in
  match rstrip_by (fun c => char_eqb c "/"%char) head with
  | [] => head
  | stripped => stripped
  end.

(** [os.path.join(a, b)] *)
Definition join (a b : str) : str :=
  if startswith (lit "/") b then b
  else match rev a with
       | [] => b
       | c :: _ => if char_eqb c "/"%char then a ++ b else a ++ "/"%char :: b
       end.

(** [os.path.exists(p)] *)
Definition exists_ (p : str) : M bool :=
  fun w => (Ok (match nodes w p with Some _ => true | None => false end), w).

(** *** Text files *)

(** Universal newlines, as [open(..., 'r')] applies them on reading:
    ["\r\n"] and a lone ["\r"] both become ["\n"]. *)
Fixpoint universal_newlines (after_cr : bool) (s : str) : str :=
  match s with
  | [] => []
  | c :: r =>
      if char_eqb c CR then LF :: universal_newlines true r
      else if char_eqb c LF && after_cr then universal_newlines false r
      else c :: universal_newlines false r
  end.

(** The lines of a text, each with its terminating newline (the last one
    may lack it). *)
Fixpoint lines_of (s : str) : list str :=
  match s with
  | [] => []
  | c :: r =>
      if char_eqb c LF then [LF] :: lines_of r
      else match lines_of r with
           | [] => [[c]]
           | l :: ls => (c :: l) :: ls
           end
  end.

Definition text_lines (text : str) : list str :=
  lines_of (universal_newlines false text).

(** [with open(p, 'r', encoding='utf-8') as f: lines = f.readlines()] *)
Definition readlines (p : str) : M (list str) :=
  fun w =>
    match nodes w p with
    | Some (File text) =>
        if may_read w p then (Ok (text_lines text), w) else (Raise OSError, w)
    | Some Dir | None => (Raise OSError, w)
    end.

(** The directory that has to exist for [p] to be created: the current
    directory (always there) when [p] has no directory part. *)
Definition parent_exists (w : world) (p : str) : bool :=
  match dirname p with
  | [] => true
  | d => match nodes w d with Some Dir => true | _ => false end
  end.

(** The world once one more file has been opened for writing. *)
Definition opened (w : world) : world :=
  mkWorld (nodes w) (may_read w) (may_write w) (tl (cuts w)).

(** The writes that follow a successful [open(p, 'w')]. Opening has
    emptied the file. Either [text] reaches it in full, or a write, the
    flush or the close raises on the way: the file then holds the first
    [k] characters of [text] and nothing of what it held before. The
    exception is [OSError] for a full disk or an I/O error, and
    [ValueError] for the [UnicodeEncodeError] of a character that cannot
    be encoded as UTF-8 (the characters of this model can all be encoded;
    the cut stands for a text that holds one that cannot). On a POSIX
    system the text is stored as written. *)
Definition written (w : world) (p : str) (text : str) : result unit * world :=
  match hd None (cuts w) with
  | None => (Ok tt, put_node (opened w) p (File text))
  | Some (k, e) => (Raise e, put_node (opened w) p (File (firstn k text)))
  end.

(** [with open(p, 'w', encoding='utf-8') as f:] followed by the writes of
    [chunks] in order. The open is refused, and nothing changes, when [p]
    is a directory, when its directory is missing or when the system does
    not let [p] be written. *)
Definition write_file (p : str) (chunks : list str) : M unit :=
  fun w =>
    match nodes w p with
    | Some Dir => (Raise OSError, w)
    | _ =>
        if parent_exists w p && may_write w p
        then written w p (List.concat chunks)
        else (Raise OSError, w)
    end.

(** A file saved by a library whose code is not part of the repository
    ([FPDF.output]), taken as one step: the file is there with its
    content, or the call raises and nothing has changed. *)
Definition save_file (p : str) (content : str) : M unit :=
  fun w =>
    match nodes w p with
    | Some Dir => (Raise OSError, w)
    | _ =>
        if parent_exists w p && may_write w p
        then (Ok tt, put_node w p (File content))
        else (Raise OSError, w)
    end.

(** [os.makedirs(d, exist_ok=True)] for a one-level directory. *)
Definition makedirs (d : str) : M unit :=
  fun w =>
    match nodes w d with
    | Some Dir => (Ok tt, w)
    | Some (File _) => (Raise OSError, w)
    | None =>
        if parent_exists w d && may_write w d
        then (Ok tt, put_node w d Dir)
        else (Raise OSError, w)
    end.

End OS.

(** ** The module [logger.py] *)

Module Logger.
Import Py OS.
Local Open Scope monad_scope.

(** *** Configuration constants *)

Definition LOG_FILE : str := lit "logs/program_log.txt".

Definition LEGACY_LOG_FILES : list str :=
  [ lit "program_log.txt";
    lit "sub/program_log.txt";
    join (lit "logs") (lit "program_log.txt") ].

(** *** Helpers shared by the loops *)

(** An evaluation without effects, inside [M]. *)
Definition lift {A} (r : result A) : M A := fun w => (r, w).

(** [except kind as e: handler]: other exceptions pass through. *)
Definition try_except_only {A} (kind : exn) (body : M A) (handler : M A) : M A :=
  try_except body
    (fun e => match e, kind with
              | ValueError, ValueError | AttributeError, AttributeError
              | OSError, OSError => handler
              | _, _ => raise e
              end).

(** [for line in lines: body], threading the variables the body assigns.
    If the body raises, the loop stops; the assignments made so far stay
    (Python does not roll local variables back) and the exception is
    reported next to them. *)
Fixpoint for_lines {A} (lines : list str) (acc : A)
    (body : A -> str -> result A) : A * option exn :=
  match lines with
  | [] => (acc, None)
  | line :: rest =>
      match body acc line with
      | Ok acc' => for_lines rest acc' body
      | Raise e => (acc, Some e)
      end
  end.

(** [not line.strip() or line.startswith('#')] *)
Definition is_skipped (line : str) : bool :=
  match strip line with [] => true | _ :: _ => false end
  || startswith (lit "#") line.

(** *** [get_caller_info]

    [frame] is what [inspect.currentframe()] returns: the frame of
    [get_caller_info] itself, or [None] on an interpreter without stack
    frames. Reading [f_back] of [None] raises [AttributeError]. The
    [finally: del frame] clause only drops a local name. *)
Definition get_caller_info (frame : option frame) : result (str * str) :=
  match frame with
  | None => Raise AttributeError
  | Some fr =>
      match f_back fr with
      | None => Raise AttributeError
      | Some back =>
          match f_back back with
          | None => Ok (lit "Unknown", lit "Unknown")
          | Some caller_frame =>
              let file_path := co_filename caller_frame in
              let file_name := basename file_path in
              Ok (file_name, file_path)
          end
      end
  end.

(** *** [get_next_call_number] *)

(** Body of the loop over the lines of one file. *)
Definition number_line (max_number : Z) (line : str) : result Z :=
  if is_skipped line then Ok max_number
  else
    let parts := split TAB line in
    if (1 <=? List.length parts)%nat then
      match int (item parts 0) with
      | Ok number => Ok (Z.max max_number number)
      | Raise ValueError => Ok max_number
      | Raise e => Raise e
      end
    else Ok max_number.

(** Body of the loop over the files; [except Exception: continue] swallows
    whatever the [try] block raised. *)
Definition number_file (max_number : Z) (log_file : str) : M Z :=
  present <- exists_ log_file ;;
  if negb present then ret max_number
  else
    try_except
      (lines <- readlines log_file ;;
       ret (fst (for_lines lines max_number number_line)))
      (fun _ => ret max_number).

Definition get_next_call_number : M Z :=
  max_number <- for_each LEGACY_LOG_FILES 0 number_file ;;
  ret (max_number + 1).

(** *** [ensure_log_directory], [create_log_file_header] *)

(** The warning printed when the directory cannot be made is not kept. *)
Definition ensure_log_directory : M unit :=
  let log_dir := dirname LOG_FILE in
  present <- exists_ log_dir ;;
  if negb present then try_except_only OSError (makedirs log_dir) (ret tt)
  else ret tt.

Definition HEADER : list str :=
  [ lit "# NeuroGames Project - Program Execution Log" ++ [LF];
    lit "# CallNumber" ++ TAB :: lit "Date" ++ TAB :: lit "Time" ++ TAB ::
      lit "FileName" ++ TAB :: lit "FullPath" ++ [LF];
    lit "#" ++ repeat "="%char 80 ++ [LF] ].

Definition create_log_file_header : M unit :=
  ensure_log_directory ;;
  write_file LOG_FILE HEADER.

(** *** [insert_entry_at_top] *)

(** Body of the loop that classifies the existing lines. *)
Definition classify (acc : list str * list str) (line : str)
    : list str * list str :=
  let '(header_lines, data_lines) := acc in
  if startswith (lit "#") line then (header_lines ++ [line], data_lines)
  else (header_lines, data_lines ++ [line]).

Definition insert_entry_at_top (new_entry : str) : M unit :=
  present <- exists_ LOG_FILE ;;
  (if negb present then create_log_file_header else ret tt) ;;
  existing_lines <- readlines LOG_FILE ;;
  let '(header_lines, data_lines) :=
    fold_left classify existing_lines ([], []) in
  write_file LOG_FILE (header_lines ++ [new_entry] ++ data_lines).

(** *** [log_execution]

    [now] is the reading of the clock and [self] the frame of
    [log_execution] itself, whose [f_back] is the program that called it.
    The value returned is the message the function prints. *)
Inductive feedback :=
| Recorded (call_number : Z) (file_name : str)
| WriteError (e : exn).

Definition format_entry (call_number : Z) (date_str time_str file_name file_path : str) : str :=
  str_of_int call_number ++ TAB :: date_str ++ TAB :: time_str ++ TAB ::
  file_name ++ TAB :: file_path ++ [LF].

Definition log_execution (now : datetime) (self : frame) : M feedback :=
  call_number <- get_next_call_number ;;
  let date_str := strftime_date now in
  let time_str := strftime_time now in
  info <- lift (get_caller_info (Some (Called (co_filename self) self))) ;;
  let '(file_name, file_path) := info in
  let log_entry := format_entry call_number date_str time_str file_name file_path in
  try_except
    (insert_entry_at_top log_entry ;;
     ret (Recorded call_number file_name))
    (fun e => ret (WriteError e)).

(** *** [read_log] and [get_log_stats] *)

(** An entry dictionary; [get_log_stats] builds its dictionaries without
    the ['filepath'] key. *)
Record entry := mkEntry {
  number : Z;
  date : str;
  time : str;
  filename : str;
  filepath : option str
}.

Definition entry_key : Type := Z * str * str * str.

Definition key_eqb (a b : entry_key) : bool :=
  let '(n1, d1, t1, f1) := a in
  let '(n2, d2, t2, f2) := b in
  (n1 =? n2) && str_eqb d1 d2 && str_eqb t1 t2 && str_eqb f1 f2.

(** [entry_key in seen_entries]; the set is kept as the list of its
    members. *)
Definition key_in (k : entry_key) (seen_entries : list entry_key) : bool :=
  existsb (key_eqb k) seen_entries.

(** Body of the loop over the lines of one file, the same in [read_log]
    and in [get_log_stats] except that only the former stores the path
    ([keep_path]). *)
Definition merge_line (keep_path : bool)
    (st : list entry_key * list entry) (line : str)
    : result (list entry_key * list entry) :=
  let '(seen_entries, all_entries) := st in
  if is_skipped line then Ok st
  else
    let parts := split TAB (strip line) in
    if (4 <=? List.length parts)%nat then
      match int (item parts 0) with
      | Ok number =>
          let date := item parts 1 in
          let time := item parts 2 in
          let filename := item parts 3 in
          let filepath :=
            if keep_path
            then Some (if (4 <? List.length parts)%nat then item parts 4 else [])
            else None in
          let entry_key := (number, date, time, filename) in
          if key_in entry_key seen_entries then Ok st
          else Ok (entry_key :: seen_entries,
                   all_entries ++ [mkEntry number date time filename filepath])
      | Raise ValueError => Ok st
      | Raise e => Raise e
      end
    else Ok st.

Definition merge_file (keep_path : bool)
    (st : list entry_key * list entry) (log_file : str)
    : M (list entry_key * list entry) :=
  present <- exists_ log_file ;;
  if negb present then ret st
  else
    try_except
      (lines <- readlines log_file ;;
       ret (fst (for_lines lines st (merge_line keep_path))))
      (fun _ => ret st).

(** The scan of all locations; returns [all_entries], still unsorted. *)
Definition merge_files (keep_path : bool) : M (list entry) :=
  st <- for_each LEGACY_LOG_FILES ([], []) (merge_file keep_path) ;;
  ret (snd st).

(** [read_log]: the rows of the table it prints, in order; no row when it
    prints that there are no entries. *)
Definition read_log : M (list entry) :=
  all_entries <- merge_files true ;;
  match all_entries with
  | [] => ret []
  | _ :: _ => ret (sorted_reverse number all_entries)
  end.

(** [get_log_stats]: the figures it prints. *)
Inductive stats :=
| NoData
| Stats (total : nat) (most_recent oldest : str * str)
        (top_programs : list (str * Z)).

Definition count_program (program_counts : list (str * Z)) (e : entry)
    : list (str * Z) :=
  let program := filename e in
  dict_set program_counts program (dict_get program_counts program 0 + 1).

Definition get_log_stats : M stats :=
  all_entries <- merge_files false ;;
  match all_entries with
  | [] => ret NoData
  | _ :: _ =>
      let all_entries := sorted_reverse number all_entries in
      match all_entries with
      | [] => ret NoData
      | newest :: rest =>
          let oldest := last rest newest in
          let program_counts := fold_left count_program all_entries [] in
          let sorted_programs := sorted_reverse snd program_counts in
          ret (Stats (List.length all_entries)
                     (date newest, time newest)
                     (date oldest, time oldest)
                     (firstn 5 sorted_programs))
      end
  end.

End Logger.

(** ** The older module [log.py]

    [log.py], which [pdf.py] imports, is the German-language ancestor of
    [logger.py]. Its numbering, insertion and merging code is that of
    [logger.py] over other locations; the functions below are those that
    differ in more than their locations. *)

Module Log.
Import Py OS.
Local Open Scope monad_scope.

Definition LOG_FILE : str := lit "program_log.txt".

(** The list both [get_next_call_number] and [read_log] build. *)
Definition possible_log_files : list str :=
  [ LOG_FILE;
    lit "sub/program_log.txt";
    join (lit "sub") (lit "program_log.txt") ].

Definition get_caller_info (frame : option frame) : result (str * str) :=
  match frame with
  | None => Raise AttributeError
  | Some fr =>
      match f_back fr with
      | None => Raise AttributeError
      | Some back =>
          match f_back back with
          | None => Ok (lit "Unbekannt", lit "Unbekannt")
          | Some caller_frame =>
              let file_path := co_filename caller_frame in
              let file_name := basename file_path in
              Ok (file_name, file_path)
          end
      end
  end.

(** What [get_log_stats] prints: the missing file, the lack of entries,
    the figures (the date range only when both end lines have three
    fields), or the error it caught. *)
Inductive report :=
| NoFile
| NoEntries
| Figures (total : nat) (range : option ((str * str) * (str * str)))
          (top_programs : list (str * Z))
| Failed (e : exn).

Definition count_line (programs : list (str * Z)) (line : str)
    : list (str * Z) :=
  let parts := split TAB line in
  if (4 <=? List.length parts)%nat then
    let program := item parts 3 in
    dict_set programs program (dict_get programs program 0 + 1)
  else programs.

Definition get_log_stats : M report :=
  present <- exists_ LOG_FILE ;;
  if negb present then ret NoFile
  else
    try_except
      (lines <- readlines LOG_FILE ;;
       let data_lines :=
         filter (fun line => negb (Logger.is_skipped line)) lines in
       match data_lines with
       | [] => ret NoEntries
       | first :: rest =>
           let newest_parts := split TAB first in
           let oldest_parts := split TAB (last rest first) in
           let range :=
             if (3 <=? List.length newest_parts)%nat
                && (3 <=? List.length oldest_parts)%nat
             then Some ((item newest_parts 1, strip (item newest_parts 2)),
                        (item oldest_parts 1, strip (item oldest_parts 2)))
             else None in
           let programs := fold_left count_line data_lines [] in
           ret (Figures (List.length data_lines) range
                        (firstn 5 (sorted_reverse snd programs)))
       end)
      (fun e => ret (Failed e)).

(** *** The functions that write

    The loops over the lines of a file are those of [logger.py], word for
    word; their bodies are shared with it. *)

Definition get_next_call_number : M Z :=
  max_number <- for_each possible_log_files 0 Logger.number_file ;;
  ret (max_number + 1).

Definition HEADER : list str :=
  [ lit "# NeuroGames Program Execution Log" ++ [LF];
    lit "# Aufrufnummer" ++ TAB :: lit "Datum" ++ TAB :: lit "Zeit" ++ TAB ::
      lit "Dateiname" ++ TAB :: lit "Dateipfad" ++ [LF];
    lit "#" ++ repeat "="%char 80 ++ [LF] ].

Definition create_log_file_with_header : M unit :=
  write_file LOG_FILE HEADER.

(** Unlike [logger.py], the file is expected to be there. *)
Definition insert_entry_at_top (new_entry : str) : M unit :=
  existing_lines <- readlines LOG_FILE ;;
  let '(header_lines, data_lines) :=
    fold_left Logger.classify existing_lines ([], []) in
  write_file LOG_FILE (header_lines ++ [new_entry] ++ data_lines).

Definition log_execution (now : datetime) (self : frame) : M Logger.feedback :=
  call_number <- get_next_call_number ;;
  let date_str := strftime_date now in
  let time_str := strftime_time now in
  info <- Logger.lift (get_caller_info (Some (Called (co_filename self) self))) ;;
  let '(file_name, file_path) := info in
  let new_entry :=
    Logger.format_entry call_number date_str time_str file_name file_path in
  try_except
    (present <- exists_ LOG_FILE ;;
     (if negb present then create_log_file_with_header else ret tt) ;;
     insert_entry_at_top new_entry ;;
     ret (Logger.Recorded call_number file_name))
    (fun e => ret (Logger.WriteError e)).

(** [read_log]: the rows of the table it prints. *)
Definition read_log : M (list Logger.entry) :=
  st <- for_each possible_log_files ([], []) (Logger.merge_file true) ;;
  match snd st with
  | [] => ret []
  | _ :: _ => ret (sorted_reverse Logger.number (snd st))
  end.

End Log.


(** ** What the scans see: definitions used to state the properties *)

Module View.
Import Py OS Logger.

(** The lines a location offers to a scan: none when the location is
    missing, is a directory, or cannot be read. *)
Definition lines_at (w : world) (p : str) : list str :=
  match nodes w p with
  | Some (File text) => if may_read w p then text_lines text else []
  | Some Dir | None => []
  end.

Fixpoint choose {A B} (f : A -> option B) (l : list A) : list B :=
  match l with
  | [] => []
  | x :: r => match f x with Some y => y :: choose f r | None => choose f r end
  end.

(** The number [get_next_call_number] reads off a line, if any. *)
Definition line_number (line : str) : option Z :=
  if is_skipped line then None
  else match int (item (split TAB line) 0) with
       | Ok n => Some n
       | Raise _ => None
       end.

(** Every number the numbering scan finds, location after location. *)
Definition numbers_found (w : world) : list Z :=
  flat_map (fun p => choose line_number (lines_at w p)) LEGACY_LOG_FILES.

Definition max_from (m : Z) (l : list Z) : Z := fold_right Z.max m l.

(** The entry [read_log] (with [keep_path]) or [get_log_stats] (without)
    reads off a line, if any. *)
Definition line_entry (keep_path : bool) (line : str) : option entry :=
  if is_skipped line then None
  else
    let parts := split TAB (strip line) in
    if (4 <=? List.length parts)%nat then
      match int (item parts 0) with
      | Ok n =>
          Some (mkEntry n (item parts 1) (item parts 2) (item parts 3)
                  (if keep_path
                   then Some (if (4 <? List.length parts)%nat
                              then item parts 4 else [])
                   else None))
      | Raise _ => None
      end
    else None.

Definition key_of (e : entry) : entry_key :=
  (number e, date e, time e, filename e).

(** Every physical entry line of every location, in scan order. *)
Definition candidates (keep_path : bool) (w : world) : list entry :=
  flat_map (fun p => choose (line_entry keep_path) (lines_at w p))
           LEGACY_LOG_FILES.

(** The entry lines of the two legacy locations, and those of the primary
    file. *)
Definition legacy_entries (w : world) : list entry :=
  choose (line_entry true) (lines_at w (lit "program_log.txt"))
  ++ choose (line_entry true) (lines_at w (lit "sub/program_log.txt")).

Definition primary_entries (w : world) : list entry :=
  choose (line_entry true) (lines_at w LOG_FILE).

(** Keep the first physical copy of each identity tuple. *)
Fixpoint first_copies (seen : list entry_key) (l : list entry) : list entry :=
  match l with
  | [] => []
  | e :: r =>
      if key_in (key_of e) seen then first_copies seen r
      else e :: first_copies (key_of e :: seen) r
  end.

(** The logical entries, in the order the scan meets them. *)
Definition merged (keep_path : bool) (w : world) : list entry :=
  first_copies [] (candidates keep_path w).

Definition without_path (e : entry) : entry :=
  mkEntry (number e) (date e) (time e) (filename e) None.

(** Number of entries of [rows] that carry the identity tuple [k]. *)
Definition copies (k : entry_key) (rows : list entry) : nat :=
  List.length (filter (fun e => key_eqb (key_of e) k) rows).

(** Number of occurrences of a source name, and position of the first. *)
Fixpoint occurrences (p : str) (names : list str) : Z :=
  match names with
  | [] => 0
  | q :: r => (if str_eqb q p then 1 else 0) + occurrences p r
  end.

Fixpoint first_index (p : str) (names : list str) : nat :=
  match names with
  | [] => O
  | q :: r => if str_eqb q p then O else S (first_index p r)
  end.

(** A line is complete when it ends in a newline. *)
Definition ends_with_newline (line : str) : bool :=
  match rev line with
  | c :: _ => char_eqb c LF
  | [] => false
  end.

(** The last line of a file is a comment that lacks its newline. *)
Definition open_comment_tail (lines : list str) : bool :=
  match rev lines with
  | l :: _ => startswith (lit "#") l && negb (ends_with_newline l)
  | [] => false
  end.

(** The path [get_caller_info] reports when called from [log_execution]
    running in frame [self]. *)
Definition caller_path (self : frame) : str :=
  match f_back self with
  | Some caller_frame => co_filename caller_frame
  | None => lit "Unknown"
  end.

Definition caller_name (self : frame) : str :=
  match f_back self with
  | Some caller_frame => basename (co_filename caller_frame)
  | None => lit "Unknown"
  end.

(** A character that is neither a tab nor a line break. *)
Definition plain (c : ascii) : bool :=
  negb (char_eqb c TAB || char_eqb c LF || char_eqb c CR).

(** A string without line break. *)
Definition one_line (s : str) : bool :=
  forallb (fun c => negb (char_eqb c LF || char_eqb c CR)) s.

(** A string that survives as a field of a tab-separated line: no tab, no
    line break, and not made of white space only. *)
Definition tidy (s : str) : bool :=
  forallb plain s && existsb (fun c => negb (isspace c)) s.

(** The part of a string that stands before its first line break. *)
Fixpoint first_line (s : str) : str :=
  match s with
  | [] => []
  | c :: r =>
      if char_eqb c LF || char_eqb c CR then [] else c :: first_line r
  end.

(** The string holds something other than white space. *)
Definition not_blank (s : str) : bool :=
  existsb (fun c => negb (isspace c)) s.

(** The string ends in something other than white space. *)
Definition ends_in_print (s : str) : bool :=
  match rev s with
  | c :: _ => negb (isspace c)
  | [] => false
  end.

(** The file name of the caller [self] survives the [strip] of the first
    line of its entry: something other than white space stands on the
    first line of the path, or at the end of the name. *)
Definition name_kept (self : frame) : bool :=
  not_blank (first_line (caller_path self)) || ends_in_print (caller_name self).

(** The lines that follow the first one when the entry of the caller
    [self] is read back from a file: the entry takes more than one line
    when the caller's path holds line breaks. *)
Definition later_lines (self : frame) : list str :=
  tl (text_lines (caller_name self ++ TAB :: caller_path self ++ [LF])).

(** Malformed data lines, as each scan understands them. *)
Definition raises {A} (r : result A) : bool :=
  match r with Ok _ => false | Raise _ => true end.


Definition malformed_for_view (line : str) : bool :=
  negb (is_skipped line)
  && ((List.length (split TAB (strip line)) <? 4)%nat
      || raises (int (item (split TAB (strip line)) 0))).



(** A run of [log_execution] calls, one after the other. *)
Fixpoint record_all (calls : list (datetime * frame)) : M (list feedback) :=
  match calls with
  | [] => ret []
  | (now, self) :: rest =>
      bind (log_execution now self) (fun fb =>
      bind (record_all rest) (fun fbs => ret (fb :: fbs)))
  end.

Definition assigned (fb : feedback) : option Z :=
  match fb with
  | Recorded n _ => Some n
  | WriteError _ => None
  end.

(** [n; n+1; ...] ([len] numbers). *)
Fixpoint count_up (n : Z) (len : nat) : list Z :=
  match len with
  | O => []
  | S k => n :: count_up (n + 1) k
  end.

(** *** Sample worlds, used in examples *)

(** A world with the given nodes, nothing forbidden and no write cut
    short. *)
Definition world_of (files : list (str * node)) : world :=
  mkWorld (fun p => match find (fun f => str_eqb (fst f) p) files with
                    | Some f => Some (snd f)
                    | None => None
                    end)
          (fun _ => true) (fun _ => true) [].

(** A data line made of the given fields. *)
Fixpoint tabbed (fields : list str) : str :=
  match fields with
  | [] => [LF]
  | [f] => f ++ [LF]
  | f :: r => f ++ TAB :: tabbed r
  end.

Definition row (n d t name path : string) : str :=
  tabbed [lit n; lit d; lit t; lit name; lit path].

(** *** The loop bodies as total functions *)

(** One line of the numbering scan. *)
Definition number_step (m : Z) (line : str) : Z :=
  match line_number line with
  | Some n => Z.max m n
  | None => m
  end.

(** One physical entry of the merging scan. *)
Definition absorb_one (st : list entry_key * list entry) (e : entry)
    : list entry_key * list entry :=
  if key_in (key_of e) (fst st) then st
  else (key_of e :: fst st, snd st ++ [e]).

(** One line of the merging scan. *)
Definition merge_step (keep_path : bool)
    (st : list entry_key * list entry) (line : str) :=
  match line_entry keep_path line with
  | Some e => absorb_one st e
  | None => st
  end.


(** *** Counting the programs *)

(** The dictionary [get_log_stats] builds from the names it iterates. *)
Definition tally (names : list str) : list (str * Z) :=
  fold_left (fun d p => dict_set d p (dict_get d p 0 + 1)) names [].

Definition in_names (p : str) (names : list str) : bool :=
  existsb (str_eqb p) names.

(** The names of [names] not in [seen], each once, in the order of their
    first occurrence. *)
Fixpoint fresh (seen names : list str) : list str :=
  match names with
  | [] => []
  | p :: r =>
      if in_names p seen then fresh seen r else p :: fresh (p :: seen) r
  end.

(** [x] stands somewhere before [y] in [l]. *)
Definition before {A} (x y : A) (l : list A) : Prop :=
  exists l1 l2 l3, l = l1 ++ x :: l2 ++ y :: l3.

(** The top five of a sequence of entries, as [get_log_stats] computes
    them once it has the entries in the order [rows]. *)
Definition top_five (rows : list entry) : list (str * Z) :=
  firstn 5 (sorted_reverse snd (tally (map filename rows))).

(** The top five with ties in the order in which the merge scan first
    meets the sources, as the specification words it. *)
Definition top_sources_in_scan_order (w : world) : list (str * Z) :=
  top_five (merged false w).


(** One more execution of [p] in a dictionary entry. *)
Definition bump (p : str) (qc : str * Z) : str * Z :=
  (fst qc, if str_eqb (fst qc) p then snd qc + 1 else snd qc).

Definition add_occurrences (names : list str) (qc : str * Z) : str * Z :=
  (fst qc, snd qc + occurrences (fst qc) names).

Definition with_occurrences (names : list str) (p : str) : str * Z :=
  (p, occurrences p names).


(** [top] is the ranking of the sources of [names]: at most five pairs of
    a source and its number of occurrences, no source twice, by
    descending count, sources with equal counts in the order of their
    first occurrence in [names], and no source left out that occurs more
    often than one that is listed. *)
Definition ranking (names : list str) (top : list (str * Z)) : Prop :=
  (List.length top <= 5)%nat
  /\ NoDup (map fst top)
  /\ (forall p c, In (p, c) top -> In p names /\ c = occurrences p names)
  /\ descending snd top
  /\ (forall i j p q c, (i < j)%nat ->
        nth_error top i = Some (p, c) -> nth_error top j = Some (q, c) ->
        (first_index p names < first_index q names)%nat)
  /\ (forall p, In p names -> ~ In p (map fst top) ->
        List.length top = 5%nat
        /\ forall q c, In (q, c) top -> occurrences p names <= c).

(** [p] stands ahead of [q] in the ranking of the sources of [names]: it
    occurs more often, or as often and its first occurrence comes
    earlier. *)
Definition ahead (names : list str) (p q : str) : Prop :=
  occurrences q names < occurrences p names
  \/ (occurrences p names = occurrences q names
      /\ (first_index p names < first_index q names)%nat).

(** The ranking with the cut of five decided like every other tie: a
    source that is left out and occurs as often as one that is listed was
    first met after it. *)
Definition ranking_to_the_cut (names : list str) (top : list (str * Z))
    : Prop :=
  ranking names top
  /\ (forall p, In p names -> ~ In p (map fst top) ->
      forall q c, In (q, c) top -> occurrences p names = c ->
                  (first_index q names < first_index p names)%nat).

(** Three executions, two of [a.x] and one of [b.x]. *)
Definition world_three_runs : world :=
  world_of
    [ (lit "logs", Dir);
      (lit "logs/program_log.txt",
       File (lit "# log" ++ [LF]
             ++ row "3" "2025-01-03" "10:00:00" "a.x" "/p/a.x"
             ++ row "2" "2025-01-02" "10:00:00" "b.x" "/p/b.x"
             ++ row "1" "2025-01-01" "10:00:00" "a.x" "/p/a.x")) ].

(** Two sources with one execution each; the legacy file lists the older
    one first. *)
Definition world_tie : world :=
  world_of
    [ (lit "program_log.txt",
       File (row "1" "2025-01-01" "10:00:00" "a.x" "/p/a.x"
             ++ row "2" "2025-01-02" "10:00:00" "b.x" "/p/b.x")) ].

(** Six sources with one execution each. *)
Definition world_six_sources : world :=
  world_of
    [ (lit "logs", Dir);
      (lit "logs/program_log.txt",
       File (row "6" "2025-01-06" "10:00:00" "f.x" "/p/f.x"
             ++ row "5" "2025-01-05" "10:00:00" "e.x" "/p/e.x"
             ++ row "4" "2025-01-04" "10:00:00" "d.x" "/p/d.x"
             ++ row "3" "2025-01-03" "10:00:00" "c.x" "/p/c.x"
             ++ row "2" "2025-01-02" "10:00:00" "b.x" "/p/b.x"
             ++ row "1" "2025-01-01" "10:00:00" "a.x" "/p/a.x")) ].

(** Two locations that hold the same entry under different paths. *)
Definition world_two_copies : world :=
  world_of
    [ (lit "program_log.txt",
       File (row "3" "2025-01-01" "10:00:00" "a.py" "/old/a.py"
             ++ row "2" "2025-01-01" "09:00:00" "b.py" "/old/b.py"));
      (lit "logs", Dir);
      (lit "logs/program_log.txt",
       File (row "3" "2025-01-01" "10:00:00" "a.py" "/new/a.py")) ].


(** *** The shape of the lines of a text *)

Definition no_newline (s : str) : bool :=
  forallb (fun c => negb (char_eqb c LF)) s.

Definition no_cr (s : str) : bool :=
  forallb (fun c => negb (char_eqb c CR)) s.

(** A line with its newline, and a last line without. *)
Definition complete (l : str) : Prop :=
  exists body, l = body ++ [LF] /\ no_newline body = true.

Definition partial (l : str) : Prop :=
  l <> [] /\ no_newline l = true.

(** What [readlines] can return: complete lines, then at most one line
    that lacks its newline. *)
Definition well_split (L : list str) : Prop :=
  exists M tail,
    L = M ++ tail /\ Forall complete M
    /\ (tail = [] \/ exists l, tail = [l] /\ partial l).

(** The value of a string of digits read from the left. *)
Definition value_from (acc : Z) (s : str) : Z :=
  fold_left (fun a c => 10 * a + digit_value c) s acc.




(** A legacy file whose numbers are all below one. *)
Definition world_below_one : world :=
  world_of
    [ (lit "program_log.txt",
       File (row "-5" "2025-01-05" "10:00:00" "a.py" "/p/a.py"
             ++ row "0" "2025-01-02" "10:00:00" "b.py" "/p/b.py")) ].


(** *** The primary file before and after an insertion *)

Definition LOG_DIR : str := lit "logs".

Definition is_header (line : str) : bool := startswith (lit "#") line.

(** The lines [insert_entry_at_top] writes, given the lines it read. *)
Definition laid_out (old : list str) (new_entry : str) : list str :=
  filter is_header old ++ [new_entry]
  ++ filter (fun l => negb (is_header l)) old.

(** The system lets [p] be created or rewritten. *)
Definition writable (w : world) (p : str) : bool :=
  match nodes w p with
  | Some Dir => false
  | _ => parent_exists w p && may_write w p
  end.

(** No write to come is cut short: a file that could be opened for
    writing receives its text in full. *)
Definition uncut (w : world) : bool :=
  forallb (fun c => match c with None => true | Some _ => false end) (cuts w).

(** The world once [ensure_log_directory] has run. *)
Definition with_log_dir (w : world) : world :=
  match nodes w LOG_DIR with
  | Some _ => w
  | None =>
      if parent_exists w LOG_DIR && may_write w LOG_DIR
      then put_node w LOG_DIR Dir else w
  end.

(** The lines [insert_entry_at_top] reads: those of the primary file, or
    the fresh header when the file is not there yet. *)
Definition primary_before (w : world) : list str :=
  match nodes w LOG_FILE with
  | None => HEADER
  | Some _ => lines_at w LOG_FILE
  end.


(** What a scan reads in all the known locations with a line reader [f]. *)
Definition scan {B} (f : str -> option B) (w : world) : list B :=
  flat_map (fun p => choose f (lines_at w p)) LEGACY_LOG_FILES.


(** *** More sample worlds and calls *)

(** A program [main.py] calling [log_execution] from [logger.py]. *)
Definition called_from (path : str) : frame :=
  Called (lit "src/logger.py") (Outermost path).

Definition main_py : frame := called_from (lit "/home/u/main.py").

Definition first_run : datetime := mkDatetime 2025 10 8 14 30 25.
Definition second_run : datetime := mkDatetime 2025 10 8 14 31 7.
Definition third_run : datetime := mkDatetime 2025 10 8 14 32 40.

(** No primary file yet; a legacy file holds call number 5. *)
Definition world_legacy_five : world :=
  world_of
    [ (lit "sub", Dir);
      (lit "sub/program_log.txt",
       File (lit "# old log" ++ [LF]
             ++ row "5" "2025-01-05" "10:00:00" "a.py" "/p/a.py"
             ++ row "4" "2025-01-04" "10:00:00" "b.py" "/p/b.py")) ].

(** The only number in sight is negative. *)
Definition world_minus_five : world :=
  world_of
    [ (lit "program_log.txt",
       File (row "-5" "2025-01-05" "10:00:00" "a.py" "/p/a.py")) ].

(** A primary file made of one comment that lacks its newline. *)
Definition world_open_comment : world :=
  world_of
    [ (lit "logs", Dir);
      (lit "logs/program_log.txt", File (lit "# my log")) ].

(** A program whose file name holds a line break followed by digits. *)
Definition broken_name_py : frame :=
  called_from (lit "/tmp/a" ++ [LF] ++ lit "41" ++ [TAB] ++ lit ".py").

(** A program whose file name holds a tab. *)
Definition tabbed_name_py : frame :=
  called_from (lit "/tmp/my" ++ [TAB] ++ lit "script.py").

(** A program whose file name holds a line break. *)
Definition split_name_py : frame :=
  called_from (lit "/tmp/my" ++ [LF] ++ lit "script.py").

(** A program in a directory whose name holds a line break followed by
    what reads as the first fields of an entry. *)
Definition staged_dir_py : frame :=
  called_from (lit "/tmp/a" ++ [LF] ++ lit "99" ++ [TAB] ++ lit "x" ++ [TAB]
               ++ lit "y" ++ [TAB] ++ lit "z/script.py").

(** A program in a directory whose name holds a tab and a line break. *)
Definition odd_dir_py : frame :=
  called_from (lit "/my" ++ [TAB] ++ lit "dir/a" ++ [LF] ++ lit "b/script.py").

(** The primary file holds its header and every file may be written, but
    the second write to come fails before anything has reached its
    file. *)
Definition world_second_write_cut : world :=
  mkWorld (nodes (world_of [ (lit "logs", Dir);
                             (lit "logs/program_log.txt",
                              File (List.concat HEADER)) ]))
          (fun _ => true) (fun _ => true) [None; Some (0%nat, OSError)].

(** A legacy line that starts with a tab: the numbering scan reads no
    number off it, the merging scan reads 9. *)
Definition world_leading_tab : world :=
  world_of
    [ (lit "program_log.txt",
       File (TAB :: row "9" "2025-01-09" "10:00:00" "old.py" "/p/old.py")) ].


(** The line does not start with white space. *)
Definition starts_clean (line : str) : bool :=
  match line with
  | c :: _ => negb (isspace c)
  | [] => false
  end.


(** *** Sentences of the specification, as they are worded *)

(** "Each call returns 1 + the maximum sequence value found across all
    known locations." *)
Definition next_is_one_plus_maximum (w : world) : Prop :=
  forall m,
    In m (numbers_found w) -> (forall x, In x (numbers_found w) -> x <= m) ->
    fst (get_next_call_number w) = Ok (1 + m).

(** "For every sequence of record() calls executed sequentially, the
    sequence numbers assigned to successive entries are strictly
    increasing by exactly 1." *)
Definition numbers_increase_by_one (calls : list (datetime * frame))
    (w : world) : Prop :=
  forall fbs,
    fst (record_all calls w) = Ok fbs ->
    exists n, choose assigned fbs = count_up n (List.length (choose assigned fbs)).

(** "For every entry e whose write succeeds, immediately after record(e)
    the first element of mergedView() has sequence equal to e.sequence
    and sourceName equal to e.sourceName." *)
Definition new_entry_comes_first (now : datetime) (self : frame) (w : world)
    : Prop :=
  forall n name w',
    log_execution now self w = (Ok (Recorded n name), w') ->
    exists first rest,
      read_log w' = (Ok (first :: rest), w')
      /\ number first = n /\ filename first = name.



(** "Ties broken by first-encountered order in the merge scan." *)
Definition ties_in_scan_order (w : world) : Prop :=
  forall total most_recent oldest top,
    get_log_stats w = (Ok (Stats total most_recent oldest top), w) ->
    top = top_sources_in_scan_order w.

End View.

(** ** Interactive programs

    [pdf_generator.py], [pdf.py] and [main.py] read the keyboard, draw
    random numbers and, through the logging module, read the clock. A
    [session] holds what such a program depends on: the file system, the
    lines still to come on standard input (each without its newline), the
    raw output of the random generator and the readings of the clock that
    are still to come.

    [KeyboardInterrupt], which the user can cause at any moment, is not
    modelled. *)

Module Interactive.
Import Py OS.

(** What can end an evaluation early: an exception of the file and
    number operations, the two other exceptions these programs can meet,
    and [sys.exit(code)]. *)
Inductive failure :=
| Exn (e : exn)
| EOFError
| KeyError
| SystemExit (code : Z).

(** [isinstance(f, Exception)]: [SystemExit] derives from [BaseException]
    only, so [except Exception] lets it pass. *)
Definition is_exception (f : failure) : bool :=
  match f with
  | SystemExit _ => false
  | Exn _ | EOFError | KeyError => true
  end.

Inductive outcome (A : Type) : Type :=
| Done (a : A)
| Fail (f : failure).
Arguments Done {A} a.
Arguments Fail {A} f.

Record session := mkSession {
  files : world;
  stdin : list str;
  seed : nat -> Z;
  clock : nat -> datetime
}.

Definition IO (A : Type) : Type := session -> outcome A * session.

Definition io_ret {A} (a : A) : IO A := fun s => (Done a, s).

Definition io_bind {A B} (c : IO A) (k : A -> IO B) : IO B :=
  fun s =>
    match c s with
    | (Done a, s') => k a s'
    | (Fail f, s') => (Fail f, s')
    end.

Definition io_fail {A} (f : failure) : IO A := fun s => (Fail f, s).

(** [try: body except Exception as e: handler(e)] *)
Definition io_try {A} (body : IO A) (handler : failure -> IO A) : IO A :=
  fun s =>
    match body s with
    | (Done a, s') => (Done a, s')
    | (Fail f, s') => if is_exception f then handler f s' else (Fail f, s')
    end.

Declare Scope io_scope.
Delimit Scope io_scope with io.
Notation "x <- c ;; k" := (io_bind c (fun x => k))
  (at level 61, c at next level, right associativity) : io_scope.
Notation "c ;; k" := (io_bind c (fun _ => k))
  (at level 61, right associativity) : io_scope.

(** A [for] loop that threads the loop's local variables [acc]. *)
Fixpoint io_for {A X} (xs : list X) (acc : A) (body : A -> X -> IO A) : IO A :=
  match xs with
  | [] => io_ret acc
  | x :: r => io_bind (body acc x) (fun acc' => io_for r acc' body)
  end.

(** [range(start, stop)] *)
Definition range (start stop : Z) : list Z :=
  map (fun i => start + Z.of_nat i) (seq 0 (Z.to_nat (stop - start))).

(** A computation on the file system, run inside a session. *)
Definition with_files (s : session) (w : world) : session :=
  mkSession w (stdin s) (seed s) (clock s).

Definition lift_fs {A} (c : M A) : IO A :=
  fun s =>
    match c (files s) with
    | (Ok a, w) => (Done a, with_files s w)
    | (Raise e, w) => (Fail (Exn e), with_files s w)
    end.

(** [input(prompt)]: the next line of standard input; [EOFError] when
    there is none. The prompt is only printed. *)
Definition with_stdin (s : session) (lines : list str) : session :=
  mkSession (files s) lines (seed s) (clock s).

Definition input : IO str :=
  fun s =>
    match stdin s with
    | [] => (Fail EOFError, s)
    | line :: rest => (Done line, with_stdin s rest)
    end.

(** A [while True:] loop whose every round starts with [input()], given
    as a function of the lines it finds on standard input: it returns the
    outcome and the lines it has not read. *)
Definition reading {A} (loop : list str -> outcome A * list str) : IO A :=
  fun s => let '(r, rest) := loop (stdin s) in (r, with_stdin s rest).

(** [random.randint(a, b)]: an integer [N] with [a <= N <= b], taken from
    the next raw output of the generator; [ValueError] on an empty
    range. *)
Definition randint (a b : Z) : IO Z :=
  fun s =>
    if b <? a then (Fail (Exn ValueError), s)
    else (Done (a + seed s O mod (b - a + 1)),
          mkSession (files s) (stdin s) (fun n => seed s (S n)) (clock s)).

(** [datetime.datetime.now()] *)
Definition datetime_now : IO datetime :=
  fun s =>
    (Done (clock s O),
     mkSession (files s) (stdin s) (seed s) (fun n => clock s (S n))).

(** [d[k]] and [k in d] on a dictionary with [str] keys: [None] when the
    key is missing. *)
Fixpoint lookup {V} (d : list (str * V)) (k : str) : option V :=
  match d with
  | [] => None
  | (k', v) :: r => if str_eqb k' k then Some v else lookup r k
  end.

End Interactive.

(** ** The module [pdf_generator.py]

    The drawing functions call the PDF library with floating-point
    coordinates computed from the bounding box they are given; the model
    stops at their boundary and records a drawing as the shape drawn and
    the bounding box passed. The bytes the library writes for a document
    are a parameter, [render]. *)

Module Generator.
Import Py OS Interactive.
Local Open Scope io_scope.

(** *** Configuration constants *)

Definition PAGE_WIDTH : Z := 210.
Definition PAGE_HEIGHT : Z := 297.

Definition MIN_OBJECT_SIZE : Z := 15.
Definition MAX_OBJECT_SIZE : Z := 30.
Definition PAGE_MARGIN : Z := 15.

Definition MIN_PDF_COUNT : Z := 1.
Definition MAX_PDF_COUNT : Z := 10.
Definition MIN_OBJECT_COUNT : Z := 1.
Definition MAX_OBJECT_COUNT : Z := 20.

Definition OUTPUT_DIR : str := lit "output".

Definition AVAILABLE_SHAPES : list (str * str) :=
  [ (lit "1", lit "Circle");
    (lit "2", lit "Triangle");
    (lit "3", lit "Rectangle");
    (lit "4", lit "Pentagon");
    (lit "5", lit "Hexagon") ].

(** *** Input validation *)

Definition get_user_input_string : IO str :=
  user_input <- input ;;
  io_ret (strip user_input).

(** The loop of [get_user_input_integer]. *)
Fixpoint integer_loop (min_value max_value : Z) (lines : list str)
    : outcome Z * list str :=
  match lines with
  | [] => (Fail EOFError, [])
  | user_input :: rest =>
      match int user_input with
      | Ok value =>
          if (min_value <=? value) && (value <=? max_value)
          then (Done value, rest)
          else integer_loop min_value max_value rest
      | Raise ValueError => integer_loop min_value max_value rest
      | Raise e => (Fail (Exn e), rest)
      end
  end.

Definition get_user_input_integer (min_value max_value : Z) : IO Z :=
  reading (integer_loop min_value max_value).

(** The loop of [get_shape_choice], over the dictionary it looks the
    choice up in. *)
Fixpoint choice_loop (shapes : list (str * str)) (lines : list str)
    : outcome str * list str :=
  match lines with
  | [] => (Fail EOFError, [])
  | choice :: rest =>
      match lookup shapes choice with
      | Some shape_name => (Done shape_name, rest)
      | None => choice_loop shapes rest
      end
  end.

Definition get_shape_choice : IO str :=
  reading (choice_loop AVAILABLE_SHAPES).

(** The loop of [get_pdf_format_choice]. *)
Fixpoint format_loop (lines : list str) : outcome str * list str :=
  match lines with
  | [] => (Fail EOFError, [])
  | line :: rest =>
      let choice := strip line in
      if str_eqb choice (lit "1") then (Done (lit "separate"), rest)
      else if str_eqb choice (lit "2") then (Done (lit "combined"), rest)
      else format_loop rest
  end.

Definition get_pdf_format_choice (pdf_count : Z) : IO str :=
  if pdf_count =? 1 then io_ret (lit "separate")
  else reading format_loop.

(** *** File system operations *)

(** The messages printed are not kept. *)
Definition ensure_output_directory : M unit :=
  bind (exists_ OUTPUT_DIR) (fun present =>
    if negb present
    then Logger.try_except_only OSError (makedirs OUTPUT_DIR) (ret tt)
    else ret tt).

Definition generate_pdf_filename (base_name : str)
    (version_number total_versions : Z) : str :=
  if total_versions =? 1 then base_name ++ lit ".pdf"
  else base_name ++ lit "_Version_" ++ str_of_int version_number ++ lit ".pdf".

Definition get_pdf_filepath (filename : str) : str :=
  join OUTPUT_DIR filename.

(** *** Drawings *)

Inductive shape := Circle | Triangle | Rectangle | Pentagon | Hexagon.

(** A call [draw_function(pdf, x, y, size)]. *)
Record drawing := mkDrawing {
  drawn_shape : shape;
  drawn_x : Z;
  drawn_y : Z;
  drawn_size : Z
}.

(** The objects of a page, in the order drawn; the pages of a document. *)
Definition page : Type := list drawing.
Definition document : Type := list page.

Definition SHAPE_DRAWING_FUNCTIONS : list (str * (Z -> Z -> Z -> drawing)) :=
  [ (lit "Circle", mkDrawing Circle);
    (lit "Triangle", mkDrawing Triangle);
    (lit "Rectangle", mkDrawing Rectangle);
    (lit "Pentagon", mkDrawing Pentagon);
    (lit "Hexagon", mkDrawing Hexagon) ].

(** *** Core generation *)

(** Body of the loop over the objects of a page. *)
Definition place_object (draw_function : Z -> Z -> Z -> drawing)
    (objects : page) : IO page :=
  size <- randint MIN_OBJECT_SIZE MAX_OBJECT_SIZE ;;
  let max_x := PAGE_WIDTH - size - PAGE_MARGIN in
  let max_y := PAGE_HEIGHT - size - PAGE_MARGIN in
  if (max_x <? PAGE_MARGIN) || (max_y <? PAGE_MARGIN) then io_ret objects
  else
    x <- randint PAGE_MARGIN max_x ;;
    y <- randint PAGE_MARGIN max_y ;;
    io_ret (objects ++ [draw_function x y size]).

(** [for object_index in range(object_count): ...] on a fresh page. *)
Definition draw_objects (draw_function : Z -> Z -> Z -> drawing)
    (object_count : Z) : IO page :=
  io_for (range 0 object_count) []
    (fun objects _ => place_object draw_function objects).

Section Rendering.
Variable render : document -> str.

(** [pdf.output(file_path)] *)
Definition output (pdf : document) (file_path : str) : IO unit :=
  lift_fs (save_file file_path (render pdf)).

Definition create_single_pdf (filename shape_name : str) (object_count : Z)
    : IO bool :=
  io_try
    (match lookup SHAPE_DRAWING_FUNCTIONS shape_name with
     | None => io_fail KeyError
     | Some draw_function =>
         objects <- draw_objects draw_function object_count ;;
         let file_path := get_pdf_filepath filename in
         output [objects] file_path ;;
         io_ret true
     end)
    (fun _ => io_ret false).

(** Body of the loop over the pages of the combined document:
    [pdf.add_page()], then the objects. *)
Definition create_page (draw_function : Z -> Z -> Z -> drawing)
    (object_count : Z) (pages : list page) (version_number : Z)
    : IO (list page) :=
  objects <- draw_objects draw_function object_count ;;
  io_ret (pages ++ [objects]).

(** [None] is the function's [return None]. *)
Definition create_combined_pdf (base_name : str) (pdf_count : Z)
    (shape_name : str) (object_count : Z) : IO (option str) :=
  io_try
    (match lookup SHAPE_DRAWING_FUNCTIONS shape_name with
     | None => io_fail KeyError
     | Some draw_function =>
         pdf <- io_for (range 1 (pdf_count + 1)) []
                  (create_page draw_function object_count) ;;
         let filename := base_name ++ lit "_Combined.pdf" in
         let file_path := get_pdf_filepath filename in
         output pdf file_path ;;
         io_ret (Some filename)
     end)
    (fun _ => io_ret None).

(** Body of the loop over the versions, in the separate format. *)
Definition create_version (base_name : str) (pdf_count : Z)
    (shape_name : str) (object_count : Z)
    (created_pdfs : list str) (version_number : Z) : IO (list str) :=
  let filename := generate_pdf_filename base_name version_number pdf_count in
  success <- create_single_pdf filename shape_name object_count ;;
  io_ret (if success : bool then created_pdfs ++ [filename] else created_pdfs).

(** [if combined_filename:] holds for a string that is not empty. *)
Definition create_multiple_pdfs (base_name : str) (pdf_count : Z)
    (shape_name : str) (object_count : Z) (pdf_format : str)
    : IO (list str) :=
  if str_eqb pdf_format (lit "combined") then
    combined_filename <-
      create_combined_pdf base_name pdf_count shape_name object_count ;;
    io_ret match combined_filename with
           | Some (c :: r) => [c :: r]
           | Some [] | None => []
           end
  else
    io_for (range 1 (pdf_count + 1)) []
      (create_version base_name pdf_count shape_name object_count).

(** *** User interface *)

Definition get_user_requirements : IO (str * Z * Z * str * str) :=
  base_name <- get_user_input_string ;;
  pdf_count <- get_user_input_integer MIN_PDF_COUNT MAX_PDF_COUNT ;;
  object_count <- get_user_input_integer MIN_OBJECT_COUNT MAX_OBJECT_COUNT ;;
  shape_name <- get_shape_choice ;;
  pdf_format <- get_pdf_format_choice pdf_count ;;
  io_ret (base_name, pdf_count, object_count, shape_name, pdf_format).

(** [main]: [logging] is the frame [log_execution] runs in when [main]
    calls it. The value returned is what [main] reports: the feedback of
    the logging module, then the files the summary lists, or [None] when
    it prints that an unexpected error occurred. *)
Definition main (logging : frame) : IO (Logger.feedback * option (list str)) :=
  now <- datetime_now ;;
  fb <- lift_fs (Logger.log_execution now logging) ;;
  lift_fs ensure_output_directory ;;
  io_try
    (requirements <- get_user_requirements ;;
     let '(base_name, pdf_count, object_count, shape_name, pdf_format) :=
       requirements in
     created_pdfs <-
       create_multiple_pdfs base_name pdf_count shape_name object_count
                            pdf_format ;;
     io_ret (fb, Some created_pdfs))
    (fun _ => io_ret (fb, None)).

End Rendering.

End Generator.

(** ** The older program [pdf.py]

    [create_pdf] asks the same questions as [pdf_generator.py] with the
    loops written out in place; the two loops that read a number are
    [get_user_input_integer]'s, the one that reads the shape is
    [get_shape_choice]'s over the German names. *)

Module Pdf.
Import Py OS Interactive.
Local Open Scope io_scope.

Definition PAGE_WIDTH : Z := 210.
Definition PAGE_HEIGHT : Z := 297.

Definition shapes : list (str * str) :=
  [ (lit "1", lit "Kreis");
    (lit "2", lit "Dreieck");
    (lit "3", lit "Viereck");
    (lit "4", lit "5-Eck");
    (lit "5", lit "6-Eck") ].

(** The [if]/[elif] chain on [shape]: what is drawn, if anything. *)
Definition draw (shape : str) (x y size : Z) : option Generator.drawing :=
  if str_eqb shape (lit "Kreis")
  then Some (Generator.mkDrawing Generator.Circle x y size)
  else if str_eqb shape (lit "Dreieck")
  then Some (Generator.mkDrawing Generator.Triangle x y size)
  else if str_eqb shape (lit "Viereck")
  then Some (Generator.mkDrawing Generator.Rectangle x y size)
  else if str_eqb shape (lit "5-Eck")
  then Some (Generator.mkDrawing Generator.Pentagon x y size)
  else if str_eqb shape (lit "6-Eck")
  then Some (Generator.mkDrawing Generator.Hexagon x y size)
  else None.

(** Body of the loop over the objects of a version. *)
Definition place_object (shape : str) (objects : Generator.page)
    : IO Generator.page :=
  x <- randint 10 (PAGE_WIDTH - 30) ;;
  y <- randint 10 (PAGE_HEIGHT - 30) ;;
  size <- randint 15 30 ;;
  io_ret match draw shape x y size with
         | Some d => objects ++ [d]
         | None => objects
         end.

Definition pdf_name (base_name : str) (pdf_count version : Z) : str :=
  if pdf_count =? 1 then base_name ++ lit ".pdf"
  else base_name ++ lit "_Version_" ++ str_of_int version ++ lit ".pdf".

Section Rendering.
Variable render : Generator.document -> str.

(** Body of the loop over the versions. *)
Definition create_version (base_name : str) (pdf_count object_count : Z)
    (shape : str) (created_pdfs : list str) (version : Z) : IO (list str) :=
  let pdf_name := pdf_name base_name pdf_count version in
  objects <- io_for (range 0 object_count) []
               (fun objects _ => place_object shape objects) ;;
  io_try
    (Generator.output render [objects] pdf_name ;;
     io_ret (created_pdfs ++ [pdf_name]))
    (fun _ => io_ret created_pdfs).

(** [create_pdf]: the number of versions asked for and the files the
    summary lists. *)
Definition create_pdf : IO (Z * list str) :=
  base_name <- input ;;
  pdf_count <- reading (Generator.integer_loop 1 10) ;;
  object_count <- reading (Generator.integer_loop 1 20) ;;
  shape <- reading (Generator.choice_loop shapes) ;;
  created_pdfs <-
    io_for (range 1 (pdf_count + 1)) []
      (create_version base_name pdf_count object_count shape) ;;
  io_ret (pdf_count, created_pdfs).

End Rendering.

End Pdf.

(** ** The program [main.py]

    What the menu actions print is not kept; their effects on the session
    are. *)

Module Menu.
Import Py OS Interactive.
Local Open Scope io_scope.

Record option_data := mkOption {
  title : str;
  description : str;
  function : str
}.

Definition MENU_OPTIONS : list (str * option_data) :=
  [ (lit "1", mkOption (lit "Generate PDF Files")
                (lit "Create multiple PDF versions with geometric shapes")
                (lit "run_pdf_generator"));
    (lit "2", mkOption (lit "View Execution Log")
                (lit "Display all recorded program executions")
                (lit "run_log_viewer"));
    (lit "3", mkOption (lit "Show Usage Statistics")
                (lit "Display program usage analytics and trends")
                (lit "run_statistics"));
    (lit "4", mkOption (lit "About This Program")
                (lit "Information about the NeuroGames project")
                (lit "show_about"));
    (lit "0", mkOption (lit "Exit Program")
                (lit "Quit the NeuroGames suite")
                (lit "exit_program")) ].

(** The loop of [get_user_choice]. *)
Fixpoint choice_loop (valid_options : list str) (lines : list str)
    : outcome str * list str :=
  match lines with
  | [] => (Fail EOFError, [])
  | line :: rest =>
      let choice := strip line in
      if existsb (str_eqb choice) valid_options then (Done choice, rest)
      else choice_loop valid_options rest
  end.

Definition get_user_choice : IO str :=
  let valid_options := map fst MENU_OPTIONS in
  reading (choice_loop valid_options).

Section Program.
Variable render : Generator.document -> str.

(** The frames [log_execution] runs in when called from [main] and from
    the generator's [main]. *)
Variables logging_main logging_generator : frame.

Definition run_pdf_generator : IO unit :=
  io_try (Generator.main render logging_generator ;; io_ret tt)
         (fun _ => io_ret tt) ;;
  input ;;
  io_ret tt.

Definition run_log_viewer : IO unit :=
  io_try (lift_fs Logger.read_log ;; io_ret tt) (fun _ => io_ret tt) ;;
  input ;;
  io_ret tt.

Definition run_statistics : IO unit :=
  io_try (lift_fs Logger.get_log_stats ;; io_ret tt) (fun _ => io_ret tt) ;;
  input ;;
  io_ret tt.

Definition show_about : IO unit :=
  input ;;
  io_ret tt.

Definition exit_program : IO unit := io_fail (SystemExit 0).

(** One round of the [while True:] loop of [main]. *)
Definition menu_round : IO unit :=
  io_try
    (choice <- get_user_choice ;;
     match lookup MENU_OPTIONS choice with
     | None => io_fail KeyError
     | Some option_data =>
         let function_name := function option_data in
         if str_eqb function_name (lit "run_pdf_generator") then run_pdf_generator
         else if str_eqb function_name (lit "run_log_viewer") then run_log_viewer
         else if str_eqb function_name (lit "run_statistics") then run_statistics
         else if str_eqb function_name (lit "show_about") then show_about
         else if str_eqb function_name (lit "exit_program") then exit_program
         else io_ret tt
     end)
    (fun _ => input ;; io_ret tt).

(** The loop never returns: it ends with the failure that leaves it.
    [None] stands for a loop still running after [fuel] rounds. *)
Fixpoint main_loop (fuel : nat) (s : session) : option (failure * session) :=
  match fuel with
  | O => None
  | S fuel' =>
      match menu_round s with
      | (Done _, s') => main_loop fuel' s'
      | (Fail f, s') => Some (f, s')
      end
  end.

Definition main (fuel : nat) (s : session) : option (failure * session) :=
  match (now <- datetime_now ;;
         lift_fs (Logger.log_execution now logging_main)) s with
  | (Done _, s') => main_loop fuel s'
  | (Fail f, s') => Some (f, s')
  end.

End Program.

End Menu.

(** ** Definitions used to state the further properties *)

Module Further.
Import Py OS Logger View Interactive.

(** The same files, none of which may be written. *)
Definition read_only (w : world) : world :=
  mkWorld (nodes w) (may_read w) (fun _ => false) (cuts w).

(** [w'] differs from [w] at most at the primary log file and at its
    directory; the rights are the same. *)
Definition touches_only_log (w w' : world) : Prop :=
  (forall p, str_eqb p LOG_FILE = false -> str_eqb p LOG_DIR = false ->
             nodes w' p = nodes w p)
  /\ may_read w' = may_read w
  /\ may_write w' = may_write w.

(** *** The locations of [log.py] *)

Definition SUB_LOG : str := lit "sub/program_log.txt".

(** What a scan of [log.py] reads in its locations with a line reader. *)
Definition log_scan {B} (f : str -> option B) (w : world) : list B :=
  flat_map (fun p => choose f (lines_at w p)) Log.possible_log_files.

(** The lines [log.py] inserts into: those of its primary file, or the
    fresh header when the file is not there yet. *)
Definition log_primary_before (w : world) : list str :=
  match nodes w Log.LOG_FILE with
  | None => Log.HEADER
  | Some _ => lines_at w Log.LOG_FILE
  end.

(** The path and the name [log.py] reports for the caller. *)
Definition log_caller_path (self : frame) : str :=
  match f_back self with
  | Some caller_frame => co_filename caller_frame
  | None => lit "Unbekannt"
  end.

Definition log_caller_name (self : frame) : str :=
  match f_back self with
  | Some caller_frame => basename (co_filename caller_frame)
  | None => lit "Unbekannt"
  end.

(** What the writing steps of [log.py]'s [log_execution] come to: the
    header is created when the primary file is missing, then the entry
    line [e] is inserted. *)
Definition log_stored (e : str) (w : world) : result unit * world :=
  match nodes w Log.LOG_FILE with
  | Some Dir => (Raise OSError, w)
  | Some (File text) =>
      if may_read w Log.LOG_FILE && writable w Log.LOG_FILE
      then written w Log.LOG_FILE
             (List.concat (laid_out (text_lines text) e))
      else (Raise OSError, w)
  | None =>
      if writable w Log.LOG_FILE
      then match written w Log.LOG_FILE (List.concat Log.HEADER) with
           | (Ok _, w2) =>
               if may_read w Log.LOG_FILE
               then written w2 Log.LOG_FILE
                      (List.concat (laid_out Log.HEADER e))
               else (Raise OSError, w2)
           | (Raise x, w2) => (Raise x, w2)
           end
      else (Raise OSError, w)
  end.

(** The file name field of a data line, when the line has one. *)
Definition line_program (line : str) : option str :=
  if (4 <=? List.length (split TAB line))%nat
  then Some (item (split TAB line) 3) else None.

(** The data lines of the primary file of [log.py]. *)
Definition log_data_lines (w : world) : list str :=
  filter (fun line => negb (is_skipped line)) (lines_at w Log.LOG_FILE).

(** A loop that reads lines until one is accepted. *)
Fixpoint first_accepted {A} (accept : str -> option A) (lines : list str)
    : outcome A * list str :=
  match lines with
  | [] => (Fail EOFError, [])
  | line :: rest =>
      match accept line with
      | Some a => (Done a, rest)
      | None => first_accepted accept rest
      end
  end.

(** The integer a line stands for, when it is one within the bounds. *)
Definition accepted (min_value max_value : Z) (line : str) : option Z :=
  match int line with
  | Ok value =>
      if (min_value <=? value) && (value <=? max_value) then Some value
      else None
  | Raise _ => None
  end.

(** The answer a line gives to the question of the output format. *)
Definition format_of (line : str) : option str :=
  if str_eqb (strip line) (lit "1") then Some (lit "separate")
  else if str_eqb (strip line) (lit "2") then Some (lit "combined")
  else None.

(** The menu option a line selects. *)
Definition option_of (line : str) : option str :=
  if existsb (str_eqb (strip line)) (map fst Menu.MENU_OPTIONS)
  then Some (strip line) else None.

(** [s'] differs from [s] at most by the lines read from standard input:
    [s] offered the lines [read], then those left in [s']. *)
Definition has_read (s s' : session) (read : list str) : Prop :=
  files s' = files s /\ seed s' = seed s /\ clock s' = clock s
  /\ stdin s = read ++ stdin s'.

(** A position and a size that keep an object within the margins of the
    page, the size being within the bounds. *)
Definition fits (x y size : Z) : Prop :=
  Generator.MIN_OBJECT_SIZE <= size <= Generator.MAX_OBJECT_SIZE
  /\ Generator.PAGE_MARGIN <= x
  /\ x + size <= Generator.PAGE_WIDTH - Generator.PAGE_MARGIN
  /\ Generator.PAGE_MARGIN <= y
  /\ y + size <= Generator.PAGE_HEIGHT - Generator.PAGE_MARGIN.

Definition inside_margins (d : Generator.drawing) : Prop :=
  fits (Generator.drawn_x d) (Generator.drawn_y d) (Generator.drawn_size d).

(** An object of [pdf.py]: it lies on the page, at least 10 mm from the
    left and the top edge, with a size from 15 to 30. *)
Definition on_page (d : Generator.drawing) : Prop :=
  15 <= Generator.drawn_size d <= 30
  /\ 10 <= Generator.drawn_x d
  /\ Generator.drawn_x d + Generator.drawn_size d <= Pdf.PAGE_WIDTH
  /\ 10 <= Generator.drawn_y d
  /\ Generator.drawn_y d + Generator.drawn_size d <= Pdf.PAGE_HEIGHT.

(** A name without directory part. *)
Definition no_slash (s : str) : bool :=
  forallb (fun c => negb (char_eqb c "/"%char)) s.

(** The file of a version, in the separate format. *)
Definition version_path (base_name : str) (total version : Z) : str :=
  Generator.get_pdf_filepath
    (Generator.generate_pdf_filename base_name version total).

(** A page as the generator fills it: the number of objects asked for,
    all of one shape and within the margins. *)
Definition well_filled (k : Generator.shape) (object_count : Z)
    (objects : Generator.page) : Prop :=
  List.length objects = Z.to_nat object_count
  /\ Forall inside_margins objects
  /\ Forall (fun d => Generator.drawn_shape d = k) objects.

(** [s'] differs from [s] at most by the random numbers drawn. *)
Definition has_drawn (s s' : session) : Prop :=
  files s' = files s /\ stdin s' = stdin s /\ clock s' = clock s.

(** How a round or an action ends: normally, having read at least one
    line; or by the exit the user asked for; or for lack of input. *)
Definition ends_well (s : session) (r : outcome unit * session) : Prop :=
  match r with
  | (Done _, s') => exists read, read <> [] /\ stdin s = read ++ stdin s'
  | (Fail f, s') =>
      (f = SystemExit 0
       /\ exists line, In line (stdin s) /\ strip line = lit "0")
      \/ (f = EOFError /\ stdin s' = [])
  end.

(** A session at the keyboard of which [lines] are typed, over the files
    of [w]. *)
Definition typing (w : world) (lines : list str) : session :=
  mkSession w lines (fun n => 7919 * Z.of_nat n + 13) (fun _ => first_run).

(** Bytes standing for a rendered document. *)
Definition sample_render (pdf : Generator.document) : str :=
  lit "%PDF " ++ str_of_int (Z.of_nat (List.length pdf)).

End Further.

(* ================================================================== *)
(** * Part II. Lemmas and theorems                                      *)
(* ================================================================== *)

(** ** Characters and strings *)

Module PyFacts.
Import Py.

Lemma char_eqb_eq (a b : ascii) : char_eqb a b = true <-> a = b.
Proof.
  unfold char_eqb, ord. rewrite N.eqb_eq. split.
  - intros H. rewrite <- (ascii_N_embedding a), <- (ascii_N_embedding b).
    now rewrite H.
  - now intros ->.
Qed.

Lemma char_eqb_refl (a : ascii) : char_eqb a a = true.
Proof. now apply char_eqb_eq. Qed.

Lemma char_eqb_neq (a b : ascii) : char_eqb a b = false <-> a <> b.
Proof.
  split.
  - intros H E. apply char_eqb_eq in E. congruence.
  - intros H. destruct (char_eqb a b) eqn:E; [|reflexivity].
    apply char_eqb_eq in E. contradiction.
Qed.

Lemma char_eqb_sym (a b : ascii) : char_eqb a b = char_eqb b a.
Proof. unfold char_eqb. apply N.eqb_sym. Qed.

Lemma str_eqb_eq (a b : str) : str_eqb a b = true <-> a = b.
Proof.
  revert b. induction a as [|x a IH]; intros [|y b]; simpl; try easy.
  rewrite andb_true_iff, char_eqb_eq, IH. split.
  - now intros [-> ->].
  - intros E. injection E. auto.
Qed.

Lemma str_eqb_refl (a : str) : str_eqb a a = true.
Proof. now apply str_eqb_eq. Qed.

Lemma str_eqb_neq (a b : str) : str_eqb a b = false <-> a <> b.
Proof.
  split.
  - intros H E. apply str_eqb_eq in E. congruence.
  - intros H. destruct (str_eqb a b) eqn:E; [|reflexivity].
    apply str_eqb_eq in E. contradiction.
Qed.

Lemma str_eqb_sym (a b : str) : str_eqb a b = str_eqb b a.
Proof.
  destruct (str_eqb a b) eqn:E.
  - apply str_eqb_eq in E. subst. symmetry. apply str_eqb_refl.
  - symmetry. apply str_eqb_neq. apply str_eqb_neq in E. congruence.
Qed.

(** [int] raises nothing but [ValueError]. *)
Lemma int_raises_ValueError (s : str) (e : exn) :
  int s = Raise e -> e = ValueError.
Proof.
  unfold int.
  destruct (match rstrip_by int_space (lstrip_by int_space s) with
            | [] => (false, [])
            | c :: r => _
            end) as [negative digits].
  destruct (int_magnitude digits); intros H; now inversion H.
Qed.

Lemma split_nonempty (sep : ascii) (s : str) : split sep s <> [].
Proof.
  induction s as [|c r IH]; simpl; [easy|].
  destruct (char_eqb c sep); [easy|].
  destruct (split sep r); easy.
Qed.

Lemma split_length (sep : ascii) (s : str) : (1 <= List.length (split sep s))%nat.
Proof.
  pose proof (split_nonempty sep s). destruct (split sep s); simpl; [easy|lia].
Qed.

End PyFacts.

(** ** Running the scans *)

Module ScanFacts.
Import Py OS Logger View PyFacts.

(** A loop whose body only reads the world is a fold. *)
Lemma for_each_reads {A X} (body : A -> X -> M A) (f : A -> X -> A) (w : world) :
  (forall acc x, body acc x w = (Ok (f acc x), w)) ->
  forall xs acc, for_each xs acc body w = (Ok (fold_left f xs acc), w).
Proof.
  intros H xs. induction xs as [|x r IH]; intros acc; simpl; [reflexivity|].
  unfold bind. rewrite H. apply IH.
Qed.

Lemma for_lines_total {A} (body : A -> str -> result A) (f : A -> str -> A) :
  (forall acc line, body acc line = Ok (f acc line)) ->
  forall lines acc, for_lines lines acc body = (fold_left f lines acc, None).
Proof.
  intros H lines. induction lines as [|l r IH]; intros acc; simpl; [reflexivity|].
  rewrite H. apply IH.
Qed.

(** What reading a location amounts to inside a [try] whose handler keeps
    the accumulator. *)
Lemma scan_file_run {A} (step : A -> str -> A) (acc : A) (p : str) (w : world) :
  bind (exists_ p) (fun present =>
    if negb present then ret acc
    else try_except
           (bind (readlines p) (fun lines => ret (fold_left step lines acc)))
           (fun _ => ret acc)) w
  = (Ok (fold_left step (lines_at w p) acc), w).
Proof.
  unfold bind, exists_, try_except, readlines, lines_at, ret.
  destruct (nodes w p) as [[|text]|] eqn:E; simpl; rewrite ?E; try reflexivity.
  destruct (may_read w p); reflexivity.
Qed.

(** *** The numbering scan *)

Lemma number_line_total (m : Z) (line : str) :
  number_line m line = Ok (number_step m line).
Proof.
  unfold number_line, number_step, line_number.
  destruct (is_skipped line); [reflexivity|].
  pose proof (split_length TAB line) as L.
  apply Nat.leb_le in L. rewrite L.
  destruct (int (item (split TAB line) 0)) as [n|e] eqn:E; [reflexivity|].
  apply int_raises_ValueError in E. now subst.
Qed.

Lemma max_from_max (m n : Z) (l : list Z) :
  max_from (Z.max m n) l = Z.max n (max_from m l).
Proof. induction l as [|x l IH]; simpl; [lia|]. rewrite IH. lia. Qed.

Lemma number_scan_lines (lines : list str) (m : Z) :
  fold_left number_step lines m = max_from m (choose line_number lines).
Proof.
  revert m. induction lines as [|l r IH]; intros m; simpl; [reflexivity|].
  rewrite IH. unfold number_step.
  destruct (line_number l) as [n|]; simpl; [|reflexivity].
  apply max_from_max.
Qed.

Lemma number_file_run (m : Z) (p : str) (w : world) :
  number_file m p w = (Ok (max_from m (choose line_number (lines_at w p))), w).
Proof.
  unfold number_file.
  rewrite <- number_scan_lines, <- (scan_file_run number_step m p w).
  unfold bind. destruct (exists_ p w) as [[present|e] w1]; [|reflexivity].
  destruct (negb present); [reflexivity|].
  unfold try_except. destruct (readlines p w1) as [[lines|e] w2]; [|reflexivity].
  unfold ret. now rewrite (for_lines_total _ _ number_line_total).
Qed.

Lemma max_from_perm (m : Z) (l l' : list Z) :
  Permutation l l' -> max_from m l = max_from m l'.
Proof.
  induction 1; simpl; try congruence. lia.
Qed.

Lemma max_from_app (m : Z) (a b : list Z) :
  max_from (max_from m a) b = max_from m (a ++ b).
Proof.
  rewrite (max_from_perm m (a ++ b) (b ++ a)) by apply Permutation_app_comm.
  unfold max_from. now rewrite fold_right_app.
Qed.

Lemma number_scan_files (w : world) (ps : list str) (m : Z) :
  fold_left (fun m p => max_from m (choose line_number (lines_at w p))) ps m
  = max_from m (flat_map (fun p => choose line_number (lines_at w p)) ps).
Proof.
  revert m. induction ps as [|p ps IH]; intros m; simpl; [reflexivity|].
  rewrite IH. apply max_from_app.
Qed.

(** [get_next_call_number] reads the world, leaves it as it is, never
    raises, and returns one more than the largest of 0 and the numbers
    found. *)
Lemma get_next_call_number_run (w : world) :
  get_next_call_number w = (Ok (max_from 0 (numbers_found w) + 1), w).
Proof.
  unfold get_next_call_number, bind.
  rewrite (for_each_reads number_file
             (fun m p => max_from m (choose line_number (lines_at w p))) w)
    by (intros; apply number_file_run).
  unfold ret, numbers_found. now rewrite number_scan_files.
Qed.

Lemma max_from_lower (m : Z) (l : list Z) : m <= max_from m l.
Proof. induction l as [|x l IH]; simpl; lia. Qed.

Lemma max_from_upper (m : Z) (l : list Z) (x : Z) :
  In x l -> x <= max_from m l.
Proof.
  induction l as [|y l IH]; simpl; [easy|]. intros [->|H]; [lia|].
  specialize (IH H). lia.
Qed.

Lemma max_from_attained (m : Z) (l : list Z) :
  max_from m l = m \/ In (max_from m l) l.
Proof.
  induction l as [|y l IH]; simpl; [now left|].
  destruct (Z.max_spec y (max_from m l)) as [[_ E]|[_ E]]; rewrite E.
  - destruct IH as [IH|IH]; [now left|now right; right].
  - right. now left.
Qed.

End ScanFacts.

(** ** The merging scan *)

Module MergeFacts.
Import Py OS Logger View PyFacts ScanFacts.

Lemma merge_line_total (keep_path : bool) st (line : str) :
  merge_line keep_path st line = Ok (merge_step keep_path st line).
Proof.
  destruct st as [seen all].
  unfold merge_line, merge_step, line_entry.
  destruct (is_skipped line); [reflexivity|].
  destruct (4 <=? List.length (split TAB (strip line)))%nat; [|reflexivity].
  destruct (int (item (split TAB (strip line)) 0)) as [n|e] eqn:E.
  - unfold absorb_one, key_of. simpl.
    destruct (key_in _ seen); reflexivity.
  - apply int_raises_ValueError in E. now subst.
Qed.

Lemma merge_scan_lines (keep_path : bool) (lines : list str) st :
  fold_left (merge_step keep_path) lines st
  = fold_left absorb_one (choose (line_entry keep_path) lines) st.
Proof.
  revert st. induction lines as [|l r IH]; intros st; simpl; [reflexivity|].
  unfold merge_step at 2.
  destruct (line_entry keep_path l); simpl; apply IH.
Qed.

Lemma merge_file_run (keep_path : bool) st (p : str) (w : world) :
  merge_file keep_path st p w
  = (Ok (fold_left absorb_one
           (choose (line_entry keep_path) (lines_at w p)) st), w).
Proof.
  unfold merge_file.
  rewrite <- merge_scan_lines, <- (scan_file_run (merge_step keep_path) st p w).
  unfold bind. destruct (exists_ p w) as [[present|e] w1]; [|reflexivity].
  destruct (negb present); [reflexivity|].
  unfold try_except. destruct (readlines p w1) as [[lines|e] w2]; [|reflexivity].
  unfold ret. now rewrite (for_lines_total _ _ (merge_line_total keep_path)).
Qed.

Lemma absorb_files (keep_path : bool) (w : world) (ps : list str) st :
  fold_left (fun st p => fold_left absorb_one
               (choose (line_entry keep_path) (lines_at w p)) st) ps st
  = fold_left absorb_one
      (flat_map (fun p => choose (line_entry keep_path) (lines_at w p)) ps) st.
Proof.
  revert st. induction ps as [|p ps IH]; intros st; simpl; [reflexivity|].
  now rewrite IH, fold_left_app.
Qed.

Lemma absorb_first_copies (cands : list entry) (seen : list entry_key)
    (all : list entry) :
  snd (fold_left absorb_one cands (seen, all)) = all ++ first_copies seen cands.
Proof.
  revert seen all. induction cands as [|e r IH]; intros seen all; simpl.
  - now rewrite app_nil_r.
  - unfold absorb_one at 2. simpl.
    destruct (key_in (key_of e) seen); [apply IH|].
    rewrite IH, <- app_assoc. reflexivity.
Qed.

(** The scan reads the world, leaves it as it is and never raises; its
    result is the list of first copies. *)
Lemma merge_files_run (keep_path : bool) (w : world) :
  merge_files keep_path w = (Ok (merged keep_path w), w).
Proof.
  unfold merge_files, bind.
  rewrite (for_each_reads (merge_file keep_path)
             (fun st p => fold_left absorb_one
                (choose (line_entry keep_path) (lines_at w p)) st) w)
    by (intros; apply merge_file_run).
  unfold ret. rewrite absorb_files, absorb_first_copies. reflexivity.
Qed.

Lemma read_log_run (w : world) :
  read_log w = (Ok (sorted_reverse number (merged true w)), w).
Proof.
  unfold read_log, bind. rewrite merge_files_run.
  destruct (merged true w); reflexivity.
Qed.

(** *** Entries without their path *)

Lemma line_entry_without_path (line : str) :
  line_entry false line = option_map without_path (line_entry true line).
Proof.
  unfold line_entry.
  destruct (is_skipped line); [reflexivity|].
  destruct (4 <=? _)%nat; [|reflexivity].
  destruct (int _); reflexivity.
Qed.

Lemma choose_without_path (lines : list str) :
  choose (line_entry false) lines
  = map without_path (choose (line_entry true) lines).
Proof.
  induction lines as [|l r IH]; simpl; [reflexivity|].
  rewrite line_entry_without_path.
  destruct (line_entry true l); simpl; now rewrite IH.
Qed.

Lemma candidates_without_path (w : world) :
  candidates false w = map without_path (candidates true w).
Proof.
  unfold candidates. induction LEGACY_LOG_FILES as [|p ps IH]; simpl; [reflexivity|].
  now rewrite map_app, IH, choose_without_path.
Qed.

Lemma first_copies_without_path (l : list entry) (seen : list entry_key) :
  first_copies seen (map without_path l) = map without_path (first_copies seen l).
Proof.
  revert seen. induction l as [|e r IH]; intros seen; simpl; [reflexivity|].
  change (key_of (without_path e)) with (key_of e).
  destruct (key_in (key_of e) seen); simpl; now rewrite IH.
Qed.

Lemma merged_without_path (w : world) :
  merged false w = map without_path (merged true w).
Proof.
  unfold merged. now rewrite candidates_without_path, first_copies_without_path.
Qed.

End MergeFacts.

(** ** Sorting *)

Module SortFacts.
Import Py.

Section WithKey.
Context {A : Type} (key : A -> Z).

Lemma insert_desc_perm (x : A) (l : list A) :
  Permutation (insert_desc key x l) (x :: l).
Proof.
  induction l as [|y r IH]; simpl; [reflexivity|].
  destruct (key y <=? key x); [reflexivity|].
  rewrite IH. apply perm_swap.
Qed.

Lemma sorted_reverse_perm (l : list A) : Permutation (sorted_reverse key l) l.
Proof.
  induction l as [|x r IH]; simpl; [reflexivity|].
  rewrite insert_desc_perm. now constructor.
Qed.

Lemma sorted_reverse_in (l : list A) (x : A) :
  In x (sorted_reverse key l) <-> In x l.
Proof.
  split; apply Permutation_in;
    [|symmetry]; apply sorted_reverse_perm.
Qed.

Lemma sorted_reverse_length (l : list A) :
  List.length (sorted_reverse key l) = List.length l.
Proof. apply Permutation_length, sorted_reverse_perm. Qed.

Lemma insert_desc_descending (x : A) (l : list A) :
  descending key l -> descending key (insert_desc key x l).
Proof.
  induction l as [|y r IH]; simpl; [now split|].
  intros [Hy Hr]. destruct (key y <=? key x) eqn:E; simpl.
  - apply Z.leb_le in E. split; [|now split].
    intros z [<-|Hz]; [assumption|]. specialize (Hy z Hz). lia.
  - apply Z.leb_gt in E. split; [|now apply IH].
    intros z Hz. apply (Permutation_in _ (insert_desc_perm x r)) in Hz.
    destruct Hz as [<-|Hz]; [lia|now apply Hy].
Qed.

Lemma sorted_reverse_descending (l : list A) : descending key (sorted_reverse key l).
Proof.
  induction l as [|x r IH]; simpl; [exact I|].
  now apply insert_desc_descending.
Qed.

(** The first element of the sorted list has the largest key. *)
Lemma sorted_reverse_head (l : list A) (h : A) (t : list A) :
  sorted_reverse key l = h :: t ->
  In h l /\ forall x, In x l -> key x <= key h.
Proof.
  intros E. split.
  - apply sorted_reverse_in. rewrite E. now left.
  - intros x Hx. apply sorted_reverse_in in Hx.
    pose proof (sorted_reverse_descending l) as D. rewrite E in *.
    destruct Hx as [<-|Hx]; [lia|]. now apply (proj1 D).
Qed.

(** The last element has the smallest key. *)
Lemma descending_last (l : list A) (d : A) :
  descending key l -> forall x, In x l -> key (last l d) <= key x.
Proof.
  induction l as [|y r IH]; [easy|].
  intros [Hy Hr] x Hx. destruct r as [|z r'].
  - destruct Hx as [<-|[]]. simpl. lia.
  - change (last (y :: z :: r') d) with (last (z :: r') d).
    destruct Hx as [<-|Hx].
    + apply Hy. clear. generalize z. induction r' as [|a r'' IH2]; intros z0.
      * now left.
      * right. apply IH2.
    + now apply IH.
Qed.

(** Stability: the elements that share a key keep their order. *)
Lemma insert_desc_stable (k : Z) (x : A) (l : list A) :
  filter (fun y => key y =? k) (insert_desc key x l)
  = filter (fun y => key y =? k) (x :: l).
Proof.
  induction l as [|y r IH]; [reflexivity|].
  simpl insert_desc. destruct (key y <=? key x) eqn:E; [reflexivity|].
  apply Z.leb_gt in E. simpl in *. rewrite IH.
  destruct (key x =? k) eqn:Ex, (key y =? k) eqn:Ey; try reflexivity.
  apply Z.eqb_eq in Ex, Ey. lia.
Qed.

Lemma sorted_reverse_stable (k : Z) (l : list A) :
  filter (fun y => key y =? k) (sorted_reverse key l)
  = filter (fun y => key y =? k) l.
Proof.
  induction l as [|x r IH]; [reflexivity|].
  simpl sorted_reverse. rewrite insert_desc_stable. simpl. now rewrite IH.
Qed.
End WithKey.

(** Sorting commutes with a map that keeps the keys. *)
Lemma sorted_reverse_map {A B : Type} (key : A -> Z) (key' : B -> Z)
    (f : A -> B) (l : list A) :
  (forall x, key' (f x) = key x) ->
  sorted_reverse key' (map f l) = map f (sorted_reverse key l).
Proof.
  intros H. induction l as [|x r IH]; [reflexivity|].
  simpl. rewrite IH. generalize (sorted_reverse key r). intros s.
  induction s as [|y s IHs]; [reflexivity|].
  simpl. rewrite !H. destruct (key y <=? key x); [reflexivity|].
  simpl. now rewrite IHs.
Qed.

End SortFacts.

(** ** Deduplication *)

Module DedupFacts.
Import Py OS Logger View PyFacts SortFacts.

Lemma key_eqb_eq (a b : entry_key) : key_eqb a b = true <-> a = b.
Proof.
  destruct a as [[[n1 d1] t1] f1], b as [[[n2 d2] t2] f2]. simpl.
  rewrite !andb_true_iff, Z.eqb_eq, !str_eqb_eq. split.
  - intros [[[-> ->] ->] ->]. reflexivity.
  - intros E. injection E. auto.
Qed.

Lemma key_in_In (k : entry_key) (seen : list entry_key) :
  key_in k seen = true <-> In k seen.
Proof.
  unfold key_in. rewrite existsb_exists. split.
  - intros [x [Hx E]]. apply key_eqb_eq in E. now subst.
  - intros H. exists k. split; [assumption|now apply key_eqb_eq].
Qed.

Lemma key_in_not_In (k : entry_key) (seen : list entry_key) :
  key_in k seen = false <-> ~ In k seen.
Proof.
  rewrite <- key_in_In. destruct (key_in k seen); split; congruence.
Qed.

Lemma choose_in {A B} (f : A -> option B) (l : list A) (y : B) :
  In y (choose f l) <-> exists x, In x l /\ f x = Some y.
Proof.
  induction l as [|a r IH]; simpl.
  - split; [easy|now intros [x [[] _]]].
  - destruct (f a) as [b|] eqn:E; simpl; rewrite IH; split.
    + intros [<-|[x [Hx Hf]]]; [exists a; auto|exists x; auto].
    + intros [x [[<-|Hx] Hf]]; [left; congruence|right; exists x; auto].
    + intros [x [Hx Hf]]. exists x; auto.
    + intros [x [[<-|Hx] Hf]]; [congruence|exists x; auto].
Qed.

Lemma candidates_in (keep_path : bool) (w : world) (e : entry) :
  In e (candidates keep_path w) <->
  exists loc line, In loc LEGACY_LOG_FILES /\ In line (lines_at w loc)
                   /\ line_entry keep_path line = Some e.
Proof.
  unfold candidates. rewrite in_flat_map. split.
  - intros [loc [Hloc He]]. apply choose_in in He as [line [Hl Hf]].
    now exists loc, line.
  - intros [loc [line [Hloc [Hl Hf]]]]. exists loc. split; [assumption|].
    apply choose_in. now exists line.
Qed.

Lemma first_copies_in (l : list entry) (seen : list entry_key) (e : entry) :
  In e (first_copies seen l) -> In e l /\ ~ In (key_of e) seen.
Proof.
  revert seen. induction l as [|x r IH]; intros seen; simpl; [easy|].
  destruct (key_in (key_of x) seen) eqn:K.
  - intros H. apply IH in H as [H1 H2]. auto.
  - intros [<-|H].
    + split; [now left|now apply key_in_not_In].
    + apply IH in H as [H1 H2]. split; [now right|].
      intros C. apply H2. now right.
Qed.

Lemma copies_cons (k : entry_key) (x : entry) (l : list entry) :
  copies k (x :: l)
  = if key_eqb (key_of x) k then S (copies k l) else copies k l.
Proof.
  unfold copies. cbn [filter]. now destruct (key_eqb (key_of x) k).
Qed.

(** An identity already seen yields no entry. *)
Lemma copies_seen (l : list entry) (seen : list entry_key) (k : entry_key) :
  In k seen -> copies k (first_copies seen l) = O.
Proof.
  revert seen. induction l as [|x r IH]; intros seen Hk; [reflexivity|].
  cbn [first_copies]. destruct (key_in (key_of x) seen) eqn:K; [now apply IH|].
  rewrite copies_cons.
  destruct (key_eqb (key_of x) k) eqn:E.
  - apply key_eqb_eq in E. subst k. apply key_in_not_In in K. contradiction.
  - apply IH. now right.
Qed.

(** An identity met in the scan yields exactly one entry. *)
Lemma copies_once (l : list entry) (seen : list entry_key) (e : entry) :
  In e l -> ~ In (key_of e) seen -> copies (key_of e) (first_copies seen l) = 1%nat.
Proof.
  revert seen. induction l as [|x r IH]; intros seen He Hk; [easy|].
  cbn [first_copies]. destruct (key_in (key_of x) seen) eqn:K.
  - destruct He as [->|He]; [apply key_in_In in K; contradiction|].
    now apply IH.
  - rewrite copies_cons.
    destruct (key_eqb (key_of x) (key_of e)) eqn:E.
    + apply key_eqb_eq in E. f_equal.
      apply (copies_seen r (key_of x :: seen) (key_of e)). now left.
    + destruct He as [->|He].
      * rewrite (proj2 (key_eqb_eq _ _) eq_refl) in E. discriminate.
      * apply IH; [assumption|].
        intros [C|C]; [|contradiction].
        rewrite C in E. rewrite (proj2 (key_eqb_eq _ _) eq_refl) in E.
        discriminate.
Qed.

(** An identity met nowhere yields no entry. *)
Lemma copies_absent (l : list entry) (k : entry_key) :
  (forall e, In e l -> key_of e <> k) -> copies k l = O.
Proof.
  induction l as [|x r IH]; intros H; [reflexivity|].
  rewrite copies_cons. destruct (key_eqb (key_of x) k) eqn:E.
  - apply key_eqb_eq in E. exfalso. apply (H x); [now left|assumption].
  - apply IH. intros e He. apply H. now right.
Qed.

(** Every identity met in the scan has its entry in the result. *)
Lemma first_copies_covers (l : list entry) (seen : list entry_key) (e : entry) :
  In e l -> ~ In (key_of e) seen ->
  exists e', In e' (first_copies seen l) /\ key_of e' = key_of e.
Proof.
  revert seen. induction l as [|x r IH]; intros seen He Hk; [easy|].
  cbn [first_copies]. destruct (key_in (key_of x) seen) eqn:K.
  - destruct He as [->|He].
    + apply key_in_In in K. contradiction.
    + now apply IH.
  - destruct (key_eqb_eq (key_of x) (key_of e)) as [_ Q].
    destruct (key_eqb (key_of x) (key_of e)) eqn:X.
    + apply key_eqb_eq in X. exists x. split; [now left|assumption].
    + destruct He as [->|He].
      * specialize (Q eq_refl). discriminate.
      * destruct (IH (key_of x :: seen) He) as [e' [H1 H2]].
        -- intros [C|C]; [|contradiction].
           specialize (Q C). discriminate.
        -- exists e'. split; [now right|assumption].
Qed.

Lemma number_of_key (a b : entry) : key_of a = key_of b -> number a = number b.
Proof. unfold key_of. intros H. now injection H. Qed.

(** No identity has two entries in the merged view. *)
Lemma copies_merged (keep_path : bool) (w : world) (k : entry_key) :
  (copies k (merged keep_path w) <= 1)%nat.
Proof.
  unfold merged.
  destruct (existsb (fun e => key_eqb (key_of e) k) (candidates keep_path w)) eqn:X.
  - apply existsb_exists in X as [e [He Ke]].
    apply key_eqb_eq in Ke. subst k. rewrite copies_once; auto.
  - rewrite copies_absent; [lia|].
    intros e He Ke. apply first_copies_in in He as [He _].
    assert (existsb (fun e => key_eqb (key_of e) k) (candidates keep_path w) = true)
      by (apply existsb_exists; exists e; split;
          [assumption|now apply key_eqb_eq]).
    congruence.
Qed.

Lemma filter_length_perm {A} (f : A -> bool) (l l' : list A) :
  Permutation l l' ->
  List.length (filter f l) = List.length (filter f l').
Proof.
  induction 1; simpl; try congruence.
  - destruct (f x); simpl; congruence.
  - destruct (f x), (f y); reflexivity.
Qed.

Lemma copies_sorted (k : entry_key) (l : list entry) :
  copies k (sorted_reverse number l) = copies k l.
Proof. apply filter_length_perm, sorted_reverse_perm. Qed.

End DedupFacts.

(** ** C4 and C9: the merged view *)

Import Py OS Logger View.

(** C4. When two known locations each hold a physical line that reads as
    the same tuple (sequence, date, time, sourceName), the merged view
    holds exactly one logical entry for that tuple; the paths of the two
    lines play no part. *)
Theorem C4_one_entry_per_identity
    (w : world) (loc1 loc2 line1 line2 : str) (e1 e2 : entry) :
  In loc1 LEGACY_LOG_FILES -> In loc2 LEGACY_LOG_FILES ->
  In line1 (lines_at w loc1) -> In line2 (lines_at w loc2) ->
  line_entry true line1 = Some e1 -> line_entry true line2 = Some e2 ->
  key_of e1 = key_of e2 ->
  exists rows, read_log w = (Ok rows, w) /\ copies (key_of e1) rows = 1%nat.
Proof.
  intros L1 _ H1 _ P1 _ _.
  exists (sorted_reverse number (merged true w)). split.
  - apply MergeFacts.read_log_run.
  - rewrite DedupFacts.copies_sorted. unfold merged.
    apply DedupFacts.copies_once; [|easy].
    apply DedupFacts.candidates_in. now exists loc1, line1.
Qed.

Lemma C4_witness :
  exists rows,
    read_log world_two_copies = (Ok rows, world_two_copies)
    /\ copies (3, lit "2025-01-01", lit "10:00:00", lit "a.py") rows = 1%nat.
Proof.
  apply (C4_one_entry_per_identity world_two_copies
           (lit "program_log.txt") (lit "logs/program_log.txt")
           (row "3" "2025-01-01" "10:00:00" "a.py" "/old/a.py")
           (row "3" "2025-01-01" "10:00:00" "a.py" "/new/a.py")
           (mkEntry 3 (lit "2025-01-01") (lit "10:00:00") (lit "a.py")
                    (Some (lit "/old/a.py")))
           (mkEntry 3 (lit "2025-01-01") (lit "10:00:00") (lit "a.py")
                    (Some (lit "/new/a.py")))).
  - vm_compute. auto.
  - vm_compute. auto.
  - vm_compute. auto.
  - vm_compute. auto.
  - reflexivity.
  - reflexivity.
  - reflexivity.
Defined.

(** C9. Reading the log twice in a row, with no recording in between,
    gives the same rows in the same order, and leaves the files as they
    were. *)
Theorem C9_read_log_twice (w : world) :
  exists rows,
    read_log w = (Ok rows, w)
    /\ bind read_log (fun first =>
         bind read_log (fun second => ret (first, second))) w
       = (Ok (rows, rows), w).
Proof.
  exists (sorted_reverse number (merged true w)).
  unfold bind. now rewrite !MergeFacts.read_log_run.
Qed.

(** ** C2: the statistics *)

Module StatsFacts.
Import PyFacts SortFacts MergeFacts.

Lemma last_map {A B} (f : A -> B) (l : list A) (d : A) :
  last (map f l) (f d) = f (last l d).
Proof.
  induction l as [|x r IH]; [reflexivity|].
  destruct r as [|y r']; [reflexivity|].
  change (last (map f (x :: y :: r')) (f d)) with (last (map f (y :: r')) (f d)).
  now rewrite IH.
Qed.

Lemma tally_count_program (rows : list entry) (d : list (str * Z)) :
  fold_left count_program rows d
  = fold_left (fun d p => dict_set d p (dict_get d p 0 + 1)) (map filename rows) d.
Proof.
  revert d. induction rows as [|e r IH]; intros d; [reflexivity|].
  simpl. now rewrite IH.
Qed.

(** The entries [get_log_stats] works on are the rows of [read_log]
    without their path, in the same order. *)
Lemma stats_entries (w : world) :
  sorted_reverse number (merged false w)
  = map without_path (sorted_reverse number (merged true w)).
Proof.
  rewrite merged_without_path.
  now apply sorted_reverse_map.
Qed.

Lemma get_log_stats_run (w : world) :
  get_log_stats w
  = (Ok match sorted_reverse number (merged true w) with
        | [] => NoData
        | newest :: rest =>
            Stats (List.length (newest :: rest))
                  (date newest, time newest)
                  (date (last rest newest), time (last rest newest))
                  (top_five (newest :: rest))
        end, w).
Proof.
  unfold get_log_stats, bind. rewrite merge_files_run.
  pose proof (stats_entries w) as E.
  destruct (merged false w) as [|e0 m0] eqn:M.
  - simpl in E. destruct (sorted_reverse number (merged true w)); [reflexivity|].
    discriminate.
  - rewrite E. destruct (sorted_reverse number (merged true w)) as [|newest rest].
    + reflexivity.
    + unfold ret. cbn [map]. rewrite tally_count_program.
      rewrite (last_map without_path rest newest).
      unfold top_five, tally.
      change (without_path newest :: map without_path rest)
        with (map without_path (newest :: rest)).
      rewrite length_map, map_map. reflexivity.
Qed.

End StatsFacts.

(** C2. [get_log_stats] works on the rows of [read_log], the merged and
    deduplicated view sorted by descending call number: it counts them,
    takes the first as the most recent and the last as the oldest, and
    answers with the explicit no-data result when there is no row. *)
Theorem C2_statistics_on_merged_view (w : world) :
  exists rows,
    read_log w = (Ok rows, w)
    /\ descending number rows
    /\ (forall k, (copies k rows <= 1)%nat)
    /\ match rows with
       | [] => get_log_stats w = (Ok NoData, w)
       | newest :: _ =>
           let oldest := last rows newest in
           exists top,
             get_log_stats w
             = (Ok (Stats (List.length rows)
                      (date newest, time newest)
                      (date oldest, time oldest) top), w)
       end.
Proof.
  exists (sorted_reverse number (merged true w)).
  split; [apply MergeFacts.read_log_run|].
  split; [apply SortFacts.sorted_reverse_descending|].
  split.
  - intros k. rewrite DedupFacts.copies_sorted. apply DedupFacts.copies_merged.
  - rewrite StatsFacts.get_log_stats_run.
    destruct (sorted_reverse number (merged true w)) as [|newest rest]; [reflexivity|].
    cbv zeta.
    replace (last (newest :: rest) newest) with (last rest newest)
      by (destruct rest; reflexivity).
    eexists. reflexivity.
Qed.

(** ** C5: counting the programs *)

Module TallyFacts.
Import PyFacts SortFacts.

Lemma in_names_In (p : str) (l : list str) : in_names p l = true <-> In p l.
Proof.
  unfold in_names. rewrite existsb_exists. split.
  - intros [x [Hx E]]. apply str_eqb_eq in E. now subst.
  - intros H. exists p. split; [assumption|apply str_eqb_refl].
Qed.

Lemma in_names_not_In (p : str) (l : list str) : in_names p l = false <-> ~ In p l.
Proof. rewrite <- in_names_In. destruct (in_names p l); split; congruence. Qed.

Lemma fresh_in (seen names : list str) (x : str) :
  In x (fresh seen names) <-> In x names /\ ~ In x seen.
Proof.
  revert seen. induction names as [|p r IH]; intros seen; simpl; [tauto|].
  destruct (in_names p seen) eqn:E.
  - apply in_names_In in E. rewrite IH. split.
    + intros [H1 H2]. auto.
    + intros [[<-|H1] H2]; [contradiction|auto].
  - apply in_names_not_In in E. simpl. rewrite IH. simpl. split.
    + intros [<-|[H1 H2]]; [auto|]. split; [auto|]. intros C. apply H2. now right.
    + intros [[<-|H1] H2]; [now left|].
      destruct (list_eq_dec ascii_dec p x) as [->|N]; [now left|].
      right. split; [assumption|]. intros [C|C]; contradiction.
Qed.

Lemma fresh_NoDup (seen names : list str) : NoDup (fresh seen names).
Proof.
  revert seen. induction names as [|p r IH]; intros seen; simpl; [constructor|].
  destruct (in_names p seen); [apply IH|].
  constructor; [|apply IH].
  intros C. apply fresh_in in C as [_ C]. apply C. now left.
Qed.

Lemma fresh_ext (s1 s2 names : list str) :
  (forall x, In x s1 <-> In x s2) -> fresh s1 names = fresh s2 names.
Proof.
  revert s1 s2. induction names as [|p r IH]; intros s1 s2 H; [reflexivity|].
  simpl. assert (E : in_names p s1 = in_names p s2).
  { destruct (in_names p s1) eqn:E1; symmetry.
    - apply in_names_In. apply H. now apply in_names_In.
    - apply in_names_not_In. rewrite <- H. now apply in_names_not_In. }
  rewrite E. destruct (in_names p s2); [now apply IH|].
  f_equal. apply IH. intros x. simpl. now rewrite H.
Qed.

(** *** The dictionary update *)

Lemma dict_get_absent {V} (d : list (str * V)) (p : str) (z : V) :
  ~ In p (map fst d) -> dict_get d p z = z.
Proof.
  induction d as [|[k v] r IH]; simpl; [reflexivity|].
  intros H. destruct (str_eqb k p) eqn:E.
  - apply str_eqb_eq in E. exfalso. apply H. now left.
  - apply IH. intros C. apply H. now right.
Qed.

Lemma dict_set_absent {V} (d : list (str * V)) (p : str) (v : V) :
  ~ In p (map fst d) -> dict_set d p v = d ++ [(p, v)].
Proof.
  induction d as [|[k v'] r IH]; simpl; [reflexivity|].
  intros H. destruct (str_eqb k p) eqn:E.
  - apply str_eqb_eq in E. exfalso. apply H. now left.
  - f_equal. apply IH. intros C. apply H. now right.
Qed.

Lemma bump_absent (d : list (str * Z)) (p : str) :
  ~ In p (map fst d) -> map (bump p) d = d.
Proof.
  induction d as [|[k v] r IH]; simpl; [reflexivity|].
  intros H. unfold bump at 1. simpl. destruct (str_eqb k p) eqn:E.
  - apply str_eqb_eq in E. exfalso. apply H. now left.
  - f_equal. apply IH. intros C. apply H. now right.
Qed.

Lemma dict_count_present (d : list (str * Z)) (p : str) :
  NoDup (map fst d) -> In p (map fst d) ->
  dict_set d p (dict_get d p 0 + 1) = map (bump p) d.
Proof.
  induction d as [|[k v] r IH]; simpl; [easy|].
  intros N H. inversion N as [|? ? N1 N2]; subst.
  unfold bump at 1. simpl. destruct (str_eqb k p) eqn:E.
  - apply str_eqb_eq in E. subst k. f_equal. symmetry. now apply bump_absent.
  - f_equal. apply IH; [assumption|].
    destruct H as [H|H]; [|assumption].
    apply str_eqb_neq in E. contradiction.
Qed.

Lemma map_fst_bump (d : list (str * Z)) (p : str) :
  map fst (map (bump p) d) = map fst d.
Proof. rewrite map_map. reflexivity. Qed.

Lemma tally_from (names : list str) (d : list (str * Z)) :
  NoDup (map fst d) ->
  fold_left (fun d p => dict_set d p (dict_get d p 0 + 1)) names d
  = map (add_occurrences names) d
    ++ map (with_occurrences names) (fresh (map fst d) names).
Proof.
  revert d. induction names as [|p r IH]; intros d N.
  - simpl. rewrite app_nil_r. symmetry. rewrite <- (map_id d) at 2.
    apply map_ext. intros [q c]. unfold add_occurrences. simpl. f_equal. lia.
  - cbn [fold_left fresh]. destruct (in_names p (map fst d)) eqn:E.
    + apply in_names_In in E.
      rewrite dict_count_present by assumption.
      rewrite IH by (now rewrite map_fst_bump).
      rewrite map_fst_bump, map_map. f_equal.
      * apply map_ext. intros [q c]. unfold add_occurrences, bump. simpl.
        rewrite (str_eqb_sym p q). f_equal. destruct (str_eqb q p); lia.
      * apply map_ext_in. intros q Hq. apply fresh_in in Hq as [_ Hq].
        unfold with_occurrences. simpl.
        assert (str_eqb p q = false) as ->
          by (apply str_eqb_neq; intros ->; contradiction).
        reflexivity.
    + apply in_names_not_In in E.
      rewrite dict_get_absent, dict_set_absent by assumption.
      rewrite IH.
      2:{ rewrite map_app. simpl. apply NoDup_app_remove_l with (l := []).
          simpl. apply Permutation_NoDup with (l := p :: map fst d).
          - apply Permutation_cons_append.
          - now constructor. }
      rewrite !map_app. simpl. rewrite <- app_assoc. simpl. f_equal.
      * apply map_ext_in. intros [q c] Hq. unfold add_occurrences. simpl.
        assert (str_eqb p q = false) as ->.
        { apply str_eqb_neq. intros ->. apply E.
          apply in_map_iff. now exists (q, c). }
        reflexivity.
      * f_equal.
        -- unfold with_occurrences, add_occurrences. simpl.
           rewrite str_eqb_refl. reflexivity.
        -- rewrite (fresh_ext (map fst d ++ [p]) (p :: map fst d)).
           2:{ intros x. rewrite in_app_iff. simpl. tauto. }
           apply map_ext_in. intros q Hq. apply fresh_in in Hq as [_ Hq].
           unfold with_occurrences. simpl.
           assert (str_eqb p q = false) as ->
             by (apply str_eqb_neq; intros ->; apply Hq; now left).
           reflexivity.
Qed.

(** The dictionary holds each name once, in the order of the first
    occurrences, with its number of occurrences. *)
Lemma tally_spec (names : list str) :
  tally names = map (with_occurrences names) (fresh [] names).
Proof. unfold tally. rewrite tally_from by constructor. reflexivity. Qed.

End TallyFacts.

Module OrderFacts.
Import PyFacts SortFacts TallyFacts.

Lemma nth_error_before {A} (l : list A) (i j : nat) (x y : A) :
  (i < j)%nat -> nth_error l i = Some x -> nth_error l j = Some y ->
  before x y l.
Proof.
  intros Hij Hi Hj.
  apply nth_error_split in Hi as [l1 [l2 [-> Hl]]].
  rewrite nth_error_app2 in Hj by lia.
  replace (j - List.length l1)%nat with (S (j - i - 1)) in Hj by lia.
  simpl in Hj. apply nth_error_split in Hj as [l3 [l4 [-> _]]].
  now exists l1, l3, l4.
Qed.

Lemma nth_error_firstn_some {A} (n : nat) (l : list A) (i : nat) (x : A) :
  nth_error (firstn n l) i = Some x -> nth_error l i = Some x.
Proof.
  revert l i. induction n as [|n IH]; intros l i; simpl.
  - destruct i; discriminate.
  - destruct l as [|a r]; [destruct i; discriminate|].
    destruct i as [|i]; simpl; [easy|apply IH].
Qed.

Lemma before_filter {A} (f : A -> bool) (l : list A) (x y : A) :
  before x y l -> f x = true -> f y = true -> before x y (filter f l).
Proof.
  intros [l1 [l2 [l3 ->]]] Hx Hy.
  exists (filter f l1), (filter f l2), (filter f l3).
  rewrite filter_app. simpl. rewrite Hx, filter_app. simpl. now rewrite Hy.
Qed.

Lemma before_cons {A} (a x y : A) (l : list A) :
  before x y l -> before x y (a :: l).
Proof. intros [l1 [l2 [l3 ->]]]. now exists (a :: l1), l2, l3. Qed.

Lemma before_filter_inv {A} (f : A -> bool) (l : list A) (x y : A) :
  before x y (filter f l) -> before x y l.
Proof.
  induction l as [|a r IH]; simpl.
  - intros [l1 [l2 [l3 E]]]. destruct l1; discriminate.
  - destruct (f a); [|intros H; apply before_cons; auto].
    intros [l1 [l2 [l3 E]]]. destruct l1 as [|b l1].
    + simpl in E. injection E as -> E.
      assert (Hy : In y r).
      { apply (proj1 (filter_In f y r)). rewrite E.
        apply in_or_app. right. now left. }
      apply in_split in Hy as [r1 [r2 ->]]. now exists [], r1, r2.
    + simpl in E. injection E as -> E. apply before_cons, IH.
      now exists l1, l2, l3.
Qed.

Lemma before_map_inv {A B} (g : A -> B) (l : list A) (x y : B) :
  before x y (map g l) ->
  exists p q, x = g p /\ y = g q /\ before p q l.
Proof.
  intros [l1 [l2 [l3 E]]].
  apply map_eq_app in E as [m1 [m2 [-> [_ E]]]].
  apply map_eq_cons in E as [p [m3 [-> [<- E]]]].
  apply map_eq_app in E as [m4 [m5 [-> [_ E]]]].
  apply map_eq_cons in E as [q [m6 [-> [<- _]]]].
  exists p, q. repeat split. now exists m1, m4, m6.
Qed.

Lemma first_index_cons_other (a p : str) (r : list str) :
  a <> p -> first_index p (a :: r) = S (first_index p r).
Proof.
  intros H. simpl. now rewrite (proj2 (str_eqb_neq a p) H).
Qed.

(** Among the distinct names, the order is that of the first occurrences. *)
Lemma before_fresh (seen names : list str) (p q : str) :
  before p q (fresh seen names) ->
  (first_index p names < first_index q names)%nat.
Proof.
  revert seen. induction names as [|a r IH]; intros seen; simpl fresh.
  - intros [l1 [l2 [l3 E]]]. destruct l1; discriminate.
  - destruct (in_names a seen) eqn:Ea.
    + intros H. apply in_names_In in Ea.
      assert (Hp : In p (fresh seen r) /\ In q (fresh seen r)).
      { destruct H as [l1 [l2 [l3 E]]]. rewrite E. split.
        - apply in_or_app. right. now left.
        - apply in_or_app. right. right. apply in_or_app. right. now left. }
      destruct Hp as [Hp Hq].
      apply fresh_in in Hp as [_ Hp]. apply fresh_in in Hq as [_ Hq].
      rewrite !first_index_cons_other by (intros ->; contradiction).
      apply IH in H. lia.
    + intros [l1 [l2 [l3 E]]]. destruct l1 as [|b l1].
      * simpl in E. injection E as Eap E. subst p.
        assert (Hq : In q (fresh (a :: seen) r)).
        { rewrite E. apply in_or_app. right. now left. }
        apply fresh_in in Hq as [_ Hq].
        rewrite (first_index_cons_other a q) by (intros ->; apply Hq; now left).
        simpl. rewrite str_eqb_refl. lia.
      * simpl in E. injection E as Eab E. subst b.
        assert (Hp : In p (fresh (a :: seen) r) /\ In q (fresh (a :: seen) r)).
        { rewrite E. split.
          - apply in_or_app. right. now left.
          - apply in_or_app. right. right. apply in_or_app. right. now left. }
        destruct Hp as [Hp Hq].
        apply fresh_in in Hp as [_ Hp]. apply fresh_in in Hq as [_ Hq].
        rewrite !first_index_cons_other by (intros ->; simpl in *; tauto).
        assert (B : before p q (fresh (a :: seen) r)) by (now exists l1, l2, l3).
        apply IH in B. lia.
Qed.

Lemma descending_app {A} (key : A -> Z) (l1 l2 : list A) :
  descending key (l1 ++ l2) ->
  descending key l1 /\ forall x y, In x l1 -> In y l2 -> key y <= key x.
Proof.
  induction l1 as [|a r IH]; simpl.
  - intros _. split; [exact I|easy].
  - intros [Ha Hr]. apply IH in Hr as [Hr1 Hr2]. split.
    + split; [|assumption]. intros y Hy. apply Ha. apply in_or_app. now left.
    + intros x y [<-|Hx] Hy; [|now apply Hr2].
      apply Ha. apply in_or_app. now right.
Qed.

Lemma occurrences_perm (p : str) (l l' : list str) :
  Permutation l l' -> occurrences p l = occurrences p l'.
Proof. induction 1; simpl; lia. Qed.

Lemma occurrences_positive (p : str) (l : list str) :
  In p l -> 1 <= occurrences p l.
Proof.
  induction l as [|a r IH]; simpl; [easy|].
  assert (N : 0 <= occurrences p r).
  { clear. induction r as [|b r IH]; simpl; [lia|].
    destruct (str_eqb b p); lia. }
  intros [->|H]; [rewrite str_eqb_refl; lia|].
  specialize (IH H). destruct (str_eqb a p); lia.
Qed.

(** What [top_five] returns, in terms of the names it counted. *)
Lemma top_five_spec (rows : list entry) :
  ranking (map filename rows) (top_five rows).
Proof.
  unfold ranking. set (names := map filename rows). set (top := top_five rows).
  unfold top, top_five. fold names.
  set (T := tally names). set (S := sorted_reverse snd T).
  assert (PT : Permutation S T) by apply sorted_reverse_perm.
  assert (ET : T = map (with_occurrences names) (fresh [] names))
    by apply tally_spec.
  assert (KT : map fst T = fresh [] names).
  { rewrite ET, map_map. apply map_id. }
  assert (DS : descending snd S) by apply sorted_reverse_descending.
  assert (InT : forall p c, In (p, c) T -> In p names /\ c = occurrences p names).
  { intros p c H. rewrite ET in H. apply in_map_iff in H as [q [E H]].
    unfold with_occurrences in E. injection E as -> <-.
    apply fresh_in in H as [H _]. auto. }
  rewrite <- (firstn_skipn 5 S) in DS.
  apply descending_app in DS as [D1 D2].
  split; [apply firstn_le_length|].
  split.
  { assert (N : NoDup (map fst S)).
    { apply Permutation_NoDup with (l := map fst T).
      - symmetry. now apply Permutation_map.
      - rewrite KT. apply fresh_NoDup. }
    rewrite <- (firstn_skipn 5 S), map_app in N.
    now apply NoDup_app_remove_r in N. }
  split.
  { intros p c H. apply InT. apply (Permutation_in _ PT).
    rewrite <- (firstn_skipn 5 S). apply in_or_app. now left. }
  split; [assumption|].
  split.
  { intros i j p q c Hij Hi Hj.
    apply nth_error_firstn_some in Hi, Hj.
    pose proof (nth_error_before S i j _ _ Hij Hi Hj) as B.
    apply (before_filter (fun x => snd x =? c)) in B;
      [|simpl; apply Z.eqb_refl|simpl; apply Z.eqb_refl].
    unfold S in B. rewrite sorted_reverse_stable in B.
    apply before_filter_inv in B. rewrite ET in B.
    apply before_map_inv in B as [p' [q' [Ep [Eq B]]]].
    unfold with_occurrences in Ep, Eq.
    injection Ep as -> _. injection Eq as -> _.
    now apply before_fresh in B. }
  intros p Hp Hn.
  assert (HS : In (p, occurrences p names) S).
  { apply (Permutation_in _ (Permutation_sym PT)). rewrite ET.
    apply in_map_iff. exists p. split; [reflexivity|].
    apply fresh_in. auto. }
  rewrite <- (firstn_skipn 5 S) in HS. apply in_app_or in HS as [HS|HS].
  { exfalso. apply Hn. apply in_map_iff. now exists (p, occurrences p names). }
  split.
  - apply firstn_length_le.
    destruct (Nat.le_gt_cases 5 (List.length S)) as [L|L]; [assumption|].
    rewrite skipn_all2 in HS by lia. destruct HS.
  - intros q c Hq. apply (D2 (q, c) (p, occurrences p names) Hq HS).
Qed.

(** Of two sources with equal counts on either side of the cut of five,
    the one kept is the one met first. *)
Lemma top_five_cut (rows : list entry) (p q : str) (c : Z) :
  In p (map filename rows) -> ~ In p (map fst (top_five rows)) ->
  In (q, c) (top_five rows) -> occurrences p (map filename rows) = c ->
  (first_index q (map filename rows) < first_index p (map filename rows))%nat.
Proof.
  set (names := map filename rows). unfold top_five. fold names.
  set (T := tally names). set (S := sorted_reverse snd T).
  intros Hp Hn Hq Hc.
  assert (PT : Permutation S T) by apply sorted_reverse_perm.
  assert (ET : T = map (with_occurrences names) (fresh [] names))
    by apply tally_spec.
  assert (HS : In (p, c) (skipn 5 S)).
  { assert (H : In (p, c) S).
    { apply (Permutation_in _ (Permutation_sym PT)). rewrite ET.
      apply in_map_iff. exists p. split; [now rewrite <- Hc|].
      apply fresh_in. auto. }
    rewrite <- (firstn_skipn 5 S) in H. apply in_app_or in H as [H|H];
      [|assumption].
    exfalso. apply Hn. apply in_map_iff. now exists (p, c). }
  assert (B : before (q, c) (p, c) S).
  { apply in_split in Hq as [l1 [l2 E1]]. apply in_split in HS as [l3 [l4 E2]].
    exists l1, (l2 ++ l3), l4.
    rewrite <- (firstn_skipn 5 S), E1, E2, <- !app_assoc. reflexivity. }
  apply (before_filter (fun x => snd x =? c)) in B;
    [|simpl; apply Z.eqb_refl|simpl; apply Z.eqb_refl].
  unfold S in B. rewrite sorted_reverse_stable in B.
  apply before_filter_inv in B. rewrite ET in B.
  apply before_map_inv in B as [q' [p' [Eq [Ep B]]]].
  unfold with_occurrences in Ep, Eq.
  injection Ep as -> _. injection Eq as -> _.
  now apply before_fresh in B.
Qed.

Lemma top_five_to_the_cut (rows : list entry) :
  ranking_to_the_cut (map filename rows) (top_five rows).
Proof.
  split; [apply top_five_spec|].
  intros p Hp Hn q c Hq Hc. now apply (top_five_cut rows p q c).
Qed.

(** *** The ranking is determined *)

Lemma ahead_asym (names : list str) (p q : str) :
  ahead names p q -> ahead names q p -> False.
Proof. unfold ahead. intros [H|[H1 H2]] [K|[K1 K2]]; lia. Qed.

(** Two lists in which every element stands ahead of those behind it,
    and which hold the same elements, are equal. *)
Lemma pairwise_unique {A} (R : A -> A -> Prop) (l l' : list A) :
  (forall x y, R x y -> R y x -> False) ->
  ForallOrdPairs R l -> ForallOrdPairs R l' ->
  (forall x, In x l <-> In x l') -> l = l'.
Proof.
  intros Asym. revert l'. induction l as [|x t IH]; intros l' H H' E.
  - destruct l' as [|x' t']; [reflexivity|].
    destruct (proj2 (E x') (or_introl eq_refl)).
  - destruct l' as [|x' t']; [destruct (proj1 (E x) (or_introl eq_refl))|].
    inversion H as [|? ? Hx Ht]; subst. inversion H' as [|? ? Hx' Ht']; subst.
    rewrite Forall_forall in Hx, Hx'.
    assert (Ex : x = x').
    { destruct (proj1 (E x) (or_introl eq_refl)) as [Q|Q]; [now symmetry|].
      destruct (proj2 (E x') (or_introl eq_refl)) as [Q'|Q']; [assumption|].
      exfalso. exact (Asym _ _ (Hx _ Q') (Hx' _ Q)). }
    subst x'. f_equal. apply IH; [assumption|assumption|].
    intros y. split; intros Hy.
    + destruct (proj1 (E y) (or_intror Hy)) as [<-|Q]; [|assumption].
      exfalso. exact (Asym _ _ (Hx _ Hy) (Hx _ Hy)).
    + destruct (proj2 (E y) (or_intror Hy)) as [<-|Q]; [|assumption].
      exfalso. exact (Asym _ _ (Hx' _ Hy) (Hx' _ Hy)).
Qed.

(** In a ranking every source stands ahead of those listed behind it. *)
Lemma ranking_pairwise (names : list str) (top : list (str * Z)) :
  (forall p c, In (p, c) top -> c = occurrences p names) ->
  descending snd top ->
  (forall i j p q c, (i < j)%nat ->
     nth_error top i = Some (p, c) -> nth_error top j = Some (q, c) ->
     (first_index p names < first_index q names)%nat) ->
  ForallOrdPairs (fun x y => ahead names (fst x) (fst y)) top.
Proof.
  induction top as [|[p c] t IH]; intros Hc D Tie; [constructor|].
  destruct D as [Dx Dt]. constructor.
  - apply Forall_forall. intros [q d] Hq.
    pose proof (Hc p c (or_introl eq_refl)) as Ep.
    pose proof (Hc q d (or_intror Hq)) as Eq.
    pose proof (Dx _ Hq) as Le. cbn [snd fst] in *.
    destruct (Z.eq_dec d c) as [->|Ne].
    + right. split; [congruence|].
      apply In_nth_error in Hq as [k Hk].
      apply (Tie 0%nat (S k) p q c); [lia|reflexivity|exact Hk].
    + left. lia.
  - apply IH; [|assumption|].
    + intros q d Hq. apply Hc. now right.
    + intros i j q r d Hij Hi Hj.
      apply (Tie (S i) (S j) q r d); [lia|exact Hi|exact Hj].
Qed.

(** A source that is left out stands behind every source listed. *)
Lemma left_out_behind (names : list str) (top : list (str * Z)) (p q : str)
    (c : Z) :
  ranking_to_the_cut names top ->
  In p names -> ~ In p (map fst top) -> In (q, c) top ->
  List.length top = 5%nat /\ ahead names q p.
Proof.
  intros [(_ & _ & Hc & _ & _ & Out) Cut] Hp Hn Hq.
  destruct (Out p Hp Hn) as [L Le]. split; [exact L|].
  destruct (Hc q c Hq) as [_ Eq]. specialize (Le q c Hq).
  destruct (Z.eq_dec (occurrences p names) c) as [E|Ne].
  - right. split; [congruence|]. now apply (Cut p Hp Hn q c).
  - left. lia.
Qed.

Lemma incl_or_not {A} (dec : forall x y : A, {x = y} + {x <> y})
    (l l' : list A) :
  incl l l' \/ exists q, In q l /\ ~ In q l'.
Proof.
  induction l as [|a l IH].
  - left. intros x [].
  - destruct (in_dec dec a l') as [Ha|Ha]; [|right; exists a; split; [now left|assumption]].
    destruct IH as [IH|[q [Hq Hn]]].
    + left. intros x [<-|Hx]; [assumption|now apply IH].
    + right. exists q. split; [now right|assumption].
Qed.

Lemma ranking_sources_incl (names : list str) (top top' : list (str * Z)) :
  ranking_to_the_cut names top -> ranking_to_the_cut names top' ->
  incl (map fst top) (map fst top').
Proof.
  intros R R' p Hp.
  destruct (in_dec (list_eq_dec ascii_dec) p (map fst top')) as [|Hn];
    [assumption|exfalso].
  pose proof R as [(L & _ & Hc & _) _].
  pose proof R' as [(_ & N' & Hc' & _) _].
  apply in_map_iff in Hp as [[p0 c] [E Hp]]. cbn [fst] in E. subst p0.
  destruct (Hc p c Hp) as [Hnames _].
  destruct (incl_or_not (list_eq_dec ascii_dec) (map fst top') (map fst top))
    as [I|[q [Hq Hnq]]].
  - destruct top' as [|[q d] t'].
    + assert (In p (map fst top)) by (apply in_map_iff; now exists (p, c)).
      pose proof (proj1 R) as (_ & _ & _ & _ & _ & Out).
      destruct (proj1 R') as (_ & _ & _ & _ & _ & Out').
      destruct (Out' p Hnames Hn) as [L5 _]. discriminate.
    + destruct (left_out_behind names _ p q d R' Hnames Hn (or_introl eq_refl))
        as [L5 _].
      apply Hn.
      apply (NoDup_length_incl (l := map fst ((q, d) :: t'))
               (l' := map fst top) N'); [|exact I|].
      * rewrite !length_map, L5. exact L.
      * apply in_map_iff. now exists (p, c).
  - apply in_map_iff in Hq as [[q0 d] [E Hq]]. cbn [fst] in E. subst q0.
    destruct (Hc' q d Hq) as [Hqn _].
    destruct (left_out_behind names _ q p c R Hqn Hnq Hp) as [_ A1].
    destruct (left_out_behind names _ p q d R' Hnames Hn Hq) as [_ A2].
    exact (ahead_asym names p q A1 A2).
Qed.

(** There is one ranking to the cut and no other. *)
Lemma ranking_unique (names : list str) (top top' : list (str * Z)) :
  ranking_to_the_cut names top -> ranking_to_the_cut names top' ->
  top' = top.
Proof.
  intros R R'.
  pose proof R as [(_ & _ & Hc & D & Tie & _) _].
  pose proof R' as [(_ & _ & Hc' & D' & Tie' & _) _].
  apply (pairwise_unique (fun x y => ahead names (fst x) (fst y))).
  - intros x y. apply ahead_asym.
  - apply ranking_pairwise; [intros p c H; now apply Hc'|assumption|assumption].
  - apply ranking_pairwise; [intros p c H; now apply Hc|assumption|assumption].
  - assert (G : forall t t', ranking_to_the_cut names t ->
                             ranking_to_the_cut names t' ->
                             forall x, In x t -> In x t').
    { intros t t' Rt Rt' [p c] Hx.
      pose proof Rt as [(_ & _ & Ht & _) _].
      pose proof Rt' as [(_ & _ & Ht' & _) _].
      assert (Hp : In p (map fst t)) by (apply in_map_iff; now exists (p, c)).
      apply (ranking_sources_incl names t t' Rt Rt') in Hp.
      apply in_map_iff in Hp as [[p0 c'] [E Hp]]. cbn [fst] in E. subst p0.
      destruct (Ht p c Hx) as [_ ->]. destruct (Ht' p c' Hp) as [_ E].
      now rewrite <- E. }
    intros x. split; now apply G.
Qed.

End OrderFacts.

(** C5 (as amended). The top programs of [get_log_stats] are the ranking
    of the file names of the rows of [read_log], taken in the order of
    these rows, that is by descending call number: at most five sources,
    each with its number of rows, by descending count; sources with equal
    counts come in the order of their first row there, and not in the
    order in which the scan of the locations met them; and the same rule
    decides which sources are kept when more than five are there. This
    determines the list: no other list is such a ranking. Three rows from
    [a] (twice) and [b] (once) give [[(a, 2); (b, 1)]]. *)
Theorem C5_top_programs
    (w : world) (total : nat) (most_recent oldest : str * str)
    (top : list (str * Z)) :
  get_log_stats w = (Ok (Stats total most_recent oldest top), w) ->
  exists rows,
    read_log w = (Ok rows, w)
    /\ ranking_to_the_cut (map filename rows) top
    /\ (forall top', ranking_to_the_cut (map filename rows) top' -> top' = top)
    /\ (forall a b, a <> b -> Permutation (map filename rows) [a; a; b] ->
        top = [(a, 2); (b, 1)]).
Proof.
  rewrite StatsFacts.get_log_stats_run. intros H.
  exists (sorted_reverse number (merged true w)).
  split; [apply MergeFacts.read_log_run|].
  destruct (sorted_reverse number (merged true w)) as [|newest rest];
    [discriminate|].
  injection H as _ _ _ <-.
  split; [apply OrderFacts.top_five_to_the_cut|].
  split.
  { intros top' R'.
    exact (OrderFacts.ranking_unique _ _ _
             (OrderFacts.top_five_to_the_cut (newest :: rest)) R'). }
  intros a b Hab P. unfold top_five.
  generalize dependent (map filename (newest :: rest)). intros names P.
  assert (Ea : occurrences a names = 2).
  { rewrite (OrderFacts.occurrences_perm a _ _ P). simpl.
    rewrite PyFacts.str_eqb_refl.
    now rewrite (proj2 (PyFacts.str_eqb_neq b a)) by congruence. }
  assert (Eb : occurrences b names = 1).
  { rewrite (OrderFacts.occurrences_perm b _ _ P). simpl.
    rewrite PyFacts.str_eqb_refl.
    now rewrite (proj2 (PyFacts.str_eqb_neq a b)) by congruence. }
  pose proof (Permutation_length P) as L.
  destruct names as [|x [|y [|z [|? ?]]]]; try discriminate.
  assert (Hx : In x [a; a; b]) by (apply (Permutation_in _ P); simpl; auto).
  assert (Hy : In y [a; a; b]) by (apply (Permutation_in _ P); simpl; auto).
  assert (Hz : In z [a; a; b]) by (apply (Permutation_in _ P); simpl; auto).
  pose proof (proj2 (PyFacts.str_eqb_neq a b) Hab) as Nab.
  assert (Nba : str_eqb b a = false) by (apply PyFacts.str_eqb_neq; congruence).
  simpl in Hx, Hy, Hz.
  destruct Hx as [<-|[<-|[<-|[]]]]; destruct Hy as [<-|[<-|[<-|[]]]];
    destruct Hz as [<-|[<-|[<-|[]]]];
    simpl in Ea, Eb;
    rewrite ?PyFacts.str_eqb_refl, ?Nab, ?Nba in Ea, Eb; try lia;
    unfold tally; simpl;
    rewrite ?PyFacts.str_eqb_refl, ?Nab, ?Nba; simpl;
    rewrite ?PyFacts.str_eqb_refl, ?Nab, ?Nba; simpl;
    rewrite ?PyFacts.str_eqb_refl, ?Nab, ?Nba; simpl; reflexivity.
Qed.

Lemma C5_witness :
  (get_log_stats world_three_runs
   = (Ok (Stats 3 (lit "2025-01-03", lit "10:00:00")
            (lit "2025-01-01", lit "10:00:00")
            [(lit "a.x", 2); (lit "b.x", 1)]), world_three_runs)
   /\ exists rows,
        read_log world_three_runs = (Ok rows, world_three_runs)
        /\ ranking_to_the_cut (map filename rows)
             [(lit "a.x", 2); (lit "b.x", 1)]
        /\ (forall top', ranking_to_the_cut (map filename rows) top' ->
            top' = [(lit "a.x", 2); (lit "b.x", 1)])
        /\ (forall a b, a <> b -> Permutation (map filename rows) [a; a; b] ->
            [(lit "a.x", 2); (lit "b.x", 1)] = [(a, 2); (b, 1)]))
  /\ (let top := [(lit "f.x", 1); (lit "e.x", 1); (lit "d.x", 1);
                  (lit "c.x", 1); (lit "b.x", 1)] in
      get_log_stats world_six_sources
      = (Ok (Stats 6 (lit "2025-01-06", lit "10:00:00")
               (lit "2025-01-01", lit "10:00:00") top), world_six_sources)
      /\ exists rows,
           read_log world_six_sources = (Ok rows, world_six_sources)
           /\ ranking_to_the_cut (map filename rows) top
           /\ (forall top', ranking_to_the_cut (map filename rows) top' ->
               top' = top)
           /\ (forall a b, a <> b ->
               Permutation (map filename rows) [a; a; b] ->
               top = [(a, 2); (b, 1)])).
Proof.
  split.
  - split; [reflexivity|].
    apply (C5_top_programs world_three_runs 3
             (lit "2025-01-03", lit "10:00:00")
             (lit "2025-01-01", lit "10:00:00")).
    reflexivity.
  - split; [reflexivity|].
    apply (C5_top_programs world_six_sources 6
             (lit "2025-01-06", lit "10:00:00")
             (lit "2025-01-01", lit "10:00:00")).
    reflexivity.
Defined.

(** C5 as worded fails: with ties in the order in which the scan of
    the locations first meets the sources, [a.x] would come first in
    [world_tie]; [get_log_stats] puts [b.x] first. *)
Lemma C5_counterexample : ~ ties_in_scan_order world_tie.
Proof.
  intros H.
  specialize (H 2%nat (lit "2025-01-02", lit "10:00:00")
                (lit "2025-01-01", lit "10:00:00")
                [(lit "b.x", 1); (lit "a.x", 1)] eq_refl).
  vm_compute in H. discriminate.
Qed.

(** ** Numbers to text and back *)

Module DecimalFacts.
Import PyFacts.

Lemma digit_char_ord (d : Z) : 0 <= d < 10 -> ord (digit_char d) = Z.to_N (48 + d).
Proof.
  intros H. unfold ord, digit_char. apply N_ascii_embedding. lia.
Qed.

Lemma digit_char_isdigit (d : Z) : 0 <= d < 10 -> isdigit (digit_char d) = true.
Proof.
  intros H. unfold isdigit. rewrite digit_char_ord by assumption.
  apply andb_true_iff. split; apply N.leb_le; lia.
Qed.

Lemma digit_char_value (d : Z) : 0 <= d < 10 -> digit_value (digit_char d) = d.
Proof.
  intros H. unfold digit_value. rewrite digit_char_ord by assumption. lia.
Qed.

Lemma int_digits_all_digits (s : str) (acc : Z) :
  forallb isdigit s = true -> int_digits acc s = Some (value_from acc s).
Proof.
  revert acc. induction s as [|c r IH]; intros acc H; [reflexivity|].
  simpl in *. apply andb_true_iff in H as [Hc Hr]. rewrite Hc. now apply IH.
Qed.

Lemma digits_fuel_spec (fuel : nat) (n : Z) (acc : str) :
  0 <= n < 2 ^ Z.of_nat (S fuel) ->
  exists ds, digits_fuel (S fuel) n acc = ds ++ acc
             /\ ds <> [] /\ forallb isdigit ds = true
             /\ forall a, value_from a ds = a * 10 ^ Z.of_nat (List.length ds) + n.
Proof.
  revert n acc. induction fuel as [|f IH]; intros n acc H;
    assert (D : 0 <= n mod 10 < 10) by (apply Z.mod_pos_bound; lia);
    cbn [digits_fuel]; destruct (n <? 10) eqn:E.
  1,3: apply Z.ltb_lt in E; exists [digit_char (n mod 10)];
       repeat split; [easy| |];
       [ simpl; now rewrite digit_char_isdigit
       | intros a; unfold value_from; cbn [fold_left List.length];
         rewrite digit_char_value by assumption;
         rewrite Z.mod_small by lia;
         change (Z.of_nat 1) with 1; rewrite Z.pow_1_r; lia ].
  - apply Z.ltb_ge in E. change (2 ^ Z.of_nat 1) with 2 in H. lia.
  - apply Z.ltb_ge in E.
    destruct (IH (n / 10) (digit_char (n mod 10) :: acc)) as [ds [E1 [E2 [E3 E4]]]].
    { split; [apply Z.div_pos; lia|].
      apply Z.div_lt_upper_bound; [lia|].
      rewrite (Nat2Z.inj_succ (S f)), Z.pow_succ_r in H by lia. lia. }
    exists (ds ++ [digit_char (n mod 10)]).
    cbn [digits_fuel] in E1. rewrite E1, <- app_assoc. repeat split.
    + destruct ds; easy.
    + rewrite forallb_app, E3. simpl. now rewrite digit_char_isdigit.
    + intros a. unfold value_from in *. rewrite fold_left_app.
      cbn [fold_left]. rewrite E4, digit_char_value by assumption.
      rewrite length_app, Nat2Z.inj_add. cbn [List.length].
      rewrite Z.pow_add_r by lia.
      change (Z.of_nat 1) with 1. rewrite Z.pow_1_r.
      pose proof (Z.div_mod n 10). lia.
Qed.

Lemma decimal_spec (n : Z) :
  0 <= n ->
  decimal n <> [] /\ forallb isdigit (decimal n) = true
  /\ value_from 0 (decimal n) = n.
Proof.
  intros H. unfold decimal.
  destruct (digits_fuel_spec (Z.to_nat (Z.log2 n)) n []) as [ds [E1 [E2 [E3 E4]]]].
  - split; [assumption|].
    rewrite Nat2Z.inj_succ, Z2Nat.id by apply Z.log2_nonneg.
    destruct (Z.eq_dec n 0) as [->|N]; [simpl; lia|].
    apply Z.log2_spec. lia.
  - rewrite E1, app_nil_r. repeat split; try assumption.
    rewrite E4. lia.
Qed.

Lemma lstrip_by_head (p : ascii -> bool) (c : ascii) (s : str) :
  p c = false -> lstrip_by p (c :: s) = c :: s.
Proof. intros H. simpl. now rewrite H. Qed.

Lemma rstrip_by_last (p : ascii -> bool) (s : str) (c : ascii) :
  p c = false -> rstrip_by p (s ++ [c]) = s ++ [c].
Proof.
  intros H. unfold rstrip_by. rewrite rev_app_distr. simpl.
  rewrite H. simpl. now rewrite rev_involutive.
Qed.

Lemma rstrip_by_drop (p : ascii -> bool) (s : str) (c : ascii) :
  p c = true -> rstrip_by p (s ++ [c]) = rstrip_by p s.
Proof.
  intros H. unfold rstrip_by. rewrite rev_app_distr. simpl. now rewrite H.
Qed.

Ltac decide_char_class :=
  repeat match goal with
         | |- context [(?a <=? ?b)%N] => destruct (N.leb_spec a b)
         | |- context [(?a =? ?b)%N] => destruct (N.eqb_spec a b)
         end;
  simpl; try reflexivity; try lia.

Lemma isdigit_not_space (c : ascii) :
  isdigit c = true -> isspace c = false /\ int_space c = false.
Proof.
  unfold isdigit, isspace, int_space. intros H.
  apply andb_true_iff in H as [H1 H2]. apply N.leb_le in H1, H2.
  split; decide_char_class.
Qed.

Lemma isdigit_not_char (c d : ascii) :
  isdigit c = true -> isdigit d = false -> char_eqb c d = false.
Proof.
  intros Hc Hd. apply char_eqb_neq. intros ->. congruence.
Qed.

(** The digits of a number are never empty; they start and end with a
    digit. *)
Lemma digits_ends (ds : str) :
  ds <> [] -> forallb isdigit ds = true ->
  (exists c r, ds = c :: r /\ isdigit c = true)
  /\ (exists r c, ds = r ++ [c] /\ isdigit c = true).
Proof.
  intros N H. split.
  - destruct ds as [|c r]; [easy|]. simpl in H.
    apply andb_true_iff in H as [H _]. now exists c, r.
  - destruct (exists_last N) as [r [c ->]].
    rewrite forallb_app in H. apply andb_true_iff in H as [_ H].
    simpl in H. apply andb_true_iff in H as [H _]. now exists r, c.
Qed.

Lemma int_of_digits (ds : str) :
  ds <> [] -> forallb isdigit ds = true -> int ds = Ok (value_from 0 ds).
Proof.
  intros N H. destruct (digits_ends ds N H) as [[c [r [E Hc]]] [r' [c' [E' Hc']]]].
  unfold int.
  assert (S1 : lstrip_by int_space ds = ds).
  { rewrite E. apply lstrip_by_head. now apply isdigit_not_space. }
  assert (S2 : rstrip_by int_space ds = ds).
  { rewrite E'. apply rstrip_by_last. now apply isdigit_not_space. }
  rewrite S1, S2. rewrite E at 1.
  rewrite (isdigit_not_char c "+"%char Hc eq_refl).
  rewrite (isdigit_not_char c "-"%char Hc eq_refl).
  unfold int_magnitude. rewrite E at 1. rewrite Hc.
  now rewrite int_digits_all_digits.
Qed.

(** [int(str(n)) == n] *)
Lemma int_str_of_int (n : Z) : int (str_of_int n) = Ok n.
Proof.
  unfold str_of_int. destruct (n <? 0) eqn:E.
  - apply Z.ltb_lt in E.
    destruct (decimal_spec (- n)) as [N [D V]]; [lia|].
    destruct (digits_ends _ N D) as [[c [r [Ec Hc]]] [r' [c' [E' Hc']]]].
    unfold int.
    rewrite (lstrip_by_head int_space "-"%char) by reflexivity.
    replace ("-"%char :: decimal (- n)) with (("-"%char :: r') ++ [c'])
      by (simpl; now rewrite <- E').
    rewrite rstrip_by_last by (now apply isdigit_not_space).
    simpl. rewrite <- E'.
    unfold int_magnitude. rewrite Ec at 1. rewrite Hc.
    rewrite int_digits_all_digits by assumption. rewrite V. f_equal. lia.
  - apply Z.ltb_ge in E.
    destruct (decimal_spec n E) as [N [D V]].
    rewrite int_of_digits by assumption. now rewrite V.
Qed.

End DecimalFacts.

(** ** Texts and their lines *)

Module LineFacts.
Import PyFacts.

Lemma lines_of_complete (body s : str) :
  no_newline body = true ->
  lines_of (body ++ LF :: s) = (body ++ [LF]) :: lines_of s.
Proof.
  induction body as [|c r IH]; intros H.
  - reflexivity.
  - simpl in H. apply andb_true_iff in H as [Hc Hr].
    apply negb_true_iff in Hc. cbn [app lines_of]. rewrite Hc.
    now rewrite (IH Hr).
Qed.

Lemma lines_of_partial (l : str) :
  l <> [] -> no_newline l = true -> lines_of l = [l].
Proof.
  induction l as [|c r IH]; intros N H; [easy|].
  simpl in H. apply andb_true_iff in H as [Hc Hr].
  apply negb_true_iff in Hc. cbn [lines_of]. rewrite Hc.
  destruct r as [|d r']; [reflexivity|].
  now rewrite IH.
Qed.

Lemma lines_of_complete_lines (M : list str) (s : str) :
  Forall complete M -> lines_of (List.concat M ++ s) = M ++ lines_of s.
Proof.
  induction 1 as [|l M [body [-> Hb]] _ IH]; [reflexivity|].
  simpl. rewrite <- !app_assoc. simpl.
  now rewrite lines_of_complete, IH.
Qed.

(** Splitting the concatenation of well-formed lines gives them back. *)
Lemma lines_of_concat (L : list str) :
  well_split L -> lines_of (List.concat L) = L.
Proof.
  intros [M [tail [-> [HM [->|[l [-> [N H]]]]]]]].
  - rewrite app_nil_r. rewrite <- (app_nil_r (List.concat M)).
    rewrite lines_of_complete_lines by assumption. simpl. apply app_nil_r.
  - rewrite concat_app. simpl. rewrite app_nil_r.
    rewrite lines_of_complete_lines by assumption.
    now rewrite lines_of_partial.
Qed.

Lemma lines_of_well_split (s : str) : well_split (lines_of s).
Proof.
  induction s as [|c r IH].
  - exists [], []. repeat split; [constructor|now left].
  - cbn [lines_of]. destruct (char_eqb c LF) eqn:E.
    + apply char_eqb_eq in E. subst c.
      destruct IH as [M [tail [-> [HM Ht]]]].
      exists ([LF] :: M), tail. repeat split; [|assumption].
      constructor; [|assumption]. now exists [].
    + destruct IH as [M [tail [E' [HM Ht]]]]. rewrite E'.
      destruct M as [|l M].
      * destruct Ht as [->|[l [-> [N H]]]]; simpl.
        -- exists [], [[c]]. repeat split; [constructor|].
           right. exists [c]. repeat split; [easy|].
           simpl. now rewrite E.
        -- exists [], [c :: l]. repeat split; [constructor|].
           right. exists (c :: l). repeat split; [easy|].
           simpl. now rewrite E, H.
      * simpl. exists ((c :: l) :: M), tail. repeat split; [|assumption].
        inversion HM as [|? ? [body [-> Hb]] HM']; subst.
        constructor; [|assumption].
        exists (c :: body). split; [reflexivity|]. simpl. now rewrite E, Hb.
Qed.

Lemma universal_newlines_same (s : str) :
  no_cr s = true -> universal_newlines false s = s.
Proof.
  induction s as [|c r IH]; intros H; [reflexivity|].
  simpl in H. apply andb_true_iff in H as [Hc Hr].
  apply negb_true_iff in Hc. cbn [universal_newlines]. rewrite Hc.
  rewrite andb_false_r. now rewrite IH.
Qed.

Lemma universal_newlines_no_cr (after_cr : bool) (s : str) :
  no_cr (universal_newlines after_cr s) = true.
Proof.
  revert after_cr. induction s as [|c r IH]; intros after_cr; [reflexivity|].
  cbn [universal_newlines]. destruct (char_eqb c CR) eqn:E.
  - simpl. apply IH.
  - destruct (char_eqb c LF && after_cr); [apply IH|].
    simpl. now rewrite E, IH.
Qed.

Lemma concat_lines_of (s : str) : List.concat (lines_of s) = s.
Proof.
  induction s as [|c r IH]; [reflexivity|].
  cbn [lines_of]. destruct (char_eqb c LF) eqn:E.
  - apply char_eqb_eq in E. subst c. simpl. now rewrite IH.
  - destruct (lines_of r) as [|l ls]; simpl in *; now rewrite <- IH.
Qed.

Lemma no_cr_concat (L : list str) :
  no_cr (List.concat L) = true <-> Forall (fun l => no_cr l = true) L.
Proof.
  unfold no_cr. induction L as [|l L IH]; simpl.
  - split; [constructor|reflexivity].
  - rewrite forallb_app, andb_true_iff, IH. split.
    + intros [H1 H2]. now constructor.
    + intros H. inversion H. auto.
Qed.

(** The lines of a text are well formed and hold no carriage return. *)
Lemma text_lines_shape (text : str) :
  well_split (text_lines text)
  /\ Forall (fun l => no_cr l = true) (text_lines text).
Proof.
  unfold text_lines. split; [apply lines_of_well_split|].
  apply no_cr_concat. rewrite concat_lines_of. apply universal_newlines_no_cr.
Qed.

(** Reading back what was written. *)
Lemma text_lines_concat (L : list str) :
  well_split L -> Forall (fun l => no_cr l = true) L ->
  text_lines (List.concat L) = L.
Proof.
  intros W C. unfold text_lines.
  rewrite universal_newlines_same by (now apply no_cr_concat).
  now apply lines_of_concat.
Qed.

Lemma well_split_filter (f : str -> bool) (L : list str) :
  well_split L -> well_split (filter f L).
Proof.
  intros [M [tail [-> [HM Ht]]]]. rewrite filter_app.
  exists (filter f M), (filter f tail). repeat split.
  - apply Forall_forall. intros l Hl. apply filter_In in Hl as [Hl _].
    revert l Hl. now apply Forall_forall.
  - destruct Ht as [->|[l [-> P]]]; [now left|].
    simpl. destruct (f l); [right; now exists l|now left].
Qed.

Lemma Forall_filter {A} (P : A -> Prop) (f : A -> bool) (L : list A) :
  Forall P L -> Forall P (filter f L).
Proof.
  rewrite !Forall_forall. intros H x Hx. apply filter_In in Hx as [Hx _]. auto.
Qed.

(** *** Texts whose pieces end in a newline *)

Lemma lines_of_snoc_nonempty (r : str) : lines_of (r ++ [LF]) <> [].
Proof.
  destruct r as [|c r]; cbn [app lines_of]; [easy|].
  destruct (char_eqb c LF); [easy|]. destruct (lines_of (r ++ [LF])); easy.
Qed.

Lemma universal_newlines_app_lf (b : bool) (A B : str) :
  universal_newlines b (A ++ LF :: B)
  = universal_newlines b (A ++ [LF]) ++ universal_newlines false B.
Proof.
  revert b. induction A as [|c r IH]; intros b.
  - destruct b; reflexivity.
  - cbn [app universal_newlines]. destruct (char_eqb c CR).
    + cbn [app]. now rewrite IH.
    + destruct (char_eqb c LF && b); [apply IH|]. cbn [app]. now rewrite IH.
Qed.

Lemma universal_newlines_ends (b : bool) (A : str) :
  b = false \/ A <> [] ->
  exists X, universal_newlines b (A ++ [LF]) = X ++ [LF].
Proof.
  revert b. induction A as [|c r IH]; intros b H.
  - destruct H as [->|H]; [|easy]. now exists [].
  - cbn [app universal_newlines]. destruct (char_eqb c CR).
    + destruct r as [|d r'].
      * now exists [].
      * destruct (IH true) as [X E]; [right; easy|]. rewrite E.
        now exists (LF :: X).
    + destruct (char_eqb c LF && b).
      * destruct (IH false) as [X E]; [now left|]. now exists X.
      * destruct (IH false) as [X E]; [now left|]. rewrite E.
        now exists (c :: X).
Qed.

Lemma lines_of_app_lf (X Y : str) :
  lines_of (X ++ LF :: Y) = lines_of (X ++ [LF]) ++ lines_of Y.
Proof.
  induction X as [|c r IH].
  - reflexivity.
  - cbn [app lines_of]. destruct (char_eqb c LF).
    + cbn [app]. now rewrite IH.
    + rewrite IH. pose proof (lines_of_snoc_nonempty r) as N.
      destruct (lines_of (r ++ [LF])); easy.
Qed.

(** A text that ends in a newline is read line by line whatever
    follows it. *)
Lemma text_lines_app (A B : str) :
  text_lines ((A ++ [LF]) ++ B) = text_lines (A ++ [LF]) ++ text_lines B.
Proof.
  unfold text_lines. rewrite <- app_assoc. cbn [app].
  rewrite universal_newlines_app_lf.
  destruct (universal_newlines_ends false A (or_introl eq_refl)) as [X ->].
  rewrite <- app_assoc. cbn [app]. apply lines_of_app_lf.
Qed.

Lemma lines_of_last (X : str) :
  exists M l, lines_of (X ++ [LF]) = M ++ [l ++ [LF]].
Proof.
  induction X as [|c r IH].
  - now exists [], [].
  - destruct IH as [M [l E]]. cbn [app lines_of]. rewrite E.
    destruct (char_eqb c LF).
    + now exists ([LF] :: M), l.
    + destruct M as [|m M]; cbn [app].
      * now exists [], (c :: l).
      * now exists ((c :: m) :: M), l.
Qed.

(** Its last line is complete. *)
Lemma text_lines_last (A : str) :
  exists M l, text_lines (A ++ [LF]) = M ++ [l ++ [LF]].
Proof.
  unfold text_lines.
  destruct (universal_newlines_ends false A (or_introl eq_refl)) as [X ->].
  apply lines_of_last.
Qed.

(** Its first line is what stands before the first line break. *)
Lemma text_lines_first (s : str) :
  exists later, text_lines (s ++ [LF]) = (first_line s ++ [LF]) :: later.
Proof.
  induction s as [|c r IH].
  - now exists [].
  - destruct IH as [later IH]. unfold text_lines in *.
    cbn [app universal_newlines first_line].
    destruct (char_eqb c CR) eqn:Ec.
    + rewrite orb_true_r. cbn [lines_of app]. eexists. reflexivity.
    + rewrite orb_false_r, andb_false_r. cbn [lines_of].
      destruct (char_eqb c LF) eqn:El.
      * eexists. reflexivity.
      * rewrite IH. now exists later.
Qed.

Lemma first_line_app (a s : str) :
  one_line a = true -> first_line (a ++ s) = a ++ first_line s.
Proof.
  induction a as [|c r IH]; intros H; [reflexivity|].
  cbn [one_line forallb] in H. apply andb_true_iff in H as [Hc Hr].
  apply negb_true_iff in Hc. cbn [app first_line]. rewrite Hc.
  f_equal. now apply IH.
Qed.

(** A prefix without line break lengthens the first line only. *)
Lemma text_lines_tail_prefix (a b : str) :
  one_line a = true -> tl (text_lines (a ++ b)) = tl (text_lines b).
Proof.
  induction a as [|c r IH]; intros H; [reflexivity|].
  cbn [one_line forallb] in H. apply andb_true_iff in H as [Hc Hr].
  apply negb_true_iff, orb_false_iff in Hc as [Hl Hcr].
  specialize (IH Hr). unfold text_lines in *.
  cbn [app universal_newlines]. rewrite Hcr, Hl. cbn [andb lines_of].
  rewrite Hl. destruct (lines_of (universal_newlines false (r ++ b))).
  - cbn [tl] in *. exact IH.
  - cbn [tl] in *. exact IH.
Qed.

End LineFacts.

(** ** C7: malformed lines *)

Module PruneFacts.
Import PyFacts LineFacts.


Lemma choose_filter {A B} (f : A -> option B) (keep : A -> bool) (l : list A) :
  (forall x, keep x = false -> f x = None) ->
  choose f (filter keep l) = choose f l.
Proof.
  intros H. induction l as [|x r IH]; [reflexivity|].
  simpl. destruct (keep x) eqn:K; simpl.
  - now rewrite IH.
  - now rewrite (H x K).
Qed.


Lemma malformed_no_entry (keep_path : bool) (line : str) :
  negb (malformed_for_view line) = false -> line_entry keep_path line = None.
Proof.
  unfold malformed_for_view, line_entry. intros H.
  apply negb_false_iff, andb_true_iff in H as [H1 H2].
  apply negb_true_iff in H1. rewrite H1.
  apply orb_true_iff in H2 as [H2|H2].
  - apply Nat.ltb_lt in H2.
    destruct (Nat.leb_spec 4 (List.length (split TAB (strip line)))); [lia|reflexivity].
  - destruct (4 <=? _)%nat; [|reflexivity].
    now destruct (int (item (split TAB (strip line)) 0)).
Qed.




Lemma entry_well_formed (keep_path : bool) (line : str) (e : entry) :
  line_entry keep_path line = Some e ->
  is_skipped line = false /\ malformed_for_view line = false.
Proof.
  intros H. destruct (malformed_for_view line) eqn:M.
  - rewrite malformed_no_entry in H by (now rewrite M). discriminate.
  - split; [|reflexivity]. unfold line_entry in H.
    destruct (is_skipped line); [discriminate|reflexivity].
Qed.

End PruneFacts.



(** ** C10 and C8 *)

Module RecordFacts.
Import PyFacts ScanFacts.

(** [log_execution] numbers the entry, formats it, and reports whether
    the insertion went through; it never raises. *)
Lemma log_execution_run (now : datetime) (self : frame) (w : world) :
  log_execution now self w
  = let n := max_from 0 (numbers_found w) + 1 in
    let log_entry :=
      format_entry n (strftime_date now) (strftime_time now)
                   (caller_name self) (caller_path self) in
    match insert_entry_at_top log_entry w with
    | (Ok _, w') => (Ok (Recorded n (caller_name self)), w')
    | (Raise e, w') => (Ok (WriteError e), w')
    end.
Proof.
  unfold log_execution, bind. rewrite get_next_call_number_run.
  unfold lift, get_caller_info, caller_name, caller_path. simpl.
  destruct (f_back self); unfold try_except, bind, ret;
    destruct (insert_entry_at_top _ w) as [[[]|e] w']; reflexivity.
Qed.

Lemma log_execution_total (now : datetime) (self : frame) (w : world) :
  exists fb w', log_execution now self w = (Ok fb, w').
Proof.
  rewrite log_execution_run. cbv zeta.
  destruct (insert_entry_at_top _ w) as [[[]|e] w']; eexists; eexists; reflexivity.
Qed.

Lemma split_at_last_slash_spec (p : str) :
  let '(head, tail) := split_at_last_slash p in
  p = head ++ tail
  /\ forallb (fun c => negb (char_eqb c "/"%char)) tail = true
  /\ (head = [] \/ exists h, head = h ++ ["/"%char]).
Proof.
  induction p as [|c r IH]; simpl.
  - repeat split. now left.
  - destruct (split_at_last_slash r) as [head tail].
    destruct IH as [E [T H]].
    destruct (char_eqb c "/"%char) eqn:Ec.
    + apply char_eqb_eq in Ec. subst c. repeat split.
      * simpl. now rewrite E.
      * assumption.
      * right. destruct H as [->|[h ->]]; [now exists []|now exists ("/"%char :: h)].
    + destruct head as [|d head'].
      * repeat split; [simpl in *; now rewrite E| |now left].
        simpl. now rewrite Ec, T.
      * repeat split; [simpl in *; now rewrite E|assumption|].
        right. destruct H as [H|[h H]]; [discriminate|].
        exists (c :: h). simpl. now rewrite H.
Qed.

End RecordFacts.

(** C10. [get_next_call_number] always returns a number that is at least
    one: it returns one when every number found is zero or negative, and
    the number [log_execution] gives a new entry is the one it returns. *)
Theorem C10_call_number_positive (w : world) :
  exists n,
    get_next_call_number w = (Ok n, w)
    /\ 1 <= n
    /\ (Forall (fun x => x <= 0) (numbers_found w) -> n = 1)
    /\ forall now self,
         exists fb w',
           log_execution now self w = (Ok fb, w')
           /\ (fb = Recorded n (caller_name self) \/ exists e, fb = WriteError e).
Proof.
  exists (max_from 0 (numbers_found w) + 1).
  split; [apply ScanFacts.get_next_call_number_run|].
  pose proof (ScanFacts.max_from_lower 0 (numbers_found w)) as L.
  split; [lia|]. split.
  - intros H.
    destruct (ScanFacts.max_from_attained 0 (numbers_found w)) as [E|E]; [lia|].
    rewrite Forall_forall in H. specialize (H _ E). lia.
  - intros now self. rewrite RecordFacts.log_execution_run. cbv zeta.
    destruct (insert_entry_at_top _ w) as [[[]|e] w'];
      eexists; eexists; split; try reflexivity; [now left|right; now exists e].
Qed.

Lemma C10_witness :
  Forall (fun x => x <= 0) (numbers_found world_below_one)
  /\ get_next_call_number world_below_one = (Ok 1, world_below_one).
Proof.
  assert (H : Forall (fun x => x <= 0) (numbers_found world_below_one)).
  { vm_compute. repeat constructor; discriminate. }
  split; [exact H|].
  destruct (C10_call_number_positive world_below_one) as [n [E [_ [One _]]]].
  rewrite E. now rewrite (One H).
Defined.



(** ** Inserting at the top *)

Module InsertFacts.
Import PyFacts LineFacts ScanFacts.

Lemma dirname_LOG_FILE : dirname LOG_FILE = LOG_DIR.
Proof. reflexivity. Qed.

Lemma write_file_run (p : str) (chunks : list str) (w : world) :
  write_file p chunks w
  = if writable w p
    then written w p (List.concat chunks)
    else (Raise OSError, w).
Proof.
  unfold write_file, writable. destruct (nodes w p) as [[|t]|]; reflexivity.
Qed.

Lemma save_file_run (p content : str) (w : world) :
  save_file p content w
  = if writable w p
    then (Ok tt, put_node w p (File content))
    else (Raise OSError, w).
Proof.
  unfold save_file, writable. destruct (nodes w p) as [[|t]|]; reflexivity.
Qed.

(** The two ways a write can end once the file is open. *)
Lemma written_cases (w : world) (p text : str) :
  written w p text = (Ok tt, put_node (opened w) p (File text))
  \/ exists k e, written w p text
                 = (Raise e, put_node (opened w) p (File (firstn k text))).
Proof.
  unfold written. destruct (hd None (cuts w)) as [[k e]|];
    [right; now exists k, e|now left].
Qed.

Lemma uncut_opened (w : world) : uncut w = true -> uncut (opened w) = true.
Proof.
  unfold uncut, opened. cbn [cuts]. destruct (cuts w) as [|c r]; [easy|].
  cbn [forallb tl]. intros H. now apply andb_true_iff in H as [_ H].
Qed.

Lemma uncut_written (w : world) (p text : str) :
  uncut w = true ->
  written w p text = (Ok tt, put_node (opened w) p (File text)).
Proof.
  unfold uncut, written. destruct (cuts w) as [|[[k e]|] r]; easy.
Qed.

Lemma uncut_with_log_dir (w : world) :
  uncut (with_log_dir w) = uncut w.
Proof.
  unfold with_log_dir. destruct (nodes w LOG_DIR); [reflexivity|].
  destruct (_ && _); reflexivity.
Qed.


Lemma ensure_log_directory_run (w : world) :
  ensure_log_directory w = (Ok tt, with_log_dir w).
Proof.
  unfold ensure_log_directory, with_log_dir. rewrite dirname_LOG_FILE.
  unfold bind, exists_. destruct (nodes w LOG_DIR) as [n|] eqn:E; [reflexivity|].
  cbn [negb]. unfold try_except_only, try_except, makedirs. rewrite E.
  destruct (parent_exists w LOG_DIR && may_write w LOG_DIR); reflexivity.
Qed.

Lemma create_log_file_header_run (w : world) :
  create_log_file_header w
  = if writable (with_log_dir w) LOG_FILE
    then written (with_log_dir w) LOG_FILE (List.concat HEADER)
    else (Raise OSError, with_log_dir w).
Proof.
  unfold create_log_file_header, bind. rewrite ensure_log_directory_run.
  apply write_file_run.
Qed.

Lemma classify_fold (lines : list str) (h d : list str) :
  fold_left classify lines (h, d)
  = (h ++ filter is_header lines,
     d ++ filter (fun l => negb (is_header l)) lines).
Proof.
  revert h d. induction lines as [|l r IH]; intros h d.
  - simpl. now rewrite !app_nil_r.
  - cbn [fold_left filter]. unfold classify at 2. fold (is_header l).
    destruct (is_header l); cbn [negb]; rewrite IH, <- app_assoc; reflexivity.
Qed.

(** The insertion once the file is there. *)
Lemma insert_into_existing (new_entry text : str) (w : world) :
  nodes w LOG_FILE = Some (File text) ->
  insert_entry_at_top new_entry w
  = if may_read w LOG_FILE
    then if writable w LOG_FILE
         then written w LOG_FILE
                (List.concat (laid_out (text_lines text) new_entry))
         else (Raise OSError, w)
    else (Raise OSError, w).
Proof.
  intros E. unfold insert_entry_at_top, bind, exists_. rewrite E.
  cbn [negb]. unfold ret at 1. unfold readlines. rewrite E.
  destruct (may_read w LOG_FILE); [|reflexivity].
  rewrite classify_fold. apply write_file_run.
Qed.

Lemma nodes_put_same (w : world) (p : str) (n : node) :
  nodes (put_node w p n) p = Some n.
Proof. unfold put_node. simpl. now rewrite str_eqb_refl. Qed.

Lemma nodes_put_other (w : world) (p q : str) (n : node) :
  str_eqb q p = false -> nodes (put_node w p n) q = nodes w q.
Proof. intros H. unfold put_node. simpl. now rewrite H. Qed.

Lemma header_lines : text_lines (List.concat HEADER) = HEADER.
Proof. reflexivity. Qed.

Lemma laid_out_header (new_entry : str) : laid_out HEADER new_entry = HEADER ++ [new_entry].
Proof. reflexivity. Qed.

(** What a successful insertion leaves behind. *)
Lemma insert_success (new_entry : str) (w w' : world) :
  insert_entry_at_top new_entry w = (Ok tt, w') ->
  nodes w' LOG_FILE
    = Some (File (List.concat (laid_out (primary_before w) new_entry)))
  /\ may_read w' LOG_FILE = true
  /\ (forall p, may_read w' p = may_read w p)
  /\ (forall p, str_eqb p LOG_FILE = false -> str_eqb p LOG_DIR = false ->
                nodes w' p = nodes w p).
Proof.
  unfold primary_before, lines_at.
  destruct (nodes w LOG_FILE) as [[|text]|] eqn:E.
  - unfold insert_entry_at_top, bind, exists_. rewrite E. cbn [negb].
    unfold ret at 1. unfold readlines. rewrite E. discriminate.
  - rewrite (insert_into_existing _ text) by assumption.
    destruct (may_read w LOG_FILE) eqn:R; [|discriminate].
    destruct (writable w LOG_FILE); [|discriminate].
    destruct (written_cases w LOG_FILE
                (List.concat (laid_out (text_lines text) new_entry)))
      as [->|[k [x0 ->]]]; [|discriminate].
    intros H. injection H as <-.
    split; [apply nodes_put_same|]. split; [exact R|].
    split; [reflexivity|].
    intros p Hp _. now rewrite nodes_put_other.
  - unfold insert_entry_at_top, bind at 1, exists_. rewrite E. cbn [negb].
    unfold bind at 1. rewrite create_log_file_header_run.
    destruct (writable (with_log_dir w) LOG_FILE); [|discriminate].
    destruct (written_cases (with_log_dir w) LOG_FILE (List.concat HEADER))
      as [->|[k [x0 ->]]]; [|discriminate].
    set (w2 := put_node (opened (with_log_dir w)) LOG_FILE
                 (File (List.concat HEADER))).
    assert (E2 : nodes w2 LOG_FILE = Some (File (List.concat HEADER)))
      by apply nodes_put_same.
    fold (insert_entry_at_top new_entry).
    intros H.
    assert (H' : insert_entry_at_top new_entry w2 = (Ok tt, w')).
    { rewrite <- H. unfold insert_entry_at_top, bind at 1, exists_.
      rewrite E2. reflexivity. }
    clear H. rewrite (insert_into_existing _ _ _ E2), header_lines in H'.
    destruct (may_read w2 LOG_FILE) eqn:R; [|discriminate].
    destruct (writable w2 LOG_FILE); [|discriminate].
    destruct (written_cases w2 LOG_FILE
                (List.concat (laid_out HEADER new_entry)))
      as [Q|[k [x0 Q]]]; rewrite Q in H'; [|discriminate].
    injection H' as <-.
    assert (W : forall p, str_eqb p LOG_DIR = false ->
                          nodes (with_log_dir w) p = nodes w p).
    { intros p Hp. unfold with_log_dir. destruct (nodes w LOG_DIR); [reflexivity|].
      destruct (_ && _); [|reflexivity]. now apply nodes_put_other. }
    assert (Rd : forall p, may_read (with_log_dir w) p = may_read w p).
    { intros p. unfold with_log_dir. destruct (nodes w LOG_DIR); [reflexivity|].
      destruct (_ && _); reflexivity. }
    split; [apply nodes_put_same|]. split; [exact R|].
    split; [intros p; apply Rd|].
    intros p Hp Hd. rewrite nodes_put_other by assumption.
    unfold w2. cbn [opened nodes]. rewrite nodes_put_other by assumption.
    now apply W.
Qed.

Lemma lines_at_put_other (w : world) (p q : str) (n : node) :
  str_eqb q p = false -> lines_at (put_node w p n) q = lines_at w q.
Proof.
  intros H. unfold lines_at. now rewrite nodes_put_other.
Qed.

Lemma lines_at_with_log_dir (w : world) (q : str) :
  str_eqb q LOG_DIR = false -> lines_at (with_log_dir w) q = lines_at w q.
Proof.
  intros H. unfold with_log_dir. destruct (nodes w LOG_DIR); [reflexivity|].
  destruct (_ && _); [|reflexivity]. now apply lines_at_put_other.
Qed.

Lemma lines_at_opened (w : world) (q : str) :
  lines_at (opened w) q = lines_at w q.
Proof. reflexivity. Qed.

(** What a failed insertion leaves behind when no write is cut short:
    the lines of every location as they were, except that a primary file
    that was missing may now hold the header. *)
Lemma insert_failure (new_entry : str) (w w' : world) (x : exn) :
  uncut w = true ->
  insert_entry_at_top new_entry w = (Raise x, w') ->
  (forall p, str_eqb p LOG_FILE = false -> str_eqb p LOG_DIR = false ->
             lines_at w' p = lines_at w p)
  /\ (lines_at w' LOG_FILE = lines_at w LOG_FILE
      \/ (lines_at w LOG_FILE = [] /\ lines_at w' LOG_FILE = HEADER)).
Proof.
  intros U.
  destruct (nodes w LOG_FILE) as [[|text]|] eqn:E.
  - unfold insert_entry_at_top, bind, exists_. rewrite E. cbn [negb].
    unfold ret at 1. unfold readlines. rewrite E.
    intros H. injection H as _ <-. split; [reflexivity|now left].
  - rewrite (insert_into_existing _ text) by assumption.
    rewrite (uncut_written w) by assumption.
    destruct (may_read w LOG_FILE); [destruct (writable w LOG_FILE)|];
      try discriminate; intros H; injection H as _ <-;
      (split; [reflexivity|now left]).
  - unfold insert_entry_at_top, bind at 1, exists_. rewrite E. cbn [negb].
    unfold bind at 1. rewrite create_log_file_header_run.
    assert (L0 : lines_at w LOG_FILE = []) by (unfold lines_at; now rewrite E).
    rewrite (uncut_written (with_log_dir w))
      by (now rewrite uncut_with_log_dir).
    destruct (writable (with_log_dir w) LOG_FILE).
    + set (w2 := put_node (opened (with_log_dir w)) LOG_FILE
                   (File (List.concat HEADER))).
      assert (E2 : nodes w2 LOG_FILE = Some (File (List.concat HEADER)))
        by apply nodes_put_same.
      assert (U2 : uncut w2 = true).
      { change (uncut w2) with (uncut (opened (with_log_dir w))).
        apply uncut_opened. now rewrite uncut_with_log_dir. }
      fold (insert_entry_at_top new_entry).
      intros H.
      assert (H' : insert_entry_at_top new_entry w2 = (Raise x, w')).
      { rewrite <- H. unfold insert_entry_at_top, bind at 1, exists_.
        rewrite E2. reflexivity. }
      clear H. rewrite (insert_into_existing _ _ _ E2), header_lines in H'.
      rewrite (uncut_written w2) in H' by assumption.
      assert (Q : w' = w2).
      { destruct (may_read w2 LOG_FILE); [destruct (writable w2 LOG_FILE)|];
          try discriminate; now injection H' as _ <-. }
      subst w'. split.
      * intros p Hp Hd. unfold w2.
        now rewrite lines_at_put_other, lines_at_opened, lines_at_with_log_dir.
      * assert (L2 : lines_at w2 LOG_FILE
                     = if may_read w2 LOG_FILE then HEADER else []).
        { unfold lines_at. rewrite E2, header_lines. reflexivity. }
        rewrite L2, L0.
        destruct (may_read w2 LOG_FILE); [right; now split|now left].
    + intros H. injection H as _ <-. split.
      * intros p _ Hd. now apply lines_at_with_log_dir.
      * left. now apply lines_at_with_log_dir.
Qed.

(** An insertion leaves the writes to come uncut when they were. *)
Lemma insert_keeps_uncut (new_entry : str) (w : world) :
  uncut w = true -> uncut (snd (insert_entry_at_top new_entry w)) = true.
Proof.
  intros U.
  destruct (nodes w LOG_FILE) as [[|text]|] eqn:E.
  - unfold insert_entry_at_top, bind, exists_. rewrite E. cbn [negb].
    unfold ret at 1. unfold readlines. now rewrite E.
  - rewrite (insert_into_existing _ text) by assumption.
    rewrite (uncut_written w) by assumption.
    destruct (may_read w LOG_FILE); [destruct (writable w LOG_FILE)|];
      cbn [snd]; try assumption.
    change (uncut (opened w) = true). now apply uncut_opened.
  - unfold insert_entry_at_top, bind at 1, exists_. rewrite E. cbn [negb].
    unfold bind at 1. rewrite create_log_file_header_run.
    rewrite (uncut_written (with_log_dir w))
      by (now rewrite uncut_with_log_dir).
    destruct (writable (with_log_dir w) LOG_FILE).
    + set (w2 := put_node (opened (with_log_dir w)) LOG_FILE
                   (File (List.concat HEADER))).
      assert (E2 : nodes w2 LOG_FILE = Some (File (List.concat HEADER)))
        by apply nodes_put_same.
      assert (U2 : uncut w2 = true).
      { change (uncut w2) with (uncut (opened (with_log_dir w))).
        apply uncut_opened. now rewrite uncut_with_log_dir. }
      fold (insert_entry_at_top new_entry).
      match goal with
      | |- uncut (snd ?c) = true =>
          assert (H : c = insert_entry_at_top new_entry w2)
      end.
      { unfold insert_entry_at_top, bind at 2, exists_.
        rewrite E2. reflexivity. }
      rewrite H, (insert_into_existing _ _ _ E2).
      rewrite (uncut_written w2) by assumption.
      destruct (may_read w2 LOG_FILE); [destruct (writable w2 LOG_FILE)|];
        cbn [snd]; try assumption.
      change (uncut (opened w2) = true). now apply uncut_opened.
    + cbn [snd]. now rewrite uncut_with_log_dir.
Qed.

End InsertFacts.

(** ** The line of a new entry *)

Module EntryFacts.
Import PyFacts LineFacts DecimalFacts.

Lemma forallb_impl {A} (P Q : A -> bool) (l : list A) :
  (forall x, P x = true -> Q x = true) ->
  forallb P l = true -> forallb Q l = true.
Proof.
  intros H. rewrite !forallb_forall. auto.
Qed.

Lemma isdigit_plain (c : ascii) : isdigit c = true -> plain c = true.
Proof.
  intros H. unfold plain. apply negb_true_iff.
  rewrite (isdigit_not_char c TAB H eq_refl), (isdigit_not_char c LF H eq_refl),
    (isdigit_not_char c CR H eq_refl). reflexivity.
Qed.

Lemma plain_not_tab (c : ascii) : plain c = true -> negb (char_eqb c TAB) = true.
Proof. unfold plain. destruct (char_eqb c TAB); [discriminate|reflexivity]. Qed.

Lemma plain_not_lf (c : ascii) : plain c = true -> negb (char_eqb c LF) = true.
Proof.
  unfold plain. destruct (char_eqb c LF); [|reflexivity].
  rewrite orb_true_r. discriminate.
Qed.

Lemma plain_not_cr (c : ascii) : plain c = true -> negb (char_eqb c CR) = true.
Proof.
  unfold plain. destruct (char_eqb c CR); [|reflexivity].
  rewrite orb_true_r. discriminate.
Qed.

Lemma plain_one_line (c : ascii) :
  plain c = true -> negb (char_eqb c LF || char_eqb c CR) = true.
Proof.
  intros H. pose proof (plain_not_lf c H) as H1. pose proof (plain_not_cr c H) as H2.
  apply negb_true_iff in H1, H2. now rewrite H1, H2.
Qed.

Lemma one_line_not_lf (c : ascii) :
  negb (char_eqb c LF || char_eqb c CR) = true -> negb (char_eqb c LF) = true.
Proof. destruct (char_eqb c LF); [discriminate|reflexivity]. Qed.

Lemma one_line_not_cr (c : ascii) :
  negb (char_eqb c LF || char_eqb c CR) = true -> negb (char_eqb c CR) = true.
Proof.
  destruct (char_eqb c CR); [|reflexivity]. rewrite orb_true_r. discriminate.
Qed.

Lemma zero_pad_digits (width : nat) (n : Z) :
  0 <= n -> forallb isdigit (zero_pad width n) = true.
Proof.
  intros H. unfold zero_pad. rewrite forallb_app.
  destruct (decimal_spec n H) as [_ [D _]]. rewrite D, andb_true_r.
  apply forallb_forall. intros c Hc. apply repeat_spec in Hc. now subst.
Qed.

Lemma strftime_date_plain (now : datetime) :
  forallb plain (strftime_date now) = true.
Proof.
  unfold strftime_date.
  rewrite !forallb_app; cbn [forallb]; rewrite !forallb_app; cbn [forallb].
  rewrite !(forallb_impl _ _ _ isdigit_plain (zero_pad_digits _ _ (Nat2Z.is_nonneg _))).
  reflexivity.
Qed.

Lemma strftime_time_plain (now : datetime) :
  forallb plain (strftime_time now) = true.
Proof.
  unfold strftime_time.
  rewrite !forallb_app; cbn [forallb]; rewrite !forallb_app; cbn [forallb].
  rewrite !(forallb_impl _ _ _ isdigit_plain (zero_pad_digits _ _ (Nat2Z.is_nonneg _))).
  reflexivity.
Qed.

(** The name reported for a caller is made of characters of its path. *)
Lemma basename_chars (P : ascii -> bool) (p : str) :
  forallb P p = true -> forallb P (basename p) = true.
Proof.
  unfold basename.
  pose proof (RecordFacts.split_at_last_slash_spec p) as H.
  destruct (split_at_last_slash p) as [head tail]. destruct H as [E _].
  intros F. rewrite E, forallb_app in F. simpl.
  now apply andb_true_iff in F as [_ F].
Qed.

Lemma caller_name_chars (P : ascii -> bool) (self : frame) :
  forallb P (caller_path self) = true -> forallb P (caller_name self) = true.
Proof.
  unfold caller_path, caller_name. destruct (f_back self); [|easy].
  apply basename_chars.
Qed.

(** The digits of a call number that is not negative. *)
Lemma str_of_int_digits (n : Z) :
  0 <= n ->
  forallb isdigit (str_of_int n) = true
  /\ exists c r, str_of_int n = c :: r /\ isdigit c = true.
Proof.
  intros H. unfold str_of_int.
  destruct (Z.ltb_spec n 0) as [L|_]; [lia|].
  destruct (decimal_spec n H) as [N [D _]]. split; [assumption|].
  now destruct (digits_ends _ N D) as [[c [r [E Hc]]] _]; exists c, r.
Qed.

(** A new entry is one complete line, provided the caller's path holds
    no line break. *)
Lemma format_entry_line (n : Z) (now : datetime) (self : frame) :
  0 <= n -> one_line (caller_path self) = true ->
  let e := format_entry n (strftime_date now) (strftime_time now)
                        (caller_name self) (caller_path self) in
  complete e /\ no_cr e = true.
Proof.
  intros Hn Hp e. unfold e, format_entry.
  destruct (str_of_int_digits n Hn) as [D _].
  pose proof (forallb_impl _ _ _ isdigit_plain D) as D'.
  pose proof (strftime_date_plain now) as Hd.
  pose proof (strftime_time_plain now) as Ht.
  pose proof (caller_name_chars _ self Hp) as Hc.
  unfold one_line in Hp. split.
  - exists (str_of_int n ++ TAB :: strftime_date now ++ TAB :: strftime_time now
            ++ TAB :: caller_name self ++ TAB :: caller_path self).
    split.
    + now rewrite <- !app_assoc, <- !app_comm_cons, <- !app_assoc,
        <- !app_comm_cons, <- !app_assoc, <- !app_comm_cons, <- !app_assoc.
    + unfold no_newline.
      repeat (rewrite forallb_app || cbn [forallb]).
      rewrite (forallb_impl _ _ _ plain_not_lf D'),
        (forallb_impl _ _ _ plain_not_lf Hd),
        (forallb_impl _ _ _ plain_not_lf Ht),
        (forallb_impl _ _ _ one_line_not_lf Hc),
        (forallb_impl _ _ _ one_line_not_lf Hp).
      reflexivity.
  - unfold no_cr.
    repeat (rewrite forallb_app || cbn [forallb]).
    rewrite (forallb_impl _ _ _ plain_not_cr D'),
      (forallb_impl _ _ _ plain_not_cr Hd),
      (forallb_impl _ _ _ plain_not_cr Ht),
      (forallb_impl _ _ _ one_line_not_cr Hc),
      (forallb_impl _ _ _ one_line_not_cr Hp).
    reflexivity.
Qed.

End EntryFacts.

(** ** The log after a recording *)

Module AfterFacts.
Import PyFacts LineFacts DecimalFacts EntryFacts InsertFacts ScanFacts.

Lemma split_first (a s : str) :
  forallb (fun c => negb (char_eqb c TAB)) a = true ->
  split TAB (a ++ TAB :: s) = a :: split TAB s.
Proof.
  induction a as [|c r IH]; intros H.
  - reflexivity.
  - simpl in H. apply andb_true_iff in H as [Hc Hr].
    apply negb_true_iff in Hc. cbn [app split]. rewrite Hc.
    now rewrite (IH Hr).
Qed.

Lemma split_single (a : str) :
  forallb (fun c => negb (char_eqb c TAB)) a = true -> split TAB a = [a].
Proof.
  induction a as [|c r IH]; intros H; [reflexivity|].
  simpl in H. apply andb_true_iff in H as [Hc Hr].
  apply negb_true_iff in Hc. cbn [split]. rewrite Hc. now rewrite (IH Hr).
Qed.

Lemma lstrip_by_keeps_last (p : ascii -> bool) (x : str) (c : ascii) :
  p c = false -> lstrip_by p (x ++ [c]) <> [].
Proof.
  intros H. induction x as [|d r IH]; simpl.
  - now rewrite H.
  - destruct (p d); [assumption|easy].
Qed.

Lemma rstrip_by_keeps_first (p : ascii -> bool) (c : ascii) (s : str) :
  p c = false -> rstrip_by p (c :: s) <> [].
Proof.
  intros H. unfold rstrip_by. simpl. intros E.
  apply (f_equal (@rev ascii)) in E. rewrite rev_involutive in E. simpl in E.
  now apply (lstrip_by_keeps_last p (rev s) c H).
Qed.

(** A line that starts with a digit is a data line. *)
Lemma digit_line_not_skipped (c : ascii) (s : str) :
  isdigit c = true -> is_skipped (c :: s) = false.
Proof.
  intros H. unfold is_skipped, strip.
  destruct (isdigit_not_space c H) as [Hs _].
  rewrite lstrip_by_head by assumption.
  pose proof (rstrip_by_keeps_first isspace c s Hs) as N.
  destruct (rstrip_by isspace (c :: s)); [easy|].
  cbn [orb]. cbn [startswith lit list_ascii_of_string].
  rewrite char_eqb_sym, (isdigit_not_char c "#"%char H eq_refl). reflexivity.
Qed.

(** The numbering scan reads the call number off the line of an entry,
    whatever the other fields hold. *)
Lemma line_number_entry (n : Z) (d t name path : str) :
  0 <= n -> line_number (format_entry n d t name path) = Some n.
Proof.
  intros H. destruct (str_of_int_digits n H) as [D [c [r [E Hc]]]].
  unfold line_number, format_entry.
  rewrite split_first
    by (apply (forallb_impl _ _ _ plain_not_tab), (forallb_impl _ _ _ isdigit_plain D)).
  unfold item. cbn [nth]. rewrite int_str_of_int.
  rewrite E. cbn [app]. now rewrite digit_line_not_skipped.
Qed.

Lemma header_no_number (l : str) : is_header l = true -> line_number l = None.
Proof.
  unfold is_header, line_number, is_skipped. intros ->.
  now rewrite orb_true_r.
Qed.

Lemma header_no_entry (keep_path : bool) (l : str) :
  is_header l = true -> line_entry keep_path l = None.
Proof.
  unfold is_header, line_entry, is_skipped. intros ->.
  now rewrite orb_true_r.
Qed.

Lemma choose_app {A B} (f : A -> option B) (l1 l2 : list A) :
  choose f (l1 ++ l2) = choose f l1 ++ choose f l2.
Proof.
  induction l1 as [|x r IH]; [reflexivity|].
  simpl. destruct (f x); simpl; now rewrite IH.
Qed.

Lemma choose_none {A B} (f : A -> option B) (l : list A) :
  (forall x, In x l -> f x = None) -> choose f l = [].
Proof.
  induction l as [|x r IH]; intros H; [reflexivity|].
  simpl. rewrite (H x) by now left. apply IH. intros y Hy. apply H. now right.
Qed.

(** A reader that ignores comment lines finds, in the lines laid out by
    an insertion, the new entry and then what it found before. *)
Lemma choose_laid_out {B} (f : str -> option B) (old : list str) (e : str) :
  (forall l, is_header l = true -> f l = None) ->
  choose f (laid_out old e) = choose f [e] ++ choose f old.
Proof.
  intros H. unfold laid_out. rewrite !choose_app.
  rewrite (choose_none f (filter is_header old)).
  2:{ intros x Hx. apply filter_In in Hx as [_ Hx]. now apply H. }
  rewrite (PruneFacts.choose_filter f (fun l => negb (is_header l))).
  2:{ intros x Hx. apply negb_false_iff in Hx. now apply H. }
  reflexivity.
Qed.

Lemma choose_primary_before {B} (f : str -> option B) (w : world) :
  (forall l, is_header l = true -> f l = None) ->
  choose f (primary_before w) = choose f (lines_at w LOG_FILE).
Proof.
  intros H. unfold primary_before, lines_at.
  destruct (nodes w LOG_FILE); [reflexivity|].
  apply choose_none. intros x Hx. apply H.
  revert x Hx. apply Forall_forall. repeat constructor.
Qed.

(** *** The shape of the primary file after an insertion *)

Lemma partial_no_newline_end (l : str) : partial l -> ends_with_newline l = false.
Proof.
  intros [N H]. unfold ends_with_newline.
  destruct (rev l) as [|c r] eqn:E; [reflexivity|].
  unfold no_newline in H. rewrite forallb_forall in H.
  assert (Hc : In c l) by (apply in_rev; rewrite E; now left).
  apply H in Hc. now apply negb_true_iff in Hc.
Qed.

Lemma complete_newline_end (l : str) : complete l -> ends_with_newline l = true.
Proof.
  intros [body [-> _]]. unfold ends_with_newline.
  rewrite rev_app_distr. simpl. apply char_eqb_refl.
Qed.

Lemma open_comment_tail_last (M : list str) (l : str) :
  open_comment_tail (M ++ [l]) = is_header l && negb (ends_with_newline l).
Proof. unfold open_comment_tail. rewrite rev_app_distr. reflexivity. Qed.

Lemma laid_out_well_split (old : list str) (e : str) :
  well_split old -> open_comment_tail old = false -> complete e ->
  well_split (laid_out old e).
Proof.
  intros [M [tail [-> [HM Ht]]]] O He. unfold laid_out.
  assert (A : Forall complete
                (filter is_header M ++ [e] ++ filter (fun l => negb (is_header l)) M)).
  { apply Forall_app. split; [now apply Forall_filter|].
    constructor; [assumption|now apply Forall_filter]. }
  destruct Ht as [->|[l [-> P]]].
  - rewrite app_nil_r. exists (filter is_header M ++ [e]
                               ++ filter (fun l => negb (is_header l)) M), [].
    rewrite app_nil_r. repeat split; [assumption|now left].
  - rewrite open_comment_tail_last, (partial_no_newline_end l P) in O.
    rewrite andb_true_r in O.
    rewrite !filter_app. cbn [filter]. rewrite O. cbn [negb].
    rewrite app_nil_r.
    exists (filter is_header M ++ [e] ++ filter (fun l => negb (is_header l)) M), [l].
    repeat split.
    + now rewrite <- !app_assoc.
    + assumption.
    + right. now exists l.
Qed.

Lemma laid_out_no_cr (old : list str) (e : str) :
  Forall (fun l => no_cr l = true) old -> no_cr e = true ->
  Forall (fun l => no_cr l = true) (laid_out old e).
Proof.
  intros H He. unfold laid_out. apply Forall_app. split; [now apply Forall_filter|].
  constructor; [assumption|now apply Forall_filter].
Qed.

(** After an insertion the last line is never an unfinished comment. *)
Lemma laid_out_closed (old : list str) (e : str) :
  complete e -> open_comment_tail (laid_out old e) = false.
Proof.
  intros He. unfold laid_out.
  destruct (filter (fun l => negb (is_header l)) old) as [|d ds] eqn:E.
  - change ([e] ++ []) with [e].
    rewrite open_comment_tail_last, (complete_newline_end e He).
    apply andb_false_r.
  - assert (N : d :: ds <> []) by easy.
    destruct (exists_last N) as [ds' [x Ex]]. rewrite Ex.
    replace (filter is_header old ++ [e] ++ ds' ++ [x])
      with ((filter is_header old ++ [e] ++ ds') ++ [x])
      by (now rewrite <- !app_assoc).
    rewrite open_comment_tail_last.
    assert (Hx : In x (filter (fun l => negb (is_header l)) old)).
    { rewrite E, Ex. apply in_or_app. right. now left. }
    apply filter_In in Hx as [_ Hx]. apply negb_true_iff in Hx. now rewrite Hx.
Qed.

Lemma primary_before_shape (w : world) :
  well_split (primary_before w)
  /\ Forall (fun l => no_cr l = true) (primary_before w).
Proof.
  unfold primary_before, lines_at. destruct (nodes w LOG_FILE) as [[|text]|].
  - split; [exists [], []; repeat split; [constructor|now left]|constructor].
  - destruct (may_read w LOG_FILE); [apply text_lines_shape|].
    split; [exists [], []; repeat split; [constructor|now left]|constructor].
  - rewrite <- header_lines. apply text_lines_shape.
Qed.

Lemma primary_before_closed (w : world) :
  open_comment_tail (lines_at w LOG_FILE) = false ->
  open_comment_tail (primary_before w) = false.
Proof.
  unfold primary_before. now destruct (nodes w LOG_FILE).
Qed.

(** The primary file after a successful insertion of a complete line,
    when its last line was not an unfinished comment: the comment lines,
    the new entry, the data lines. *)
Lemma lines_after_insert (e : str) (w w' : world) :
  insert_entry_at_top e w = (Ok tt, w') ->
  open_comment_tail (lines_at w LOG_FILE) = false ->
  complete e -> no_cr e = true ->
  lines_at w' LOG_FILE = laid_out (primary_before w) e.
Proof.
  intros H O He Hc. apply insert_success in H as [N [R _]].
  unfold lines_at. rewrite N, R.
  destruct (primary_before_shape w) as [W C].
  apply text_lines_concat.
  - apply laid_out_well_split; [assumption|now apply primary_before_closed|assumption].
  - now apply laid_out_no_cr.
Qed.

Lemma lines_elsewhere (e : str) (w w' : world) (p : str) :
  insert_entry_at_top e w = (Ok tt, w') ->
  str_eqb p LOG_FILE = false -> str_eqb p LOG_DIR = false ->
  lines_at w' p = lines_at w p.
Proof.
  intros H Hp Hd. apply insert_success in H as [_ [_ [R N]]].
  unfold lines_at. now rewrite (N p Hp Hd), R.
Qed.

(** What any scan that ignores comments reads after the insertion: what
    it read before, with the new entry in front of the primary file's
    share. *)
Lemma scan_after_insert {B} (f : str -> option B) (e : str) (w w' : world) :
  (forall l, is_header l = true -> f l = None) ->
  insert_entry_at_top e w = (Ok tt, w') ->
  open_comment_tail (lines_at w LOG_FILE) = false ->
  complete e -> no_cr e = true ->
  exists elsewhere,
    scan f w = elsewhere ++ choose f (lines_at w LOG_FILE)
    /\ scan f w' = elsewhere ++ choose f [e] ++ choose f (lines_at w LOG_FILE).
Proof.
  intros Hf H O He Hc.
  exists (choose f (lines_at w (lit "program_log.txt"))
          ++ choose f (lines_at w (lit "sub/program_log.txt"))).
  unfold scan.
  change LEGACY_LOG_FILES
    with [lit "program_log.txt"; lit "sub/program_log.txt"; LOG_FILE].
  cbn [flat_map]. rewrite !app_nil_r.
  rewrite !(lines_elsewhere e w w' _ H) by reflexivity.
  rewrite (lines_after_insert e w w' H O He Hc).
  rewrite choose_laid_out, choose_primary_before by assumption.
  now rewrite <- !app_assoc.
Qed.

(** *** Entries that take more than one line *)

(** Both sides of an equation between concatenations, brought to the
    same bracketing. *)
Ltac same_text :=
  repeat (rewrite <- app_assoc || rewrite <- app_comm_cons);
  cbn [app]; reflexivity.

Lemma format_entry_snoc (n : Z) (d t name path : str) :
  format_entry n d t name path
  = (str_of_int n ++ TAB :: d ++ TAB :: t ++ TAB :: name ++ TAB :: path)
    ++ [LF].
Proof.
  unfold format_entry.
  now rewrite <- !app_assoc, <- !app_comm_cons, <- !app_assoc,
    <- !app_comm_cons, <- !app_assoc, <- !app_comm_cons, <- !app_assoc.
Qed.

(** The lines of a new entry: the first starts with the call number, the
    date and the time, and goes on to the first line break of the name
    and the path; the others depend on the caller only. *)
Lemma entry_lines (n : Z) (now : datetime) (self : frame) :
  0 <= n ->
  text_lines (format_entry n (strftime_date now) (strftime_time now)
                (caller_name self) (caller_path self))
  = (str_of_int n ++ TAB :: strftime_date now ++ TAB :: strftime_time now
       ++ TAB :: first_line (caller_name self ++ TAB :: caller_path self)
       ++ [LF])
    :: later_lines self.
Proof.
  intros Hn.
  destruct (str_of_int_digits n Hn) as [D _].
  pose proof (forallb_impl _ _ _ plain_one_line
                (forallb_impl _ _ _ isdigit_plain D)) as Ln.
  pose proof (forallb_impl _ _ _ plain_one_line (strftime_date_plain now)) as Ld.
  pose proof (forallb_impl _ _ _ plain_one_line (strftime_time_plain now)) as Lt.
  set (front := str_of_int n ++ TAB :: strftime_date now ++ TAB ::
                strftime_time now ++ [TAB]).
  assert (Lf : one_line front = true).
  { unfold front, one_line.
    repeat (rewrite forallb_app || cbn [forallb]).
    fold (one_line (str_of_int n)). unfold one_line. rewrite Ln, Ld, Lt.
    reflexivity. }
  set (body := caller_name self ++ TAB :: caller_path self).
  assert (E : format_entry n (strftime_date now) (strftime_time now)
                (caller_name self) (caller_path self)
              = (front ++ body) ++ [LF]).
  { rewrite format_entry_snoc. unfold front, body. same_text. }
  rewrite E. destruct (text_lines_first (front ++ body)) as [later F].
  rewrite F. f_equal.
  - rewrite first_line_app by assumption. unfold front. same_text.
  - change later with (tl ((first_line (front ++ body) ++ [LF]) :: later)).
    rewrite <- F, <- app_assoc. unfold later_lines.
    replace (caller_name self ++ TAB :: caller_path self ++ [LF])
      with (body ++ [LF]) by (unfold body; same_text).
    now apply text_lines_tail_prefix.
Qed.

(** The numbering scan reads the number off a line that starts with it. *)
Lemma line_number_front (n : Z) (rest : str) :
  0 <= n -> line_number (str_of_int n ++ TAB :: rest) = Some n.
Proof.
  intros H. destruct (str_of_int_digits n H) as [D [c [r [E Hc]]]].
  unfold line_number.
  rewrite split_first
    by (apply (forallb_impl _ _ _ plain_not_tab), (forallb_impl _ _ _ isdigit_plain D)).
  unfold item. cbn [nth]. rewrite int_str_of_int.
  rewrite E. cbn [app]. now rewrite digit_line_not_skipped.
Qed.

Lemma concat_complete_end (M : list str) :
  Forall complete M -> M <> [] -> exists X, List.concat M = X ++ [LF].
Proof.
  induction M as [|l M IH]; intros H N; [easy|].
  inversion H as [|? ? [body [-> _]] HM]; subst. cbn [List.concat].
  destruct M as [|m M].
  - exists body. cbn [List.concat]. now rewrite app_nil_r.
  - destruct (IH HM) as [X E]; [easy|]. rewrite E.
    exists ((body ++ [LF]) ++ X). now rewrite <- !app_assoc.
Qed.

(** The comment lines of a file that does not end in an unfinished
    comment are complete. *)
Lemma old_parts (old : list str) :
  well_split old -> open_comment_tail old = false ->
  Forall complete (filter is_header old)
  /\ well_split (filter (fun l => negb (is_header l)) old).
Proof.
  intros W O. split; [|now apply well_split_filter].
  destruct W as [M [tail [-> [HM Ht]]]]. rewrite filter_app.
  apply Forall_app. split; [now apply Forall_filter|].
  destruct Ht as [->|[l [-> P]]]; [constructor|].
  rewrite open_comment_tail_last, (partial_no_newline_end l P) in O.
  rewrite andb_true_r in O. cbn [filter]. rewrite O. constructor.
Qed.

Lemma text_lines_laid_out (old : list str) (e : str) :
  well_split old -> Forall (fun l => no_cr l = true) old ->
  open_comment_tail old = false ->
  text_lines (List.concat (laid_out old (e ++ [LF])))
  = filter is_header old ++ text_lines (e ++ [LF])
    ++ filter (fun l => negb (is_header l)) old.
Proof.
  intros W C O. destruct (old_parts old W O) as [Hh Hd].
  unfold laid_out. rewrite !concat_app. cbn [List.concat]. rewrite app_nil_r.
  assert (Td : text_lines (List.concat (filter (fun l => negb (is_header l)) old))
               = filter (fun l => negb (is_header l)) old)
    by (apply text_lines_concat; [assumption|now apply Forall_filter]).
  assert (Th : text_lines (List.concat (filter is_header old))
               = filter is_header old).
  { apply text_lines_concat; [|now apply Forall_filter].
    exists (filter is_header old), []. rewrite app_nil_r.
    repeat split; [assumption|now left]. }
  destruct (filter is_header old) as [|h hs] eqn:Eh.
  - cbn [List.concat app]. now rewrite text_lines_app, Td.
  - destruct (concat_complete_end (h :: hs) Hh) as [X EX]; [easy|].
    rewrite EX in *. now rewrite text_lines_app, Th, text_lines_app, Td.
Qed.

(** The primary file after a successful insertion, when its last line
    was not an unfinished comment: the comment lines, the lines of the
    new entry, the data lines. *)
Lemma lines_after_insert_any (e : str) (w w' : world) :
  insert_entry_at_top (e ++ [LF]) w = (Ok tt, w') ->
  open_comment_tail (lines_at w LOG_FILE) = false ->
  lines_at w' LOG_FILE
  = filter is_header (primary_before w) ++ text_lines (e ++ [LF])
    ++ filter (fun l => negb (is_header l)) (primary_before w).
Proof.
  intros H O. apply insert_success in H as [N [R _]].
  unfold lines_at. rewrite N, R.
  destruct (primary_before_shape w) as [W C].
  apply text_lines_laid_out; [assumption|assumption|].
  now apply primary_before_closed.
Qed.

Lemma scan_after_insert_any {B} (f : str -> option B) (e : str)
    (w w' : world) :
  (forall l, is_header l = true -> f l = None) ->
  insert_entry_at_top (e ++ [LF]) w = (Ok tt, w') ->
  open_comment_tail (lines_at w LOG_FILE) = false ->
  exists elsewhere,
    scan f w = elsewhere ++ choose f (lines_at w LOG_FILE)
    /\ scan f w'
       = elsewhere ++ choose f (text_lines (e ++ [LF]))
         ++ choose f (lines_at w LOG_FILE).
Proof.
  intros Hf H O.
  exists (choose f (lines_at w (lit "program_log.txt"))
          ++ choose f (lines_at w (lit "sub/program_log.txt"))).
  unfold scan.
  change LEGACY_LOG_FILES
    with [lit "program_log.txt"; lit "sub/program_log.txt"; LOG_FILE].
  cbn [flat_map]. rewrite !app_nil_r.
  rewrite !(lines_elsewhere (e ++ [LF]) w w' _ H) by reflexivity.
  rewrite (lines_after_insert_any e w w' H O).
  rewrite !choose_app.
  rewrite (choose_none f (filter is_header (primary_before w))).
  2:{ intros x Hx. apply filter_In in Hx as [_ Hx]. now apply Hf. }
  rewrite (PruneFacts.choose_filter f (fun l => negb (is_header l))).
  2:{ intros x Hx. apply negb_false_iff in Hx. now apply Hf. }
  rewrite choose_primary_before by assumption.
  cbn [app]. now rewrite <- !app_assoc.
Qed.

(** After such an insertion the last line is never an unfinished
    comment. *)
Lemma closed_after_insert_any (e : str) (w w' : world) :
  insert_entry_at_top (e ++ [LF]) w = (Ok tt, w') ->
  open_comment_tail (lines_at w LOG_FILE) = false ->
  open_comment_tail (lines_at w' LOG_FILE) = false.
Proof.
  intros H O. rewrite (lines_after_insert_any e w w' H O).
  destruct (text_lines_last e) as [M [l ->]].
  destruct (filter (fun l => negb (is_header l)) (primary_before w))
    as [|d ds] eqn:E.
  - rewrite app_nil_r, app_assoc, open_comment_tail_last.
    unfold ends_with_newline. rewrite rev_app_distr. cbn [rev app].
    rewrite char_eqb_refl. apply andb_false_r.
  - assert (N : d :: ds <> []) by easy.
    destruct (exists_last N) as [ds' [x Ex]]. rewrite Ex.
    rewrite !app_assoc, open_comment_tail_last.
    assert (Hx : In x (filter (fun l => negb (is_header l)) (primary_before w))).
    { rewrite E, Ex. apply in_or_app. right. now left. }
    apply filter_In in Hx as [_ Hx]. apply negb_true_iff in Hx. now rewrite Hx.
Qed.

End AfterFacts.

(** ** C1: the call numbers of successive recordings *)

Module SequenceFacts.
Import PyFacts ScanFacts EntryFacts AfterFacts.

Lemma numbers_found_in (w : world) (m : Z) :
  In m (numbers_found w) <->
  exists loc line, In loc LEGACY_LOG_FILES /\ In line (lines_at w loc)
                   /\ line_number line = Some m.
Proof.
  unfold numbers_found. rewrite in_flat_map. split.
  - intros [loc [Hloc He]]. apply DedupFacts.choose_in in He as [line [Hl Hf]].
    now exists loc, line.
  - intros [loc [line [Hloc [Hl Hf]]]]. exists loc. split; [assumption|].
    apply DedupFacts.choose_in. now exists line.
Qed.

(** A successful recording uses the number [get_next_call_number] gave,
    and raises the next one by one. *)
Lemma next_after_record (now : datetime) (self : frame) (w w' : world)
    (n : Z) (name : str) :
  log_execution now self w = (Ok (Recorded n name), w') ->
  one_line (caller_path self) = true ->
  open_comment_tail (lines_at w LOG_FILE) = false ->
  get_next_call_number w = (Ok n, w)
  /\ name = caller_name self
  /\ get_next_call_number w' = (Ok (n + 1), w')
  /\ open_comment_tail (lines_at w' LOG_FILE) = false.
Proof.
  rewrite RecordFacts.log_execution_run. cbv zeta.
  set (m := max_from 0 (numbers_found w)).
  set (e := format_entry (m + 1) (strftime_date now) (strftime_time now)
                         (caller_name self) (caller_path self)).
  destruct (insert_entry_at_top e w) as [[[]|x] w1] eqn:I; [|discriminate].
  intros H P O. injection H as <- <- <-.
  pose proof (max_from_lower 0 (numbers_found w)) as L. fold m in L.
  destruct (format_entry_line (m + 1) now self ltac:(lia) P) as [He Hc].
  fold e in He, Hc.
  rewrite !get_next_call_number_run. fold m.
  split; [reflexivity|]. split; [reflexivity|]. split.
  - destruct (scan_after_insert line_number e w w1 header_no_number I O He Hc)
      as [A [E1 E2]].
    change (scan line_number w) with (numbers_found w) in E1.
    change (scan line_number w1) with (numbers_found w1) in E2.
    rewrite E2. cbn [choose]. unfold e at 1.
    rewrite line_number_entry by lia. cbn [app].
    rewrite (max_from_perm 0 _ ((m + 1) :: A ++ choose line_number (lines_at w LOG_FILE)))
      by (symmetry; apply Permutation_middle).
    rewrite <- E1. cbn [max_from fold_right]. fold (max_from 0 (numbers_found w)).
    fold m. f_equal. f_equal. lia.
  - rewrite (lines_after_insert e w w1 I O He Hc). now apply laid_out_closed.
Qed.

Lemma header_scan {B} (f : str -> option B) :
  (forall l, is_header l = true -> f l = None) -> choose f HEADER = [].
Proof.
  intros H. apply choose_none. intros x Hx. apply H.
  revert x Hx. apply Forall_forall. repeat constructor.
Qed.

(** A recording leaves the writes to come uncut when they were. *)
Lemma log_execution_keeps_uncut (now : datetime) (self : frame) (w : world) :
  uncut w = true -> uncut (snd (log_execution now self w)) = true.
Proof.
  intros U. rewrite RecordFacts.log_execution_run. cbv zeta.
  match goal with
  | |- context [insert_entry_at_top ?e w] =>
      pose proof (InsertFacts.insert_keeps_uncut e w U) as K;
      destruct (insert_entry_at_top e w) as [[[]|x] w']
  end; exact K.
Qed.

(** A successful recording uses the number [get_next_call_number] gave,
    and raises the next one by one, also when the entry takes several
    lines, as long as none of the later ones carries a larger number. *)
Lemma next_after_record_any (now : datetime) (self : frame) (w w' : world)
    (n : Z) (name : str) :
  log_execution now self w = (Ok (Recorded n name), w') ->
  open_comment_tail (lines_at w LOG_FILE) = false ->
  Forall (fun m => m <= n) (choose line_number (later_lines self)) ->
  get_next_call_number w = (Ok n, w)
  /\ name = caller_name self
  /\ get_next_call_number w' = (Ok (n + 1), w')
  /\ open_comment_tail (lines_at w' LOG_FILE) = false.
Proof.
  rewrite RecordFacts.log_execution_run. cbv zeta.
  set (m := max_from 0 (numbers_found w)).
  set (e := format_entry (m + 1) (strftime_date now) (strftime_time now)
                         (caller_name self) (caller_path self)).
  destruct (insert_entry_at_top e w) as [[[]|x] w1] eqn:I; [|discriminate].
  intros H O P. injection H as <- <- <-.
  pose proof (max_from_lower 0 (numbers_found w)) as L. fold m in L.
  assert (I' := I). unfold e in I'. rewrite format_entry_snoc in I'.
  rewrite !get_next_call_number_run. fold m.
  split; [reflexivity|]. split; [reflexivity|]. split.
  - destruct (scan_after_insert_any line_number _ w w1 header_no_number I' O)
      as [A [E1 E2]].
    change (scan line_number w) with (numbers_found w) in E1.
    change (scan line_number w1) with (numbers_found w1) in E2.
    rewrite <- format_entry_snoc, entry_lines in E2 by lia.
    cbn [choose] in E2. rewrite line_number_front in E2 by lia.
    assert (In1 : In (m + 1) (numbers_found w1)).
    { rewrite E2. apply in_or_app. right. now left. }
    assert (Up : forall x, In x (numbers_found w1) -> x <= m + 1).
    { intros x Hx. rewrite E2 in Hx.
      assert (Old : In x (numbers_found w) -> x <= m + 1).
      { intros Hw. pose proof (max_from_upper 0 _ _ Hw). fold m in H. lia. }
      apply in_app_or in Hx as [Hx|Hx].
      - apply Old. rewrite E1. apply in_or_app. now left.
      - cbn [app] in Hx. destruct Hx as [<-|Hx]; [lia|].
        apply in_app_or in Hx as [Hx|Hx].
        + rewrite Forall_forall in P. now apply P.
        + apply Old. rewrite E1. apply in_or_app. now right. }
    pose proof (max_from_upper 0 _ _ In1) as U1.
    destruct (max_from_attained 0 (numbers_found w1)) as [Z0|Hin].
    + f_equal. f_equal. lia.
    + apply Up in Hin. f_equal. f_equal. lia.
  - exact (closed_after_insert_any _ w w1 I' O).
Qed.

(** When no write is cut short, a recording that fails changes neither
    the next number nor the end of the primary file. *)
Lemma next_after_failure (now : datetime) (self : frame) (w w' : world)
    (x : exn) :
  uncut w = true ->
  log_execution now self w = (Ok (WriteError x), w') ->
  open_comment_tail (lines_at w LOG_FILE) = false ->
  fst (get_next_call_number w') = fst (get_next_call_number w)
  /\ open_comment_tail (lines_at w' LOG_FILE) = false.
Proof.
  intros U. rewrite RecordFacts.log_execution_run. cbv zeta.
  destruct (insert_entry_at_top _ w) as [[[]|y] w1] eqn:I; [discriminate|].
  intros H O. injection H as _ <-.
  apply (InsertFacts.insert_failure _ _ _ _ U) in I as [Other Primary].
  rewrite !get_next_call_number_run. cbn [fst]. split.
  - f_equal. f_equal. unfold numbers_found.
    change LEGACY_LOG_FILES
      with [lit "program_log.txt"; lit "sub/program_log.txt"; LOG_FILE].
    cbn [flat_map]. rewrite !Other by reflexivity.
    destruct Primary as [->|[E ->]]; [reflexivity|].
    now rewrite E, (header_scan line_number header_no_number).
  - destruct Primary as [->|[_ ->]]; [assumption|reflexivity].
Qed.

(** However many of them fail, successive recordings return, and those
    that go through get consecutive numbers. *)
Lemma record_all_numbers (calls : list (datetime * frame)) (w : world)
    (n k : Z) :
  get_next_call_number w = (Ok n, w) ->
  k <= n ->
  uncut w = true ->
  open_comment_tail (lines_at w LOG_FILE) = false ->
  Forall (fun call =>
            Forall (fun m => m <= k)
                   (choose line_number (later_lines (snd call)))) calls ->
  exists fbs w',
    record_all calls w = (Ok fbs, w')
    /\ List.length fbs = List.length calls
    /\ choose assigned fbs = count_up n (List.length (choose assigned fbs)).
Proof.
  revert w n. induction calls as [|[now self] rest IH]; intros w n N K U O P.
  - exists [], w. repeat split.
  - inversion P as [|? ? P1 P2]; subst. cbn [snd] in P1.
    cbn [record_all]. unfold bind.
    pose proof (log_execution_keeps_uncut now self w U) as U1.
    destruct (RecordFacts.log_execution_total now self w) as [fb [w1 E]].
    rewrite E in *. cbn [snd] in U1.
    destruct fb as [j name|x].
    + assert (Nj : j = n).
      { rewrite RecordFacts.log_execution_run in E. cbv zeta in E.
        rewrite get_next_call_number_run in N. injection N as N.
        destruct (insert_entry_at_top _ w) as [[[]|y] w2]; [|discriminate].
        injection E as <- _ _. exact N. }
      subst j.
      assert (P1' : Forall (fun m => m <= n)
                           (choose line_number (later_lines self))).
      { eapply Forall_impl; [|exact P1]. cbv beta. intros; lia. }
      destruct (next_after_record_any now self w w1 n name E O P1')
        as [_ [_ [N2 O2]]].
      destruct (IH w1 (n + 1) N2 ltac:(lia) U1 O2 P2) as [fbs [w' [R [L A]]]].
      exists (Recorded n name :: fbs), w'. rewrite R.
      split; [reflexivity|]. split; [cbn [List.length]; now rewrite L|].
      cbn [choose assigned List.length count_up]. now rewrite <- A.
    + destruct (next_after_failure now self w w1 x U E O) as [N1 O2].
      rewrite N in N1. cbn [fst] in N1.
      assert (N2 : get_next_call_number w1 = (Ok n, w1)).
      { rewrite get_next_call_number_run in *. cbn [fst] in N1. now rewrite N1. }
      destruct (IH w1 n N2 K U1 O2 P2) as [fbs [w' [R [L A]]]].
      exists (WriteError x :: fbs), w'. rewrite R.
      split; [reflexivity|]. split; [cbn [List.length]; now rewrite L|].
      exact A.
Qed.

End SequenceFacts.

(** C1 (as amended). [get_next_call_number] returns one more than the
    largest of 0 and all the numbers found in the known locations, in
    whichever location the largest one stands: 1 when none is found or
    when the largest one found is negative, and [m + 1] when the largest
    one found, [m], is not negative. When recordings follow one another,
    every one of them returns, and the numbers of the entries written go
    up by exactly one, starting from the next call number, provided that
    no write is cut short once its file has been opened, that the primary
    file did not end in a comment line that lacks its newline, and that no
    line which a caller's path makes follow the first line of its entry
    carries a number above that next call number. *)
Theorem C1_sequence_numbers (w : world) :
  (exists n,
     get_next_call_number w = (Ok n, w)
     /\ (numbers_found w = [] -> n = 1)
     /\ (forall m, In m (numbers_found w) ->
                   (forall x, In x (numbers_found w) -> x <= m) ->
                   n = Z.max 0 m + 1
                   /\ (0 <= m -> n = m + 1) /\ (m < 0 -> n = 1))
     /\ (forall m, In m (numbers_found w) <->
                   exists loc line, In loc LEGACY_LOG_FILES
                                    /\ In line (lines_at w loc)
                                    /\ line_number line = Some m))
  /\ (forall calls n,
        get_next_call_number w = (Ok n, w) ->
        uncut w = true ->
        open_comment_tail (lines_at w LOG_FILE) = false ->
        Forall (fun call =>
                  Forall (fun m => m <= n)
                         (choose line_number (later_lines (snd call))))
               calls ->
        exists fbs w',
          record_all calls w = (Ok fbs, w')
          /\ List.length fbs = List.length calls
          /\ choose assigned fbs
             = count_up n (List.length (choose assigned fbs))).
Proof.
  split.
  - exists (max_from 0 (numbers_found w) + 1).
    split; [apply ScanFacts.get_next_call_number_run|].
    split; [now intros ->|]. split; [|apply SequenceFacts.numbers_found_in].
    intros m Hm Hmax.
    pose proof (ScanFacts.max_from_upper 0 _ _ Hm) as U.
    pose proof (ScanFacts.max_from_lower 0 (numbers_found w)) as L.
    destruct (ScanFacts.max_from_attained 0 (numbers_found w)) as [E|E].
    + repeat split; intros; lia.
    + specialize (Hmax _ E). repeat split; intros; lia.
  - intros calls n N U O P.
    exact (SequenceFacts.record_all_numbers calls w n n N (Z.le_refl n) U O P).
Qed.

Lemma C1_witness :
  get_next_call_number world_legacy_five = (Ok 6, world_legacy_five)
  /\ get_next_call_number world_minus_five = (Ok 1, world_minus_five)
  /\ exists fbs w',
       record_all [(first_run, odd_dir_py); (second_run, main_py)]
                  world_legacy_five
       = (Ok fbs, w')
       /\ choose assigned fbs = [6; 7].
Proof.
  destruct (C1_sequence_numbers world_legacy_five) as [[n [E [_ [M _]]]] S].
  assert (N : n = 6).
  { apply (M 5).
    - vm_compute. auto.
    - vm_compute. intros x [<-|[<-|[]]]; discriminate.
    - discriminate. }
  subst n. split; [exact E|]. split.
  - destruct (C1_sequence_numbers world_minus_five) as [[k [Ek [_ [Mk _]]]] _].
    rewrite Ek. do 2 f_equal. apply (Mk (-5)).
    + vm_compute. auto.
    + vm_compute. intros x [<-|[]]. discriminate.
    + reflexivity.
  - destruct (S [(first_run, odd_dir_py); (second_run, main_py)] 6 E)
      as [fbs [w' [R [L A]]]].
    + reflexivity.
    + reflexivity.
    + vm_compute. repeat constructor.
    + exists fbs, w'. split; [exact R|].
      rewrite A.
      assert (F : fst (record_all [(first_run, odd_dir_py); (second_run, main_py)]
                         world_legacy_five) = Ok fbs) by (now rewrite R).
      vm_compute in F. injection F as <-. reflexivity.
Defined.

(** C1 as worded fails in three ways. With -5 as the only number in
    sight the next number is 1, not 1 + (-5). A caller whose file name
    holds a line break followed by digits leaves a second numbered line
    behind: starting with no file at all, the two recordings get 1 and 42.
    And a write that fails once the primary file has been opened leaves
    the file empty: of three recordings, the first gets number 1, the
    second reports the error, and the third gets number 1 again. *)
Lemma C1_counterexample :
  ~ next_is_one_plus_maximum world_minus_five
  /\ ~ numbers_increase_by_one
        [(first_run, broken_name_py); (second_run, main_py)] (world_of [])
  /\ ~ numbers_increase_by_one
        [(first_run, main_py); (second_run, main_py); (third_run, main_py)]
        world_second_write_cut.
Proof.
  split; [|split].
  - intros H. specialize (H (-5)). vm_compute in H.
    assert (E : Ok 1 = Ok (-4)).
    { apply H; [now left|]. intros x [<-|[]]. discriminate. }
    discriminate.
  - intros H.
    destruct (H [Recorded 1 (caller_name broken_name_py);
                 Recorded 42 (lit "main.py")] eq_refl) as [n E].
    cbn [choose assigned List.length count_up] in E.
    injection E as E1 E2. lia.
  - intros H.
    destruct (H [Recorded 1 (lit "main.py"); WriteError OSError;
                 Recorded 1 (lit "main.py")] eq_refl) as [n E].
    cbn [choose assigned List.length count_up] in E.
    injection E as E1 E2. lia.
Qed.

(** ** C6: the layout of the primary file *)

(** Away from the failing case below, the claim holds: after a recording
    that goes through, the primary file holds its comment lines in their
    order, then the new entry, then its data lines in their order; a
    primary file that was not there holds the three header lines and the
    entry. *)
Lemma record_layout (now : datetime) (self : frame) (w w' : world)
    (n : Z) (name : str) :
  log_execution now self w = (Ok (Recorded n name), w') ->
  one_line (caller_path self) = true ->
  open_comment_tail (lines_at w LOG_FILE) = false ->
  let new_entry :=
    format_entry n (strftime_date now) (strftime_time now)
                 (caller_name self) (caller_path self) in
  lines_at w' LOG_FILE
  = filter is_header (primary_before w) ++ [new_entry]
    ++ filter (fun l => negb (is_header l)) (primary_before w)
  /\ (nodes w LOG_FILE = None -> lines_at w' LOG_FILE = HEADER ++ [new_entry]).
Proof.
  intros H P O.
  destruct (SequenceFacts.next_after_record now self w w' n name H P O)
    as [N [-> _]].
  rewrite ScanFacts.get_next_call_number_run in N. injection N as <-.
  rewrite RecordFacts.log_execution_run in H. cbv zeta in H.
  set (m := max_from 0 (numbers_found w)) in *.
  set (e := format_entry (m + 1) (strftime_date now) (strftime_time now)
                         (caller_name self) (caller_path self)) in *.
  destruct (insert_entry_at_top e w) as [[[]|x] w1] eqn:I; [|discriminate].
  injection H as <-.
  pose proof (ScanFacts.max_from_lower 0 (numbers_found w)) as L. fold m in L.
  destruct (EntryFacts.format_entry_line (m + 1) now self ltac:(lia) P) as [He Hc].
  fold e in He, Hc. cbv zeta.
  rewrite (AfterFacts.lines_after_insert e w w1 I O He Hc).
  split; [reflexivity|].
  intros E. unfold primary_before. rewrite E. reflexivity.
Qed.

(** C6 fails on a primary file whose last line is a comment without its
    newline: [insert_entry_at_top] writes the new entry right behind that
    comment, on the same line. The recording reports success, but the
    file then holds one comment line and no entry: the header is not kept
    as it was, the view stays empty, and the next recording gets the same
    number again. *)
Theorem C6_entry_lost_behind_open_comment :
  let w := world_open_comment in
  let after := log_execution first_run main_py w in
  let new_entry :=
    row "1" "2025-10-08" "14:30:25" "main.py" "/home/u/main.py" in
  lines_at w LOG_FILE = [lit "# my log"]
  /\ fst after = Ok (Recorded 1 (lit "main.py"))
  /\ lines_at (snd after) LOG_FILE = [lit "# my log" ++ new_entry]
  /\ lines_at (snd after) LOG_FILE <> [lit "# my log"; new_entry]
  /\ laid_out (lines_at w LOG_FILE) new_entry = [lit "# my log"; new_entry]
  /\ fst (read_log (snd after)) = Ok []
  /\ fst (log_execution second_run main_py (snd after))
     = Ok (Recorded 1 (lit "main.py")).
Proof.
  cbv zeta. repeat split; try reflexivity. vm_compute. discriminate.
Qed.

(** ** C3: the new entry heads the view *)

Module HeadFacts.
Import PyFacts DecimalFacts EntryFacts AfterFacts SortFacts.

Lemma not_blank_split (s : str) :
  existsb (fun c => negb (isspace c)) s = true ->
  exists r c tail,
    s = r ++ [c] ++ tail /\ isspace c = false /\ forallb isspace tail = true.
Proof.
  induction s as [|a s IH]; [discriminate|].
  cbn [existsb]. destruct (existsb (fun c => negb (isspace c)) s) eqn:E.
  - intros _. destruct (IH eq_refl) as [r [c [tail [-> [Hc Ht]]]]].
    now exists (a :: r), c, tail.
  - rewrite orb_false_r. intros Ha. apply negb_true_iff in Ha.
    exists [], a, s. repeat split; [assumption|].
    apply forallb_forall. intros x Hx.
    destruct (isspace x) eqn:X; [reflexivity|].
    assert (C : existsb (fun c => negb (isspace c)) s = true)
      by (apply existsb_exists; exists x; now rewrite X).
    congruence.
Qed.

Lemma tidy_spec (s : str) :
  tidy s = true ->
  forallb plain s = true
  /\ exists r c tail,
       s = r ++ [c] ++ tail /\ isspace c = false /\ forallb isspace tail = true.
Proof.
  unfold tidy. intros H. apply andb_true_iff in H as [H1 H2].
  split; [assumption|now apply not_blank_split].
Qed.

Lemma tidy_one_line (s : str) : tidy s = true -> one_line s = true.
Proof.
  intros H. apply tidy_spec in H as [H _].
  apply (forallb_impl _ _ _ plain_one_line H).
Qed.

Lemma lstrip_by_all (p : ascii -> bool) (sp rest : str) (c : ascii) :
  forallb p sp = true -> p c = false ->
  lstrip_by p (sp ++ c :: rest) = c :: rest.
Proof.
  intros H Hc. induction sp as [|a sp IH]; simpl.
  - now rewrite Hc.
  - simpl in H. apply andb_true_iff in H as [Ha Hs]. rewrite Ha. now apply IH.
Qed.

Lemma rstrip_by_tail (p : ascii -> bool) (s tail : str) (c : ascii) :
  forallb p tail = true -> p c = false ->
  rstrip_by p (s ++ [c] ++ tail) = s ++ [c].
Proof.
  intros H Hc. unfold rstrip_by. rewrite !rev_app_distr. cbn [rev app].
  rewrite <- app_assoc. cbn [app]. rewrite lstrip_by_all.
  - change (c :: rev s) with (rev [c] ++ rev s).
    now rewrite <- rev_app_distr, rev_involutive.
  - rewrite forallb_forall in *. intros x Hx. apply H. now apply in_rev.
  - assumption.
Qed.

(** The merging scan reads a new entry back field by field; of the path
    it keeps what [strip] leaves. *)
Lemma line_entry_entry (n : Z) (d t name path : str) :
  0 <= n ->
  forallb plain d = true -> forallb plain t = true ->
  forallb plain name = true -> tidy path = true ->
  line_entry true (format_entry n d t name path)
  = Some (mkEntry n d t name (Some (rstrip_by isspace path))).
Proof.
  intros Hn Hd Ht Hname Hpath.
  destruct (str_of_int_digits n Hn) as [D [c [r [E Hc]]]].
  destruct (tidy_spec path Hpath) as [Hp [p' [x [tail [Ep [Hx Htail]]]]]].
  pose proof (forallb_impl _ _ _ plain_not_tab
                (forallb_impl _ _ _ isdigit_plain D)) as Tn.
  pose proof (forallb_impl _ _ _ plain_not_tab Hd) as Td.
  pose proof (forallb_impl _ _ _ plain_not_tab Ht) as Tt.
  pose proof (forallb_impl _ _ _ plain_not_tab Hname) as Tname.
  assert (Tp : forallb (fun c => negb (char_eqb c TAB)) (p' ++ [x]) = true).
  { pose proof (forallb_impl _ _ _ plain_not_tab Hp) as Tp.
    rewrite Ep, app_assoc, forallb_app in Tp.
    now apply andb_true_iff in Tp as [Tp _]. }
  assert (Rp : rstrip_by isspace path = p' ++ [x]).
  { rewrite Ep. now apply rstrip_by_tail. }
  set (front := str_of_int n ++ TAB :: d ++ TAB :: t ++ TAB :: name ++ TAB :: p').
  assert (Eb : format_entry n d t name path = front ++ [x] ++ (tail ++ [LF])).
  { unfold format_entry, front. rewrite Ep.
    now rewrite <- !app_assoc, <- !app_comm_cons, <- !app_assoc,
      <- !app_comm_cons, <- !app_assoc, <- !app_comm_cons, <- !app_assoc. }
  assert (Sk : is_skipped (format_entry n d t name path) = false).
  { unfold format_entry. rewrite E. cbn [app]. now apply digit_line_not_skipped. }
  assert (Es : strip (format_entry n d t name path) = front ++ [x]).
  { unfold strip.
    assert (F : lstrip_by isspace (format_entry n d t name path)
                = format_entry n d t name path).
    { unfold format_entry. rewrite E. cbn [app].
      apply lstrip_by_head. now apply isdigit_not_space. }
    rewrite F, Eb. apply rstrip_by_tail; [|assumption].
    rewrite forallb_app, Htail. reflexivity. }
  unfold line_entry. rewrite Es, Sk, Rp. unfold front.
  replace ((str_of_int n ++ TAB :: d ++ TAB :: t ++ TAB :: name ++ TAB :: p') ++ [x])
    with (str_of_int n ++ TAB :: d ++ TAB :: t ++ TAB :: name ++ TAB :: p' ++ [x])
    by (now rewrite <- !app_assoc, <- !app_comm_cons, <- !app_assoc,
          <- !app_comm_cons, <- !app_assoc, <- !app_comm_cons, <- !app_assoc).
  rewrite !split_first, split_single by assumption.
  cbn [List.length Nat.leb Nat.ltb item nth].
  now rewrite int_str_of_int.
Qed.

(** *** The first line of an entry that may take several *)

Lemma first_line_one_line (s : str) : one_line (first_line s) = true.
Proof.
  induction s as [|c r IH]; [reflexivity|].
  cbn [first_line]. destruct (char_eqb c LF || char_eqb c CR) eqn:E;
    [reflexivity|].
  cbn [one_line forallb]. rewrite E. exact IH.
Qed.

Lemma first_line_name (name path : str) :
  forallb plain name = true ->
  first_line (name ++ TAB :: path) = name ++ TAB :: first_line path.
Proof.
  intros H. rewrite LineFacts.first_line_app
    by (apply (forallb_impl _ _ _ plain_one_line H)).
  reflexivity.
Qed.

Lemma blank_all_space (s : str) :
  not_blank s = false -> forallb isspace s = true.
Proof.
  unfold not_blank. induction s as [|c r IH]; [reflexivity|].
  cbn [existsb forallb]. intros H. apply orb_false_iff in H as [Hc Hr].
  apply negb_false_iff in Hc. rewrite Hc. now apply IH.
Qed.

Lemma ends_in_print_split (s : str) :
  ends_in_print s = true -> exists r c, s = r ++ [c] /\ isspace c = false.
Proof.
  unfold ends_in_print. destruct (rev s) as [|c r] eqn:E; [discriminate|].
  intros H. apply negb_true_iff in H. exists (rev r), c. split; [|assumption].
  rewrite <- (rev_involutive s), E. reflexivity.
Qed.

(** The merging scan reads the number, the date, the time and the name
    off the first line of a new entry, whatever the rest of the line
    holds, as long as [strip] leaves the name field whole. *)
Lemma line_entry_first (n : Z) (d t name P1 : str) :
  0 <= n ->
  forallb plain d = true -> forallb plain t = true ->
  forallb plain name = true ->
  not_blank P1 || ends_in_print name = true ->
  exists path',
    line_entry true
      (str_of_int n ++ TAB :: d ++ TAB :: t ++ TAB :: name ++ TAB :: P1 ++ [LF])
    = Some (mkEntry n d t name (Some path')).
Proof.
  intros Hn Hd Ht Hname Hkept.
  destruct (str_of_int_digits n Hn) as [D [c0 [r0 [E Hc0]]]].
  pose proof (forallb_impl _ _ _ plain_not_tab
                (forallb_impl _ _ _ isdigit_plain D)) as Tn.
  pose proof (forallb_impl _ _ _ plain_not_tab Hd) as Td.
  pose proof (forallb_impl _ _ _ plain_not_tab Ht) as Tt.
  pose proof (forallb_impl _ _ _ plain_not_tab Hname) as Tname.
  set (line := str_of_int n ++ TAB :: d ++ TAB :: t ++ TAB :: name ++ TAB ::
               P1 ++ [LF]).
  assert (Sk : is_skipped line = false).
  { unfold line. rewrite E. cbn [app]. now apply digit_line_not_skipped. }
  assert (F : lstrip_by isspace line = line).
  { unfold line. rewrite E. cbn [app].
    apply lstrip_by_head. now apply isdigit_not_space. }
  unfold line_entry. rewrite Sk. unfold strip. rewrite F.
  destruct (not_blank P1) eqn:B.
  - destruct (not_blank_split P1 B) as [r [c [tail [Ep [Hc Htail]]]]].
    assert (Es : rstrip_by isspace line
                 = str_of_int n ++ TAB :: d ++ TAB :: t ++ TAB :: name ++ TAB ::
                   (r ++ [c])).
    { replace line
        with ((str_of_int n ++ TAB :: d ++ TAB :: t ++ TAB :: name ++ TAB :: r)
              ++ [c] ++ (tail ++ [LF]))
        by (unfold line; rewrite Ep; same_text).
      rewrite rstrip_by_tail;
        [same_text|now rewrite forallb_app, Htail|assumption]. }
    rewrite Es. rewrite !split_first by assumption.
    pose proof (split_nonempty TAB (r ++ [c])) as Ns.
    destruct (split TAB (r ++ [c])) as [|f fs]; [easy|].
    cbn [List.length Nat.leb Nat.ltb item nth].
    rewrite int_str_of_int. now exists f.
  - cbn [orb] in Hkept.
    destruct (ends_in_print_split name Hkept) as [r [c [En Hc]]].
    pose proof (blank_all_space P1 B) as Sp.
    assert (Es : rstrip_by isspace line
                 = str_of_int n ++ TAB :: d ++ TAB :: t ++ TAB :: name).
    { replace line
        with ((str_of_int n ++ TAB :: d ++ TAB :: t ++ TAB :: r)
              ++ [c] ++ (TAB :: P1 ++ [LF]))
        by (unfold line; rewrite En; same_text).
      rewrite rstrip_by_tail;
        [rewrite En; same_text| |assumption].
      cbn [forallb]. rewrite forallb_app, Sp. reflexivity. }
    rewrite Es. rewrite !split_first, split_single by assumption.
    cbn [List.length Nat.leb Nat.ltb item nth].
    rewrite int_str_of_int. now exists [].
Qed.

(** Where a new entry stands once the copies have been dropped: behind
    entries with smaller numbers only. *)
Lemma first_copies_around (A B : list entry) (e : entry)
    (seen : list entry_key) :
  (forall x, In x A -> number x < number e) ->
  (forall k, In k seen -> fst (fst (fst k)) < number e) ->
  exists m1 m2,
    first_copies seen (A ++ e :: B) = m1 ++ e :: m2
    /\ (forall x, In x m1 -> number x < number e)
    /\ (forall x, In x m2 -> In x B).
Proof.
  revert seen. induction A as [|a A IH]; intros seen HA Hs.
  - cbn [app first_copies].
    assert (K : key_in (key_of e) seen = false).
    { apply DedupFacts.key_in_not_In. intros C. apply Hs in C.
      unfold key_of in C. cbn in C. lia. }
    rewrite K. exists [], (first_copies (key_of e :: seen) B).
    repeat split; [easy|].
    intros x Hx. now apply DedupFacts.first_copies_in in Hx as [Hx _].
  - cbn [app first_copies]. destruct (key_in (key_of a) seen).
    + apply IH; [|assumption]. intros x Hx. apply HA. now right.
    + destruct (IH (key_of a :: seen)) as [m1 [m2 [E [H1 H2]]]].
      * intros x Hx. apply HA. now right.
      * intros k [<-|Hk]; [|now apply Hs].
        unfold key_of. cbn. apply HA. now left.
      * rewrite E. exists (a :: m1), m2. repeat split; [|assumption].
        intros x [<-|Hx]; [apply HA; now left|now apply H1].
Qed.

(** The head of the view once a new entry has been put into the scan
    behind entries with smaller numbers and before entries with numbers
    that are not larger. *)
Lemma new_entry_heads (A B : list entry) (e : entry) :
  (forall x, In x A -> number x < number e) ->
  (forall x, In x B -> number x <= number e) ->
  exists rest,
    sorted_reverse number (first_copies [] (A ++ e :: B)) = e :: rest.
Proof.
  intros HA HB.
  destruct (first_copies_around A B e [] HA) as [m1 [m2 [E [H1 H2]]]]; [easy|].
  rewrite E.
  destruct (sorted_reverse number (m1 ++ e :: m2)) as [|h rest] eqn:S.
  - assert (He : In e (sorted_reverse number (m1 ++ e :: m2)))
      by (apply sorted_reverse_in, in_or_app; right; now left).
    rewrite S in He. destruct He.
  - exists rest. f_equal.
    destruct (sorted_reverse_head number _ _ _ S) as [Hh Hmax].
    assert (Le : number h <= number e).
    { apply in_app_or in Hh as [Hh|[<-|Hh]].
      - apply H1 in Hh. lia.
      - lia.
      - apply HB. now apply H2. }
    assert (Ge : number e <= number h)
      by (apply Hmax, in_or_app; right; now left).
    pose proof (sorted_reverse_stable number (number e) (m1 ++ e :: m2)) as St.
    rewrite S, filter_app in St. cbn [filter] in St.
    replace (number h =? number e) with true in St
      by (symmetry; apply Z.eqb_eq; lia).
    rewrite Z.eqb_refl in St.
    assert (N1 : filter (fun y => number y =? number e) m1 = []).
    { clear -H1. induction m1 as [|x m1 IH]; [reflexivity|].
      cbn [filter]. pose proof (H1 x (or_introl eq_refl)) as Lt.
      replace (number x =? number e) with false
        by (symmetry; apply Z.eqb_neq; lia).
      apply IH. intros y Hy. apply H1. now right. }
    rewrite N1 in St. cbn [app] in St. now injection St as ->.
Qed.

(** *** When the view sees no more than the numbering *)

Lemma rstrip_by_prefix (p : ascii -> bool) (s : str) :
  exists tail, s = rstrip_by p s ++ tail.
Proof.
  unfold rstrip_by.
  assert (G : forall r, exists tail, rev r = rev (lstrip_by p r) ++ tail).
  { induction r as [|c r IH]; simpl.
    - now exists [].
    - destruct (p c).
      + destruct IH as [tail IH]. exists (tail ++ [c]).
        now rewrite app_assoc, <- IH.
      + exists []. now rewrite app_nil_r. }
  destruct (G (rev s)) as [tail E]. rewrite rev_involutive in E.
  now exists tail.
Qed.

Lemma split_head_prefix (a b : str) :
  (2 <= List.length (split TAB a))%nat ->
  item (split TAB (a ++ b)) 0 = item (split TAB a) 0.
Proof.
  induction a as [|c r IH]; intros L.
  - simpl in L. lia.
  - cbn [app split] in *. destruct (char_eqb c TAB); [reflexivity|].
    pose proof (split_nonempty TAB r) as N1.
    pose proof (split_nonempty TAB (r ++ b)) as N2.
    destruct (split TAB r) as [|f fs] eqn:E1; [easy|].
    destruct (split TAB (r ++ b)) as [|g gs] eqn:E2; [easy|].
    unfold item in *. cbn [nth] in *. f_equal. apply IH. exact L.
Qed.

(** On a line that does not start with white space, the numbering scan
    reads the number that the merging scan reads. *)
Lemma line_number_of_entry (keep_path : bool) (line : str) (e : entry) :
  starts_clean line = true ->
  line_entry keep_path line = Some e ->
  line_number line = Some (number e).
Proof.
  intros C H. unfold line_entry in H. unfold line_number.
  destruct (is_skipped line); [discriminate|].
  assert (S : strip line = rstrip_by isspace line).
  { unfold strip. destruct line as [|c r]; [discriminate|].
    simpl in C. apply negb_true_iff in C. now rewrite lstrip_by_head. }
  rewrite S in H.
  destruct (Nat.leb_spec 4 (List.length (split TAB (rstrip_by isspace line))))
    as [L|L]; [|discriminate].
  destruct (rstrip_by_prefix isspace line) as [tail E].
  rewrite E at 1. rewrite split_head_prefix by lia.
  destruct (int (item (split TAB (rstrip_by isspace line)) 0)); [|discriminate].
  injection H as <-. reflexivity.
Qed.

(** When no data line of any location starts with white space, every row
    of the view carries a number below the next call number. *)
Lemma view_below_next (w : world) :
  (forall loc line, In loc LEGACY_LOG_FILES -> In line (lines_at w loc) ->
                    is_skipped line = false -> starts_clean line = true) ->
  forall rows n,
    read_log w = (Ok rows, w) -> get_next_call_number w = (Ok n, w) ->
    Forall (fun e => number e < n) rows.
Proof.
  intros Clean rows n R N.
  rewrite MergeFacts.read_log_run in R. injection R as <-.
  rewrite ScanFacts.get_next_call_number_run in N. injection N as <-.
  apply Forall_forall. intros e He.
  apply sorted_reverse_in, DedupFacts.first_copies_in in He as [He _].
  apply DedupFacts.candidates_in in He as [loc [line [H1 [H2 H3]]]].
  destruct (PruneFacts.entry_well_formed _ _ _ H3) as [H4 _].
  pose proof (line_number_of_entry _ _ _ (Clean loc line H1 H2 H4) H3) as H5.
  assert (In (number e) (numbers_found w))
    by (apply SequenceFacts.numbers_found_in; now exists loc, line).
  pose proof (ScanFacts.max_from_upper 0 _ _ H). lia.
Qed.

(** Then every entry line of every location carries a number below the
    next call number as well. *)
Lemma entries_below_next (w : world) :
  (forall loc line, In loc LEGACY_LOG_FILES -> In line (lines_at w loc) ->
                    is_skipped line = false -> starts_clean line = true) ->
  forall n,
    get_next_call_number w = (Ok n, w) ->
    Forall (fun e => number e < n) (legacy_entries w)
    /\ Forall (fun e => number e <= n) (primary_entries w).
Proof.
  intros Clean n N.
  rewrite ScanFacts.get_next_call_number_run in N. injection N as <-.
  assert (G : forall e, In e (candidates true w) ->
                        number e < max_from 0 (numbers_found w) + 1).
  { intros e He.
    apply DedupFacts.candidates_in in He as [loc [line [H1 [H2 H3]]]].
    destruct (PruneFacts.entry_well_formed _ _ _ H3) as [H4 _].
    pose proof (line_number_of_entry _ _ _ (Clean loc line H1 H2 H4) H3) as H5.
    assert (In (number e) (numbers_found w))
      by (apply SequenceFacts.numbers_found_in; now exists loc, line).
    pose proof (ScanFacts.max_from_upper 0 _ _ H). lia. }
  assert (E : candidates true w = legacy_entries w ++ primary_entries w).
  { unfold candidates, legacy_entries, primary_entries.
    change LEGACY_LOG_FILES
      with [lit "program_log.txt"; lit "sub/program_log.txt";
            lit "logs/program_log.txt"].
    cbn [flat_map]. now rewrite app_nil_r, app_assoc. }
  rewrite E in G. split; apply Forall_forall; intros e He.
  - apply G, in_or_app. now left.
  - apply Z.lt_le_incl, G, in_or_app. now right.
Qed.

End HeadFacts.

(** C3 (as amended). After a recording that goes through, the first row
    of the view carries the call number and the file name of the new
    entry, provided that the caller's file name holds no tab and no line
    break, that [strip] leaves this name whole on the first line of the
    entry (something other than white space stands on the first line of
    the caller's path or at the end of the name), that the primary file
    did not end in a comment line that lacks its newline, and that, [n]
    being the next call number, every entry line of the legacy locations
    carries a number below [n], no entry line of the primary file carries
    a number above [n], and no line which the caller's path makes follow
    the first line of the new entry reads as an entry with a number above
    [n]. Tabs and line breaks in the directory part of the path do no harm
    otherwise. *)
Theorem C3_new_entry_first (now : datetime) (self : frame) (w : world) :
  forallb plain (caller_name self) = true ->
  name_kept self = true ->
  open_comment_tail (lines_at w LOG_FILE) = false ->
  (forall n,
     get_next_call_number w = (Ok n, w) ->
     Forall (fun e => number e < n) (legacy_entries w)
     /\ Forall (fun e => number e <= n) (primary_entries w)
     /\ Forall (fun e => number e <= n)
               (choose (line_entry true) (later_lines self))) ->
  new_entry_comes_first now self w.
Proof.
  intros Hname Hkept O Below n name w' H.
  destruct (Below _ (ScanFacts.get_next_call_number_run w))
    as (Legacy & Primary & Later).
  rewrite Forall_forall in Legacy, Primary, Later.
  rewrite RecordFacts.log_execution_run in H. cbv zeta in H.
  pose proof (ScanFacts.max_from_lower 0 (numbers_found w)) as L.
  set (m := max_from 0 (numbers_found w)) in *.
  set (e := format_entry (m + 1) (strftime_date now) (strftime_time now)
                         (caller_name self) (caller_path self)) in *.
  destruct (insert_entry_at_top e w) as [[[]|x] w1] eqn:I; [|discriminate].
  injection H as <- <- <-.
  assert (I' := I). unfold e in I'. rewrite AfterFacts.format_entry_snoc in I'.
  destruct (AfterFacts.scan_after_insert_any (line_entry true) _ w w1
              (AfterFacts.header_no_entry true) I' O) as [A [E1 E2]].
  assert (EA : A = legacy_entries w).
  { apply (app_inv_tail (choose (line_entry true) (lines_at w LOG_FILE))).
    rewrite <- E1. unfold scan, legacy_entries.
    change LEGACY_LOG_FILES
      with [lit "program_log.txt"; lit "sub/program_log.txt"; LOG_FILE].
    cbn [flat_map]. now rewrite app_nil_r, app_assoc. }
  subst A.
  change (scan (line_entry true) w1) with (candidates true w1) in E2.
  rewrite <- AfterFacts.format_entry_snoc, AfterFacts.entry_lines in E2 by lia.
  rewrite (HeadFacts.first_line_name _ _ Hname) in E2.
  destruct (HeadFacts.line_entry_first (m + 1) (strftime_date now)
              (strftime_time now) (caller_name self)
              (first_line (caller_path self)))
    as [path' LE];
    [lia|apply EntryFacts.strftime_date_plain
    |apply EntryFacts.strftime_time_plain|assumption|exact Hkept|].
  cbn [choose] in E2.
  replace (str_of_int (m + 1) ++ TAB :: strftime_date now ++ TAB ::
           strftime_time now ++ TAB ::
           (caller_name self ++ TAB :: first_line (caller_path self)) ++ [LF])
    with (str_of_int (m + 1) ++ TAB :: strftime_date now ++ TAB ::
          strftime_time now ++ TAB :: caller_name self ++ TAB ::
          first_line (caller_path self) ++ [LF]) in E2
    by (now rewrite <- app_assoc).
  rewrite LE in E2. cbn [app] in E2.
  set (new := mkEntry (m + 1) (strftime_date now) (strftime_time now)
                      (caller_name self) (Some path')) in *.
  destruct (HeadFacts.new_entry_heads (legacy_entries w)
              (choose (line_entry true) (later_lines self)
               ++ choose (line_entry true) (lines_at w LOG_FILE)) new)
    as [rest R].
  - intros y Hy. now apply Legacy.
  - intros y Hy. apply in_app_or in Hy as [Hy|Hy];
      [now apply Later|now apply Primary].
  - exists new, rest. rewrite MergeFacts.read_log_run. unfold merged.
    rewrite E2, R. repeat split.
Qed.

Lemma C3_witness :
  exists first rest,
    read_log (snd (log_execution first_run odd_dir_py world_legacy_five))
    = (Ok (first :: rest),
       snd (log_execution first_run odd_dir_py world_legacy_five))
    /\ number first = 6 /\ filename first = lit "script.py".
Proof.
  apply (C3_new_entry_first first_run odd_dir_py world_legacy_five).
  - reflexivity.
  - reflexivity.
  - reflexivity.
  - intros n N.
    rewrite ScanFacts.get_next_call_number_run in N. injection N as <-.
    vm_compute. repeat constructor.
  - rewrite (surjective_pairing (log_execution first_run odd_dir_py world_legacy_five)).
    f_equal.
Defined.

(** C3 as worded fails in five ways. A legacy line that starts with a
    tab is passed over by the numbering and read as call number 9 by the
    view: the new entry gets number 1 and the first row carries 9. A
    caller whose file name holds a tab is recorded under that name, while
    the first row carries the part of the name before the tab; with a
    line break in the file name the first row carries the part before the
    line break. The entry of a caller whose code has an empty file name
    has too few fields left once stripped: the view has no row at all.
    And a line break in the directory part of the path, followed by what
    reads as an entry with number 99, puts that entry in the first row. *)
Lemma C3_counterexample :
  ~ new_entry_comes_first first_run main_py world_leading_tab
  /\ ~ new_entry_comes_first first_run tabbed_name_py (world_of [])
  /\ ~ new_entry_comes_first first_run split_name_py (world_of [])
  /\ ~ new_entry_comes_first first_run (called_from []) (world_of [])
  /\ ~ new_entry_comes_first first_run staged_dir_py (world_of []).
Proof.
  assert (G : forall self w n name,
            fst (log_execution first_run self w) = Ok (Recorded n name) ->
            (forall first rest,
               fst (read_log (snd (log_execution first_run self w)))
               = Ok (first :: rest) ->
               number first = n -> filename first = name -> False) ->
            ~ new_entry_comes_first first_run self w).
  { intros self w n name E K H.
    destruct (H n name (snd (log_execution first_run self w)))
      as [first [rest [R [N F]]]].
    - rewrite <- E. apply surjective_pairing.
    - apply (K first rest); [now rewrite R|assumption|assumption]. }
  split; [|split; [|split; [|split]]].
  - apply (G main_py world_leading_tab 1 (lit "main.py") eq_refl).
    intros first rest R N _. vm_compute in R. injection R as <- _.
    discriminate.
  - apply (G tabbed_name_py (world_of []) 1
             (lit "my" ++ [TAB] ++ lit "script.py") eq_refl).
    intros first rest R _ F. vm_compute in R. injection R as <- _.
    discriminate.
  - apply (G split_name_py (world_of []) 1
             (lit "my" ++ [LF] ++ lit "script.py") eq_refl).
    intros first rest R _ F. vm_compute in R. injection R as <- _.
    discriminate.
  - apply (G (called_from []) (world_of []) 1 [] eq_refl).
    intros first rest R _ _. vm_compute in R. discriminate.
  - apply (G staged_dir_py (world_of []) 1 (lit "script.py") eq_refl).
    intros first rest R N _. vm_compute in R. injection R as <- _.
    discriminate.
Qed.

(** ** The model at work on small inputs *)

Example int_examples :
  int (lit "42") = Ok 42 /\ int (lit "007") = Ok 7
  /\ int (lit " -7") = Ok (-7) /\ int (lit "+5" ++ [LF]) = Ok 5
  /\ int (lit "1_000") = Ok 1000
  /\ int (lit "abc") = Raise ValueError /\ int [] = Raise ValueError
  /\ int (lit "1__0") = Raise ValueError /\ int (lit "5_") = Raise ValueError
  /\ int (lit "+ 5") = Raise ValueError /\ int (lit "--5") = Raise ValueError
  /\ int (lit "0x10") = Raise ValueError.
Proof. repeat split. Qed.

Example str_examples :
  str_of_int 120 = lit "120" /\ str_of_int (-35) = lit "-35"
  /\ str_of_int 0 = lit "0"
  /\ strftime_date first_run = lit "2025-10-08"
  /\ strftime_time second_run = lit "14:31:07"
  /\ strip (lit "  a b " ++ [TAB; LF]) = lit "a b"
  /\ split TAB (lit "a" ++ [TAB; TAB] ++ lit "b") = [lit "a"; []; lit "b"]
  /\ split TAB [] = [[]].
Proof. repeat split. Qed.

Example path_examples :
  basename (lit "/home/u/main.py") = lit "main.py"
  /\ basename (lit "main.py") = lit "main.py"
  /\ dirname LOG_FILE = lit "logs"
  /\ dirname (lit "program_log.txt") = []
  /\ LEGACY_LOG_FILES
     = [lit "program_log.txt"; lit "sub/program_log.txt"; LOG_FILE].
Proof. repeat split. Qed.

Example text_lines_examples :
  text_lines (lit "a" ++ [CR; LF] ++ lit "b" ++ [CR] ++ lit "c" ++ [LF; LF]
              ++ lit "d")
  = [lit "a" ++ [LF]; lit "b" ++ [LF]; lit "c" ++ [LF]; [LF]; lit "d"]
  /\ text_lines [] = [].
Proof. repeat split. Qed.

(** With an empty world the first recording creates the directory and
    the file, header first; with call number 5 in a legacy file the
    first entry gets number 6 and stands on top of the data lines. *)
Example first_recording :
  fst (log_execution first_run main_py (world_of []))
  = Ok (Recorded 1 (lit "main.py"))
  /\ lines_at (snd (log_execution first_run main_py (world_of []))) LOG_FILE
     = HEADER ++ [row "1" "2025-10-08" "14:30:25" "main.py" "/home/u/main.py"]
  /\ fst (get_next_call_number world_legacy_five) = Ok 6
  /\ lines_at (snd (log_execution first_run main_py world_legacy_five)) LOG_FILE
     = HEADER ++ [row "6" "2025-10-08" "14:30:25" "main.py" "/home/u/main.py"].
Proof. repeat split. Qed.

(** A write that is cut short loses what the primary file held: with
    three entries in the file and the next write failing before anything
    has reached it, the recording reports the error, the file is empty
    afterwards, the view has no row and the next call number is 1 again,
    where it was 4. *)
Example cut_write_loses_entries :
  let w := mkWorld (nodes world_three_runs) (fun _ => true) (fun _ => true)
                   [Some (0%nat, OSError)] in
  let after := log_execution first_run main_py w in
  fst (get_next_call_number w) = Ok 4
  /\ fst after = Ok (WriteError OSError)
  /\ nodes (snd after) LOG_FILE = Some (File [])
  /\ fst (read_log (snd after)) = Ok []
  /\ fst (get_next_call_number (snd after)) = Ok 1.
Proof. repeat split. Qed.

(** Outside the call pattern of [log_execution], where no frame stands
    two levels up to look at, reading [f_back] of [None] raises. *)
Example get_caller_info_without_caller :
  get_caller_info None = Raise AttributeError
  /\ get_caller_info (Some (Outermost (lit "logger.py"))) = Raise AttributeError.
Proof. repeat split. Qed.

(** [log.py] differs from [logger.py] in two respects that matter here:
    its sentinel is the German word, and its statistics read the primary
    file alone, in file order, without merging. In a world where the
    primary file of [log.py] holds two entries and a legacy file a third,
    [Log.get_log_stats] counts two. *)
Example log_py_differences :
  Log.get_caller_info (Some (Called (lit "log.py") (Outermost (lit "log.py"))))
  = Ok (lit "Unbekannt", lit "Unbekannt")
  /\ fst (Log.get_log_stats
            (world_of
               [ (lit "program_log.txt",
                  File (row "3" "2025-01-03" "10:00:00" "a.py" "/p/a.py"
                        ++ row "2" "2025-01-02" "10:00:00" "b.py" "/p/b.py"));
                 (lit "sub", Dir);
                 (lit "sub/program_log.txt",
                  File (row "7" "2025-01-07" "10:00:00" "c.py" "/p/c.py")) ]))
     = Ok (Log.Figures 2
             (Some ((lit "2025-01-03", lit "10:00:00"),
                    (lit "2025-01-02", lit "10:00:00")))
             [(lit "a.py", 1); (lit "b.py", 1)]).
Proof. repeat split. Qed.

(* ================================================================== *)
(** * Part III. Further properties of the code                          *)
(* ================================================================== *)

(** ** What a recording does to the merged view *)

Module GrowthFacts.
Import Py OS Logger View.

(** The scans before and after a successful recording. *)
Lemma recorded_candidates (now : datetime) (self : frame) (w w' : world)
    (n : Z) (name : str) :
  log_execution now self w = (Ok (Recorded n name), w') ->
  tidy (caller_path self) = true ->
  open_comment_tail (lines_at w LOG_FILE) = false ->
  let line := format_entry n (strftime_date now) (strftime_time now)
                           (caller_name self) (caller_path self) in
  let new := mkEntry n (strftime_date now) (strftime_time now)
                     (caller_name self)
                     (Some (rstrip_by isspace (caller_path self))) in
  name = caller_name self
  /\ get_next_call_number w = (Ok n, w)
  /\ lines_at w' LOG_FILE = laid_out (primary_before w) line
  /\ line_number line = Some n
  /\ line_entry true line = Some new
  /\ exists A,
       candidates true w = A ++ choose (line_entry true) (lines_at w LOG_FILE)
       /\ candidates true w'
          = A ++ new :: choose (line_entry true) (lines_at w LOG_FILE).
Proof.
  intros H T O line new.
  pose proof (HeadFacts.tidy_one_line _ T) as P.
  destruct (SequenceFacts.next_after_record now self w w' n name H P O)
    as [N [-> _]].
  pose proof N as N'.
  rewrite ScanFacts.get_next_call_number_run in N'. injection N' as N'.
  rewrite RecordFacts.log_execution_run in H. cbv zeta in H. rewrite N' in H.
  fold line in H.
  destruct (insert_entry_at_top line w) as [[[]|x] w1] eqn:I; [|discriminate].
  injection H as <-.
  pose proof (ScanFacts.max_from_lower 0 (numbers_found w)) as L.
  assert (Hn : 0 <= n) by lia.
  destruct (EntryFacts.format_entry_line n now self Hn P) as [He Hc].
  fold line in He, Hc.
  assert (E : line_entry true line = Some new).
  { unfold line, new. apply HeadFacts.line_entry_entry;
      [assumption|apply EntryFacts.strftime_date_plain
      |apply EntryFacts.strftime_time_plain
      |apply EntryFacts.caller_name_chars; now apply HeadFacts.tidy_spec
      |assumption]. }
  repeat split; try assumption.
  - now apply AfterFacts.lines_after_insert.
  - now apply AfterFacts.line_number_entry.
  - destruct (AfterFacts.scan_after_insert (line_entry true) line w w1
                (AfterFacts.header_no_entry true) I O He Hc) as [A [E1 E2]].
    exists A. split; [exact E1|].
    change (candidates true w1) with (scan (line_entry true) w1).
    rewrite E2. cbn [choose]. rewrite E. reflexivity.
Qed.

(** Keys that no element carries do not matter in the seen-set. *)
Lemma first_copies_ext (l : list entry) (s1 s2 : list entry_key) :
  (forall x, In x l -> key_in (key_of x) s1 = key_in (key_of x) s2) ->
  first_copies s1 l = first_copies s2 l.
Proof.
  revert s1 s2. induction l as [|x l IH]; intros s1 s2 H; [reflexivity|].
  cbn [first_copies]. rewrite <- (H x) by now left.
  destruct (key_in (key_of x) s1) eqn:K.
  - apply IH. intros y Hy. apply H. now right.
  - f_equal. apply IH. intros y Hy. unfold key_in. cbn [existsb].
    f_equal. apply H. now right.
Qed.

(** An entry with a key of its own is kept, and every other entry stays
    or goes as without it. *)
Lemma first_copies_insert (A B : list entry) (e : entry)
    (seen : list entry_key) :
  ~ In (key_of e) seen ->
  (forall x, In x (A ++ B) -> key_of x <> key_of e) ->
  Permutation (first_copies seen (A ++ e :: B))
              (e :: first_copies seen (A ++ B)).
Proof.
  revert seen. induction A as [|a A IH]; intros seen Hs Hk.
  - cbn [app first_copies].
    apply DedupFacts.key_in_not_In in Hs. rewrite Hs.
    apply perm_skip. apply Permutation_refl'.
    apply first_copies_ext. intros x Hx. unfold key_in. cbn [existsb].
    assert (K : key_eqb (key_of x) (key_of e) = false).
    { destruct (key_eqb (key_of x) (key_of e)) eqn:K; [|reflexivity].
      apply DedupFacts.key_eqb_eq in K. exfalso. exact (Hk x Hx K). }
    now rewrite K.
  - cbn [app first_copies]. destruct (key_in (key_of a) seen).
    + apply IH; [assumption|]. intros x Hx. apply Hk. now right.
    + eapply Permutation_trans; [|apply perm_swap].
      apply perm_skip. apply IH.
      * intros [C|C]; [|contradiction].
        apply (Hk a); [now left|assumption].
      * intros x Hx. apply Hk. now right.
Qed.

End GrowthFacts.

Import Py OS Logger View.

(** X1. The line a successful [log_execution] writes is read back by both
    scans: it stands in the primary file afterwards, the numbering scan
    reads the call number off it, and [read_log] reads off it the number,
    the date and the time as formatted, the caller's file name and the
    caller's path, the latter without its trailing white space. Stated for
    a caller path that holds no tab and no line break and is not blank,
    and a primary file that does not end in a comment lacking its
    newline. *)
Theorem recorded_entry_reads_back (now : datetime) (self : frame)
    (w w' : world) (n : Z) (name : str) :
  log_execution now self w = (Ok (Recorded n name), w') ->
  tidy (caller_path self) = true ->
  open_comment_tail (lines_at w LOG_FILE) = false ->
  exists line,
    In line (lines_at w' LOG_FILE)
    /\ line_number line = Some n
    /\ line_entry true line
       = Some (mkEntry n (strftime_date now) (strftime_time now) name
                 (Some (rstrip_by isspace (caller_path self)))).
Proof.
  intros H T O.
  destruct (GrowthFacts.recorded_candidates now self w w' n name H T O)
    as (-> & _ & L & N & E & _).
  eexists. split; [|split; [exact N|exact E]].
  rewrite L. unfold laid_out. apply in_or_app. right. now left.
Qed.

Lemma recorded_entry_reads_back_witness :
  exists line,
    In line (lines_at (snd (log_execution first_run main_py world_legacy_five))
                      LOG_FILE)
    /\ line_number line = Some 6
    /\ line_entry true line
       = Some (mkEntry 6 (lit "2025-10-08") (lit "14:30:25") (lit "main.py")
                 (Some (lit "/home/u/main.py"))).
Proof.
  apply (recorded_entry_reads_back first_run main_py world_legacy_five
           (snd (log_execution first_run main_py world_legacy_five))
           6 (lit "main.py")); vm_compute; reflexivity.
Defined.

(** X2. A successful recording adds exactly one row to the table
    [read_log] shows and loses none: provided that the caller's path holds
    no tab and no line break and is not blank, that the primary file does
    not end in a comment lacking its newline, and that every row shown
    before carries a number below the one assigned, the table afterwards
    has one row more and holds every earlier row unchanged. *)
Theorem recording_adds_one_row (now : datetime) (self : frame)
    (w w' : world) (n : Z) (name : str) (rows : list entry) :
  log_execution now self w = (Ok (Recorded n name), w') ->
  tidy (caller_path self) = true ->
  open_comment_tail (lines_at w LOG_FILE) = false ->
  read_log w = (Ok rows, w) ->
  Forall (fun e => number e < n) rows ->
  exists rows',
    read_log w' = (Ok rows', w')
    /\ List.length rows' = S (List.length rows)
    /\ (forall e, In e rows -> In e rows').
Proof.
  intros H T O R Below.
  destruct (GrowthFacts.recorded_candidates now self w w' n name H T O)
    as (_ & _ & _ & _ & _ & A & E1 & E2).
  rewrite MergeFacts.read_log_run in R. injection R as <-.
  set (new := mkEntry n (strftime_date now) (strftime_time now)
                      (caller_name self)
                      (Some (rstrip_by isspace (caller_path self)))) in *.
  set (B := choose (line_entry true) (lines_at w LOG_FILE)) in *.
  assert (P : Permutation (merged true w') (new :: merged true w)).
  { unfold merged. rewrite E1, E2.
    apply GrowthFacts.first_copies_insert; [easy|].
    intros x Hx K. rewrite <- E1 in Hx.
    destruct (DedupFacts.first_copies_covers (candidates true w) [] x Hx)
      as [x' [H1 H2]]; [easy|].
    rewrite Forall_forall in Below.
    assert (Lt : number x' < n).
    { apply Below. apply SortFacts.sorted_reverse_in. exact H1. }
    rewrite (DedupFacts.number_of_key _ _ H2) in Lt.
    rewrite (DedupFacts.number_of_key _ _ K) in Lt.
    unfold new in Lt. cbn in Lt. lia. }
  exists (sorted_reverse number (merged true w')).
  split; [apply MergeFacts.read_log_run|]. split.
  - rewrite !SortFacts.sorted_reverse_length.
    now rewrite (Permutation_length P).
  - intros e He. apply SortFacts.sorted_reverse_in.
    apply SortFacts.sorted_reverse_in in He.
    apply (Permutation_in _ (Permutation_sym P)). now right.
Qed.

Lemma recording_adds_one_row_witness :
  let rows :=
    [ mkEntry 5 (lit "2025-01-05") (lit "10:00:00") (lit "a.py")
        (Some (lit "/p/a.py"));
      mkEntry 4 (lit "2025-01-04") (lit "10:00:00") (lit "b.py")
        (Some (lit "/p/b.py")) ] in
  exists rows',
    read_log (snd (log_execution first_run main_py world_legacy_five))
    = (Ok rows', snd (log_execution first_run main_py world_legacy_five))
    /\ List.length rows' = S (List.length rows)
    /\ (forall e, In e rows -> In e rows').
Proof.
  apply (recording_adds_one_row first_run main_py world_legacy_five
           (snd (log_execution first_run main_py world_legacy_five))
           6 (lit "main.py")).
  - vm_compute; reflexivity.
  - vm_compute; reflexivity.
  - vm_compute; reflexivity.
  - vm_compute; reflexivity.
  - vm_compute. repeat constructor.
Defined.

(** ** Recordings that fail, the directory and the header *)

Module FailureFacts.
Import Py OS Logger View.

(** When no write is cut short, a failed insertion leaves every scan as
    it was. *)
Lemma scan_after_failure {B} (f : str -> option B) (e : str) (w w' : world)
    (x : exn) :
  (forall l, is_header l = true -> f l = None) ->
  uncut w = true ->
  insert_entry_at_top e w = (Raise x, w') ->
  scan f w' = scan f w.
Proof.
  intros Hf U I.
  apply (InsertFacts.insert_failure _ _ _ _ U) in I as [Other Primary].
  unfold scan.
  change LEGACY_LOG_FILES
    with [lit "program_log.txt"; lit "sub/program_log.txt"; LOG_FILE].
  cbn [flat_map]. rewrite !Other by reflexivity.
  destruct Primary as [->|[E ->]]; [reflexivity|].
  now rewrite E, (SequenceFacts.header_scan f Hf).
Qed.

Lemma with_log_dir_nodes (w : world) (p : str) :
  str_eqb p LOG_DIR = false -> nodes (with_log_dir w) p = nodes w p.
Proof.
  intros Hp. unfold with_log_dir.
  destruct (nodes w LOG_DIR); [reflexivity|].
  destruct (parent_exists w LOG_DIR && may_write w LOG_DIR); [|reflexivity].
  now apply InsertFacts.nodes_put_other.
Qed.

Lemma with_log_dir_rights (w : world) :
  may_read (with_log_dir w) = may_read w
  /\ may_write (with_log_dir w) = may_write w.
Proof.
  unfold with_log_dir.
  destruct (nodes w LOG_DIR); [now split|].
  destruct (parent_exists w LOG_DIR && may_write w LOG_DIR); now split.
Qed.

Lemma header_skipped : Forall (fun l => is_skipped l = true) HEADER.
Proof. repeat constructor. Qed.

End FailureFacts.

(** X3. When no write is cut short once its file has been opened, a
    recording that reports a write error (the primary file could not be
    opened for reading or for writing) changes nothing that the module
    shows: afterwards [read_log], [get_log_stats] and
    [get_next_call_number] return what they returned before (the call may
    have created the directory and a header-only file, which hold no
    entry). *)
Theorem failed_recording_changes_nothing (now : datetime) (self : frame)
    (w w' : world) (x : exn) :
  uncut w = true ->
  log_execution now self w = (Ok (WriteError x), w') ->
  fst (read_log w') = fst (read_log w)
  /\ fst (get_log_stats w') = fst (get_log_stats w)
  /\ fst (get_next_call_number w') = fst (get_next_call_number w).
Proof.
  intros U. rewrite RecordFacts.log_execution_run. cbv zeta.
  destruct (insert_entry_at_top _ w) as [[[]|y] w1] eqn:I; [discriminate|].
  intros H. injection H as _ <-.
  assert (Hm : merged true w1 = merged true w).
  { unfold merged. f_equal.
    exact (FailureFacts.scan_after_failure (line_entry true) _ w w1 y
             (AfterFacts.header_no_entry true) U I). }
  assert (Hn : numbers_found w1 = numbers_found w).
  { exact (FailureFacts.scan_after_failure line_number _ w w1 y
             AfterFacts.header_no_number U I). }
  rewrite !MergeFacts.read_log_run, !StatsFacts.get_log_stats_run,
    !ScanFacts.get_next_call_number_run.
  cbn [fst]. now rewrite Hm, Hn.
Qed.

Lemma failed_recording_changes_nothing_witness :
  let w := Further.read_only world_three_runs in
  let w' := snd (log_execution first_run main_py w) in
  fst (read_log w') = fst (read_log w)
  /\ fst (get_log_stats w') = fst (get_log_stats w)
  /\ fst (get_next_call_number w') = fst (get_next_call_number w).
Proof.
  apply (failed_recording_changes_nothing first_run main_py
           (Further.read_only world_three_runs) _ OSError).
  - reflexivity.
  - vm_compute. reflexivity.
Defined.

(** X4. [ensure_log_directory] never raises, whatever the state of the
    file system, and touches nothing but the path [logs]: a refusal to
    create the directory is swallowed, a file or directory already named
    [logs] is left as it is, and otherwise [logs] is at most created as a
    directory. *)
Theorem ensure_log_directory_contained (w : world) :
  exists w',
    ensure_log_directory w = (Ok tt, w')
    /\ (forall p, str_eqb p LOG_DIR = false -> nodes w' p = nodes w p)
    /\ may_read w' = may_read w /\ may_write w' = may_write w
    /\ (nodes w LOG_DIR <> None -> w' = w)
    /\ (nodes w LOG_DIR = None ->
        nodes w' LOG_DIR = None \/ nodes w' LOG_DIR = Some Dir).
Proof.
  exists (with_log_dir w).
  split; [apply InsertFacts.ensure_log_directory_run|].
  split; [intros p; apply FailureFacts.with_log_dir_nodes|].
  destruct (FailureFacts.with_log_dir_rights w) as [R W].
  split; [exact R|]. split; [exact W|]. split.
  - intros H. unfold with_log_dir. destruct (nodes w LOG_DIR); easy.
  - intros H. unfold with_log_dir. rewrite H.
    destruct (parent_exists w LOG_DIR && may_write w LOG_DIR).
    + right. apply InsertFacts.nodes_put_same.
    + now left.
Qed.

(** X5. [create_log_file_header] either succeeds, and then the primary
    file holds exactly the three header lines whatever it held before,
    lines that every scan skips; or it raises. In the latter case either
    the file could not be opened, the exception is [OSError] and the file
    is as it was, or it was opened and the write was cut short: the file
    then holds the first characters of the header, as many as had reached
    it, and nothing of what it held before. When no write is cut short, a
    failure is of the first kind. In all cases no path other than the
    primary file and its directory is touched. *)
Theorem create_log_file_header_outcome (w : world) :
  let r := fst (create_log_file_header w) in
  let w' := snd (create_log_file_header w) in
  (forall p, str_eqb p LOG_FILE = false -> str_eqb p LOG_DIR = false ->
             nodes w' p = nodes w p)
  /\ match r with
     | Ok _ =>
         nodes w' LOG_FILE = Some (File (List.concat HEADER))
         /\ text_lines (List.concat HEADER) = HEADER
         /\ Forall (fun l => is_skipped l = true) HEADER
     | Raise e =>
         ((e = OSError /\ nodes w' LOG_FILE = nodes w LOG_FILE)
          \/ exists k,
               hd None (cuts w) = Some (k, e)
               /\ nodes w' LOG_FILE
                  = Some (File (firstn k (List.concat HEADER))))
         /\ (uncut w = true ->
             e = OSError /\ nodes w' LOG_FILE = nodes w LOG_FILE)
     end.
Proof.
  cbv zeta. rewrite InsertFacts.create_log_file_header_run.
  assert (C : cuts (with_log_dir w) = cuts w).
  { unfold with_log_dir. destruct (nodes w LOG_DIR); [reflexivity|].
    destruct (_ && _); reflexivity. }
  destruct (writable (with_log_dir w) LOG_FILE); cbn [fst snd].
  - unfold written. rewrite C.
    destruct (hd None (cuts w)) as [[k e]|] eqn:K; cbn [fst snd].
    + split.
      * intros p Hp Hd. rewrite InsertFacts.nodes_put_other by assumption.
        now apply FailureFacts.with_log_dir_nodes.
      * split.
        -- right. exists k. split; [reflexivity|apply InsertFacts.nodes_put_same].
        -- intros U. unfold uncut in U. destruct (cuts w) as [|[j|] r];
             cbn [hd forallb] in *; discriminate.
    + split.
      * intros p Hp Hd. rewrite InsertFacts.nodes_put_other by assumption.
        now apply FailureFacts.with_log_dir_nodes.
      * split; [apply InsertFacts.nodes_put_same|].
        split; [apply InsertFacts.header_lines|apply FailureFacts.header_skipped].
  - split.
    + intros p _ Hd. now apply FailureFacts.with_log_dir_nodes.
    + split; [left|intros _]; (split; [reflexivity|]);
        now apply FailureFacts.with_log_dir_nodes.
Qed.

(** ** What a recording may touch *)

Module FrameFacts.
Import Py OS Logger View Further.

Lemma touches_refl (w : world) : touches_only_log w w.
Proof. now repeat split. Qed.

Lemma touches_trans (w1 w2 w3 : world) :
  touches_only_log w1 w2 -> touches_only_log w2 w3 -> touches_only_log w1 w3.
Proof.
  intros (A & B & C) (A' & B' & C'). repeat split; try congruence.
  intros p Hp Hd. rewrite A', A by assumption. reflexivity.
Qed.

Lemma touches_put_log (w : world) (n : node) :
  touches_only_log w (put_node w LOG_FILE n).
Proof.
  repeat split. intros p Hp _. now apply InsertFacts.nodes_put_other.
Qed.

Lemma touches_with_log_dir (w : world) :
  touches_only_log w (with_log_dir w).
Proof.
  destruct (FailureFacts.with_log_dir_rights w) as [R W].
  repeat split; try assumption.
  intros p _ Hd. now apply FailureFacts.with_log_dir_nodes.
Qed.

Lemma touches_written (w : world) (text : str) :
  touches_only_log w (snd (written w LOG_FILE text)).
Proof.
  unfold written. destruct (hd None (cuts w)) as [[k x]|]; cbn [snd];
    repeat split; intros p Hp _;
    now rewrite InsertFacts.nodes_put_other.
Qed.

Lemma insert_frame_existing (e text : str) (w : world) :
  nodes w LOG_FILE = Some (File text) ->
  touches_only_log w (snd (insert_entry_at_top e w)).
Proof.
  intros E. rewrite (InsertFacts.insert_into_existing _ text) by assumption.
  destruct (may_read w LOG_FILE); [destruct (writable w LOG_FILE)|];
    cbn [snd]; try apply touches_refl. apply touches_written.
Qed.

Lemma insert_frame (e : str) (w : world) :
  touches_only_log w (snd (insert_entry_at_top e w)).
Proof.
  destruct (nodes w LOG_FILE) as [[|text]|] eqn:E.
  - unfold insert_entry_at_top, bind, exists_. rewrite E. cbn [negb].
    unfold ret at 1. unfold readlines. rewrite E. apply touches_refl.
  - now apply (insert_frame_existing e text).
  - unfold insert_entry_at_top, bind at 1, exists_. rewrite E. cbn [negb].
    unfold bind at 1. rewrite InsertFacts.create_log_file_header_run.
    destruct (writable (with_log_dir w) LOG_FILE).
    + pose proof (touches_written (with_log_dir w) (List.concat HEADER)) as T.
      destruct (InsertFacts.written_cases (with_log_dir w) LOG_FILE
                  (List.concat HEADER)) as [Q|[k [x0 Q]]]; rewrite Q in *;
        cbn [snd] in T.
      * set (w2 := put_node (opened (with_log_dir w)) LOG_FILE
                     (File (List.concat HEADER))) in *.
        assert (E2 : nodes w2 LOG_FILE = Some (File (List.concat HEADER)))
          by apply InsertFacts.nodes_put_same.
        fold (insert_entry_at_top e).
        match goal with
        | |- touches_only_log w (snd ?c) =>
            assert (H : c = insert_entry_at_top e w2)
        end.
        { unfold insert_entry_at_top, bind at 2, exists_.
          rewrite E2. reflexivity. }
        rewrite H.
        eapply touches_trans; [apply touches_with_log_dir|].
        eapply touches_trans; [exact T|].
        now apply (insert_frame_existing e (List.concat HEADER)).
      * cbn [snd].
        eapply touches_trans; [apply touches_with_log_dir|exact T].
    + cbn [snd]. apply touches_with_log_dir.
Qed.

Lemma log_execution_frame (now : datetime) (self : frame) (w : world) :
  touches_only_log w (snd (log_execution now self w)).
Proof.
  rewrite RecordFacts.log_execution_run. cbv zeta.
  match goal with
  | |- context [insert_entry_at_top ?e w] =>
      pose proof (insert_frame e w) as F;
      destruct (insert_entry_at_top e w) as [[[]|x] w']
  end; exact F.
Qed.

End FrameFacts.

(** X6. Whatever happens, [log_execution] returns normally and touches
    nothing but the primary log file and its directory: every other path
    holds afterwards what it held before, and the rights are unchanged.
    In particular the legacy locations are only ever read. *)
Theorem recording_touches_only_the_log (now : datetime) (self : frame)
    (w : world) :
  exists fb w',
    log_execution now self w = (Ok fb, w')
    /\ (forall p, str_eqb p LOG_FILE = false -> str_eqb p LOG_DIR = false ->
                  nodes w' p = nodes w p)
    /\ may_read w' = may_read w /\ may_write w' = may_write w
    /\ nodes w' (lit "program_log.txt") = nodes w (lit "program_log.txt")
    /\ nodes w' (lit "sub/program_log.txt") = nodes w (lit "sub/program_log.txt").
Proof.
  destruct (RecordFacts.log_execution_total now self w) as (fb & w' & E).
  pose proof (FrameFacts.log_execution_frame now self w) as (A & B & C).
  rewrite E in A, B, C. cbn [snd] in A, B, C.
  exists fb, w'. split; [exact E|]. split; [exact A|].
  split; [exact B|]. split; [exact C|]. split; apply A; reflexivity.
Qed.

(** ** Questions asked at the keyboard *)

Module AskFacts.
Import Py OS Interactive Further.

Lemma first_accepted_spec {A} (accept : str -> option A) (lines : list str) :
  (exists a rejected line,
     first_accepted accept lines = (Done a, skipn (S (List.length rejected)) lines)
     /\ lines = rejected ++ line :: skipn (S (List.length rejected)) lines
     /\ accept line = Some a
     /\ Forall (fun l => accept l = None) rejected)
  \/ (first_accepted accept lines = (Fail EOFError, [])
      /\ Forall (fun l => accept l = None) lines).
Proof.
  induction lines as [|l lines IH].
  - right. split; [reflexivity|constructor].
  - cbn [first_accepted]. destruct (accept l) as [a|] eqn:E.
    + left. exists a, [], l. cbn. repeat split; [assumption|constructor].
    + destruct IH as [(a & rejected & line & H1 & H2 & H3 & H4)|[H1 H2]].
      * left. exists a, (l :: rejected), line.
        cbn [List.length skipn app] in *. rewrite H1.
        split; [reflexivity|]. split; [now rewrite <- H2|].
        split; [assumption|now constructor].
      * right. split; [assumption|now constructor].
Qed.

Lemma integer_loop_accepts (lo hi : Z) (lines : list str) :
  Generator.integer_loop lo hi lines = first_accepted (accepted lo hi) lines.
Proof.
  induction lines as [|l lines IH]; [reflexivity|].
  cbn [Generator.integer_loop first_accepted]. unfold accepted.
  destruct (int l) as [v|e] eqn:E.
  - destruct ((lo <=? v) && (v <=? hi)); [reflexivity|exact IH].
  - apply PyFacts.int_raises_ValueError in E. subst e. exact IH.
Qed.

Lemma choice_loop_accepts (shapes : list (str * str)) (lines : list str) :
  Generator.choice_loop shapes lines = first_accepted (lookup shapes) lines.
Proof.
  induction lines as [|l lines IH]; [reflexivity|].
  cbn [Generator.choice_loop first_accepted].
  destruct (lookup shapes l); [reflexivity|exact IH].
Qed.

Lemma format_loop_accepts (lines : list str) :
  Generator.format_loop lines = first_accepted format_of lines.
Proof.
  induction lines as [|l lines IH]; [reflexivity|].
  cbn [Generator.format_loop first_accepted]. unfold format_of. cbv zeta.
  destruct (str_eqb (strip l) (lit "1")); [reflexivity|].
  destruct (str_eqb (strip l) (lit "2")); [reflexivity|exact IH].
Qed.

Lemma menu_loop_accepts (lines : list str) :
  Menu.choice_loop (map fst Menu.MENU_OPTIONS) lines
  = first_accepted option_of lines.
Proof.
  induction lines as [|l lines IH]; [reflexivity|].
  cbn [Menu.choice_loop first_accepted]. unfold option_of. cbv zeta.
  destruct (existsb (str_eqb (strip l)) (map fst Menu.MENU_OPTIONS));
    [reflexivity|exact IH].
Qed.

(** A question asked until a line is accepted: the answer is that of the
    first accepted line, every line before it was rejected, and nothing
    but standard input is touched. Without an accepted line the question
    ends in [EOFError] with all the input read. *)
Lemma reading_spec {A} (loop : list str -> outcome A * list str)
    (accept : str -> option A) (s : session) :
  (forall lines, loop lines = first_accepted accept lines) ->
  exists s',
    (exists a rejected line,
       reading loop s = (Done a, s')
       /\ has_read s s' (rejected ++ [line])
       /\ accept line = Some a
       /\ Forall (fun l => accept l = None) rejected)
    \/ (reading loop s = (Fail EOFError, s')
        /\ has_read s s' (stdin s) /\ stdin s' = []
        /\ Forall (fun l => accept l = None) (stdin s)).
Proof.
  intros L. unfold reading. rewrite L.
  destruct (first_accepted_spec accept (stdin s))
    as [(a & rejected & line & H1 & H2 & H3 & H4)|[H1 H2]]; rewrite H1.
  - eexists. left. exists a, rejected, line.
    split; [reflexivity|]. split; [|now split].
    unfold has_read. cbn. repeat split.
    rewrite <- app_assoc. exact H2.
  - eexists. right. split; [reflexivity|].
    split; [|now split]. unfold has_read. cbn. repeat split.
    now rewrite app_nil_r.
Qed.

Lemma lookup_in {V} (d : list (str * V)) (k : str) (v : V) :
  lookup d k = Some v -> In (k, v) d.
Proof.
  induction d as [|[k' v'] d IH]; [discriminate|]. cbn [lookup].
  destruct (str_eqb k' k) eqn:E.
  - apply PyFacts.str_eqb_eq in E. subst k'. intros H. injection H as ->.
    now left.
  - intros H. right. now apply IH.
Qed.

(** [get_user_input_integer] in one step. *)
Lemma get_user_input_integer_run (min_value max_value : Z) (s : session) :
  exists s',
    (exists value rejected line,
       Generator.get_user_input_integer min_value max_value s = (Done value, s')
       /\ has_read s s' (rejected ++ [line])
       /\ int line = Ok value
       /\ min_value <= value <= max_value
       /\ Forall (fun l => accepted min_value max_value l = None) rejected)
    \/ (Generator.get_user_input_integer min_value max_value s
        = (Fail EOFError, s')
        /\ has_read s s' (stdin s) /\ stdin s' = []
        /\ Forall (fun l => accepted min_value max_value l = None) (stdin s)).
Proof.
  destruct (reading_spec
              (Generator.integer_loop min_value max_value)
              (accepted min_value max_value) s
              (integer_loop_accepts min_value max_value))
    as [s' [(v & rejected & line & H1 & H2 & H3 & H4)|H]];
    exists s'; [left|right; exact H].
  exists v, rejected, line. split; [exact H1|]. split; [exact H2|].
  unfold accepted in H3. destruct (int line) as [v'|]; [|discriminate].
  destruct ((min_value <=? v') && (v' <=? max_value)) eqn:B; [|discriminate].
  injection H3 as ->. apply andb_prop in B as [B1 B2].
  split; [reflexivity|]. split; [lia|assumption].
Qed.

End AskFacts.

Import Interactive Further.

(** X7. [get_user_input_integer] returns only an integer within the
    bounds: the value [int()] gives for the first line that parses as an
    integer within them, every line typed before it having been rejected
    (not an integer, or out of range). It touches nothing but standard
    input, and when no line is acceptable it ends in [EOFError] once the
    input is used up. *)
Theorem get_user_input_integer_spec (min_value max_value : Z) (s : session) :
  exists s',
    (exists value rejected line,
       Generator.get_user_input_integer min_value max_value s = (Done value, s')
       /\ has_read s s' (rejected ++ [line])
       /\ int line = Ok value
       /\ min_value <= value <= max_value
       /\ Forall (fun l => accepted min_value max_value l = None) rejected)
    \/ (Generator.get_user_input_integer min_value max_value s
        = (Fail EOFError, s')
        /\ has_read s s' (stdin s) /\ stdin s' = []
        /\ Forall (fun l => accepted min_value max_value l = None) (stdin s)).
Proof. apply AskFacts.get_user_input_integer_run. Qed.

(** ** Objects on the page *)

Module DrawFacts.
Import Py OS Interactive Further Generator.

Lemma has_drawn_refl (s : session) : has_drawn s s.
Proof. now repeat split. Qed.

Lemma has_drawn_trans (s1 s2 s3 : session) :
  has_drawn s1 s2 -> has_drawn s2 s3 -> has_drawn s1 s3.
Proof.
  intros (A & B & C) (A' & B' & C'). repeat split; congruence.
Qed.

Lemma randint_spec (a b : Z) (s : session) :
  a <= b ->
  exists v s', randint a b s = (Done v, s') /\ a <= v <= b /\ has_drawn s s'.
Proof.
  intros H. unfold randint.
  destruct (b <? a) eqn:E; [lia|].
  eexists. eexists. split; [reflexivity|]. split; [|now repeat split].
  pose proof (Z.mod_pos_bound (seed s O) (b - a + 1)). lia.
Qed.

Lemma place_object_spec (f : Z -> Z -> Z -> drawing) (objects : page)
    (s : session) :
  exists x y size s',
    place_object f objects s = (Done (objects ++ [f x y size]), s')
    /\ has_drawn s s' /\ fits x y size.
Proof.
  unfold place_object, io_bind.
  destruct (randint_spec MIN_OBJECT_SIZE MAX_OBJECT_SIZE s)
    as (size & s1 & -> & Hs & D1); [unfold MIN_OBJECT_SIZE, MAX_OBJECT_SIZE; lia|].
  unfold MIN_OBJECT_SIZE, MAX_OBJECT_SIZE in Hs.
  assert (G : (PAGE_WIDTH - size - PAGE_MARGIN <? PAGE_MARGIN)
              || (PAGE_HEIGHT - size - PAGE_MARGIN <? PAGE_MARGIN) = false).
  { unfold PAGE_WIDTH, PAGE_HEIGHT, PAGE_MARGIN. apply orb_false_intro; lia. }
  rewrite G.
  destruct (randint_spec PAGE_MARGIN (PAGE_WIDTH - size - PAGE_MARGIN) s1)
    as (x & s2 & -> & Hx & D2); [unfold PAGE_WIDTH, PAGE_MARGIN; lia|].
  destruct (randint_spec PAGE_MARGIN (PAGE_HEIGHT - size - PAGE_MARGIN) s2)
    as (y & s3 & -> & Hy & D3); [unfold PAGE_HEIGHT, PAGE_MARGIN; lia|].
  exists x, y, size, s3. split; [reflexivity|]. split.
  - eapply has_drawn_trans; [exact D1|].
    eapply has_drawn_trans; [exact D2|exact D3].
  - unfold fits, MIN_OBJECT_SIZE, MAX_OBJECT_SIZE. lia.
Qed.

Lemma place_all (f : Z -> Z -> Z -> drawing) (xs : list Z) (objects : page)
    (s : session) :
  exists added s',
    io_for xs objects (fun objects _ => place_object f objects) s
    = (Done (objects ++ added), s')
    /\ has_drawn s s'
    /\ List.length added = List.length xs
    /\ Forall (fun d => exists x y size, d = f x y size /\ fits x y size) added.
Proof.
  revert objects s. induction xs as [|v xs IH]; intros objects s.
  - exists [], s. cbn. rewrite app_nil_r.
    split; [reflexivity|]. split; [apply has_drawn_refl|]. now split.
  - cbn [io_for]. unfold io_bind at 1.
    destruct (place_object_spec f objects s) as (x & y & size & s1 & -> & D1 & F).
    destruct (IH (objects ++ [f x y size]) s1) as (added & s2 & -> & D2 & L & A).
    exists (f x y size :: added), s2.
    rewrite <- app_assoc. split; [reflexivity|].
    split; [eapply has_drawn_trans; eassumption|].
    split; [cbn; now rewrite L|].
    constructor; [|assumption]. now exists x, y, size.
Qed.

Lemma range_length (start stop : Z) :
  List.length (range start stop) = Z.to_nat (stop - start).
Proof. unfold range. now rewrite length_map, length_seq. Qed.

Lemma draw_objects_spec (k : shape) (object_count : Z) (s : session) :
  exists objects s',
    draw_objects (mkDrawing k) object_count s = (Done objects, s')
    /\ has_drawn s s'
    /\ List.length objects = Z.to_nat object_count
    /\ Forall inside_margins objects
    /\ Forall (fun d => drawn_shape d = k) objects.
Proof.
  unfold draw_objects.
  destruct (place_all (mkDrawing k) (range 0 object_count) [] s)
    as (added & s' & E & D & L & A).
  exists added, s'. cbn [app] in E. split; [exact E|]. split; [exact D|].
  rewrite range_length, Z.sub_0_r in L. split; [exact L|].
  split; eapply Forall_impl; try exact A; cbv beta;
    intros d (x & y & size & -> & F); [exact F|reflexivity].
Qed.

Lemma known_shape (shape_name : str) (f : Z -> Z -> Z -> drawing) :
  lookup SHAPE_DRAWING_FUNCTIONS shape_name = Some f ->
  exists k, f = mkDrawing k.
Proof.
  intros H. apply AskFacts.lookup_in in H.
  repeat (destruct H as [H|H]; [injection H as _ <-; eexists; reflexivity|]).
  destruct H.
Qed.

End DrawFacts.

(** X8. Every object [pdf_generator.py] places lies within the margins:
    for every state of the random generator the loop over the objects
    draws exactly [object_count] objects (none when the count is not
    positive), each of the chosen shape, with a size from 15 to 30 and its
    bounding box at least 15 mm from every edge of the A4 page. No object
    is ever skipped for lack of room, [randint] is never called on an
    empty range, and only the random generator is used. *)
Theorem objects_inside_margins (k : Generator.shape) (object_count : Z)
    (s : session) :
  exists objects s',
    Generator.draw_objects (Generator.mkDrawing k) object_count s
    = (Done objects, s')
    /\ has_drawn s s'
    /\ List.length objects = Z.to_nat object_count
    /\ Forall inside_margins objects
    /\ Forall (fun d => Generator.drawn_shape d = k) objects.
Proof. apply DrawFacts.draw_objects_spec. Qed.

(** ** Files in the output directory *)

Module OutputFacts.
Import Py OS Interactive Further Generator.

Lemma split_no_slash (tail : str) :
  no_slash tail = true -> split_at_last_slash tail = ([], tail).
Proof.
  induction tail as [|c tail IH]; [reflexivity|].
  cbn [no_slash forallb]. intros H. apply andb_prop in H as [Hc Ht].
  cbn [split_at_last_slash]. rewrite (IH Ht).
  apply negb_true_iff in Hc. now rewrite Hc.
Qed.

Lemma split_last_slash (head tail : str) :
  no_slash tail = true ->
  split_at_last_slash (head ++ "/"%char :: tail) = (head ++ ["/"%char], tail).
Proof.
  intros H. induction head as [|c head IH].
  - cbn [app split_at_last_slash]. now rewrite (split_no_slash _ H).
  - cbn [app split_at_last_slash]. rewrite IH.
    destruct (char_eqb c "/"%char); [reflexivity|].
    destruct head; reflexivity.
Qed.

Lemma no_slash_app (a b : str) :
  no_slash (a ++ b) = no_slash a && no_slash b.
Proof. apply forallb_app. Qed.

Lemma no_slash_str_of_int (n : Z) : no_slash (str_of_int n) = true.
Proof.
  assert (D : forall m, 0 <= m -> no_slash (decimal m) = true).
  { intros m Hm. destruct (DecimalFacts.decimal_spec m Hm) as (_ & F & _).
    revert F. apply EntryFacts.forallb_impl. intros c Hc.
    apply negb_true_iff. now apply DecimalFacts.isdigit_not_char. }
  unfold str_of_int. destruct (n <? 0) eqn:E.
  - cbn [no_slash forallb]. apply D. lia.
  - apply D. lia.
Qed.

Lemma no_slash_filename (base_name : str) (version total : Z) :
  no_slash base_name = true ->
  no_slash (generate_pdf_filename base_name version total) = true.
Proof.
  intros H. unfold generate_pdf_filename.
  destruct (total =? 1); rewrite !no_slash_app, ?H, ?no_slash_str_of_int;
    reflexivity.
Qed.

(** A name without directory part is filed directly under [output]. *)
Lemma filepath_plain (filename : str) :
  no_slash filename = true ->
  get_pdf_filepath filename = lit "output/" ++ filename
  /\ dirname (get_pdf_filepath filename) = OUTPUT_DIR.
Proof.
  intros H.
  assert (E : get_pdf_filepath filename = lit "output/" ++ filename).
  { unfold get_pdf_filepath, join.
    destruct filename as [|c r]; [reflexivity|].
    cbn [no_slash forallb] in H. apply andb_prop in H as [Hc _].
    apply negb_true_iff in Hc. cbn [lit list_ascii_of_string startswith].
    rewrite PyFacts.char_eqb_sym, Hc. reflexivity. }
  split; [exact E|]. rewrite E. unfold dirname.
  change (lit "output/" ++ filename)
    with (lit "output" ++ "/"%char :: filename).
  now rewrite split_last_slash.
Qed.

Lemma filepath_not_output (filename : str) :
  no_slash filename = true ->
  str_eqb OUTPUT_DIR (get_pdf_filepath filename) = false.
Proof.
  intros H. destruct (filepath_plain _ H) as [-> _]. reflexivity.
Qed.

Lemma writable_in_output (w : world) (filename : str) :
  no_slash filename = true ->
  writable w (get_pdf_filepath filename)
  = match nodes w (get_pdf_filepath filename) with
    | Some Dir => false
    | _ => match nodes w OUTPUT_DIR with
           | Some Dir => may_write w (get_pdf_filepath filename)
           | _ => false
           end
    end.
Proof.
  intros H. unfold writable, parent_exists.
  destruct (filepath_plain _ H) as [_ ->].
  remember (nodes w (get_pdf_filepath filename)) as n eqn:N.
  remember (may_write w (get_pdf_filepath filename)) as m eqn:Hm.
  clear N Hm. unfold OUTPUT_DIR. cbn [lit list_ascii_of_string].
  destruct n as [[|]|]; try reflexivity;
    destruct (nodes w _) as [[|]|]; reflexivity.
Qed.

Section Rendering.
Variable render : document -> str.

(** [create_single_pdf] in one step. *)
Lemma create_single_pdf_run (filename shape_name : str) (object_count : Z)
    (s : session) :
  exists success s',
    create_single_pdf render filename shape_name object_count s
    = (Done success, s')
    /\ stdin s' = stdin s /\ clock s' = clock s
    /\ if success : bool
       then exists k objects,
              lookup SHAPE_DRAWING_FUNCTIONS shape_name = Some (mkDrawing k)
              /\ writable (files s) (get_pdf_filepath filename) = true
              /\ files s' = put_node (files s) (get_pdf_filepath filename)
                              (File (render [objects]))
              /\ List.length objects = Z.to_nat object_count
              /\ Forall inside_margins objects
              /\ Forall (fun d => drawn_shape d = k) objects
       else files s' = files s
            /\ (lookup SHAPE_DRAWING_FUNCTIONS shape_name = None
                \/ writable (files s) (get_pdf_filepath filename) = false).
Proof.
  unfold create_single_pdf, io_try.
  destruct (lookup SHAPE_DRAWING_FUNCTIONS shape_name) as [f|] eqn:K.
  - destruct (DrawFacts.known_shape _ _ K) as [k ->].
    unfold io_bind at 1.
    destruct (DrawFacts.draw_objects_spec k object_count s)
      as (objects & s1 & -> & (F & I & C) & L & M & Sh).
    unfold io_bind, output, lift_fs.
    rewrite InsertFacts.save_file_run, F.
    destruct (writable (files s) (get_pdf_filepath filename)) eqn:W.
    + exists true. eexists. split; [reflexivity|].
      cbn. split; [exact I|]. split; [exact C|].
      exists k, objects.
      repeat split; assumption || reflexivity.
    + exists false. eexists. cbn. split; [reflexivity|].
      cbn. split; [exact I|]. split; [exact C|]. split; [reflexivity|now right].
  - exists false, s. cbn. repeat split. now left.
Qed.

End Rendering.

End OutputFacts.


(** ** Several versions *)

Module VersionFacts.
Import Py OS Interactive Further Generator.

Lemma str_of_int_injective (a b : Z) : str_of_int a = str_of_int b -> a = b.
Proof.
  intros H. pose proof (DecimalFacts.int_str_of_int a) as Ha.
  rewrite H, DecimalFacts.int_str_of_int in Ha. now injection Ha.
Qed.

Lemma filename_injective (base_name : str) (v1 v2 total : Z) :
  total <> 1 ->
  generate_pdf_filename base_name v1 total
  = generate_pdf_filename base_name v2 total ->
  v1 = v2.
Proof.
  intros T. unfold generate_pdf_filename.
  apply Z.eqb_neq in T. rewrite T. intros H.
  apply app_inv_head in H. apply app_inv_head in H.
  apply app_inv_tail in H. now apply str_of_int_injective.
Qed.

Lemma NoDup_map_injective {A B} (f : A -> B) (l : list A) :
  (forall x y, In x l -> In y l -> f x = f y -> x = y) ->
  NoDup l -> NoDup (map f l).
Proof.
  intros Hf N. induction N as [|x l Hx N IH]; [constructor|].
  cbn [map]. constructor.
  - intros H. apply in_map_iff in H as (y & E & Hy).
    assert (y = x) by (apply Hf; [now right|now left|exact E]).
    subst y. contradiction.
  - apply IH. intros a b Ha Hb. apply Hf; now right.
Qed.

Lemma range_NoDup (start stop : Z) : NoDup (range start stop).
Proof.
  unfold range. apply NoDup_map_injective; [|apply seq_NoDup].
  intros i j _ _ H. lia.
Qed.

Lemma range_in (start stop v : Z) :
  In v (range start stop) <-> start <= v < stop.
Proof.
  unfold range. rewrite in_map_iff. split.
  - intros (i & <- & Hi). apply in_seq in Hi. lia.
  - intros H. exists (Z.to_nat (v - start)). split; [lia|].
    apply in_seq. lia.
Qed.

Section Rendering.
Variable render : document -> str.
Variables (base_name shape_name : str) (total object_count : Z).

Lemma versions_all_fail (vs : list Z) (created : list str) (s : session) :
  (forall v, In v vs ->
     lookup SHAPE_DRAWING_FUNCTIONS shape_name = None
     \/ writable (files s) (version_path base_name total v) = false) ->
  exists s',
    io_for vs created
      (create_version render base_name total shape_name object_count) s = (Done created, s')
    /\ files s' = files s /\ stdin s' = stdin s /\ clock s' = clock s.
Proof.
  revert created s. induction vs as [|v vs IH]; intros created s H.
  - exists s. now repeat split.
  - cbn [io_for]. unfold io_bind at 1. unfold create_version at 1.
    unfold io_bind at 1.
    destruct (OutputFacts.create_single_pdf_run render
                (generate_pdf_filename base_name v total) shape_name
                object_count s) as (b & s1 & -> & I & C & R).
    destruct b.
    + exfalso. destruct R as (k & objects & K & W & _).
      destruct (H v (or_introl eq_refl)) as [N|N].
      * rewrite N in K. discriminate.
      * unfold version_path in N. rewrite N in W. discriminate.
    + destruct R as [F _]. unfold io_ret at 1.
      destruct (IH created s1) as (s2 & -> & F2 & I2 & C2).
      * intros v' Hv'. rewrite F. apply H. now right.
      * exists s2. repeat split; congruence.
Qed.

Lemma versions_all_succeed (vs : list Z) (created : list str) (s : session)
    (f : Z -> Z -> Z -> drawing) :
  lookup SHAPE_DRAWING_FUNCTIONS shape_name = Some f ->
  no_slash base_name = true ->
  nodes (files s) OUTPUT_DIR = Some Dir ->
  (forall v, In v vs ->
     nodes (files s) (version_path base_name total v) <> Some Dir
     /\ may_write (files s) (version_path base_name total v) = true) ->
  exists s',
    io_for vs created
      (create_version render base_name total shape_name object_count) s
    = (Done (created
             ++ map (fun v => generate_pdf_filename base_name v total) vs), s')
    /\ stdin s' = stdin s /\ clock s' = clock s
    /\ (forall v, In v vs ->
          exists objects,
            nodes (files s') (version_path base_name total v) = Some (File (render [objects]))
            /\ List.length objects = Z.to_nat object_count
            /\ Forall inside_margins objects)
    /\ (forall q, (forall v, In v vs -> str_eqb q (version_path base_name total v) = false) ->
          nodes (files s') q = nodes (files s) q)
    /\ may_read (files s') = may_read (files s)
    /\ may_write (files s') = may_write (files s).
Proof.
  intros K B. revert created s.
  induction vs as [|v vs IH]; intros created s O H.
  - exists s. cbn. rewrite app_nil_r. repeat split. intros v [].
  - cbn [io_for]. unfold io_bind at 1. unfold create_version at 1.
    unfold io_bind at 1.
    pose proof (OutputFacts.no_slash_filename base_name v total B) as Bv.
    destruct (OutputFacts.create_single_pdf_run render
                (generate_pdf_filename base_name v total) shape_name
                object_count s) as (b & s1 & -> & I & C & R).
    destruct b.
    + destruct R as (k & objects & _ & _ & F & L & M & _).
      fold (version_path base_name total v) in F. unfold io_ret at 1.
      assert (O1 : nodes (files s1) OUTPUT_DIR = Some Dir).
      { rewrite F, InsertFacts.nodes_put_other; [exact O|].
        now apply OutputFacts.filepath_not_output. }
      destruct (IH (created ++ [generate_pdf_filename base_name v total]) s1 O1)
        as (s2 & -> & I2 & C2 & Files & Others & R2 & W2).
      { intros v' Hv'. rewrite F. split.
        - destruct (str_eqb (version_path base_name total v') (version_path base_name total v)) eqn:E.
          + apply PyFacts.str_eqb_eq in E. rewrite E.
            rewrite InsertFacts.nodes_put_same. discriminate.
          + rewrite InsertFacts.nodes_put_other by exact E.
            apply H. now right.
        - apply H. now right. }
      exists s2. rewrite <- app_assoc. split; [reflexivity|].
      split; [congruence|]. split; [congruence|]. split; [|split; [|split]].
      * intros v' [<-|Hv']; [|now apply Files].
        destruct (existsb (fun u => str_eqb (version_path base_name total v) (version_path base_name total u)) vs) eqn:E.
        -- apply existsb_exists in E as (u & Hu & E).
           apply PyFacts.str_eqb_eq in E. rewrite E. now apply Files.
        -- exists objects. split; [|now split].
           rewrite Others.
           ++ rewrite F. apply InsertFacts.nodes_put_same.
           ++ intros u Hu.
              destruct (str_eqb (version_path base_name total v) (version_path base_name total u)) eqn:E'; [|reflexivity].
              assert (X : existsb (fun u => str_eqb (version_path base_name total v) (version_path base_name total u)) vs = true)
                by (apply existsb_exists; now exists u).
              rewrite X in E. discriminate.
      * intros q Hq. rewrite Others.
        -- rewrite F. apply InsertFacts.nodes_put_other. apply Hq. now left.
        -- intros u Hu. apply Hq. now right.
      * rewrite R2, F. reflexivity.
      * rewrite W2, F. reflexivity.
    + exfalso. destruct R as [_ [N|N]].
      * rewrite N in K. discriminate.
      * rewrite (OutputFacts.writable_in_output _ _ Bv), O in N.
        destruct (H v (or_introl eq_refl)) as [H1 H2].
        fold (version_path base_name total v) in N. rewrite H2 in N.
        destruct (nodes (files s) (version_path base_name total v)) as [[|]|]; try discriminate.
        now apply H1.
Qed.

Lemma pages_spec (k : shape) (vs : list Z) (pages : list page) (s : session) :
  exists added s',
    io_for vs pages (create_page (mkDrawing k) object_count) s
    = (Done (pages ++ added), s')
    /\ has_drawn s s'
    /\ List.length added = List.length vs
    /\ Forall (well_filled k object_count) added.
Proof.
  revert pages s. induction vs as [|v vs IH]; intros pages s.
  - exists [], s. cbn. rewrite app_nil_r.
    split; [reflexivity|]. split; [apply DrawFacts.has_drawn_refl|now split].
  - cbn [io_for]. unfold io_bind at 1. unfold create_page at 1.
    unfold io_bind at 1.
    destruct (DrawFacts.draw_objects_spec k object_count s)
      as (objects & s1 & -> & D1 & L & M & Sh).
    unfold io_ret at 1.
    destruct (IH (pages ++ [objects]) s1) as (added & s2 & -> & D2 & L2 & A).
    exists (objects :: added), s2. rewrite <- app_assoc.
    split; [reflexivity|].
    split; [eapply DrawFacts.has_drawn_trans; eassumption|].
    split; [cbn; now rewrite L2|]. constructor; [now repeat split|assumption].
Qed.

(** [create_combined_pdf] in one step. *)
Lemma create_combined_pdf_run (s : session) :
  exists r s',
    create_combined_pdf render base_name total shape_name object_count s
    = (Done r, s')
    /\ stdin s' = stdin s /\ clock s' = clock s
    /\ match r with
       | Some filename =>
           filename = base_name ++ lit "_Combined.pdf"
           /\ exists k pages,
                lookup SHAPE_DRAWING_FUNCTIONS shape_name = Some (mkDrawing k)
                /\ writable (files s) (get_pdf_filepath filename) = true
                /\ files s' = put_node (files s) (get_pdf_filepath filename)
                                (File (render pages))
                /\ List.length pages = Z.to_nat total
                /\ Forall (well_filled k object_count) pages
       | None =>
           files s' = files s
           /\ (lookup SHAPE_DRAWING_FUNCTIONS shape_name = None
               \/ writable (files s)
                    (get_pdf_filepath (base_name ++ lit "_Combined.pdf"))
                  = false)
       end.
Proof.
  unfold create_combined_pdf, io_try.
  destruct (lookup SHAPE_DRAWING_FUNCTIONS shape_name) as [f|] eqn:K.
  - destruct (DrawFacts.known_shape _ _ K) as [k ->].
    unfold io_bind at 1.
    destruct (pages_spec k (range 1 (total + 1)) [] s)
      as (pages & s1 & E & (F & I & C) & L & A).
    cbn [app] in E. rewrite E.
    unfold io_bind, output, lift_fs.
    rewrite InsertFacts.save_file_run, F.
    destruct (writable (files s)
                (get_pdf_filepath (base_name ++ lit "_Combined.pdf"))) eqn:W.
    + eexists. eexists. split; [reflexivity|].
      cbn. split; [exact I|]. split; [exact C|]. split; [reflexivity|].
      exists k, pages.
      rewrite DrawFacts.range_length in L.
      replace (total + 1 - 1) with total in L by lia.
      repeat split; assumption || reflexivity.
    + exists None. eexists. cbn. split; [reflexivity|].
      cbn. split; [exact I|]. split; [exact C|].
      split; [reflexivity|now right].
  - exists None, s. cbn. repeat split. now left.
Qed.

End Rendering.

End VersionFacts.

Module SaveFacts.
Import Py OS Interactive Further.

(** Without the directory [output] nothing is saved. *)
Lemma nothing_saved
    (render : Generator.document -> str)
    (base_name shape_name pdf_format : str) (pdf_count object_count : Z)
    (s : session) :
  no_slash base_name = true ->
  nodes (files s) Generator.OUTPUT_DIR <> Some Dir ->
  exists s',
    Generator.create_multiple_pdfs render base_name pdf_count shape_name
      object_count pdf_format s
    = (Done [], s')
    /\ files s' = files s /\ stdin s' = stdin s /\ clock s' = clock s.
Proof.
  intros B O.
  assert (W : forall filename, no_slash filename = true ->
                writable (files s) (Generator.get_pdf_filepath filename) = false).
  { intros filename Hf. rewrite (OutputFacts.writable_in_output _ _ Hf).
    destruct (nodes (files s) (Generator.get_pdf_filepath filename)) as [[|]|];
      try reflexivity;
      destruct (nodes (files s) Generator.OUTPUT_DIR) as [[|]|];
      try reflexivity; now contradiction O. }
  unfold Generator.create_multiple_pdfs.
  destruct (str_eqb pdf_format (lit "combined")).
  - unfold io_bind.
    destruct (VersionFacts.create_combined_pdf_run render base_name shape_name
                pdf_count object_count s) as (r & s' & -> & I & C & R).
    destruct r as [filename|].
    + exfalso. destruct R as (-> & k & pages & _ & W' & _).
      rewrite W in W'; [discriminate|].
      rewrite OutputFacts.no_slash_app, B. reflexivity.
    + exists s'. destruct R as [F _]. now repeat split.
  - apply (VersionFacts.versions_all_fail render base_name shape_name
             pdf_count object_count).
    intros v _. right. apply W. now apply OutputFacts.no_slash_filename.
Qed.

End SaveFacts.

(** X10. When the directory [output] is not there, [create_multiple_pdfs]
    saves nothing, in the separate and in the combined format alike: for a
    base name without directory part it returns the empty list and leaves
    every file as it was. The files are always filed under [output]; the
    announcement of [ensure_output_directory] that they will be saved in
    the current directory instead does not come true. *)
Theorem nothing_saved_without_output_directory
    (render : Generator.document -> str)
    (base_name shape_name pdf_format : str) (pdf_count object_count : Z)
    (s : session) :
  no_slash base_name = true ->
  nodes (files s) Generator.OUTPUT_DIR <> Some Dir ->
  exists s',
    Generator.create_multiple_pdfs render base_name pdf_count shape_name
      object_count pdf_format s
    = (Done [], s')
    /\ files s' = files s /\ stdin s' = stdin s /\ clock s' = clock s.
Proof. apply SaveFacts.nothing_saved. Qed.

Lemma nothing_saved_without_output_directory_witness :
  exists s',
    Generator.create_multiple_pdfs sample_render (lit "shapes") 3
      (lit "Circle") 5 (lit "separate") (typing (world_of []) [])
    = (Done [], s')
    /\ files s' = files (typing (world_of []) [])
    /\ stdin s' = stdin (typing (world_of []) [])
    /\ clock s' = clock (typing (world_of []) []).
Proof.
  apply (nothing_saved_without_output_directory sample_render (lit "shapes")
           (lit "Circle") (lit "separate") 3 5 (typing (world_of []) [])).
  - reflexivity.
  - vm_compute. discriminate.
Defined.

(** X11. In the separate format [create_multiple_pdfs] creates every
    version when nothing stands in the way: with a shape it can draw, a
    base name without directory part, the directory [output] in place and
    every version's path writable and not a directory, it returns the
    names of all the versions in order, each version's file then holds a
    one-page document with [object_count] objects within the margins, and
    no other path has changed. *)
Theorem separate_versions_all_created
    (render : Generator.document -> str)
    (base_name shape_name pdf_format : str) (pdf_count object_count : Z)
    (f : Z -> Z -> Z -> Generator.drawing) (s : session) :
  let name v := Generator.generate_pdf_filename base_name v pdf_count in
  let path := version_path base_name pdf_count in
  let versions := range 1 (pdf_count + 1) in
  str_eqb pdf_format (lit "combined") = false ->
  lookup Generator.SHAPE_DRAWING_FUNCTIONS shape_name = Some f ->
  no_slash base_name = true ->
  nodes (files s) Generator.OUTPUT_DIR = Some Dir ->
  (forall v, In v versions ->
     nodes (files s) (path v) <> Some Dir
     /\ may_write (files s) (path v) = true) ->
  exists s',
    Generator.create_multiple_pdfs render base_name pdf_count shape_name
      object_count pdf_format s
    = (Done (map name versions), s')
    /\ List.length (map name versions) = Z.to_nat pdf_count
    /\ (forall v, In v versions ->
          exists objects,
            nodes (files s') (path v) = Some (File (render [objects]))
            /\ List.length objects = Z.to_nat object_count
            /\ Forall inside_margins objects)
    /\ (forall q, (forall v, In v versions -> str_eqb q (path v) = false) ->
          nodes (files s') q = nodes (files s) q).
Proof.
  intros name path versions Fm K B O H.
  unfold Generator.create_multiple_pdfs. rewrite Fm.
  destruct (VersionFacts.versions_all_succeed render base_name shape_name
              pdf_count object_count versions [] s f K B O H)
    as (s' & E & _ & _ & Files & Others & _).
  exists s'. split; [exact E|]. split; [|split; assumption].
  rewrite length_map. unfold versions. rewrite DrawFacts.range_length.
  f_equal. lia.
Qed.

Lemma separate_versions_all_created_witness :
  let s := typing (world_of [(lit "output", Dir)]) [] in
  let name v := Generator.generate_pdf_filename (lit "shapes") v 2 in
  let path := version_path (lit "shapes") 2 in
  exists s',
    Generator.create_multiple_pdfs sample_render (lit "shapes") 2
      (lit "Hexagon") 4 (lit "separate") s
    = (Done (map name (range 1 (2 + 1))), s')
    /\ List.length (map name (range 1 (2 + 1))) = Z.to_nat 2
    /\ (forall v, In v (range 1 (2 + 1)) ->
          exists objects,
            nodes (files s') (path v) = Some (File (sample_render [objects]))
            /\ List.length objects = Z.to_nat 4
            /\ Forall inside_margins objects)
    /\ (forall q, (forall v, In v (range 1 (2 + 1)) ->
                     str_eqb q (path v) = false) ->
          nodes (files s') q = nodes (files s) q).
Proof.
  apply (separate_versions_all_created sample_render (lit "shapes")
           (lit "Hexagon") (lit "separate") 2 4
           (Generator.mkDrawing Generator.Hexagon)
           (typing (world_of [(lit "output", Dir)]) [])).
  - reflexivity.
  - reflexivity.
  - reflexivity.
  - reflexivity.
  - intros v [<-|[<-|[]]]; split; (discriminate || reflexivity).
Defined.

(** X12. The versions of one run never share a file name: the names
    [generate_pdf_filename] gives to the versions 1 to [total] are
    pairwise distinct, and among several versions two names are equal
    only for equal version numbers. *)
Theorem version_names_distinct (base_name : str) (total : Z) :
  NoDup (map (fun v => Generator.generate_pdf_filename base_name v total)
             (range 1 (total + 1)))
  /\ (total <> 1 ->
      forall v1 v2,
        Generator.generate_pdf_filename base_name v1 total
        = Generator.generate_pdf_filename base_name v2 total ->
        v1 = v2).
Proof.
  split; [|intros T v1 v2; now apply VersionFacts.filename_injective].
  destruct (Z.eq_dec total 1) as [->|T].
  - repeat constructor. intros [].
  - apply VersionFacts.NoDup_map_injective; [|apply VersionFacts.range_NoDup].
    intros x y _ _. now apply VersionFacts.filename_injective.
Qed.

(** ** The generator as a whole *)

Module GeneratorFacts.
Import Py OS Interactive Further Generator.

Section Rendering.
Variable render : document -> str.
Variables (base_name shape_name : str) (total object_count : Z).

(** The loop over the versions, whatever succeeds. *)
Lemma versions_some (vs : list Z) (created : list str) (s : session) :
  exists kept s',
    io_for vs created
      (create_version render base_name total shape_name object_count) s
    = (Done (created
             ++ map (fun v => generate_pdf_filename base_name v total) kept),
       s')
    /\ stdin s' = stdin s /\ clock s' = clock s
    /\ (List.length kept <= List.length vs)%nat
    /\ incl kept vs
    /\ (NoDup vs -> NoDup kept)
    /\ (forall v, In v kept ->
          exists text,
            nodes (files s') (version_path base_name total v)
            = Some (File text))
    /\ (forall q text, nodes (files s) q = Some (File text) ->
          exists text', nodes (files s') q = Some (File text'))
    /\ (forall q,
          (forall v, In v vs ->
             str_eqb q (version_path base_name total v) = false) ->
          nodes (files s') q = nodes (files s) q).
Proof.
  revert created s. induction vs as [|v vs IH]; intros created s.
  - exists [], s. cbn. rewrite app_nil_r.
    split; [reflexivity|]. split; [reflexivity|]. split; [reflexivity|].
    split; [lia|]. split; [easy|]. split; [easy|]. split; [intros ? []|].
    split; [intros q text H; now exists text|reflexivity].
  - cbn [io_for]. unfold io_bind at 1. unfold create_version at 1.
    unfold io_bind at 1.
    destruct (OutputFacts.create_single_pdf_run render
                (generate_pdf_filename base_name v total) shape_name
                object_count s) as (b & s1 & -> & I & C & R).
    unfold io_ret at 1.
    destruct b.
    + destruct R as (k & objects & _ & _ & F & _).
      fold (version_path base_name total v) in F.
      destruct (IH (created ++ [generate_pdf_filename base_name v total]) s1)
        as (kept & s2 & -> & I2 & C2 & L & Inc & Nd & Ex & Keep & Others).
      exists (v :: kept), s2.
      rewrite <- app_assoc. split; [reflexivity|].
      split; [congruence|]. split; [congruence|].
      split; [cbn; lia|]. split; [|split; [|split; [|split]]].
      * intros n [<-|Hn]; [now left|right; now apply Inc].
      * intros N. inversion N as [|? ? Hv N']. subst.
        constructor; [|now apply Nd]. intros H. apply Hv. now apply Inc.
      * intros n [<-|Hn]; [|now apply Ex].
        apply (Keep _ (render [objects])). rewrite F.
        apply InsertFacts.nodes_put_same.
      * intros q text H.
        destruct (str_eqb q (version_path base_name total v)) eqn:E.
        -- apply PyFacts.str_eqb_eq in E. subst q.
           apply (Keep _ (render [objects])). rewrite F.
           apply InsertFacts.nodes_put_same.
        -- apply (Keep q text). rewrite F.
           now rewrite InsertFacts.nodes_put_other.
      * intros q Hq. rewrite Others.
        -- rewrite F. apply InsertFacts.nodes_put_other. apply Hq. now left.
        -- intros u Hu. apply Hq. now right.
    + destruct R as [F _].
      destruct (IH created s1)
        as (kept & s2 & -> & I2 & C2 & L & Inc & Nd & Ex & Keep & Others).
      exists kept, s2. split; [reflexivity|].
      split; [congruence|]. split; [congruence|].
      split; [cbn; lia|]. split; [|split; [|split; [|split]]].
      * intros n Hn. right. now apply Inc.
      * intros N. inversion N. now apply Nd.
      * exact Ex.
      * intros q text H. apply (Keep q text). now rewrite F.
      * intros q Hq. rewrite Others.
        -- now rewrite F.
        -- intros u Hu. apply Hq. now right.
Qed.

(** The names of distinct versions are distinct. *)
Lemma names_NoDup (kept : list Z) :
  incl kept (range 1 (total + 1)) -> NoDup kept ->
  NoDup (map (fun v => generate_pdf_filename base_name v total) kept).
Proof.
  intros Inc N. destruct (Z.eq_dec total 1) as [T|T].
  - assert (H : forall v, In v kept -> v = 1).
    { intros v Hv. apply Inc, VersionFacts.range_in in Hv. lia. }
    destruct kept as [|a [|b kept]]; [constructor|repeat constructor; easy|].
    exfalso. inversion N as [|? ? Ha _]. apply Ha. left.
    rewrite (H a), (H b); [reflexivity|right; now left|now left].
  - apply VersionFacts.NoDup_map_injective; [|exact N].
    intros x y _ _. now apply VersionFacts.filename_injective.
Qed.

End Rendering.

Lemma has_read_refl (s : session) : has_read s s [].
Proof. now repeat split. Qed.

Lemma has_read_trans (s1 s2 s3 : session) (r1 r2 : list str) :
  has_read s1 s2 r1 -> has_read s2 s3 r2 -> has_read s1 s3 (r1 ++ r2).
Proof.
  intros (A & B & C & D) (A' & B' & C' & D'). repeat split; try congruence.
  rewrite D, D', app_assoc. reflexivity.
Qed.

Lemma has_read_all (s s' : session) (r : list str) :
  has_read s s' r -> stdin s' = [] -> has_read s s' (stdin s).
Proof.
  intros (A & B & C & D) E. repeat split; try assumption.
  now rewrite E, app_nil_r.
Qed.

(** Every shape the menu offers has its drawing function. *)
Lemma offered_shape_known (choice shape_name : str) :
  lookup AVAILABLE_SHAPES choice = Some shape_name ->
  exists k, lookup SHAPE_DRAWING_FUNCTIONS shape_name = Some (mkDrawing k).
Proof.
  intros H. apply AskFacts.lookup_in in H.
  repeat (destruct H as [H|H];
          [injection H as _ <-; eexists; reflexivity|]).
  destruct H.
Qed.

Lemma get_user_input_string_spec (s : session) :
  (exists line s',
     get_user_input_string s = (Done (strip line), s')
     /\ has_read s s' [line])
  \/ (get_user_input_string s = (Fail EOFError, s) /\ stdin s = []).
Proof.
  unfold get_user_input_string, io_bind, input.
  destruct (stdin s) as [|line rest] eqn:E.
  - right. now split.
  - left. exists line. eexists. split; [reflexivity|].
    unfold has_read. cbn. now repeat split.
Qed.

Lemma get_pdf_format_choice_spec (pdf_count : Z) (s : session) :
  exists s',
    (exists pdf_format read,
       get_pdf_format_choice pdf_count s = (Done pdf_format, s')
       /\ has_read s s' read
       /\ (pdf_format = lit "separate" \/ pdf_format = lit "combined")
       /\ (pdf_count = 1 -> pdf_format = lit "separate" /\ read = []))
    \/ (get_pdf_format_choice pdf_count s = (Fail EOFError, s')
        /\ has_read s s' (stdin s) /\ stdin s' = []).
Proof.
  unfold get_pdf_format_choice. destruct (pdf_count =? 1) eqn:E.
  - exists s. left. exists (lit "separate"), [].
    split; [reflexivity|]. split; [apply has_read_refl|]. split; [now left|easy].
  - destruct (AskFacts.reading_spec format_loop format_of s
                AskFacts.format_loop_accepts)
      as [s' [(a & rejected & line & H1 & H2 & H3 & _)|(H1 & H2 & H3 & _)]];
      exists s'; [left|right; split; [exact H1|split; [exact H2|exact H3]]].
    exists a. eexists. split; [exact H1|]. split; [exact H2|]. split.
    + unfold format_of in H3.
      destruct (str_eqb (strip line) (lit "1")); [injection H3 as <-; now left|].
      destruct (str_eqb (strip line) (lit "2")); [injection H3 as <-; now right|].
      discriminate.
    + intros ->. discriminate.
Qed.

(** [get_user_requirements] in one step. *)
Lemma get_user_requirements_run (s : session) :
  match Generator.get_user_requirements s with
  | (Done (base_name, pdf_count, object_count, shape_name, pdf_format), s') =>
      (exists read, has_read s s' read
                    /\ base_name = strip (hd [] read))
      /\ 1 <= pdf_count <= 10
      /\ 1 <= object_count <= 20
      /\ (exists k, lookup Generator.SHAPE_DRAWING_FUNCTIONS shape_name
                    = Some (Generator.mkDrawing k))
      /\ (pdf_format = lit "separate" \/ pdf_format = lit "combined")
      /\ (pdf_count = 1 -> pdf_format = lit "separate")
  | (Fail f, s') =>
      f = EOFError /\ stdin s' = [] /\ has_read s s' (stdin s)
  end.
Proof.
  unfold Generator.get_user_requirements.
  unfold io_bind at 1.
  destruct (get_user_input_string_spec s)
    as [(line & s1 & -> & R1)|[-> E]].
  2:{ split; [reflexivity|]. split; [exact E|].
      unfold has_read. rewrite E. now repeat split. }
  unfold io_bind at 1.
  destruct (AskFacts.get_user_input_integer_run Generator.MIN_PDF_COUNT
              Generator.MAX_PDF_COUNT s1)
    as [s2 [(pc & rej2 & l2 & -> & R2 & _ & B2 & _)|(-> & R2 & E2 & _)]];
    pose proof (has_read_trans _ _ _ _ _ R1 R2) as R12.
  2:{ split; [reflexivity|]. split; [exact E2|].
      exact (has_read_all _ _ _ R12 E2). }
  unfold io_bind at 1.
  destruct (AskFacts.get_user_input_integer_run Generator.MIN_OBJECT_COUNT
              Generator.MAX_OBJECT_COUNT s2)
    as [s3 [(oc & rej3 & l3 & -> & R3 & _ & B3 & _)|(-> & R3 & E3 & _)]];
    pose proof (has_read_trans _ _ _ _ _ R12 R3) as R13.
  2:{ split; [reflexivity|]. split; [exact E3|].
      exact (has_read_all _ _ _ R13 E3). }
  unfold io_bind at 1. unfold Generator.get_shape_choice.
  destruct (AskFacts.reading_spec
              (Generator.choice_loop Generator.AVAILABLE_SHAPES)
              (lookup Generator.AVAILABLE_SHAPES) s3
              (AskFacts.choice_loop_accepts Generator.AVAILABLE_SHAPES))
    as [s4 [(sh & rej4 & l4 & -> & R4 & K & _)|(-> & R4 & E4 & _)]];
    pose proof (has_read_trans _ _ _ _ _ R13 R4) as R14.
  2:{ split; [reflexivity|]. split; [exact E4|].
      exact (has_read_all _ _ _ R14 E4). }
  unfold io_bind at 1.
  destruct (get_pdf_format_choice_spec pc s4)
    as [s5 [(fm & read & -> & R5 & F1 & F2)|(-> & R5 & E5)]];
    pose proof (has_read_trans _ _ _ _ _ R14 R5) as R15.
  - unfold io_ret.
    split.
    + eexists. split; [exact R15|reflexivity].
    + unfold Generator.MIN_PDF_COUNT, Generator.MAX_PDF_COUNT in B2.
      unfold Generator.MIN_OBJECT_COUNT, Generator.MAX_OBJECT_COUNT in B3.
      split; [exact B2|]. split; [exact B3|].
      split; [exact (offered_shape_known _ _ K)|].
      split; [exact F1|]. intros P. now apply F2.
  - split; [reflexivity|]. split; [exact E5|].
    exact (has_read_all _ _ _ R15 E5).
Qed.

End GeneratorFacts.

(** X13. The list [create_multiple_pdfs] builds in the separate format is
    truthful, whatever fails on the way: the loop over the versions never
    raises and lists only names of versions, no name twice and no more
    names than versions; every listed name is that of a file that exists
    afterwards, and no path other than those of the versions has
    changed. *)
Theorem created_list_is_truthful (render : Generator.document -> str)
    (base_name shape_name pdf_format : str) (pdf_count object_count : Z)
    (s : session) :
  str_eqb pdf_format (lit "combined") = false ->
  exists created_pdfs s',
    Generator.create_multiple_pdfs render base_name pdf_count shape_name
      object_count pdf_format s
    = (Done created_pdfs, s')
    /\ stdin s' = stdin s
    /\ (List.length created_pdfs <= Z.to_nat pdf_count)%nat
    /\ NoDup created_pdfs
    /\ incl created_pdfs
         (map (fun v => Generator.generate_pdf_filename base_name v pdf_count)
              (range 1 (pdf_count + 1)))
    /\ (forall name, In name created_pdfs ->
          exists text,
            nodes (files s') (Generator.get_pdf_filepath name)
            = Some (File text))
    /\ (forall q,
          (forall v, In v (range 1 (pdf_count + 1)) ->
             str_eqb q (version_path base_name pdf_count v) = false) ->
          nodes (files s') q = nodes (files s) q).
Proof.
  intros Fm. unfold Generator.create_multiple_pdfs. rewrite Fm.
  destruct (GeneratorFacts.versions_some render base_name shape_name
              pdf_count object_count (range 1 (pdf_count + 1)) [] s)
    as (kept & s' & E & I & _ & L & Inc & Nd & Ex & _ & Others).
  eexists. exists s'. cbn [app] in E. split; [exact E|]. split; [exact I|].
  split; [|split; [|split; [|split]]].
  - rewrite length_map. rewrite DrawFacts.range_length in L.
    replace (pdf_count + 1 - 1) with pdf_count in L by lia. exact L.
  - apply GeneratorFacts.names_NoDup; [exact Inc|].
    apply Nd. apply VersionFacts.range_NoDup.
  - intros name Hn. apply in_map_iff in Hn as (v & <- & Hv).
    apply in_map_iff. exists v. split; [reflexivity|now apply Inc].
  - intros name Hn. apply in_map_iff in Hn as (v & <- & Hv). now apply Ex.
  - exact Others.
Qed.

Lemma created_list_is_truthful_witness :
  exists created_pdfs s',
    Generator.create_multiple_pdfs sample_render (lit "shapes") 2
      (lit "Circle") 3 (lit "separate")
      (typing (world_of [(lit "output", Dir)]) [])
    = (Done created_pdfs, s')
    /\ stdin s' = stdin (typing (world_of [(lit "output", Dir)]) [])
    /\ (List.length created_pdfs <= Z.to_nat 2)%nat
    /\ NoDup created_pdfs
    /\ incl created_pdfs
         (map (fun v => Generator.generate_pdf_filename (lit "shapes") v 2)
              (range 1 (2 + 1)))
    /\ (forall name, In name created_pdfs ->
          exists text,
            nodes (files s') (Generator.get_pdf_filepath name)
            = Some (File text))
    /\ (forall q,
          (forall v, In v (range 1 (2 + 1)) ->
             str_eqb q (version_path (lit "shapes") 2 v) = false) ->
          nodes (files s') q
          = nodes (files (typing (world_of [(lit "output", Dir)]) [])) q).
Proof.
  apply (created_list_is_truthful sample_render (lit "shapes") (lit "Circle")
           (lit "separate") 2 3 (typing (world_of [(lit "output", Dir)]) [])).
  reflexivity.
Defined.


(** X15. [get_user_requirements] returns only requirements the generator
    can serve: a number of versions from 1 to 10, a number of objects
    from 1 to 20, a shape name that has its drawing function, and a format
    that is [separate] or [combined], [separate] whenever a single version
    is asked for; the base name is the first line typed, stripped. It
    touches nothing but standard input, and fails only with [EOFError],
    once the input is used up. *)
Theorem get_user_requirements_spec (s : session) :
  match Generator.get_user_requirements s with
  | (Done (base_name, pdf_count, object_count, shape_name, pdf_format), s') =>
      (exists read, has_read s s' read
                    /\ base_name = strip (hd [] read))
      /\ 1 <= pdf_count <= 10
      /\ 1 <= object_count <= 20
      /\ (exists k, lookup Generator.SHAPE_DRAWING_FUNCTIONS shape_name
                    = Some (Generator.mkDrawing k))
      /\ (pdf_format = lit "separate" \/ pdf_format = lit "combined")
      /\ (pdf_count = 1 -> pdf_format = lit "separate")
  | (Fail f, s') =>
      f = EOFError /\ stdin s' = [] /\ has_read s s' (stdin s)
  end.
Proof. apply GeneratorFacts.get_user_requirements_run. Qed.

(** ** The generator's [main] *)

Module MainFacts.
Import Py OS Interactive Further Generator.

Lemma ensure_output_directory_run (w : world) :
  exists w',
    ensure_output_directory w = (Ok tt, w')
    /\ (forall p, str_eqb p OUTPUT_DIR = false -> nodes w' p = nodes w p)
    /\ may_read w' = may_read w /\ may_write w' = may_write w
    /\ (nodes w OUTPUT_DIR <> None -> w' = w)
    /\ (may_write w OUTPUT_DIR = false -> w' = w).
Proof.
  unfold ensure_output_directory, bind, exists_.
  destruct (nodes w OUTPUT_DIR) as [n|] eqn:E; cbn [negb].
  - exists w. now repeat split.
  - unfold Logger.try_except_only, try_except, makedirs. rewrite E.
    destruct (parent_exists w OUTPUT_DIR && may_write w OUTPUT_DIR) eqn:P.
    + eexists. split; [reflexivity|].
      split; [intros p Hp; now apply InsertFacts.nodes_put_other|].
      split; [reflexivity|]. split; [reflexivity|]. split; [easy|].
      intros W. rewrite W, andb_false_r in P. discriminate.
    + exists w. now repeat split.
Qed.

Lemma lift_fs_run {A} (c : M A) (s : session) (a : A) (w : world) :
  c (files s) = (Ok a, w) -> lift_fs c s = (Done a, with_files s w).
Proof. intros H. unfold lift_fs. now rewrite H. Qed.

Section Rendering.
Variable render : document -> str.

Lemma create_multiple_pdfs_total (base_name shape_name pdf_format : str)
    (pdf_count object_count : Z) (s : session) :
  exists created_pdfs s',
    create_multiple_pdfs render base_name pdf_count shape_name object_count
      pdf_format s
    = (Done created_pdfs, s')
    /\ stdin s' = stdin s
    /\ (List.length created_pdfs <= Nat.max 1 (Z.to_nat pdf_count))%nat
    /\ (forall name, In name created_pdfs ->
          exists text,
            nodes (files s') (get_pdf_filepath name) = Some (File text)).
Proof.
  unfold create_multiple_pdfs.
  destruct (str_eqb pdf_format (lit "combined")).
  - unfold io_bind.
    destruct (VersionFacts.create_combined_pdf_run render base_name shape_name
                pdf_count object_count s) as (r & s' & -> & I & _ & R).
    unfold io_ret. eexists. exists s'. split; [reflexivity|]. split; [exact I|].
    destruct r as [[|c r]|].
    + split; [cbn [List.length]; lia|intros ? []].
    + split; [cbn [List.length]; lia|]. intros name [<-|[]].
      destruct R as (_ & k & pages & _ & _ & F & _).
      exists (render pages). rewrite F. apply InsertFacts.nodes_put_same.
    + split; [cbn [List.length]; lia|intros ? []].
  - destruct (GeneratorFacts.versions_some render base_name shape_name
                pdf_count object_count (range 1 (pdf_count + 1)) [] s)
      as (kept & s' & E & I & _ & L & _ & _ & Ex & _).
    eexists. exists s'. cbn [app] in E. split; [exact E|]. split; [exact I|].
    split.
    + rewrite length_map. rewrite DrawFacts.range_length in L.
      replace (pdf_count + 1 - 1) with pdf_count in L by lia. lia.
    + intros name Hn. apply in_map_iff in Hn as (v & <- & Hv). now apply Ex.
Qed.

(** [main] in one step. *)
Lemma main_run (logging : frame) (s : session) :
  exists fb result s',
    main render logging s = (Done (fb, result), s')
    /\ fst (Logger.log_execution (clock s O) logging (files s)) = Ok fb
    /\ (exists read, stdin s = read ++ stdin s')
    /\ (result = None -> stdin s' = [])
    /\ (forall created_pdfs, result = Some created_pdfs ->
          (List.length created_pdfs <= 10)%nat
          /\ forall name, In name created_pdfs ->
               exists text,
                 nodes (files s') (get_pdf_filepath name) = Some (File text)).
Proof.
  destruct (RecordFacts.log_execution_total (clock s O) logging (files s))
    as (fb & w1 & E1).
  destruct (ensure_output_directory_run w1) as (w2 & E2 & _).
  unfold main. unfold io_bind at 1. unfold datetime_now at 1.
  set (s0 := mkSession (files s) (stdin s) (seed s) (fun n => clock s (S n))).
  unfold io_bind at 1. rewrite (lift_fs_run _ s0 fb w1 E1).
  unfold io_bind at 1. rewrite (lift_fs_run _ (with_files s0 w1) tt w2 E2).
  set (s2 := with_files (with_files s0 w1) w2).
  rewrite E1. cbn [fst].
  unfold io_try. unfold io_bind at 1.
  pose proof (GeneratorFacts.get_user_requirements_run s2) as R.
  destruct (get_user_requirements s2) as [[[[[[b pc] oc] sh] fm]|f] s3].
  - destruct R as ((read & (_ & _ & _ & D) & _) & B & _).
    cbv beta iota. unfold io_bind at 1.
    destruct (create_multiple_pdfs_total b sh fm pc oc s3)
      as (created & s4 & -> & I & L & Ex).
    unfold io_ret. exists fb, (Some created), s4.
    split; [reflexivity|]. split; [reflexivity|].
    split; [exists read; cbn in D; now rewrite I|].
    split; [discriminate|]. intros c H. injection H as <-.
    split; [lia|exact Ex].
  - destruct R as (-> & E & _). cbn [is_exception]. unfold io_ret.
    exists fb, None, s3. split; [reflexivity|]. split; [reflexivity|].
    split; [exists (stdin s); now rewrite E, app_nil_r|].
    split; [intros _; exact E|discriminate].
Qed.

End Rendering.

End MainFacts.

(** X16. The generator's [main] never raises: it first records its
    execution, then, whatever is typed and whatever the file system
    refuses, it returns normally. It ends on the error message only when
    standard input has run out before the questions were answered;
    otherwise its summary lists at most ten files, each of which exists
    under the reported name. *)
Theorem generator_main_never_raises (render : Generator.document -> str)
    (logging : frame) (s : session) :
  exists fb result s',
    Generator.main render logging s = (Done (fb, result), s')
    /\ fst (log_execution (clock s O) logging (files s)) = Ok fb
    /\ (exists read, stdin s = read ++ stdin s')
    /\ (result = None -> stdin s' = [])
    /\ (forall created_pdfs, result = Some created_pdfs ->
          (List.length created_pdfs <= 10)%nat
          /\ forall name, In name created_pdfs ->
               exists text,
                 nodes (files s') (Generator.get_pdf_filepath name)
                 = Some (File text)).
Proof. apply MainFacts.main_run. Qed.

Module DirectoryFacts.
Import Py OS Interactive Further Generator.

Lemma hd_read (l read rest : list str) :
  l = read ++ rest -> no_slash (strip (hd [] l)) = true ->
  no_slash (strip (hd [] read)) = true.
Proof.
  intros -> H. destruct read as [|x read]; [reflexivity|exact H].
Qed.

End DirectoryFacts.

(** X17. When the directory [output] is missing and may not be created,
    the generator's [main] saves no PDF at all: for a base name without
    directory part its summary lists no file (or it ends on the error
    message, for lack of input), and it leaves every path as it was, the
    log file and its directory apart. The warning it prints on the way
    says that the files will be saved in the current directory
    instead. *)
Theorem generator_without_output_directory
    (render : Generator.document -> str) (logging : frame) (s : session) :
  nodes (files s) Generator.OUTPUT_DIR = None ->
  may_write (files s) Generator.OUTPUT_DIR = false ->
  no_slash (strip (hd [] (stdin s))) = true ->
  exists fb result s',
    Generator.main render logging s = (Done (fb, result), s')
    /\ (result = None \/ result = Some [])
    /\ touches_only_log (files s) (files s').
Proof.
  intros N W B.
  destruct (RecordFacts.log_execution_total (clock s O) logging (files s))
    as (fb & w1 & E1).
  pose proof (FrameFacts.log_execution_frame (clock s O) logging (files s))
    as T.
  rewrite E1 in T. cbn [snd] in T. pose proof T as (Fr & _ & Wr).
  assert (N1 : nodes w1 Generator.OUTPUT_DIR = None)
    by (rewrite Fr by reflexivity; exact N).
  assert (W1 : may_write w1 Generator.OUTPUT_DIR = false) by (now rewrite Wr).
  destruct (MainFacts.ensure_output_directory_run w1)
    as (w2 & E2 & _ & _ & _ & _ & Same).
  specialize (Same W1). subst w2.
  unfold Generator.main. unfold io_bind at 1. unfold datetime_now at 1.
  set (s0 := mkSession (files s) (stdin s) (seed s) (fun n => clock s (S n))).
  unfold io_bind at 1. rewrite (MainFacts.lift_fs_run _ s0 fb w1 E1).
  unfold io_bind at 1.
  rewrite (MainFacts.lift_fs_run _ (with_files s0 w1) tt w1 E2).
  set (s2 := with_files (with_files s0 w1) w1).
  unfold io_try. unfold io_bind at 1.
  pose proof (GeneratorFacts.get_user_requirements_run s2) as R.
  destruct (Generator.get_user_requirements s2) as [[[[[[b pc] oc] sh] fm]|f] s3].
  - destruct R as ((read & (F & _ & _ & D) & Hb) & _).
    cbv beta iota. unfold io_bind at 1.
    destruct (SaveFacts.nothing_saved render b sh fm pc oc s3)
      as (s4 & -> & F4 & _).
    + rewrite Hb. exact (DirectoryFacts.hd_read (stdin s) read (stdin s3) D B).
    + rewrite F. change (files s2) with w1. rewrite N1. discriminate.
    + unfold io_ret. exists fb, (Some []), s4.
      split; [reflexivity|]. split; [now right|].
      rewrite F4, F. exact T.
  - destruct R as (-> & _ & (F & _)). cbn [is_exception]. unfold io_ret.
    exists fb, None, s3. split; [reflexivity|]. split; [now left|].
    rewrite F. exact T.
Qed.

Lemma generator_without_output_directory_witness :
  let s := typing (read_only (world_of []))
             [lit "shapes"; lit "3"; lit "5"; lit "2"; lit "1"] in
  exists fb result s',
    Generator.main sample_render main_py s = (Done (fb, result), s')
    /\ (result = None \/ result = Some [])
    /\ touches_only_log (files s) (files s').
Proof.
  apply (generator_without_output_directory sample_render main_py
           (typing (read_only (world_of []))
              [lit "shapes"; lit "3"; lit "5"; lit "2"; lit "1"]));
    reflexivity.
Defined.

(** ** The menu of [main.py] *)

Module MenuFacts.
Import Py OS Interactive Further Menu.

Lemma listed_key_found {V} (d : list (str * V)) (k : str) :
  existsb (str_eqb k) (map fst d) = true -> exists v, lookup d k = Some v.
Proof.
  induction d as [|[k' v'] d IH]; [discriminate|].
  cbn [map fst existsb lookup]. rewrite (PyFacts.str_eqb_sym k k').
  destruct (str_eqb k' k); [now exists v'|exact IH].
Qed.

(** [get_user_choice] in one step. *)
Lemma get_user_choice_run (s : session) :
  exists s',
    (exists choice rejected line option_data,
       get_user_choice s = (Done choice, s')
       /\ has_read s s' (rejected ++ [line])
       /\ choice = strip line
       /\ lookup MENU_OPTIONS choice = Some option_data
       /\ Forall (fun l => option_of l = None) rejected)
    \/ (get_user_choice s = (Fail EOFError, s')
        /\ has_read s s' (stdin s) /\ stdin s' = []
        /\ Forall (fun l => option_of l = None) (stdin s)).
Proof.
  destruct (AskFacts.reading_spec
              (choice_loop (map fst MENU_OPTIONS)) option_of s
              AskFacts.menu_loop_accepts)
    as [s' [(a & rejected & line & H1 & H2 & H3 & H4)|H]];
    exists s'; [left|right; exact H].
  unfold option_of in H3.
  destruct (existsb (str_eqb (strip line)) (map fst MENU_OPTIONS)) eqn:E;
    [|discriminate].
  injection H3 as <-. destruct (listed_key_found _ _ E) as [data K].
  exists (strip line), rejected, line, data.
  split; [exact H1|]. split; [exact H2|]. split; [reflexivity|].
  split; [exact K|exact H4].
Qed.

Lemma pause_run (s : session) :
  (exists line rest,
     stdin s = line :: rest
     /\ io_bind input (fun _ => io_ret tt) s = (Done tt, with_stdin s rest))
  \/ (stdin s = []
      /\ io_bind input (fun _ => io_ret tt) s = (Fail EOFError, s)).
Proof.
  unfold io_bind, input. destruct (stdin s) as [|line rest].
  - right. now split.
  - left. exists line, rest. now split.
Qed.

Lemma pause_ends_well (s : session) :
  ends_well s (io_bind input (fun _ => io_ret tt) s).
Proof.
  destruct (pause_run s) as [(line & rest & E & ->)|[E ->]].
  - exists [line]. split; [discriminate|]. now rewrite E.
  - right. now split.
Qed.

(** An action that cannot fail, followed by the pause. *)
Lemma action_then_pause {A} (action : IO A) (s : session) :
  (exists a s1 read, action s = (Done a, s1) /\ stdin s = read ++ stdin s1) ->
  ends_well s
    (io_bind (io_try (io_bind action (fun _ => io_ret tt)) (fun _ => io_ret tt))
       (fun _ => io_bind input (fun _ => io_ret tt)) s).
Proof.
  intros (a & s1 & read & E & D).
  unfold io_bind at 1. unfold io_try. unfold io_bind at 1. rewrite E.
  unfold io_ret at 1.
  destruct (pause_run s1) as [(line & rest & E1 & ->)|[E1 ->]].
  - exists (read ++ [line]). split.
    + destruct read; discriminate.
    + rewrite D, E1, <- app_assoc. reflexivity.
  - right. now split.
Qed.

Section Program.
Variable render : Generator.document -> str.
Variables logging_main logging_generator : frame.

Lemma menu_round_ends_well (s : session) :
  ends_well s (menu_round render logging_generator s).
Proof.
  unfold menu_round, io_try. unfold io_bind at 1.
  destruct (get_user_choice_run s)
    as [s1 [(choice & rejected & line & data & -> & R & Hc & K & _)
           |(-> & R & E & _)]].
  2:{ cbn [is_exception]. unfold io_bind, input. rewrite E. right. now split. }
  destruct R as (_ & _ & _ & D).
  assert (Hin : In line (stdin s)).
  { rewrite D. apply in_or_app. left. apply in_or_app. right. now left. }
  assert (Cases : choice = lit "1" \/ choice = lit "2" \/ choice = lit "3"
                  \/ choice = lit "4" \/ choice = lit "0").
  { apply AskFacts.lookup_in in K.
    repeat (destruct K as [K|K];
            [injection K as K1 K2; rewrite <- K1; tauto|]).
    destruct K. }
  assert (Step : forall r,
            ends_well s1 r ->
            (forall line', In line' (stdin s1) -> In line' (stdin s)) ->
            ends_well s
              (let (o, s') := r in
               match o with
               | Done a => (Done a, s')
               | Fail f =>
                   if is_exception f
                   then io_bind input (fun _ => io_ret tt) s'
                   else (Fail f, s')
               end)).
  { intros [[[]|f] s2] W Sub; cbn.
    - destruct W as (read & N & D'). exists ((rejected ++ [line]) ++ read).
      split; [destruct rejected; discriminate|].
      now rewrite D, D', app_assoc.
    - destruct W as [(-> & l & Hl & Hs)|(-> & E)].
      + cbn [is_exception]. left. split; [reflexivity|].
        exists l. split; [now apply Sub|exact Hs].
      + cbn [is_exception]. unfold io_bind, input. rewrite E.
        right. now split. }
  assert (Sub : forall line', In line' (stdin s1) -> In line' (stdin s)).
  { intros l Hl. rewrite D. apply in_or_app. now right. }
  destruct Cases as [-> | [-> | [-> | [-> | ->]]]].
  - change (lookup MENU_OPTIONS (lit "1"))
      with (Some (mkOption (lit "Generate PDF Files")
                    (lit "Create multiple PDF versions with geometric shapes")
                    (lit "run_pdf_generator"))).
    cbv beta iota.
    change (str_eqb (function _) (lit "run_pdf_generator")) with true.
    cbv iota. apply Step; [|exact Sub].
    apply action_then_pause.
    destruct (MainFacts.main_run render logging_generator s1)
      as (fb & result & s2 & E & _ & (read & D2) & _).
    exists (fb, result), s2, read. now split.
  - change (lookup MENU_OPTIONS (lit "2"))
      with (Some (mkOption (lit "View Execution Log")
                    (lit "Display all recorded program executions")
                    (lit "run_log_viewer"))).
    cbv beta iota.
    change (str_eqb (function _) (lit "run_pdf_generator")) with false.
    change (str_eqb (function _) (lit "run_log_viewer")) with true.
    cbv iota. apply Step; [|exact Sub].
    apply action_then_pause.
    eexists. eexists. exists [].
    split; [apply MainFacts.lift_fs_run; apply MergeFacts.read_log_run|].
    reflexivity.
  - change (lookup MENU_OPTIONS (lit "3"))
      with (Some (mkOption (lit "Show Usage Statistics")
                    (lit "Display program usage analytics and trends")
                    (lit "run_statistics"))).
    cbv beta iota.
    change (str_eqb (function _) (lit "run_pdf_generator")) with false.
    change (str_eqb (function _) (lit "run_log_viewer")) with false.
    change (str_eqb (function _) (lit "run_statistics")) with true.
    cbv iota. apply Step; [|exact Sub].
    apply action_then_pause.
    eexists. eexists. exists [].
    split; [apply MainFacts.lift_fs_run; apply StatsFacts.get_log_stats_run|].
    reflexivity.
  - change (lookup MENU_OPTIONS (lit "4"))
      with (Some (mkOption (lit "About This Program")
                    (lit "Information about the NeuroGames project")
                    (lit "show_about"))).
    cbv beta iota.
    change (str_eqb (function _) (lit "run_pdf_generator")) with false.
    change (str_eqb (function _) (lit "run_log_viewer")) with false.
    change (str_eqb (function _) (lit "run_statistics")) with false.
    change (str_eqb (function _) (lit "show_about")) with true.
    cbv iota. apply Step; [|exact Sub].
    apply pause_ends_well.
  - change (lookup MENU_OPTIONS (lit "0"))
      with (Some (mkOption (lit "Exit Program")
                    (lit "Quit the NeuroGames suite")
                    (lit "exit_program"))).
    cbv beta iota.
    change (str_eqb (function _) (lit "run_pdf_generator")) with false.
    change (str_eqb (function _) (lit "run_log_viewer")) with false.
    change (str_eqb (function _) (lit "run_statistics")) with false.
    change (str_eqb (function _) (lit "show_about")) with false.
    change (str_eqb (function _) (lit "exit_program")) with true.
    cbv iota. unfold exit_program, io_fail. cbn [is_exception].
    left. split; [reflexivity|]. exists line. now split.
Qed.

Lemma main_loop_ends (n : nat) (s : session) :
  (List.length (stdin s) <= n)%nat ->
  exists f s',
    (forall fuel, (n < fuel)%nat ->
       main_loop render logging_generator fuel s = Some (f, s'))
    /\ ((f = SystemExit 0
         /\ exists line, In line (stdin s) /\ strip line = lit "0")
        \/ (f = EOFError /\ stdin s' = [])).
Proof.
  revert s. induction n as [|n IH]; intros s L;
    pose proof (menu_round_ends_well s) as W;
    destruct (menu_round render logging_generator s) as [[[]|f] s1] eqn:E.
  - exfalso. destruct W as (read & N & D). rewrite D, length_app in L.
    destruct read; [now apply N|cbn in L; lia].
  - exists f, s1. split; [|exact W].
    intros [|fuel] Hf; [lia|]. cbn [main_loop]. now rewrite E.
  - destruct W as (read & N & D).
    destruct (IH s1) as (f & s' & Run & End).
    { rewrite D, length_app in L. destruct read; [now contradiction N|].
      cbn in L. lia. }
    exists f, s'. split.
    + intros [|fuel] Hf; [lia|]. cbn [main_loop]. rewrite E.
      apply Run. lia.
    + destruct End as [(-> & line & Hl & Hs)|P]; [left|now right].
      split; [reflexivity|]. exists line. split; [|exact Hs].
      rewrite D. apply in_or_app. now right.
  - exists f, s1. split; [|exact W].
    intros [|fuel] Hf; [lia|]. cbn [main_loop]. now rewrite E.
Qed.

End Program.

End MenuFacts.

(** X18. [get_user_choice] returns only a key of [MENU_OPTIONS], so the
    look-up that follows it in [main] cannot fail: the choice is the
    first line typed that, once stripped, is one of the keys, every line
    before it having been rejected. It touches nothing but standard input
    and ends in [EOFError] when the input is used up. *)
Theorem get_user_choice_spec (s : session) :
  exists s',
    (exists choice rejected line option_data,
       Menu.get_user_choice s = (Done choice, s')
       /\ has_read s s' (rejected ++ [line])
       /\ choice = strip line
       /\ lookup Menu.MENU_OPTIONS choice = Some option_data
       /\ Forall (fun l => option_of l = None) rejected)
    \/ (Menu.get_user_choice s = (Fail EOFError, s')
        /\ has_read s s' (stdin s) /\ stdin s' = []
        /\ Forall (fun l => option_of l = None) (stdin s)).
Proof. apply MenuFacts.get_user_choice_run. Qed.

(** X19. The menu program ends on every finite input, and only in two
    ways: by [sys.exit(0)], after a line that strips to [0] has been
    typed, or by [EOFError] once standard input is used up. No other
    error of the actions it starts ever leaves the loop. The loop needs no
    more rounds than there are lines to read, plus one. *)
Theorem menu_session_ends (render : Generator.document -> str)
    (logging_main logging_generator : frame) (s : session) :
  exists f s',
    (forall fuel, (List.length (stdin s) < fuel)%nat ->
       Menu.main render logging_main logging_generator fuel s = Some (f, s'))
    /\ ((f = SystemExit 0
         /\ exists line, In line (stdin s) /\ strip line = lit "0")
        \/ (f = EOFError /\ stdin s' = [])).
Proof.
  destruct (RecordFacts.log_execution_total (clock s O) logging_main (files s))
    as (fb & w1 & E1).
  set (s0 := mkSession (files s) (stdin s) (seed s) (fun n => clock s (S n))).
  destruct (MenuFacts.main_loop_ends render logging_generator
              (List.length (stdin s)) (with_files s0 w1))
    as (f & s' & Run & End); [reflexivity|].
  exists f, s'. split; [|exact End].
  intros fuel Hf. unfold Menu.main. unfold io_bind at 1. unfold datetime_now at 1.
  fold s0. rewrite (MainFacts.lift_fs_run _ s0 fb w1 E1). now apply Run.
Qed.

(** ** The older program [pdf.py] *)

Module PdfFacts.
Import Py OS Interactive Further Pdf.

Lemma pdf_place_object_spec (shape : str) (objects : Generator.page)
    (s : session) :
  exists x y size s',
    place_object shape objects s
    = (Done match draw shape x y size with
            | Some d => objects ++ [d]
            | None => objects
            end, s')
    /\ has_drawn s s'
    /\ 15 <= size <= 30 /\ 10 <= x /\ x + size <= PAGE_WIDTH
    /\ 10 <= y /\ y + size <= PAGE_HEIGHT.
Proof.
  unfold place_object, io_bind.
  destruct (DrawFacts.randint_spec 10 (PAGE_WIDTH - 30) s)
    as (x & s1 & -> & Hx & D1); [unfold PAGE_WIDTH; lia|].
  destruct (DrawFacts.randint_spec 10 (PAGE_HEIGHT - 30) s1)
    as (y & s2 & -> & Hy & D2); [unfold PAGE_HEIGHT; lia|].
  destruct (DrawFacts.randint_spec 15 30 s2)
    as (size & s3 & -> & Hs & D3); [lia|].
  exists x, y, size, s3. split; [reflexivity|]. split.
  - eapply DrawFacts.has_drawn_trans; [exact D1|].
    eapply DrawFacts.has_drawn_trans; [exact D2|exact D3].
  - unfold PAGE_WIDTH, PAGE_HEIGHT in *. lia.
Qed.

Lemma draw_spec (shape : str) (x y size : Z) (d : Generator.drawing) :
  draw shape x y size = Some d ->
  Generator.drawn_x d = x /\ Generator.drawn_y d = y
  /\ Generator.drawn_size d = size.
Proof.
  unfold draw.
  repeat match goal with
         | |- context [str_eqb ?a ?b] => destruct (str_eqb a b)
         end; intros H; try discriminate; injection H as <-; now repeat split.
Qed.

(** Every shape the menu offers is drawn. *)
Lemma offered_shape_drawn (choice shape : str) (x y size : Z) :
  lookup shapes choice = Some shape ->
  exists d, draw shape x y size = Some d.
Proof.
  intros H. apply AskFacts.lookup_in in H.
  repeat (destruct H as [H|H];
          [injection H as _ <-; eexists; reflexivity|]).
  destruct H.
Qed.

Lemma pdf_place_all (shape : str) (xs : list Z)
    (objects : list Generator.drawing) (s : session) :
  exists added s',
    io_for xs objects (fun objects _ => place_object shape objects) s
    = (Done (objects ++ added), s')
    /\ has_drawn s s'
    /\ (List.length added <= List.length xs)%nat
    /\ ((forall x y size, draw shape x y size <> None) ->
        List.length added = List.length xs)
    /\ Forall on_page added.
Proof.
  revert objects s. induction xs as [|v xs IH]; intros objects s.
  - exists [], s. cbn. rewrite app_nil_r.
    split; [reflexivity|]. split; [apply DrawFacts.has_drawn_refl|].
    split; [lia|]. now split.
  - cbn [io_for]. unfold io_bind at 1.
    destruct (pdf_place_object_spec shape objects s)
      as (x & y & size & s1 & -> & D1 & B).
    destruct (draw shape x y size) as [d|] eqn:E.
    + destruct (IH (objects ++ [d]) s1) as (added & s2 & -> & D2 & L & L' & A).
      exists (d :: added), s2. rewrite <- app_assoc.
      split; [reflexivity|].
      split; [eapply DrawFacts.has_drawn_trans; eassumption|].
      split; [cbn; lia|]. split; [intros K; cbn; now rewrite L'|].
      constructor; [|assumption].
      destruct (draw_spec _ _ _ _ _ E) as (Ex & Ey & Es).
      unfold on_page. rewrite Ex, Ey, Es. exact B.
    + destruct (IH objects s1) as (added & s2 & -> & D2 & L & L' & A).
      exists added, s2. split; [reflexivity|].
      split; [eapply DrawFacts.has_drawn_trans; eassumption|].
      split; [cbn; lia|]. split; [|assumption].
      intros K. exfalso. exact (K x y size E).
Qed.

Section Rendering.
Variable render : Generator.document -> str.
Variables (base_name shape : str) (pdf_count object_count : Z).

Lemma create_version_run (created : list str) (version : Z) (s : session) :
  exists s',
    stdin s' = stdin s /\ clock s' = clock s
    /\ ((exists objects,
           create_version render base_name pdf_count object_count shape
             created version s
           = (Done (created ++ [pdf_name base_name pdf_count version]), s')
           /\ files s' = put_node (files s)
                           (pdf_name base_name pdf_count version)
                           (File (render [objects]))
           /\ Forall on_page objects
           /\ (List.length objects <= Z.to_nat object_count)%nat
           /\ ((forall x y size, draw shape x y size <> None) ->
               List.length objects = Z.to_nat object_count))
        \/ (create_version render base_name pdf_count object_count shape
              created version s
            = (Done created, s')
            /\ files s' = files s)).
Proof.
  destruct (pdf_place_all shape (range 0 object_count) [] s)
    as (objects & s1 & E & (F & I & C) & L & L' & A).
  cbn [app] in E.
  rewrite DrawFacts.range_length, Z.sub_0_r in L, L'.
  assert (R : create_version render base_name pdf_count object_count shape
                created version s
              = if writable (files s) (pdf_name base_name pdf_count version)
                then (Done (created ++ [pdf_name base_name pdf_count version]),
                      with_files s1
                        (put_node (files s)
                           (pdf_name base_name pdf_count version)
                           (File (render [objects]))))
                else (Done created, with_files s1 (files s))).
  { unfold create_version. unfold io_bind at 1. rewrite E.
    unfold io_try, io_bind, Generator.output, lift_fs.
    rewrite InsertFacts.save_file_run, F.
    destruct (writable (files s) (pdf_name base_name pdf_count version));
      cbn; rewrite ?app_nil_r; reflexivity. }
  rewrite R.
  destruct (writable (files s) (pdf_name base_name pdf_count version)).
  - exists (with_files s1
              (put_node (files s) (pdf_name base_name pdf_count version)
                 (File (render [objects])))).
    split; [exact I|]. split; [exact C|]. left. exists objects.
    split; [reflexivity|]. now repeat split.
  - exists (with_files s1 (files s)).
    split; [exact I|]. split; [exact C|]. right. now split.
Qed.

Lemma pdf_versions_some (vs : list Z) (created : list str) (s : session) :
  exists kept s',
    io_for vs created
      (create_version render base_name pdf_count object_count shape) s
    = (Done (created ++ map (pdf_name base_name pdf_count) kept), s')
    /\ stdin s' = stdin s /\ clock s' = clock s
    /\ (List.length kept <= List.length vs)%nat
    /\ incl kept vs
    /\ (NoDup vs -> NoDup kept)
    /\ (forall v, In v kept ->
          exists objects,
            nodes (files s') (pdf_name base_name pdf_count v)
            = Some (File (render [objects]))
            /\ Forall on_page objects
            /\ (List.length objects <= Z.to_nat object_count)%nat
            /\ ((forall x y size, draw shape x y size <> None) ->
                List.length objects = Z.to_nat object_count))
    /\ (forall q,
          (forall v, In v vs ->
             str_eqb q (pdf_name base_name pdf_count v) = false) ->
          nodes (files s') q = nodes (files s) q)
    /\ (forall q objects,
          nodes (files s) q = Some (File (render [objects])) ->
          Forall on_page objects ->
          (List.length objects <= Z.to_nat object_count)%nat ->
          ((forall x y size, draw shape x y size <> None) ->
           List.length objects = Z.to_nat object_count) ->
          exists objects',
            nodes (files s') q = Some (File (render [objects']))
            /\ Forall on_page objects'
            /\ (List.length objects' <= Z.to_nat object_count)%nat
            /\ ((forall x y size, draw shape x y size <> None) ->
                List.length objects' = Z.to_nat object_count)).
Proof.
  revert created s. induction vs as [|v vs IH]; intros created s.
  - exists [], s. cbn. rewrite app_nil_r.
    split; [reflexivity|]. split; [reflexivity|]. split; [reflexivity|].
    split; [lia|]. split; [easy|]. split; [easy|]. split; [intros ? []|].
    split; [reflexivity|].
    intros q objects H A L L'. exists objects. now repeat split.
  - cbn [io_for]. unfold io_bind at 1.
    destruct (create_version_run created v s)
      as (s1 & I & C & [(objects & -> & F & A & L & L')|(-> & F)]).
    + destruct (IH (created ++ [pdf_name base_name pdf_count v]) s1)
        as (kept & s2 & -> & I2 & C2 & Len & Inc & Nd & Ex & Others & Keep).
      exists (v :: kept), s2.
      rewrite <- app_assoc. split; [reflexivity|].
      split; [congruence|]. split; [congruence|].
      split; [cbn; lia|]. split; [|split; [|split; [|split]]].
      * intros n [<-|Hn]; [now left|right; now apply Inc].
      * intros N. inversion N as [|? ? Hv N']. subst.
        constructor; [|now apply Nd]. intros H. apply Hv. now apply Inc.
      * intros n [<-|Hn]; [|now apply Ex].
        apply (Keep _ objects); try assumption.
        rewrite F. apply InsertFacts.nodes_put_same.
      * intros q Hq. rewrite Others.
        -- rewrite F. apply InsertFacts.nodes_put_other. apply Hq. now left.
        -- intros u Hu. apply Hq. now right.
      * intros q objects0 H A0 L0 L0'.
        destruct (str_eqb q (pdf_name base_name pdf_count v)) eqn:E.
        -- apply PyFacts.str_eqb_eq in E. subst q.
           apply (Keep _ objects); try assumption.
           rewrite F. apply InsertFacts.nodes_put_same.
        -- apply (Keep q objects0); try assumption.
           rewrite F. now rewrite InsertFacts.nodes_put_other.
    + destruct (IH created s1)
        as (kept & s2 & -> & I2 & C2 & Len & Inc & Nd & Ex & Others & Keep).
      exists kept, s2. split; [reflexivity|].
      split; [congruence|]. split; [congruence|].
      split; [cbn; lia|]. split; [|split; [|split; [|split]]].
      * intros n Hn. right. now apply Inc.
      * intros N. inversion N. now apply Nd.
      * exact Ex.
      * intros q Hq. rewrite Others.
        -- now rewrite F.
        -- intros u Hu. apply Hq. now right.
      * intros q objects0 H. apply (Keep q objects0). now rewrite F.
Qed.

Lemma pdf_name_injective (v1 v2 : Z) :
  pdf_count <> 1 ->
  pdf_name base_name pdf_count v1 = pdf_name base_name pdf_count v2 ->
  v1 = v2.
Proof.
  exact (VersionFacts.filename_injective base_name v1 v2 pdf_count).
Qed.

Lemma pdf_names_NoDup (kept : list Z) :
  incl kept (range 1 (pdf_count + 1)) -> NoDup kept ->
  NoDup (map (pdf_name base_name pdf_count) kept).
Proof.
  exact (GeneratorFacts.names_NoDup base_name pdf_count kept).
Qed.

End Rendering.

End PdfFacts.

(** X20. Every object [pdf.py] draws lies on the page: for each of the
    five shapes of its menu and every state of the random generator, the
    loop over the objects of a version draws exactly [object_count]
    objects, each with a size from 15 to 30 and its bounding box on the A4
    page, at least 10 mm from the left and the top edge (it may touch the
    right and the bottom edge). *)
Theorem pdf_objects_on_page (choice shape : str) (object_count : Z)
    (s : session) :
  lookup Pdf.shapes choice = Some shape ->
  exists objects s',
    io_for (range 0 object_count) []
      (fun objects _ => Pdf.place_object shape objects) s
    = (Done objects, s')
    /\ has_drawn s s'
    /\ List.length objects = Z.to_nat object_count
    /\ Forall on_page objects.
Proof.
  intros K.
  destruct (PdfFacts.pdf_place_all shape (range 0 object_count) [] s)
    as (objects & s' & E & D & _ & L & A).
  exists objects, s'. cbn [app] in E. split; [exact E|]. split; [exact D|].
  split; [|exact A].
  rewrite L, DrawFacts.range_length; [f_equal; lia|].
  intros x y size. destruct (PdfFacts.offered_shape_drawn _ _ x y size K)
    as [d ->]. discriminate.
Qed.

Lemma pdf_objects_on_page_witness :
  exists objects s',
    io_for (range 0 3) []
      (fun objects _ => Pdf.place_object (lit "5-Eck") objects)
      (typing (world_of []) [])
    = (Done objects, s')
    /\ has_drawn (typing (world_of []) []) s'
    /\ List.length objects = Z.to_nat 3
    /\ Forall on_page objects.
Proof.
  apply (pdf_objects_on_page (lit "4") (lit "5-Eck") 3
           (typing (world_of []) [])).
  reflexivity.
Defined.

(** X21. [create_pdf] of [pdf.py] fails only for lack of input, with
    [EOFError] and before any file is written. Otherwise it reports a
    number of versions from 1 to 10 and a list of created files that
    holds no more names than that, no name twice, and only names of files
    that now exist, each holding a one-page document of 1 to 20 objects
    that all lie on the page. *)
Theorem create_pdf_spec (render : Generator.document -> str) (s : session) :
  match Pdf.create_pdf render s with
  | (Done (pdf_count, created_pdfs), s') =>
      1 <= pdf_count <= 10
      /\ (List.length created_pdfs <= Z.to_nat pdf_count)%nat
      /\ NoDup created_pdfs
      /\ (forall name, In name created_pdfs ->
            exists objects,
              nodes (files s') name = Some (File (render [objects]))
              /\ (1 <= List.length objects <= 20)%nat
              /\ Forall on_page objects)
  | (Fail f, s') =>
      f = EOFError /\ stdin s' = [] /\ files s' = files s
  end.
Proof.
  unfold Pdf.create_pdf. unfold io_bind at 1. unfold input.
  destruct (stdin s) as [|base_name rest] eqn:E0.
  { now repeat split. }
  set (s0 := with_stdin s rest).
  unfold io_bind at 1.
  destruct (AskFacts.reading_spec (Generator.integer_loop 1 10)
              (accepted 1 10) s0 (AskFacts.integer_loop_accepts 1 10))
    as [s1 [(pc & rej1 & l1 & -> & R1 & A1 & _)|(-> & R1 & E1 & _)]].
  2:{ destruct R1 as (F & _). now repeat split. }
  unfold io_bind at 1.
  destruct (AskFacts.reading_spec (Generator.integer_loop 1 20)
              (accepted 1 20) s1 (AskFacts.integer_loop_accepts 1 20))
    as [s2 [(oc & rej2 & l2 & -> & R2 & A2 & _)|(-> & R2 & E2 & _)]].
  2:{ destruct R1 as (F & _). destruct R2 as (F2 & _).
      split; [reflexivity|]. split; [exact E2|]. now rewrite F2, F. }
  unfold io_bind at 1.
  destruct (AskFacts.reading_spec (Generator.choice_loop Pdf.shapes)
              (lookup Pdf.shapes) s2
              (AskFacts.choice_loop_accepts Pdf.shapes))
    as [s3 [(sh & rej3 & l3 & -> & R3 & K & _)|(-> & R3 & E3 & _)]].
  2:{ destruct R1 as (F & _). destruct R2 as (F2 & _). destruct R3 as (F3 & _).
      split; [reflexivity|]. split; [exact E3|]. now rewrite F3, F2, F. }
  unfold io_bind at 1.
  destruct (PdfFacts.pdf_versions_some render base_name sh pc oc
              (range 1 (pc + 1)) [] s3)
    as (kept & s4 & E & _ & _ & Len & Inc & Nd & Ex & _).
  cbn [app] in E. rewrite E. unfold io_ret.
  assert (B1 : 1 <= pc <= 10).
  { unfold accepted in A1. destruct (int l1) as [v|]; [|discriminate].
    destruct ((1 <=? v) && (v <=? 10)) eqn:B; [|discriminate].
    injection A1 as ->. apply andb_prop in B as [? ?]. lia. }
  assert (B2 : 1 <= oc <= 20).
  { unfold accepted in A2. destruct (int l2) as [v|]; [|discriminate].
    destruct ((1 <=? v) && (v <=? 20)) eqn:B; [|discriminate].
    injection A2 as ->. apply andb_prop in B as [? ?]. lia. }
  split; [exact B1|]. split; [|split].
  - rewrite length_map. rewrite DrawFacts.range_length in Len.
    replace (pc + 1 - 1) with pc in Len by lia. exact Len.
  - apply PdfFacts.pdf_names_NoDup; [exact Inc|].
    apply Nd, VersionFacts.range_NoDup.
  - intros name Hn. apply in_map_iff in Hn as (v & <- & Hv).
    destruct (Ex v Hv) as (objects & N & A & _ & L).
    exists objects. split; [exact N|]. split; [|exact A].
    rewrite L; [lia|].
    intros x y size.
    destruct (PdfFacts.offered_shape_drawn _ _ x y size K) as [d ->].
    discriminate.
Qed.

(** ** The older module [log.py] *)

Module LogFacts.
Import Py OS Logger View Further.

Lemma max_from_same (m : Z) (l l' : list Z) :
  (forall x, In x l -> In x l') -> (forall x, In x l' -> In x l) ->
  max_from m l = max_from m l'.
Proof.
  intros H H'.
  assert (G : forall a b, (forall x, In x a -> In x b) ->
                          max_from m a <= max_from m b).
  { intros a b Hab. destruct (ScanFacts.max_from_attained m a) as [->|I].
    - apply ScanFacts.max_from_lower.
    - apply ScanFacts.max_from_upper. now apply Hab. }
  pose proof (G l l' H). pose proof (G l' l H'). lia.
Qed.

(** Entries whose keys have all been met add nothing. *)
Lemma first_copies_repeat (A B : list entry) (seen : list entry_key) :
  (forall x, In x B ->
     In (key_of x) seen \/ exists y, In y A /\ key_of y = key_of x) ->
  first_copies seen (A ++ B) = first_copies seen A.
Proof.
  revert seen. induction A as [|a A IH]; intros seen H.
  - cbn [app]. induction B as [|b B IHB]; [reflexivity|].
    cbn [first_copies].
    assert (K : key_in (key_of b) seen = true).
    { apply DedupFacts.key_in_In.
      destruct (H b (or_introl eq_refl)) as [K|(y & [] & _)]. exact K. }
    rewrite K. apply IHB. intros x Hx. apply H. now right.
  - cbn [app first_copies]. destruct (key_in (key_of a) seen) eqn:K.
    + apply IH. intros x Hx. destruct (H x Hx) as [S|(y & [<-|Hy] & E)].
      * now left.
      * left. rewrite <- E. now apply DedupFacts.key_in_In.
      * right. now exists y.
    + f_equal. apply IH. intros x Hx.
      destruct (H x Hx) as [S|(y & [<-|Hy] & E)].
      * left. now right.
      * left. now left.
      * right. now exists y.
Qed.

Lemma possible_log_files_listed :
  Log.possible_log_files = [Log.LOG_FILE; SUB_LOG; SUB_LOG].
Proof. reflexivity. Qed.

Lemma log_py_next_call_number_run (w : world) :
  Log.get_next_call_number w
  = (Ok (max_from 0 (log_scan line_number w) + 1), w).
Proof.
  unfold Log.get_next_call_number, bind.
  rewrite (ScanFacts.for_each_reads number_file
             (fun m p => max_from m (choose line_number (lines_at w p))) w)
    by (intros; apply ScanFacts.number_file_run).
  unfold ret, log_scan. now rewrite ScanFacts.number_scan_files.
Qed.

Lemma log_py_read_log_run (w : world) :
  Log.read_log w
  = (Ok (sorted_reverse number
           (first_copies [] (log_scan (line_entry true) w))), w).
Proof.
  unfold Log.read_log, bind.
  rewrite (ScanFacts.for_each_reads (merge_file true)
             (fun st p => fold_left absorb_one
                (choose (line_entry true) (lines_at w p)) st) w)
    by (intros; apply MergeFacts.merge_file_run).
  rewrite MergeFacts.absorb_files, MergeFacts.absorb_first_copies.
  cbn [app]. unfold log_scan.
  destruct (first_copies [] _); reflexivity.
Qed.

Lemma log_scan_parts {B} (f : str -> option B) (w : world) :
  log_scan f w
  = (choose f (lines_at w Log.LOG_FILE) ++ choose f (lines_at w SUB_LOG))
    ++ choose f (lines_at w SUB_LOG).
Proof.
  unfold log_scan. rewrite possible_log_files_listed. cbn [flat_map].
  now rewrite app_nil_r, app_assoc.
Qed.

(** *** Recording *)

Lemma entry_line_shape (n : Z) (d t name path : str) :
  0 <= n -> forallb plain d = true -> forallb plain t = true ->
  one_line name = true -> one_line path = true ->
  complete (format_entry n d t name path)
  /\ no_cr (format_entry n d t name path) = true.
Proof.
  intros Hn Hd Ht Hc Hp. unfold format_entry.
  destruct (EntryFacts.str_of_int_digits n Hn) as [D _].
  pose proof (EntryFacts.forallb_impl _ _ _ EntryFacts.isdigit_plain D) as D'.
  unfold one_line in Hp, Hc. split.
  - exists (str_of_int n ++ TAB :: d ++ TAB :: t ++ TAB :: name ++ TAB :: path).
    split.
    + now rewrite <- !app_assoc, <- !app_comm_cons, <- !app_assoc,
        <- !app_comm_cons, <- !app_assoc, <- !app_comm_cons, <- !app_assoc.
    + unfold no_newline.
      repeat (rewrite forallb_app || cbn [forallb]).
      rewrite (EntryFacts.forallb_impl _ _ _ EntryFacts.plain_not_lf D'),
        (EntryFacts.forallb_impl _ _ _ EntryFacts.plain_not_lf Hd),
        (EntryFacts.forallb_impl _ _ _ EntryFacts.plain_not_lf Ht),
        (EntryFacts.forallb_impl _ _ _ EntryFacts.one_line_not_lf Hc),
        (EntryFacts.forallb_impl _ _ _ EntryFacts.one_line_not_lf Hp).
      reflexivity.
  - unfold no_cr.
    repeat (rewrite forallb_app || cbn [forallb]).
    rewrite (EntryFacts.forallb_impl _ _ _ EntryFacts.plain_not_cr D'),
      (EntryFacts.forallb_impl _ _ _ EntryFacts.plain_not_cr Hd),
      (EntryFacts.forallb_impl _ _ _ EntryFacts.plain_not_cr Ht),
      (EntryFacts.forallb_impl _ _ _ EntryFacts.one_line_not_cr Hc),
      (EntryFacts.forallb_impl _ _ _ EntryFacts.one_line_not_cr Hp).
    reflexivity.
Qed.

Lemma log_caller_name_one_line (self : frame) :
  one_line (log_caller_path self) = true ->
  one_line (log_caller_name self) = true.
Proof.
  unfold log_caller_path, log_caller_name, one_line.
  destruct (f_back self); [|easy]. apply EntryFacts.basename_chars.
Qed.

Lemma log_py_insert_into_existing (new_entry text : str) (w : world) :
  nodes w Log.LOG_FILE = Some (File text) ->
  Log.insert_entry_at_top new_entry w
  = if may_read w Log.LOG_FILE
    then if writable w Log.LOG_FILE
         then written w Log.LOG_FILE
                (List.concat (laid_out (text_lines text) new_entry))
         else (Raise OSError, w)
    else (Raise OSError, w).
Proof.
  intros E. unfold Log.insert_entry_at_top, bind, readlines. rewrite E.
  destruct (may_read w Log.LOG_FILE); [|reflexivity].
  rewrite InsertFacts.classify_fold. apply InsertFacts.write_file_run.
Qed.

Lemma log_py_header_lines : text_lines (List.concat Log.HEADER) = Log.HEADER.
Proof. reflexivity. Qed.

Lemma log_py_header_scan {B} (f : str -> option B) :
  (forall l, is_header l = true -> f l = None) -> choose f Log.HEADER = [].
Proof.
  intros H. apply AfterFacts.choose_none. intros x Hx. apply H.
  revert x Hx. apply Forall_forall. repeat constructor.
Qed.

(** The steps of [log_execution] after the entry line has been built. *)
Lemma store_run {A} (e : str) (r : A) (w : world) :
  bind (exists_ Log.LOG_FILE) (fun present =>
    bind (if negb present then Log.create_log_file_with_header else ret tt)
         (fun _ => bind (Log.insert_entry_at_top e) (fun _ => ret r))) w
  = match log_stored e w with
    | (Ok _, w') => (Ok r, w')
    | (Raise x, w') => (Raise x, w')
    end.
Proof.
  unfold log_stored. unfold bind at 1. unfold exists_.
  destruct (nodes w Log.LOG_FILE) as [[|text]|] eqn:E; cbn [negb].
  - unfold bind, ret, Log.insert_entry_at_top, bind, readlines.
    now rewrite E.
  - unfold bind at 1. unfold ret at 1. unfold bind at 1.
    rewrite (log_py_insert_into_existing e text w E).
    destruct (may_read w Log.LOG_FILE), (writable w Log.LOG_FILE);
      reflexivity.
  - unfold bind at 1. unfold Log.create_log_file_with_header.
    rewrite InsertFacts.write_file_run.
    destruct (writable w Log.LOG_FILE) eqn:W; [|reflexivity].
    destruct (InsertFacts.written_cases w Log.LOG_FILE (List.concat Log.HEADER))
      as [Q|[k [x0 Q]]]; rewrite Q; [|reflexivity].
    set (w2 := put_node (opened w) Log.LOG_FILE (File (List.concat Log.HEADER))).
    assert (E2 : nodes w2 Log.LOG_FILE = Some (File (List.concat Log.HEADER)))
      by apply InsertFacts.nodes_put_same.
    unfold bind at 1.
    rewrite (log_py_insert_into_existing e _ w2 E2), log_py_header_lines.
    change (may_read w2 Log.LOG_FILE) with (may_read w Log.LOG_FILE).
    destruct (may_read w Log.LOG_FILE); [|reflexivity].
    assert (W2 : writable w2 Log.LOG_FILE = true).
    { unfold writable in *. rewrite E2. rewrite E in W.
      unfold parent_exists in *. exact W. }
    rewrite W2.
    destruct (written w2 Log.LOG_FILE _) as [[[]|x] w3]; reflexivity.
Qed.

Lemma log_py_log_execution_run (now : datetime) (self : frame) (w : world) :
  Log.log_execution now self w
  = let n := max_from 0 (log_scan line_number w) + 1 in
    let new_entry :=
      format_entry n (strftime_date now) (strftime_time now)
                   (log_caller_name self) (log_caller_path self) in
    match log_stored new_entry w with
    | (Ok _, w') => (Ok (Recorded n (log_caller_name self)), w')
    | (Raise e, w') => (Ok (WriteError e), w')
    end.
Proof.
  unfold Log.log_execution. unfold bind at 1.
  rewrite log_py_next_call_number_run.
  unfold lift, Log.get_caller_info, log_caller_name, log_caller_path.
  cbn [f_back]. cbv zeta.
  destruct (f_back self); unfold bind at 1; unfold try_except;
    rewrite store_run; destruct (log_stored _ w) as [[[]|e] w'];
    reflexivity.
Qed.

(** What a write to the primary file of [log.py] may touch. *)
Lemma log_written_frame (w : world) (text : str) :
  (forall p, str_eqb p Log.LOG_FILE = false ->
             nodes (snd (written w Log.LOG_FILE text)) p = nodes w p)
  /\ may_read (snd (written w Log.LOG_FILE text)) = may_read w
  /\ may_write (snd (written w Log.LOG_FILE text)) = may_write w.
Proof.
  unfold written. destruct (hd None (cuts w)) as [[k x]|]; cbn [snd];
    (split; [|split; reflexivity]); intros p Hp;
    now rewrite InsertFacts.nodes_put_other.
Qed.

(** What the writing steps may touch. *)
Lemma log_stored_frame (e : str) (w : world) :
  (forall p, str_eqb p Log.LOG_FILE = false ->
             nodes (snd (log_stored e w)) p = nodes w p)
  /\ may_read (snd (log_stored e w)) = may_read w
  /\ may_write (snd (log_stored e w)) = may_write w.
Proof.
  unfold log_stored.
  destruct (nodes w Log.LOG_FILE) as [[|text]|].
  - now repeat split.
  - destruct (may_read w Log.LOG_FILE && writable w Log.LOG_FILE);
      [apply log_written_frame|now repeat split].
  - destruct (writable w Log.LOG_FILE); [|now repeat split].
    pose proof (log_written_frame w (List.concat Log.HEADER)) as (F1 & R1 & W1).
    destruct (written w Log.LOG_FILE (List.concat Log.HEADER))
      as [[[]|x] w2]; cbn [snd] in *; [|now repeat split].
    destruct (may_read w Log.LOG_FILE); [|now repeat split].
    pose proof (log_written_frame w2 (List.concat (laid_out Log.HEADER e)))
      as (F2 & R2 & W2).
    split; [|split; congruence].
    intros p Hp. now rewrite F2, F1.
Qed.

(** The lines of the primary file after the writing steps have
    succeeded. *)
Lemma log_stored_lines (e : str) (w w' : world) :
  log_stored e w = (Ok tt, w') ->
  open_comment_tail (lines_at w Log.LOG_FILE) = false ->
  complete e -> no_cr e = true ->
  lines_at w' Log.LOG_FILE = laid_out (log_primary_before w) e.
Proof.
  unfold log_stored, log_primary_before, lines_at.
  destruct (nodes w Log.LOG_FILE) as [[|text]|] eqn:E; [discriminate| |].
  - destruct (may_read w Log.LOG_FILE) eqn:R; [|discriminate].
    destruct (writable w Log.LOG_FILE); [|discriminate]. cbn [andb].
    destruct (InsertFacts.written_cases w Log.LOG_FILE
                (List.concat (laid_out (text_lines text) e)))
      as [->|[k [x0 ->]]]; [|discriminate].
    intros H O He Hc. injection H as <-.
    rewrite InsertFacts.nodes_put_same.
    change (may_read (put_node (opened w) Log.LOG_FILE _) Log.LOG_FILE)
      with (may_read w Log.LOG_FILE).
    rewrite R. destruct (LineFacts.text_lines_shape text) as [W C].
    apply LineFacts.text_lines_concat.
    + now apply AfterFacts.laid_out_well_split.
    + now apply AfterFacts.laid_out_no_cr.
  - destruct (writable w Log.LOG_FILE); [|discriminate].
    destruct (InsertFacts.written_cases w Log.LOG_FILE (List.concat Log.HEADER))
      as [->|[k [x0 ->]]]; [|discriminate].
    destruct (may_read w Log.LOG_FILE) eqn:R; [|discriminate].
    match goal with
    | |- written ?w2 _ _ = _ -> _ =>
        destruct (InsertFacts.written_cases w2 Log.LOG_FILE
                    (List.concat (laid_out Log.HEADER e)))
          as [->|[k [x0 ->]]]; [|discriminate]
    end.
    intros H _ He Hc. injection H as <-.
    rewrite InsertFacts.nodes_put_same.
    match goal with
    | |- context [may_read ?w3 Log.LOG_FILE] =>
        change (may_read w3 Log.LOG_FILE) with (may_read w Log.LOG_FILE)
    end.
    rewrite R.
    destruct (LineFacts.text_lines_shape (List.concat Log.HEADER)) as [W C].
    rewrite log_py_header_lines in W, C.
    change (text_lines (List.concat (laid_out Log.HEADER e))
            = laid_out Log.HEADER e).
    apply LineFacts.text_lines_concat.
    + now apply AfterFacts.laid_out_well_split.
    + now apply AfterFacts.laid_out_no_cr.
Qed.

Lemma choose_log_primary_before {B} (f : str -> option B) (w : world) :
  (forall l, is_header l = true -> f l = None) ->
  choose f (log_primary_before w) = choose f (lines_at w Log.LOG_FILE).
Proof.
  intros H. unfold log_primary_before, lines_at.
  destruct (nodes w Log.LOG_FILE); [reflexivity|].
  now apply log_py_header_scan.
Qed.

Lemma lines_at_frame (w w' : world) (p : str) :
  nodes w' p = nodes w p -> may_read w' = may_read w ->
  lines_at w' p = lines_at w p.
Proof. intros N R. unfold lines_at. now rewrite N, R. Qed.

(** A scan after the writing steps have succeeded: the new line comes
    first. *)
Lemma log_scan_after {B} (f : str -> option B) (e : str) (w w' : world) :
  (forall l, is_header l = true -> f l = None) ->
  log_stored e w = (Ok tt, w') ->
  open_comment_tail (lines_at w Log.LOG_FILE) = false ->
  complete e -> no_cr e = true ->
  log_scan f w' = choose f [e] ++ log_scan f w.
Proof.
  intros Hf H O He Hc.
  pose proof (log_stored_frame e w) as (Fr & R & _). rewrite H in Fr, R.
  cbn [snd] in Fr, R.
  rewrite !log_scan_parts.
  rewrite (lines_at_frame w w' SUB_LOG (Fr SUB_LOG eq_refl) R).
  rewrite (log_stored_lines e w w' H O He Hc).
  rewrite AfterFacts.choose_laid_out, choose_log_primary_before by assumption.
  now rewrite <- !app_assoc.
Qed.

(** A scan after the writing steps have failed, when no write is cut
    short: the primary file is as it was, or it is new, holds the header
    and cannot be read. *)
Lemma log_scan_after_failure {B} (f : str -> option B) (e : str)
    (w w' : world) (x : exn) :
  (forall l, is_header l = true -> f l = None) ->
  uncut w = true ->
  log_stored e w = (Raise x, w') ->
  log_scan f w' = log_scan f w.
Proof.
  intros Hf U H.
  pose proof (log_stored_frame e w) as (Fr & R & _). rewrite H in Fr, R.
  cbn [snd] in Fr, R.
  rewrite !log_scan_parts.
  rewrite (lines_at_frame w w' SUB_LOG (Fr SUB_LOG eq_refl) R).
  do 2 f_equal.
  unfold log_stored in H.
  destruct (nodes w Log.LOG_FILE) as [[|text]|] eqn:E.
  - now injection H as _ <-.
  - rewrite (InsertFacts.uncut_written w) in H by assumption.
    destruct (may_read w Log.LOG_FILE && writable w Log.LOG_FILE);
      [discriminate|now injection H as _ <-].
  - rewrite (InsertFacts.uncut_written w) in H by assumption.
    destruct (writable w Log.LOG_FILE); [|now injection H as _ <-].
    destruct (may_read w Log.LOG_FILE) eqn:Rd.
    + rewrite InsertFacts.uncut_written in H; [discriminate|].
      change (uncut (opened w) = true). now apply InsertFacts.uncut_opened.
    + injection H as _ <-. unfold lines_at.
      rewrite InsertFacts.nodes_put_same, E.
      change (may_read (put_node (opened w) Log.LOG_FILE _) Log.LOG_FILE)
        with (may_read w Log.LOG_FILE).
      now rewrite Rd.
Qed.

End LogFacts.

Module LogStatsFacts.
Import Py OS Logger View Further.

Lemma count_line_program (lines : list str) (d : list (str * Z)) :
  fold_left Log.count_line lines d
  = fold_left (fun d p => dict_set d p (dict_get d p 0 + 1))
      (choose line_program lines) d.
Proof.
  revert d. induction lines as [|l lines IH]; intros d; [reflexivity|].
  cbn [fold_left choose]. unfold Log.count_line at 2. unfold line_program at 1.
  destruct (4 <=? List.length (split TAB l))%nat; cbn [fold_left]; apply IH.
Qed.

Lemma map_filename_rows (names : list str) :
  map filename (map (fun p => mkEntry 0 [] [] p None) names) = names.
Proof. rewrite map_map. cbn. apply map_id. Qed.

(** [get_log_stats] of [log.py] in one step. *)
Lemma log_py_get_log_stats_run (w : world) :
  Log.get_log_stats w
  = (Ok match nodes w Log.LOG_FILE with
        | None => Log.NoFile
        | Some Dir => Log.Failed OSError
        | Some (File _) =>
            if may_read w Log.LOG_FILE
            then match log_data_lines w with
                 | [] => Log.NoEntries
                 | first :: rest =>
                     let newest_parts := split TAB first in
                     let oldest_parts := split TAB (last rest first) in
                     Log.Figures (List.length (first :: rest))
                       (if (3 <=? List.length newest_parts)%nat
                           && (3 <=? List.length oldest_parts)%nat
                        then Some ((item newest_parts 1,
                                    strip (item newest_parts 2)),
                                   (item oldest_parts 1,
                                    strip (item oldest_parts 2)))
                        else None)
                       (firstn 5 (sorted_reverse snd
                                    (tally (choose line_program
                                              (first :: rest)))))
                 end
            else Log.Failed OSError
        end, w).
Proof.
  unfold Log.get_log_stats, bind, exists_, log_data_lines, lines_at.
  destruct (nodes w Log.LOG_FILE) as [[|text]|] eqn:E; cbn [negb].
  - unfold try_except, bind, readlines. now rewrite E.
  - unfold try_except, bind, readlines. rewrite E.
    destruct (may_read w Log.LOG_FILE); [|reflexivity].
    destruct (filter _ (text_lines text)) as [|first rest]; [reflexivity|].
    unfold ret. cbv zeta. rewrite count_line_program. reflexivity.
  - reflexivity.
Qed.

End LogStatsFacts.

(** X22. [log.py] lists its legacy location twice, under two spellings
    of the same path; both scans behave as if it were listed once. The
    next call number is one more than the largest of 0 and the numbers
    read in the primary file and in [sub/program_log.txt], and [read_log]
    shows the first copy of each identity met in the primary file and
    then in the legacy file, by descending number. Neither scan raises or
    changes a file. *)
Theorem log_py_location_listed_twice (w : world) :
  let numbers :=
    choose line_number (lines_at w Log.LOG_FILE)
    ++ choose line_number (lines_at w SUB_LOG) in
  let entries :=
    choose (line_entry true) (lines_at w Log.LOG_FILE)
    ++ choose (line_entry true) (lines_at w SUB_LOG) in
  Log.get_next_call_number w = (Ok (max_from 0 numbers + 1), w)
  /\ Log.read_log w
     = (Ok (sorted_reverse number (first_copies [] entries)), w).
Proof.
  cbv zeta. rewrite LogFacts.log_py_next_call_number_run, LogFacts.log_py_read_log_run.
  rewrite !LogFacts.log_scan_parts. split.
  - do 3 f_equal. apply LogFacts.max_from_same.
    + intros x Hx. apply in_app_or in Hx as [Hx|Hx]; [exact Hx|].
      apply in_or_app. now right.
    + intros x Hx. apply in_or_app. now left.
  - do 3 f_equal. apply LogFacts.first_copies_repeat.
    intros x Hx. right. exists x. split; [|reflexivity].
    apply in_or_app. now right.
Qed.

(** X23. The numbering of [log.py] continues across a recording: when
    [log_execution] reports entry number [n], [n] is what
    [get_next_call_number] returned before, the primary file
    [program_log.txt] afterwards holds its comment lines (the fresh header
    when it was missing), then the new entry line, then its earlier data
    lines, and the next call number is [n + 1]. Stated for a caller path
    without line break and a primary file that does not end in a comment
    lacking its newline. *)
Theorem log_py_recording (now : datetime) (self : frame) (w w' : world)
    (n : Z) (name : str) :
  Log.log_execution now self w = (Ok (Recorded n name), w') ->
  one_line (log_caller_path self) = true ->
  open_comment_tail (lines_at w Log.LOG_FILE) = false ->
  let line := format_entry n (strftime_date now) (strftime_time now)
                           (log_caller_name self) (log_caller_path self) in
  Log.get_next_call_number w = (Ok n, w)
  /\ name = log_caller_name self
  /\ lines_at w' Log.LOG_FILE = laid_out (log_primary_before w) line
  /\ Log.get_next_call_number w' = (Ok (n + 1), w').
Proof.
  rewrite LogFacts.log_py_log_execution_run. cbv zeta.
  set (m := max_from 0 (log_scan line_number w)).
  set (e := format_entry (m + 1) (strftime_date now) (strftime_time now)
                         (log_caller_name self) (log_caller_path self)).
  destruct (log_stored e w) as [[[]|x] w1] eqn:I; [|discriminate].
  intros H P O. injection H as <- <- <-.
  pose proof (ScanFacts.max_from_lower 0 (log_scan line_number w)) as L.
  fold m in L.
  destruct (LogFacts.entry_line_shape (m + 1) (strftime_date now)
              (strftime_time now) (log_caller_name self)
              (log_caller_path self)) as [He Hc];
    [lia|apply EntryFacts.strftime_date_plain
    |apply EntryFacts.strftime_time_plain
    |now apply LogFacts.log_caller_name_one_line|exact P|].
  fold e in He, Hc.
  rewrite !LogFacts.log_py_next_call_number_run. fold m.
  split; [reflexivity|]. split; [reflexivity|]. split.
  - exact (LogFacts.log_stored_lines e w w1 I O He Hc).
  - rewrite (LogFacts.log_scan_after line_number e w w1
               AfterFacts.header_no_number I O He Hc).
    cbn [choose]. unfold e at 1.
    rewrite AfterFacts.line_number_entry by lia. cbn [app max_from fold_right].
    fold (max_from 0 (log_scan line_number w)). fold m.
    do 2 f_equal. lia.
Qed.

Lemma log_py_recording_witness :
  let w' := snd (Log.log_execution first_run main_py (world_of [])) in
  let line := format_entry 1 (strftime_date first_run)
                (strftime_time first_run)
                (log_caller_name main_py) (log_caller_path main_py) in
  Log.get_next_call_number (world_of []) = (Ok 1, world_of [])
  /\ lit "main.py" = log_caller_name main_py
  /\ lines_at w' Log.LOG_FILE = laid_out (log_primary_before (world_of [])) line
  /\ Log.get_next_call_number w' = (Ok (1 + 1), w').
Proof.
  apply (log_py_recording first_run main_py (world_of [])
           (snd (Log.log_execution first_run main_py (world_of [])))
           1 (lit "main.py")); vm_compute; reflexivity.
Defined.

(** X24. [log_execution] of [log.py] never raises and touches no path but
    [program_log.txt]: every other path, the legacy file included, holds
    afterwards what it held before, and the rights are unchanged. When it
    reports a write error and no write is cut short once its file has
    been opened (the primary file could not be opened for reading or for
    writing), the next call number and the rows of [read_log] are what
    they were before the call. *)
Theorem log_py_recording_contained (now : datetime) (self : frame)
    (w : world) :
  exists fb w',
    Log.log_execution now self w = (Ok fb, w')
    /\ (forall p, str_eqb p Log.LOG_FILE = false -> nodes w' p = nodes w p)
    /\ may_read w' = may_read w /\ may_write w' = may_write w
    /\ (forall x, fb = WriteError x -> uncut w = true ->
          fst (Log.get_next_call_number w') = fst (Log.get_next_call_number w)
          /\ fst (Log.read_log w') = fst (Log.read_log w)).
Proof.
  rewrite LogFacts.log_py_log_execution_run. cbv zeta.
  match goal with
  | |- context [log_stored ?e w] =>
      pose proof (LogFacts.log_stored_frame e w) as (Fr & R & W);
      destruct (log_stored e w) as [[[]|x] w1] eqn:I
  end; cbn [snd] in Fr, R, W; eexists; eexists;
    (split; [reflexivity|]); (split; [exact Fr|]);
    (split; [exact R|]); (split; [exact W|]).
  - discriminate.
  - intros y _ U.
    rewrite !LogFacts.log_py_next_call_number_run, !LogFacts.log_py_read_log_run.
    cbn [fst].
    rewrite (LogFacts.log_scan_after_failure line_number _ w w1 x
               AfterFacts.header_no_number U I).
    rewrite (LogFacts.log_scan_after_failure (line_entry true) _ w w1 x
               (AfterFacts.header_no_entry true) U I).
    now split.
Qed.

Lemma log_py_recording_contained_witness :
  exists w',
    Log.log_execution first_run main_py (read_only world_tie)
    = (Ok (WriteError OSError), w')
    /\ fst (Log.get_next_call_number w')
       = fst (Log.get_next_call_number (read_only world_tie))
    /\ fst (Log.read_log w') = fst (Log.read_log (read_only world_tie)).
Proof.
  destruct (log_py_recording_contained first_run main_py (read_only world_tie))
    as (fb & w' & E & _ & _ & _ & K).
  assert (F : fb = WriteError OSError).
  { assert (G : fst (Log.log_execution first_run main_py (read_only world_tie))
                = Ok fb) by (now rewrite E).
    vm_compute in G. now injection G as <-. }
  subst fb. exists w'. split; [exact E|].
  apply (K OSError eq_refl). reflexivity.
Defined.

(** X25. [get_log_stats] of [log.py] never raises and looks at the
    primary file only. Without that file it reports that there is no log
    file, whatever the legacy file holds; a primary file that cannot be
    read gives the error report. Otherwise the number of executions it
    prints is the number of data lines of the primary file, malformed
    ones included, and the programs it lists are the ranking of the
    fourth fields of those lines that have one: at most five, by
    descending count, each with its number of occurrences. *)
Theorem log_py_statistics (w : world) :
  exists r,
    Log.get_log_stats w = (Ok r, w)
    /\ (nodes w Log.LOG_FILE = None -> r = Log.NoFile)
    /\ match r with
       | Log.NoFile => nodes w Log.LOG_FILE = None
       | Log.NoEntries => log_data_lines w = []
       | Log.Figures total _ top =>
           total = List.length (log_data_lines w)
           /\ (1 <= total)%nat
           /\ ranking (choose line_program (log_data_lines w)) top
       | Log.Failed e =>
           e = OSError
           /\ (nodes w Log.LOG_FILE = Some Dir
               \/ may_read w Log.LOG_FILE = false)
       end.
Proof.
  rewrite LogStatsFacts.log_py_get_log_stats_run. eexists. split; [reflexivity|].
  destruct (nodes w Log.LOG_FILE) as [[|text]|] eqn:E.
  - split; [discriminate|]. split; [reflexivity|now left].
  - split; [discriminate|].
    destruct (may_read w Log.LOG_FILE); [|split; [reflexivity|now right]].
    destruct (log_data_lines w) as [|first rest]; [reflexivity|].
    cbv zeta. split; [reflexivity|]. split; [cbn; lia|].
    pose proof (OrderFacts.top_five_spec
                  (map (fun p => mkEntry 0 [] [] p None)
                       (choose line_program (first :: rest)))) as T.
    unfold top_five in T. rewrite LogStatsFacts.map_filename_rows in T.
    exact T.
  - split; reflexivity.
Qed.
